(* ===== verification/_CoqProject ===== *)
-Q . S2P
Prelude.v
CText.v
PageRepl.v
PageDemand.v
PageFacts.v
PagePolicy.v
PageMain.v
Fat.v
FatInv.v
FatOps.v
FatFacts.v
B64Facts.v
CpuSched.v
CpuFacts.v
CpuPolicy.v
CpuRR.v
CpuRound.v
CpuDouble.v
Workers.v
Hook.v
HookFacts.v
Sched.v
Tracer.v
TracerFacts.v
ProcInfo.v
ProcInfoFacts.v
KFork.v
KForkLadder.v
KDrops.v
KForkFacts.v
KRefs.v
KUnshare.v
KUnshareFacts.v
KWalk.v
KMmap.v
KMmapFacts.v
KStack.v
KStackFacts.v
KVfork.v
KMm.v
KMmFacts.v
KFlags.v
KFlagsFacts.v
KTask.v
KTaskFacts.v
KTaskLife.v
KPidfd.v
KInit.v
KSignals.v
KTaskFields.v
KChild.v
KChildFacts.v
KChildLink.v
