(* ===== verification/Prelude.v ===== *)
(** * Operating-System-Projects: a verification development

    The repository holds the programs of an operating-systems course: user
    programs in C (a page replacement simulator, a CPU scheduler, a file system
    in a file, sums by processes and by threads), loadable kernel modules (hooks
    in the system call table, a process tracer, the mapped files of a process,
    a table in /proc), and the kernel files the assignments change (fork.c,
    sched.h, init_task.c).  This library models them and proves what makes them
    correct; where a program does not do what it means to, a theorem says what
    it does instead.

    ** How the programs are modelled

    Functions of C become functions into [run] (below): [Ok] is a value,
    [Undef] is undefined behaviour (an access outside an array, a signed
    overflow, a freed object, a lock taken twice), [NoFuel] is a loop bound that
    was too small.  A theorem that concludes [Ok] thus says that the code ends
    and is defined.  State is passed explicitly; integers are [Z] with their
    width written out ([wraps], [wrapu]); strings and files are texts.  Code
    that is not in the repository (library calls with failures, the rest of the
    kernel) is a parameter: a record of its answers ([kenv], [uenv], [menv],
    ...) that the theorems quantify over, with conventions such as "errors are
    negative" as named hypotheses.

    ** Files

    - [Prelude], [CText]: results, arrays, loops, machine integers; decimal
      numbers, [sscanf]- and [printf]-like text.

    Assignment 3-2, page_replacement_simulator.c
    - [PageRepl]: [simulate_opt], [simulate_fifo], [simulate_lru],
      [simulate_clock] on their arrays, [read_input], [main].
    - [PageDemand]: demand paging as a relation, the reference for all four.
    - [PageFacts]: OPT is a demand paging strategy with the least number of
      faults of all; the others lie between it and the number of references,
      and each fault is counted.
    - [PagePolicy]: FIFO is a queue, the clock a second-chance queue, LRU the
      recency stack, without anomaly; FIFO's anomaly.
    - [PageMain]: reading ends and inverts printing; what [main] does with
      input it does not check.

    Assignment 4-2, fat.c
    - [Fat]: the directory, the table, the blocks and the commands.
    - [FatInv]: chains of blocks, the invariant; [FatOps]: every command keeps
      it and does what the abstract store does; [FatFacts]: whole command lines
      and sessions refine a map from names to contents, and the inputs outside
      this contract (empty and long names, block 0, appends at a boundary).

    Assignment 2-3, cpu_scheduler.c
    - [CpuSched]: the table, segments, selection, the four simulations, input
      and output, for a class of times with two instances: exact ticks and the
      doubles of the code ([binary64], the floats of the Standard Library);
      [CpuFacts]: segments and service; [CpuPolicy]: FCFS and SJF end with
      complete gap-free schedules in the order of their policy; [CpuRR]: round
      robin ends, when it is complete, and the process it loses.
    - [B64Facts]: rounding, order and exactness of binary64 numbers;
      [CpuRound]: the invariant of the scheduler for times that are rounded, in
      a class that says how far; [CpuDouble]: SRTF and round robin on doubles.
      SRTF runs the process with the least remaining time, up to its tolerance,
      ends and serves every process; round robin ends if its queue is large
      enough, what it reports agrees with its segments, and it completes every
      process it starts; for times so late that a rest of more than 1e-9 ms is
      rounded away SRTF never ends.

    Assignment 2-2, numgen.c, fork.c, thread.c
    - [Workers]: the tree of workers with all interleavings; the sums agree
      up to 64 workers.

    Assignments 1-1 to 1-3, 2-1, 3-1, 4-1, the kernel modules
    - [Hook], [HookFacts]: the system call table with pages and protection,
      loading and unloading, calls through chains of hooks, the I/O trace.
    - [Sched]: the task structure, states and flags of sched.h, [init_task].
    - [Tracer], [TracerFacts]: Process_tracer.c and file_varea.c.
    - [ProcInfo], [ProcInfoFacts]: proc_info.c with its buffers.

    Assignment 2-1, fork.c of the kernel
    - [KFork]: [copy_process] with its error labels, the functions it calls to
      share or copy the parts of a task, [_do_fork] with the counter of the
      assignment, and the system calls.  A fork runs on the [world]: the task
      table of [Sched] and [Tracer], the pointers of the tasks, and a [core] of
      reference counts, locks and allocations.
    - [KForkLadder]: every step can be undone by the ladder of labels below it;
      [KDrops]: what the ladder drops; [KForkFacts]: [copy_process] is safe,
      [fork_count] counts, and the task table stays as [TracerFacts] needs it.
    - [KRefs]: counts of references are the numbers of tasks that point to an
      object; [KUnshare], [KUnshareFacts]: [unshare], and that the counts stay
      exact over forks and unshares in any order.
    - [KWalk]: [walk_process_tree] is the recursive traversal.
    - [KMmap], [KMmapFacts]: [dup_mmap], area by area.
    - [KStack], [KStackFacts]: the cache of kernel stacks.
    - [KVfork]: parent and child of a [vfork], all interleavings.
    - [KMm], [KMmFacts]: the life of an address space.
    - [KTask]: the counts of a task structure, its stack and its signals from
      [dup_task_struct] to [free_task], on top of [KStack] and [KMm], and the
      failures of a fork; [KTaskFacts]: the phases of a life, the invariant, and
      that every function keeps it; [KTaskLife]: histories of them, in which
      nothing is used after it was freed and everything is given back.
    - [KPidfd]: files that name a process, and what polling one tells.
    - [KInit]: the limits of [fork_init], the counters of processes, [init_task].
    - [KSignals]: the signals that arrive while the threads of a process fork,
      and that a fork is one event for who sends them.
    - [KTaskFields]: all members of [struct task_struct]; [KChild]: every
      assignment of [dup_task_struct] and [copy_process] to them in order, with
      the error exits, and the initialiser of [init_task]; [KChildFacts]: the
      fields in which a child must differ from the copy, listed by hand, start
      from nothing and depend only on what the parent hands over, at the end and
      at the error exits; [KChildLink]: [KChild] and [KFork] compute the same task.

    Assignment 2-1, sched.h of the kernel
    - [KFlags], [KFlagsFacts]: flags, atomic flags, thread flags, restartable
      sequences, seccomp and numbers of a task.  The class [Arch] has the
      numbers of the thread flags, which are bits of the word, and the two
      functions of the architecture that a fork calls on them.  The functions of
      the header act on the words as on sets of flags, and what a child gets of
      them.

    ** Kinds of theorems

    Functional behaviour on every branch ([opt_optimal], [fcfs_schedule],
    [rr_reported], [process_tracer_report], [proc_read_all]), refinement of
    abstract specifications ([fifo_refines_queue], [main_refines] and
    [session_refines] for the file system, [flags_refine],
    [fork_signals_atomic]),
    equivalences ([fork_thread_agree], [walk_is_recursive]), round trips
    ([main_simulates], [write_read_roundtrip], [hook_roundtrip],
    [proc_select]), termination ([rr_ends], [read_input_ends]), invariants over
    histories ([fork_count_counts], [calls_exact], [stacks_safe],
    [mm_lifetime], [task_lifetime]), safety of error paths and interleavings
    ([copy_process_safe], [dup_mmap_safe], [vfork_safe],
    [child_independent]),
    liveness ([workers_finish], [srtf_serves], [rr_complete],
    [pidfd_poll_exit]) and bounds ([fork_init_bounds], [proc_write_overrun]).

    ** Bounds and fuel

    Loops over arrays and lists are structural.  Fuel is used where the code
    has none: the clock hand (one turn of the frames and one more), chains of
    the file allocation table and transfers (the number of blocks or bytes), the
    rounds of the scheduler (2N+1 for SRTF, with doubles for times below 2^22
    milliseconds; two for each of the 1000 entries of the queue for round robin), calls through hooks (the depth of the chain),
    the error ladder (its 21 labels), the walk (two steps for each thread and
    child and one more).  The theorems show that these suffice, or, for
    [delete_empty_name_diverges], [io_restart_diverges] and [srtf_diverges], that
    none does.
    Decimal numbers have at most 20 digits.

    ** Not modelled

    - Time as measured by the programs and floating point printing beyond exact
      ratios; FCFS, SJF and [rr_complete] are shown on exact
      ticks, of which doubles hold every whole number in their range; [malloc] of the user programs is taken to succeed; [qsort] is
      stable; levels and size of the kernel log.
    - The calling convention of the system calls ([pt_regs]) beyond the
      registers the hooks read.
    - fork.c: the delivery of ptrace events, the creation of slab caches, and the
      configurations without an MMU or with page-allocated stacks.  Operations of the stack cache, of address spaces
      and of task structures are taken one after the other, in any order; the
      places where a task changes its processor, and the interleavings of
      [vfork], of signals and forks and of the workers, are explicit.
    - The functions of other kernel files around the life of a task
      ([put_task_struct], [release_task], the scheduler): what they are
      documented to do is a step of the histories, with the rules they follow as
      hypotheses ([klawful], [lawful]).  The functions of other files that
      initialise a part of a new task keep to their own fields ([ext_frame]).
    - sched.h: the inside of the scheduling entities, which no code of the
      repository uses, prototypes, variants of inline functions for other
      configurations, and the macros that set the state of a task, whose order
      with the wait loop and the wakeup is code of other files.
    - init_task.c: the signal handlers of the first task. *)

From Stdlib Require Import ZArith Lia Ascii String.
From stdpp Require Import base numbers list option strings.

(** ** Results of running a piece of C code

    [Ok a] is a run that reaches its end with the value [a]; [Undef] is
    undefined behaviour (an access outside an array, a signed overflow, a
    wild pointer); [NoFuel] says that the bound given to a loop of the model
    was too small, so a theorem that concludes [Ok] also shows that the loop
    ends. *)
Inductive run (A : Type) : Type :=
| Ok (a : A)
| Undef
| NoFuel.
Arguments Ok {A} a.
Arguments Undef {A}.
Arguments NoFuel {A}.

#[export] Instance run_ret : MRet run := fun A a => Ok a.
#[export] Instance run_bind : MBind run :=
  fun A B f m => match m with Ok a => f a | Undef => Undef | NoFuel => NoFuel end.

#[export] Instance run_eq_dec {A} `{EqDecision A} : EqDecision (run A).
Proof. solve_decision. Defined.

(** ** Arrays

    A C array of known length is a list; reading or writing it outside its
    bounds is undefined. *)
Definition aget {A} (l : list A) (i : nat) : run A :=
  match l !! i with Some x => Ok x | None => Undef end.

Definition aset {A} (l : list A) (i : nat) (x : A) : run (list A) :=
  if decide (i < length l) then Ok (<[i := x]> l) else Undef.

(** The same with an index that is a C [int]. *)
Definition zget {A} (l : list A) (i : Z) : run A :=
  if decide (0 <= i)%Z then aget l (Z.to_nat i) else Undef.

Definition zset {A} (l : list A) (i : Z) (x : A) : run (list A) :=
  if decide (0 <= i)%Z then aset l (Z.to_nat i) x else Undef.

(** [memcpy (&l[i], src, length src)] *)
Definition splice {A} (l : list A) (i : nat) (src : list A) : list A :=
  take i l ++ src ++ drop (i + length src) l.

Definition acopy {A} (l : list A) (i : Z) (src : list A) : run (list A) :=
  if decide ((0 <= i)%Z /\ Z.to_nat i + length src <= length l)
  then Ok (splice l (Z.to_nat i) src) else Undef.

(** [for (int k = k0; rem more iterations; k++) body] *)
Fixpoint for_range {St : Type} (body : nat -> St -> run St) (k rem : nat) (s : St)
  : run St :=
  match rem with
  | 0 => Ok s
  | S rem' => s' ← body k s; for_range body (S k) rem' s'
  end.

Declare Scope c_scope.
Delimit Scope c_scope with C.
Notation "l .[ i ]" := (aget l i) (at level 1, format "l .[ i ]") : c_scope.
Notation "l .[ i <- x ]" := (aset l i x)
  (at level 1, format "l .[ i  <-  x ]") : c_scope.

(** ** Machine integers *)
Definition INT_MIN : Z := (-2147483648)%Z.
Definition INT_MAX : Z := 2147483647%Z.
Definition int_range (z : Z) : Prop := (INT_MIN <= z <= INT_MAX)%Z.
#[export] Instance int_range_dec z : Decision (int_range z).
Proof. unfold int_range. apply _. Defined.

(** The value of a [z] cut to [w] bits, unsigned. *)
Definition wrapu (w z : Z) : Z := (z mod 2 ^ w)%Z.
(** The two's-complement value of the low [w] bits of [z]. *)
Definition wraps (w z : Z) : Z :=
  (let u := wrapu w z in if decide (u < 2 ^ (w - 1)) then u else u - 2 ^ w)%Z.

(** A signed [int] addition: overflow is undefined. *)
Definition int_add (a b : Z) : run Z :=
  if decide (int_range (a + b)) then Ok (a + b)%Z else Undef.

(** ** Automation *)
Create HintDb ospj.
Create Rewrite HintDb ospj.
Create Rewrite HintDb len.
#[export] Hint Rewrite @length_app @length_insert @length_take @length_drop
  @length_replicate @length_fmap @length_reverse @length_seq : len.
Ltac len :=
  repeat (progress (autorewrite with len in *; cbn [length] in * ));
  try lia; simpl in *; autorewrite with len in *; try lia.

Lemma run_bind_Ok {A B} (m : run A) (f : A -> run B) b :
  m ≫= f = Ok b -> exists a, m = Ok a /\ f a = Ok b.
Proof. destruct m; simpl; intros H; try discriminate. eauto. Qed.

(** Open a monadic computation in a hypothesis that it ends in [Ok]. *)
Ltac run_inv :=
  repeat match goal with
  | H : Ok _ = Ok _ |- _ => injection H as H; subst
  | H : Undef = Ok _ |- _ => discriminate H
  | H : NoFuel = Ok _ |- _ => discriminate H
  | H : mbind _ _ = Ok _ |- _ => apply run_bind_Ok in H; destruct H as (? & ? & H)
  | H : (_ ≫= _) = Ok _ |- _ => apply run_bind_Ok in H; destruct H as (? & ? & H)
  end.

Section arrays.
Context {A : Type}.
Implicit Types (l : list A) (i : nat) (x : A).

Lemma aget_Ok l i x : aget l i = Ok x <-> l !! i = Some x.
Proof. unfold aget. destruct (l !! i); split; intros H; congruence. Qed.

Lemma aget_lookup l i x : l !! i = Some x -> aget l i = Ok x.
Proof. apply aget_Ok. Qed.

Lemma aget_lt l i : i < length l -> exists x, l !! i = Some x /\ aget l i = Ok x.
Proof.
  intros H. destruct (lookup_lt_is_Some_2 l i H) as [x Hx].
  exists x. split; [done|]. by apply aget_Ok.
Qed.

Lemma aset_lt l i x : i < length l -> aset l i x = Ok (<[i := x]> l).
Proof. intros H. unfold aset. by rewrite decide_True. Qed.

Lemma aset_Ok l i x l' : aset l i x = Ok l' -> i < length l /\ l' = <[i := x]> l.
Proof. unfold aset. case_decide; intros; run_inv; auto. Qed.
End arrays.

Section zarrays.
Context {A : Type}.
Implicit Types (l : list A) (x : A).

Lemma zget_nat l (i : nat) x : l !! i = Some x -> zget l (Z.of_nat i) = Ok x.
Proof.
  intros H. unfold zget. rewrite decide_True, Nat2Z.id by lia. by apply aget_lookup.
Qed.

Lemma zset_nat l (i : nat) x : i < length l -> zset l (Z.of_nat i) x = Ok (<[i := x]> l).
Proof.
  intros H. unfold zset. rewrite decide_True, Nat2Z.id by lia. by apply aset_lt.
Qed.

Lemma length_splice l i src :
  i + length src <= length l -> length (splice l i src) = length l.
Proof. intros H. unfold splice. rewrite !length_app, length_take, length_drop. lia. Qed.

Lemma acopy_nat l (i : nat) src :
  i + length src <= length l -> acopy l (Z.of_nat i) src = Ok (splice l i src).
Proof. intros H. unfold acopy. by rewrite decide_True, Nat2Z.id by lia. Qed.
End zarrays.

#[export] Hint Resolve aget_lookup : ospj.
#[export] Hint Rewrite @aset_lt using (len; done) : ospj.

Section for_range.
Context {St : Type} (body : nat -> St -> run St).

(** The loop rule: an invariant the body keeps, and that lets it run. *)
Lemma for_range_inv (I : nat -> St -> Prop) k rem s :
  I k s ->
  (forall j s, k <= j < k + rem -> I j s -> exists s', body j s = Ok s' /\ I (j + 1) s') ->
  exists s', for_range body k rem s = Ok s' /\ I (k + rem) s'.
Proof.
  revert k s. induction rem as [|rem IH]; intros k s HI Hb; simpl.
  - exists s. by rewrite Nat.add_0_r.
  - destruct (Hb k s) as (s1 & -> & HI1); [lia|done|]. simpl.
    rewrite <- Nat.add_succ_comm. apply IH.
    + by rewrite <- Nat.add_1_r.
    + intros j s' Hj. apply Hb. lia.
Qed.

Lemma for_range_S k rem s :
  for_range body k (rem + 1) s = for_range body k rem s ≫= body (k + rem).
Proof.
  revert k s. induction rem as [|rem IH]; intros k s; simpl.
  - rewrite Nat.add_0_r. by destruct (body k s).
  - destruct (body k s) as [s'| |]; simpl; [|done|done].
    rewrite IH. by rewrite <- Nat.add_succ_comm.
Qed.
End for_range.

(** ** Lists *)
Section filter.
Context {A : Type} (P : A -> Prop) `{!forall x, Decision (P x)}.

Lemma filter_all (l : list A) : (forall x, x ∈ l -> P x) -> filter P l = l.
Proof.
  induction l as [|x l IH]; intros HP; [done|].
  rewrite filter_cons_True by (apply HP; left). f_equal. apply IH.
  intros y Hy. apply HP. by right.
Qed.

Lemma filter_none (l : list A) : (forall x, x ∈ l -> ~ P x) -> filter P l = [].
Proof.
  induction l as [|x l IH]; intros HP; [done|].
  rewrite filter_cons_False by (apply HP; left). apply IH.
  intros y Hy. apply HP. by right.
Qed.

Lemma filter_length_split (Q R : A -> Prop)
    `{!forall x, Decision (Q x), !forall x, Decision (R x)} (l : list A) :
  (forall x, P x <-> Q x \/ R x) -> (forall x, Q x -> ~ R x) ->
  length (filter P l) = length (filter Q l) + length (filter R l).
Proof.
  intros Hor Hex. induction l as [|x l IH]; [done|].
  specialize (Hor x). specialize (Hex x).
  rewrite !filter_cons. repeat case_decide; simpl; rewrite ?IH; tauto || lia.
Qed.
End filter.

Lemma NoDup_replace {A} (l : list A) i x : NoDup l -> x ∉ l -> NoDup (<[i := x]> l).
Proof.
  intros Hl Hx. destruct (decide (i < length l)) as [Hi|Hi];
    [|by rewrite list_insert_ge by lia].
  destruct (lookup_lt_is_Some_2 l i Hi) as [y Hy].
  rewrite insert_take_drop by done. rewrite <- (take_drop_middle l i y Hy) in Hl, Hx.
  apply NoDup_app in Hl as (H1 & H12 & H2). apply NoDup_cons in H2 as [Hy2 H2].
  rewrite elem_of_app, elem_of_cons in Hx.
  apply NoDup_app. split_and!; [done| |apply NoDup_cons; tauto].
  intros z Hz. rewrite elem_of_cons. intros [->|Hz2]; [tauto|].
  apply (H12 z Hz). by right.
Qed.

Lemma NoDup_take {A} n (l : list A) : NoDup l -> NoDup (take n l).
Proof. rewrite <- (take_drop n l) at 1. intros H. by apply NoDup_app in H as [H _]. Qed.

(** ** Strings *)
Lemma str_app_assoc (s1 s2 s3 : string) : (s1 +:+ s2) +:+ s3 = s1 +:+ (s2 +:+ s3).
Proof.
  induction s1 as [|c s1 IH]; [done|].
  change (String c ((s1 +:+ s2) +:+ s3) = String c (s1 +:+ (s2 +:+ s3))). by rewrite IH.
Qed.

Lemma str_length_app (s1 s2 : string) :
  String.length (s1 +:+ s2) = String.length s1 + String.length s2.
Proof.
  induction s1 as [|c s1 IH]; [done|].
  change (S (String.length (s1 +:+ s2)) = S (String.length s1 + String.length s2)). by rewrite IH.
Qed.

Lemma str_app_nil_r (s : string) : s +:+ "" = s.
Proof.
  induction s as [|c s IH]; [done|]. change (String c (s +:+ "") = String c s). by rewrite IH.
Qed.
