(* ===== verification/CText.v ===== *)
(** * Text and numbers of the C library

    What the programs use of [<stdio.h>] on decimal integers ([fscanf] with
    the conversion [d], [printf] with the conversion [d]) and of the IEEE 754
    [double] (the executable binary64 of the standard library's [SpecFloat]).
    The main fact is the round trip [scan_d_print_d]. *)

From Stdlib Require Import ZArith Lia Ascii String SpecFloat.
From stdpp Require Import base numbers list option strings.
From S2P Require Import Prelude.

Local Open Scope Z_scope.

(** ** Reading a decimal integer *)
Definition c_isspace (c : ascii) : bool :=
  let n := nat_of_ascii c in bool_decide (n = 32%nat \/ (9 <= n <= 13)%nat).

Definition digit_of (c : ascii) : option Z :=
  let n := nat_of_ascii c in
  if decide (48 <= n <= 57)%nat then Some (Z.of_nat n - 48) else None.

Fixpoint skip_space (s : string) : string :=
  match s with
  | String c s' => if c_isspace c then skip_space s' else s
  | EmptyString => EmptyString
  end.

(** The longest run of digits at the head of [s], read onto [acc]. *)
Fixpoint scan_digits (s : string) (acc : Z) : Z * string :=
  match s with
  | String c s' =>
      match digit_of c with
      | Some d => scan_digits s' (acc * 10 + d)
      | None => (acc, s)
      end
  | EmptyString => (acc, s)
  end.

Definition scan_unsigned (s : string) : option (Z * string) :=
  match s with
  | String c s' =>
      match digit_of c with
      | Some d => Some (scan_digits s' d)
      | None => None
      end
  | EmptyString => None
  end.

Definition scan_signed (s : string) : option (Z * string) :=
  match s with
  | String c s' =>
      if decide (c = "-"%char) then '(z, r) ← scan_unsigned s'; Some (- z, r)
      else if decide (c = "+"%char) then scan_unsigned s'
      else scan_unsigned s
  | EmptyString => None
  end.

(** [fscanf (f, "%d", &x)]: [Some] with the value and the rest of the stream
    when the conversion succeeds, [None] when it does not.  A value that does
    not fit an [int] is undefined. *)
Definition scan_d (s : string) : run (option (Z * string)) :=
  match scan_signed (skip_space s) with
  | None => Ok None
  | Some (z, r) => if decide (int_range z) then Ok (Some (z, r)) else Undef
  end.

(** ** Printing a decimal integer *)
Definition digit_char (d : Z) : ascii := ascii_of_nat (48 + Z.to_nat d).

Fixpoint print_nat_to (fuel : nat) (n : Z) (acc : string) : string :=
  match fuel with
  | O => acc
  | S fuel' =>
      let acc' := String (digit_char (n mod 10)) acc in
      if decide (n / 10 = 0) then acc' else print_nat_to fuel' (n / 10) acc'
  end.

(** Twenty digits hold every 64-bit value. *)
Definition print_u (n : Z) : string := print_nat_to 20 n "".

Definition print_d (z : Z) : string :=
  if decide (z < 0) then String "-" (print_u (- z)) else print_u z.

(** A C string ends at its first zero byte. *)
Fixpoint c_str (l : list ascii) : string :=
  match l with
  | [] => ""
  | c :: l' => if decide (c = "000"%char) then "" else String c (c_str l')
  end.

(** The end of a line. *)
Definition nl : string := String "010" "".

Arguments digit_char : simpl never.
Arguments digit_of : simpl never.
Arguments c_isspace : simpl never.

(** ** The double *)
Module B64.
Definition prec : Z := 53.
Definition emax : Z := 1024.
Definition of_Z (z : Z) : spec_float := binary_normalize prec emax z 0 false.
Definition add : spec_float -> spec_float -> spec_float := SFadd prec emax.
Definition sub : spec_float -> spec_float -> spec_float := SFsub prec emax.
Definition mul : spec_float -> spec_float -> spec_float := SFmul prec emax.
Definition div : spec_float -> spec_float -> spec_float := SFdiv prec emax.
(** The double nearest to [num / 10 ^ e], a decimal literal of the source. *)
Definition dec (num e : Z) : spec_float := div (of_Z num) (of_Z (10 ^ e)).
End B64.

(** ** The round trip *)
Lemma digit_of_char d : 0 <= d < 10 -> digit_of (digit_char d) = Some d.
Proof.
  intros H. unfold digit_of, digit_char.
  rewrite nat_ascii_embedding by lia. rewrite decide_True by lia. f_equal. lia.
Qed.

Lemma digit_not_special d :
  0 <= d < 10 -> c_isspace (digit_char d) = false /\
  digit_char d <> "-"%char /\ digit_char d <> "+"%char.
Proof.
  intros H. unfold c_isspace, digit_char. rewrite nat_ascii_embedding by lia.
  split_and!; [rewrite bool_decide_eq_false; lia| |];
    intros E; apply (f_equal nat_of_ascii) in E;
    rewrite nat_ascii_embedding in E by lia;
    [change (nat_of_ascii "-") with 45%nat in E
    |change (nat_of_ascii "+") with 43%nat in E]; lia.
Qed.

(** Printing puts a digit string in front of [acc]; reading it back onto [a]
    shifts [a] by the digits and adds the number. *)
Lemma print_nat_to_scan fuel n acc a :
  0 <= n < 10 ^ Z.of_nat fuel ->
  exists k, 0 <= k /\ (n < 10 ^ k) /\
    scan_digits (print_nat_to fuel n acc) a = scan_digits acc (a * 10 ^ k + n).
Proof.
  revert n acc. induction fuel as [|fuel IH]; intros n acc Hn; simpl.
  - exists 0. change (10 ^ Z.of_nat 0) with 1 in Hn. replace n with 0 by lia.
    rewrite Z.pow_0_r, Z.mul_1_r, Z.add_0_r. split_and!; [lia|lia|done].
  - pose proof (Z.mod_pos_bound n 10 ltac:(lia)) as Hm.
    pose proof (Z.div_mod n 10 ltac:(lia)) as Hd.
    case_decide as E.
    + exists 1. rewrite Z.pow_1_r. split_and!; [lia|lia|].
      cbn [scan_digits]. rewrite digit_of_char by done. f_equal. lia.
    + rewrite Nat2Z.inj_succ, Z.pow_succ_r in Hn by lia.
      destruct (IH (n / 10) (String (digit_char (n mod 10)) acc)) as (k & Hk0 & Hk & ->).
      { split; [apply Z.div_pos; lia|]. apply Z.div_lt_upper_bound; lia. }
      exists (Z.succ k). rewrite Z.pow_succ_r by done. split_and!; [lia|lia|].
      cbn [scan_digits]. rewrite digit_of_char by done. f_equal. lia.
Qed.

(** The text starts with a digit. *)
Lemma print_nat_to_head fuel n acc :
  0 <= n -> exists d s, 0 <= d < 10 /\
    print_nat_to (S fuel) n acc = String (digit_char d) s.
Proof.
  revert n acc. induction fuel as [|fuel IH]; intros n acc Hn;
    pose proof (Z.mod_pos_bound n 10 ltac:(lia)) as Hm.
  - simpl. case_decide; eauto.
  - cbn [print_nat_to]. case_decide; [eauto|].
    apply IH. apply Z.div_pos; lia.
Qed.

Lemma print_nat_to_app fuel n acc : print_nat_to fuel n acc = print_nat_to fuel n "" +:+ acc.
Proof.
  revert n acc. induction fuel as [|fuel IH]; intros n acc; simpl; [done|].
  case_decide; [done|]. rewrite IH, (IH _ (String _ "")). by rewrite str_app_assoc.
Qed.

Definition no_digit_head (s : string) : Prop :=
  match s with String c _ => digit_of c = None | EmptyString => True end.

Lemma scan_digits_stop s a : no_digit_head s -> scan_digits s a = (a, s).
Proof. destruct s; simpl; [done|]. by intros ->. Qed.

Lemma scan_unsigned_digits s z r :
  scan_digits s 0 = (z, r) ->
  (exists d s', 0 <= d < 10 /\ s = String (digit_char d) s') ->
  scan_unsigned s = Some (z, r).
Proof.
  intros Hs (d & s' & Hd & ->). cbn [scan_digits scan_unsigned] in *.
  rewrite digit_of_char in * by done. by rewrite Z.mul_0_l, Z.add_0_l in Hs; rewrite Hs.
Qed.

Lemma print_u_head n r :
  0 <= n -> exists d s, 0 <= d < 10 /\ print_u n +:+ r = String (digit_char d) s.
Proof.
  intros Hn. destruct (print_nat_to_head 19 n "" Hn) as (d & s & Hd & E).
  exists d, (s +:+ r). split; [done|]. unfold print_u. by rewrite E.
Qed.

Lemma scan_unsigned_print_u n r :
  0 <= n < 10 ^ 20 -> no_digit_head r -> scan_unsigned (print_u n +:+ r) = Some (n, r).
Proof.
  intros Hn Hr. apply scan_unsigned_digits; [|apply print_u_head; lia].
  unfold print_u. rewrite <- print_nat_to_app.
  destruct (print_nat_to_scan 20 n r 0) as (k & _ & _ & ->); [exact Hn|].
  by rewrite scan_digits_stop.
Qed.

Lemma skip_space_digit d s :
  0 <= d < 10 -> skip_space (String (digit_char d) s) = String (digit_char d) s.
Proof. intros Hd. cbn [skip_space]. by rewrite (proj1 (digit_not_special d Hd)). Qed.

Lemma scan_signed_digit d s :
  0 <= d < 10 -> scan_signed (String (digit_char d) s) = scan_unsigned (String (digit_char d) s).
Proof.
  intros Hd. destruct (digit_not_special d Hd) as (_ & Hm & Hp).
  cbn [scan_signed]. by rewrite !decide_False.
Qed.

(** What [printf] writes for an [int], [fscanf] reads back, and leaves the
    text after it. *)
Lemma scan_d_print_d z r :
  int_range z -> no_digit_head r -> scan_d (print_d z +:+ r) = Ok (Some (z, r)).
Proof.
  intros Hz Hr. unfold scan_d, print_d. pose proof Hz as Hz'.
  unfold int_range, INT_MIN, INT_MAX in Hz'.
  case_decide as Hneg.
  - change (String "-" (print_u (- z)) +:+ r) with (String "-" (print_u (- z) +:+ r)).
    change (skip_space (String "-" (print_u (- z) +:+ r)))
      with (String "-" (print_u (- z) +:+ r)).
    cbn [scan_signed]. rewrite scan_unsigned_print_u by (lia || done). simpl.
    rewrite Z.opp_involutive, decide_True by done. done.
  - destruct (print_u_head z r ltac:(lia)) as (d & s & Hd & E).
    rewrite E, skip_space_digit, scan_signed_digit, <- E by done.
    rewrite scan_unsigned_print_u by (lia || done). by rewrite decide_True.
Qed.

(** White space in front does not matter. *)
Lemma scan_d_space c s : c_isspace c = true -> scan_d (String c s) = scan_d s.
Proof. intros H. unfold scan_d. simpl. by rewrite H. Qed.

(** ** A text of numbers, one per line *)
Fixpoint print_lines (l : list Z) : string :=
  match l with
  | [] => ""
  | x :: l' => print_d x +:+ String "010" (print_lines l')
  end.

Lemma print_lines_app l1 l2 : print_lines (l1 ++ l2) = print_lines l1 +:+ print_lines l2.
Proof.
  induction l1 as [|x l1 IH]; [done|]. simpl. rewrite IH, str_app_assoc. done.
Qed.

Lemma scan_d_lines_nil : scan_d (String "010" "") = Ok None.
Proof. done. Qed.

(** Reading from a text of numbers, at its start or after the first number. *)
Lemma scan_d_lines x l :
  int_range x ->
  scan_d (print_lines (x :: l)) = Ok (Some (x, String "010" (print_lines l))) /\
  scan_d (String "010" (print_lines (x :: l))) = Ok (Some (x, String "010" (print_lines l))).
Proof.
  intros Hx. rewrite (scan_d_space "010") by done. split; by apply scan_d_print_d.
Qed.

(** ** A conversion that succeeds consumes text *)
Lemma skip_space_length s : (String.length (skip_space s) <= String.length s)%nat.
Proof. induction s as [|c s IH]; simpl; [lia|]. case_match; simpl; lia. Qed.

Lemma scan_digits_length s a : (String.length (scan_digits s a).2 <= String.length s)%nat.
Proof.
  revert a. induction s as [|c s IH]; intros a; simpl; [lia|].
  destruct (digit_of c); simpl; [|lia]. etrans; [apply IH|lia].
Qed.

Lemma scan_unsigned_length s z r :
  scan_unsigned s = Some (z, r) -> (String.length r < String.length s)%nat.
Proof.
  destruct s as [|c s]; simpl; [done|]. destruct (digit_of c) as [d|]; [|done].
  intros E. injection E as E. pose proof (scan_digits_length s d) as H.
  rewrite E in H. simpl in H. lia.
Qed.

Lemma scan_signed_length s z r :
  scan_signed s = Some (z, r) -> (String.length r < String.length s)%nat.
Proof.
  destruct s as [|c s]; [done|]. unfold scan_signed. repeat case_decide; intros E.
  - destruct (scan_unsigned s) as [[z' r']|] eqn:Hu; simplify_eq/=.
    apply scan_unsigned_length in Hu. lia.
  - apply scan_unsigned_length in E. simpl. lia.
  - by apply scan_unsigned_length in E.
Qed.

Lemma scan_d_length s z r :
  scan_d s = Ok (Some (z, r)) -> (String.length r < String.length s)%nat.
Proof.
  unfold scan_d. destruct (scan_signed (skip_space s)) as [[z' r']|] eqn:E; [|done].
  case_decide; [|done]. intros [= -> ->]. apply scan_signed_length in E.
  pose proof (skip_space_length s). lia.
Qed.

Lemma scan_d_fuel s : scan_d s <> NoFuel.
Proof. unfold scan_d. repeat case_match; done. Qed.
