(* ===== verification/PageRepl.v ===== *)
(** * The page replacement simulator

    [src/Assignment3/Assignment3-2/page_replacement_simulator.c]: the four
    algorithms (OPT, FIFO, LRU, Clock) over arrays of frames, the reader of
    the input file and the program's [main].  The C functions that return -1
    for "no index" return an [option nat] here. *)

From Stdlib Require Import ZArith Lia SpecFloat.
From stdpp Require Import base numbers list option strings.
From S2P Require Import Prelude CText.

Local Open Scope nat_scope.
Local Open Scope c_scope.

Definition MAX_FRAMES : Z := 1000.

(** A frame that holds no page. *)
Definition EMPTY : Z := (-1)%Z.

(** ** [find_in_frames] *)
Fixpoint find_loop (frames : list Z) (page : Z) (i rem : nat) : run (option nat) :=
  match rem with
  | 0 => Ok None
  | S rem' =>
      x ← frames.[i];
      if decide (x = page) then Ok (Some i) else find_loop frames page (S i) rem'
  end.

Definition find_in_frames (frames : list Z) (f : nat) (page : Z) : run (option nat) :=
  find_loop frames page 0 f.

(** ** Optimal replacement *)
Module Opt.
Record state := St { frames : list Z; faults : nat; filled : nat }.

Definition init (F : nat) : state := St (replicate F EMPTY) 0 0.

(** The first [j] in [j0 ..] with [refs[j] == x]. *)
Fixpoint next_ref (refs : list Z) (x : Z) (j rem : nat) : run (option nat) :=
  match rem with
  | 0 => Ok None
  | S rem' =>
      y ← refs.[j];
      if decide (y = x) then Ok (Some j) else next_ref refs x (S j) rem'
  end.

(** The loop over the frames that chooses the victim: [found] and
    [furthest] are the variables of the same name. *)
Fixpoint select (refs fr : list Z) (k i rem : nat) (found : nat) (furthest : Z)
  : run nat :=
  match rem with
  | 0 => Ok found
  | S rem' =>
      x ← fr.[i];
      next ← next_ref refs x (k + 1) (length refs - (k + 1));
      match next with
      | None => Ok i
      | Some j =>
          if decide (furthest < Z.of_nat j)%Z
          then select refs fr k (S i) rem' i (Z.of_nat j)
          else select refs fr k (S i) rem' found furthest
      end
  end.

Definition body (F : nat) (refs : list Z) (k : nat) (s : state) : run state :=
  p ← refs.[k];
  hit_idx ← find_in_frames (frames s) F p;
  match hit_idx with
  | Some _ => Ok s
  | None =>
      if decide (filled s < F) then
        fr ← (frames s).[filled s <- p];
        Ok (St fr (S (faults s)) (S (filled s)))
      else
        found ← select refs (frames s) k 0 F 0 (-1)%Z;
        fr ← (frames s).[found <- p];
        Ok (St fr (S (faults s)) (filled s))
  end.

Definition simulate_opt (F : nat) (refs : list Z) : run nat :=
  s ← for_range (body F refs) 0 (length refs) (init F);
  Ok (faults s).
End Opt.

(** ** First in, first out *)
Module Fifo.
Record state := St { frames : list Z; faults : nat; idx : nat; filled : nat }.

Definition init (F : nat) : state := St (replicate F EMPTY) 0 0 0.

Definition body (F : nat) (refs : list Z) (t : nat) (s : state) : run state :=
  p ← refs.[t];
  hit ← find_in_frames (frames s) F p;
  match hit with
  | Some _ => Ok s
  | None =>
      if decide (filled s < F) then
        fr ← (frames s).[filled s <- p];
        Ok (St fr (S (faults s)) (idx s) (S (filled s)))
      else
        fr ← (frames s).[idx s <- p];
        Ok (St fr (S (faults s)) ((idx s + 1) mod F) (filled s))
  end.

Definition simulate_fifo (F : nat) (refs : list Z) : run nat :=
  s ← for_range (body F refs) 0 (length refs) (init F);
  Ok (faults s).
End Fifo.

(** ** Least recently used *)
Module Lru.
Record state :=
  St { frames : list Z; last : list Z; faults : nat; filled : nat }.

Definition init (F : nat) : state :=
  St (replicate F EMPTY) (replicate F (-1)%Z) 0 0.

(** [for (i = 1; i < F; i++) if (last[i] < last[victim]) victim = i;] *)
Definition victim_step (lst : list Z) (i victim : nat) : run nat :=
  a ← lst.[i];
  b ← lst.[victim];
  Ok (if decide (a < b)%Z then i else victim).

Definition lru_victim (F : nat) (lst : list Z) : run nat :=
  for_range (victim_step lst) 1 (F - 1) 0.

Definition body (F : nat) (refs : list Z) (t : nat) (s : state) : run state :=
  p ← refs.[t];
  idx ← find_in_frames (frames s) F p;
  match idx with
  | Some i =>
      lst ← (last s).[i <- Z.of_nat t];
      Ok (St (frames s) lst (faults s) (filled s))
  | None =>
      if decide (filled s < F) then
        fr ← (frames s).[filled s <- p];
        lst ← (last s).[filled s <- Z.of_nat t];
        Ok (St fr lst (S (faults s)) (S (filled s)))
      else
        victim ← lru_victim F (last s);
        fr ← (frames s).[victim <- p];
        lst ← (last s).[victim <- Z.of_nat t];
        Ok (St fr lst (S (faults s)) (filled s))
  end.

Definition simulate_lru (F : nat) (refs : list Z) : run nat :=
  s ← for_range (body F refs) 0 (length refs) (init F);
  Ok (faults s).
End Lru.

(** ** Clock (second chance) *)
Module Clock.
Record state :=
  St { frames : list Z; refb : list bool; faults : nat; hand : nat; filled : nat }.

Definition init (F : nat) : state :=
  St (replicate F EMPTY) (replicate F false) 0 0 0.

(** The [while(1)] of the replacement: frames, reference bits and hand. *)
Fixpoint sweep (fuel F : nat) (p : Z) (fr : list Z) (rb : list bool) (h : nat)
  : run (list Z * list bool * nat) :=
  match fuel with
  | 0 => NoFuel
  | S fuel' =>
      b ← rb.[h];
      if (b : bool) then
        rb' ← rb.[h <- false];
        sweep fuel' F p fr rb' ((h + 1) mod F)
      else
        fr' ← fr.[h <- p];
        rb' ← rb.[h <- true];
        Ok (fr', rb', (h + 1) mod F)
  end.

Definition body (F : nat) (refs : list Z) (t : nat) (s : state) : run state :=
  p ← refs.[t];
  idx ← find_in_frames (frames s) F p;
  match idx with
  | Some i =>
      rb ← (refb s).[i <- true];
      Ok (St (frames s) rb (faults s) (hand s) (filled s))
  | None =>
      if decide (filled s < F) then
        fr ← (frames s).[filled s <- p];
        rb ← (refb s).[filled s <- true];
        Ok (St fr rb (S (faults s)) (hand s) (S (filled s)))
      else
        '(fr, rb, h) ← sweep (F + 1) F p (frames s) (refb s) (hand s);
        Ok (St fr rb (S (faults s)) h (filled s))
  end.

Definition simulate_clock (F : nat) (refs : list Z) : run nat :=
  s ← for_range (body F refs) 0 (length refs) (init F);
  Ok (faults s).
End Clock.

(** ** Reading the input file *)

(** [seq->refs] up to [seq->n], and the allocated capacity. *)
Record RefSeq := MkSeq { refs : list Z; cap : nat }.

Definition push_ref (x : Z) (q : RefSeq) : run RefSeq :=
  let cap' := if decide (length (refs q) = cap q) then cap q * 2 else cap q in
  if decide (length (refs q) < cap') then Ok (MkSeq (refs q ++ [x]) cap') else Undef.

(** [while (fscanf(fp, "%d", &x) == 1) ...]: every round consumes at least
    one character, so the length of the text bounds the rounds. *)
Fixpoint read_refs (fuel : nat) (s : string) (q : RefSeq) : run RefSeq :=
  match fuel with
  | 0 => NoFuel
  | S fuel' =>
      r ← scan_d s;
      match r with
      | None => Ok q
      | Some (x, s') => q' ← push_ref x q; read_refs fuel' s' q'
      end
  end.

Inductive read_result :=
| ReadOk (frames : Z) (seq : RefSeq)   (** returns 0 *)
| WrongInput1                          (** no frame count: [*frames] unset *)
| WrongInput2 (frames : Z).            (** frame count out of range *)

(** [file] is the file's text, [None] when [fopen] fails: the code does not
    test for it and passes the null stream to [fscanf]. *)
Definition read_input (file : option string) : run read_result :=
  match file with
  | None => Undef
  | Some s =>
      r ← scan_d s;
      match r with
      | None => Ok WrongInput1
      | Some (frames, s') =>
          if decide (frames <= 0 \/ MAX_FRAMES < frames)%Z then Ok (WrongInput2 frames)
          else
            q ← read_refs (S (String.length s')) s' (MkSeq [] 128);
            Ok (ReadOk frames q)
      end
  end.

(** ** Results *)

(** What [print_result] prints: the title, the faults and the rate (a
    [double], shown with two decimals). *)
Record result := Result { title : string; nfaults : nat; rate : spec_float }.

Definition print_result (ttl : string) (faults total_refs : nat) : result :=
  Result ttl faults
    (if decide (total_refs = 0) then S754_zero false
     else B64.div (B64.mul (B64.of_Z (Z.of_nat faults)) (B64.of_Z 100))
            (B64.of_Z (Z.of_nat total_refs))).

(** The part of [main] after the reading, for [frames] and [sequence]. *)
Definition simulate_all (F : nat) (seq : list Z) : run (list result) :=
  o ← Opt.simulate_opt F seq;
  f ← Fifo.simulate_fifo F seq;
  l ← Lru.simulate_lru F seq;
  c ← Clock.simulate_clock F seq;
  Ok [print_result "Optimal Algorithm:" o (length seq);
      print_result "FIFO Algorithm:" f (length seq);
      print_result "LRU Algorithm:" l (length seq);
      print_result "Clock Algorithm:" c (length seq)].

(** [main]: the exit code and what is printed.  The result of [read_input] is
    not tested.  After [WrongInput1] the frame count is an uninitialised
    [int]; after [WrongInput2] the sequence is the zeroed one, and a negative
    count makes the loops over the frames empty. *)
Definition main (argc : Z) (file : option string) : run (Z * list result) :=
  if decide (argc <> 2)%Z then Ok (1%Z, [])
  else
    r ← read_input file;
    match r with
    | WrongInput1 => Undef
    | WrongInput2 frames =>
        out ← simulate_all (Z.to_nat frames) []; Ok (0%Z, out)
    | ReadOk frames q =>
        out ← simulate_all (Z.to_nat frames) (refs q); Ok (0%Z, out)
    end.
