(* ===== verification/PageDemand.v ===== *)
(** * Demand paging, and why OPT is optimal

    The abstract view of a page replacement algorithm: on a reference the page
    is brought in, nothing else is, and at most [F] pages are resident.  A run
    of OPT (evict a page whose next use is furthest away) never has more
    faults than any such run (Belady's theorem); the proof bounds, for every
    horizon, how many pages used before that horizon the other algorithm holds
    more than OPT. *)

From Stdlib Require Import ZArith Lia.
From stdpp Require Import base numbers list option sets.
From S2P Require Import Prelude.

Local Open Scope nat_scope.

(** How far away the next use of [x] is in the references to come; the length
    of the list when [x] is not used again. *)
Fixpoint nxt (x : Z) (refs : list Z) : nat :=
  match refs with
  | [] => 0
  | p :: refs' => if decide (x = p) then 0 else S (nxt x refs')
  end.

(** The fault of a reference to [p] when the pages [T] are resident. *)
Definition fault (p : Z) (T : list Z) : nat := if decide (p ∈ T) then 0 else 1.

(** A legal step of a demand-paging algorithm with [F] frames. *)
Record demand (F : nat) (T : list Z) (p : Z) (T' : list Z) : Prop := {
  dm_nodup : NoDup T';
  dm_size : length T' <= F;
  dm_in : p ∈ T';
  dm_sub : T' ⊆ p :: T }.

(** [demand_run F T refs n]: some demand-paging algorithm that starts with the
    pages [T] has [n] faults on [refs]. *)
Inductive demand_run (F : nat) : list Z -> list Z -> nat -> Prop :=
| dr_nil T : demand_run F T [] 0
| dr_cons T p T' refs n :
    demand F T p T' -> demand_run F T' refs n ->
    demand_run F T (p :: refs) (fault p T + n).

(** One step of OPT: a hit keeps the frames, a miss fills a free frame or
    replaces a page whose next use is furthest away. *)
Inductive opt_step (F : nat) (refs : list Z) (p : Z) : list Z -> list Z -> Prop :=
| os_hit S : p ∈ S -> opt_step F refs p S S
| os_fill S : p ∉ S -> length S < F -> opt_step F refs p S (S ++ [p])
| os_evict S v y :
    p ∉ S -> length S = F -> S !! v = Some y ->
    (forall x, x ∈ S -> nxt x refs <= nxt y refs) ->
    opt_step F refs p S (<[v := p]> S).

Inductive opt_run (F : nat) : list Z -> list Z -> nat -> Prop :=
| or_nil S : opt_run F S [] 0
| or_cons S p S' refs n :
    opt_step F refs p S S' -> opt_run F S' refs n ->
    opt_run F S (p :: refs) (fault p S + n).

(** ** Counting the pages used before a horizon *)

(** The pages of [T] other than [p] whose next use is before [h]. *)
Definition soon (refs : list Z) (h : nat) (p : Z) (T : list Z) : nat :=
  length (filter (fun x => x <> p /\ nxt x refs < h) T).

(** All pages of [T] whose next use is before [h]. *)
Definition cnt (refs : list Z) (h : nat) (T : list Z) : nat :=
  length (filter (fun x => nxt x refs < h) T).

Definition occ (p : Z) (T : list Z) : nat := if decide (p ∈ T) then 1 else 0.

Lemma filter_eq_length (p : Z) T :
  NoDup T -> length (filter (fun x => x = p) T) = occ p T.
Proof.
  unfold occ. induction 1 as [|x T Hx _ IH]; [done|].
  rewrite filter_cons. destruct (decide (x = p)) as [->|E]; simpl; rewrite IH.
  - rewrite decide_False, decide_True by set_solver. done.
  - apply decide_ext. set_solver.
Qed.

Lemma cnt_cons p refs h T :
  NoDup T -> cnt (p :: refs) (S h) T = occ p T + soon refs h p T.
Proof.
  intros HT. unfold cnt, soon. rewrite <- filter_eq_length by done.
  apply filter_length_split; [|naive_solver].
  intros x. simpl. case_decide; naive_solver lia.
Qed.

Lemma cnt_soon p refs h T :
  NoDup T -> p ∈ T ->
  cnt refs h T = (if decide (nxt p refs < h) then 1 else 0) + soon refs h p T.
Proof.
  intros HT Hp. unfold cnt, soon.
  rewrite (filter_length_split _ (fun x => x = p /\ nxt x refs < h)
    (fun x => x <> p /\ nxt x refs < h)).
  2:{ intros x. destruct (decide (x = p)); naive_solver. }
  2:{ naive_solver. }
  f_equal. case_decide as Hh.
  - transitivity (occ p T); [|unfold occ; by rewrite decide_True].
    rewrite <- filter_eq_length by done. f_equal. apply list_filter_iff. naive_solver.
  - apply length_zero_iff_nil, filter_none. intros x Hx. naive_solver.
Qed.

Lemma soon_mono refs h p T T' :
  NoDup T' -> T' ⊆ p :: T -> soon refs h p T' <= soon refs h p T.
Proof.
  intros HT' Hsub. unfold soon. apply submseteq_length.
  apply NoDup_submseteq; [by apply NoDup_filter|].
  intros x. rewrite !list_elem_of_filter. intros [[Hne Hx] Hin].
  split; [done|]. specialize (Hsub x Hin). set_solver.
Qed.

Lemma soon_bound refs h p T : p ∈ T -> soon refs h p T < length T.
Proof. intros Hp. unfold soon. eapply length_filter_lt; [exact Hp|naive_solver]. Qed.

Lemma soon_app refs h p T : soon refs h p (T ++ [p]) = soon refs h p T.
Proof.
  unfold soon. rewrite filter_app, filter_cons, decide_False by naive_solver.
  by rewrite app_nil_r.
Qed.

(** Replacing the page furthest away: either no page used before the horizon
    is lost, or all pages of [S] were used before it. *)
Lemma soon_evict refs h p S v y :
  p ∉ S -> S !! v = Some y -> (forall x, x ∈ S -> nxt x refs <= nxt y refs) ->
  soon refs h p (<[v := p]> S) = soon refs h p S \/
  soon refs h p (<[v := p]> S) + 1 = length S.
Proof.
  intros Hp Hv Hmax. pose proof (lookup_lt_Some _ _ _ Hv) as Hlt.
  rewrite insert_take_drop by done.
  pose proof (take_drop_middle S v y Hv) as E.
  set (l1 := take v S) in *. set (l2 := drop (Datatypes.S v) S) in *. clearbody l1 l2. subst S.
  unfold soon. rewrite !filter_app, !filter_cons, length_app.
  rewrite (decide_False (P := p <> p /\ _)) by naive_solver.
  case_decide as Hy; [right|left; len]. destruct Hy as [_ Hy].
  rewrite !(filter_all (fun x => x <> p /\ nxt x refs < h)); [len|..];
    intros x Hx; (split; [set_solver|]);
    eapply Nat.le_lt_trans; [apply Hmax; set_solver|done|apply Hmax; set_solver|done].
Qed.

(** ** Belady's theorem *)

Lemma fault_occ p T : fault p T + occ p T = 1.
Proof. unfold fault, occ. by case_decide. Qed.

(** The exchange argument: [d] bounds, for every horizon, how many pages used
    before it [T] holds more than [S]. *)
Lemma opt_run_exchange F refs : forall S T n m d,
  opt_run F S refs n -> demand_run F T refs m ->
  NoDup S -> NoDup T ->
  (forall h, h <= length refs -> cnt refs h T <= cnt refs h S + d) ->
  n <= m + d.
Proof.
  induction refs as [|p refs IH]; intros S T n m d Ho Hd HS HT Hcnt.
  { inversion Ho; inversion Hd; lia. }
  inversion Ho as [|? ? S' ? n' Hstep Ho']; subst.
  inversion Hd as [|? ? T' ? m' Hdm Hd']; subst. clear Ho Hd.
  destruct Hdm as [HT' HTF HpT' Hsub].
  assert (Hgap : forall h, h <= length refs ->
    occ p T + soon refs h p T <= occ p S + soon refs h p S + d).
  { intros h Hh. rewrite <- !cnt_cons by done. apply Hcnt. simpl. lia. }
  pose proof (fault_occ p T) as HfT. pose proof (fault_occ p S) as HfS.
  assert (Hpos : fault p S <= fault p T + d).
  { specialize (Hgap 0 ltac:(lia)). unfold soon in Hgap.
    rewrite !(filter_none (fun x => x <> p /\ nxt x refs < 0)) in Hgap by lia. simpl in Hgap. lia. }
  cut (n' <= m' + (d + fault p T - fault p S)); [lia|].
  assert (HS' : NoDup S' /\ p ∈ S').
  { inversion Hstep; subst; [done|..].
    - split; [|set_solver]. apply NoDup_app. split_and!; [done|set_solver|apply NoDup_singleton].
    - split; [by apply NoDup_replace|]. by eapply list_elem_of_insert, lookup_lt_Some. }
  destruct HS' as [HS' HpS'].
  apply (IH S' T'); try done. intros h Hh. specialize (Hgap h Hh).
  rewrite (cnt_soon p), (cnt_soon p _ _ S') by done.
  pose proof (soon_mono refs h p T T' HT' Hsub) as Hm.
  pose proof (soon_bound refs h p T' HpT') as Hb.
  assert (soon refs h p S' = soon refs h p S \/ soon refs h p S' + 1 = F) as [?|?]; [|lia..].
  inversion Hstep; subst; [by left|left; apply soon_app|]. by eapply soon_evict.
Qed.
