(* ===== verification/PageFacts.v ===== *)
(** * Theorems about the page replacement simulator

    Every algorithm of [PageRepl] is a demand-paging algorithm (the class
    [Simulator], with an instance per algorithm); OPT is the furthest-next-use
    one, so it has the fewest faults; FIFO, LRU and Clock refine the queue, the
    recency stack and the second-chance queue. *)

From Stdlib Require Import ZArith Lia.
From stdpp Require Import base numbers list option sets strings.
From S2P Require Import Prelude CText PageRepl PageDemand.

Local Open Scope nat_scope.

(** The references the simulator tells apart from an empty frame. *)
Definition pages (refs : list Z) : Prop := Forall (fun p => p <> EMPTY) refs.

(** ** Frames *)

(** The first [filled] frames hold distinct pages, the others are empty. *)
Record frames_ok (F : nat) (fr : list Z) (filled : nat) : Prop := {
  fo_len : length fr = F;
  fo_filled : filled <= F;
  fo_nodup : NoDup (take filled fr);
  fo_pages : EMPTY ∉ take filled fr;
  fo_empty : drop filled fr = replicate (F - filled) EMPTY }.

Lemma find_loop_spec fr p i rem :
  i + rem = length fr ->
  (exists j, find_loop fr p i rem = Ok (Some j) /\ fr !! j = Some p) \/
  (find_loop fr p i rem = Ok None /\ p ∉ drop i fr).
Proof.
  revert i. induction rem as [|rem IH]; intros i Hi; simpl.
  - right. rewrite drop_ge by lia. split; [done|apply not_elem_of_nil].
  - destruct (aget_lt fr i ltac:(lia)) as (x & Hx & ->). simpl.
    case_decide as E; [subst; eauto|].
    destruct (IH (S i) ltac:(lia)) as [|[-> Hn]]; [by left|].
    right. split; [done|]. rewrite (drop_S fr x i Hx). set_solver.
Qed.

Section frames.
Context {F : nat} {fr : list Z} {filled : nat} (Hok : frames_ok F fr filled).
Context {p : Z} (Hp : p <> EMPTY).

Lemma in_frames : p ∈ fr <-> p ∈ take filled fr.
Proof.
  rewrite <- (take_drop filled fr) at 1. rewrite elem_of_app, (fo_empty _ _ _ Hok).
  rewrite elem_of_replicate. naive_solver.
Qed.

Lemma find_in_frames_spec :
  (exists j, find_in_frames fr F p = Ok (Some j) /\ fr !! j = Some p /\ p ∈ take filled fr) \/
  (find_in_frames fr F p = Ok None /\ p ∉ take filled fr).
Proof.
  unfold find_in_frames. pose proof (fo_len _ _ _ Hok) as Hl.
  destruct (find_loop_spec fr p 0 F ltac:(lia)) as [(j & -> & Hj)|[-> Hn]].
  - left. exists j. split_and!; [done..|].
    apply in_frames. by eapply list_elem_of_lookup_2.
  - right. split; [done|]. by rewrite <- in_frames.
Qed.

Lemma frame_index j : fr !! j = Some p -> j < filled.
Proof.
  intros Hj. destruct (decide (j < filled)) as [|Hge]; [done|].
  assert (E : drop filled fr !! (j - filled) = Some p).
  { rewrite lookup_drop. by replace (filled + (j - filled)) with j by lia. }
  rewrite (fo_empty _ _ _ Hok) in E. apply lookup_replicate in E as [E _]. congruence.
Qed.

(** A hit keeps the resident pages. *)
Lemma demand_hit : p ∈ take filled fr -> demand F (take filled fr) p (take filled fr).
Proof.
  intros Hin. split; [apply Hok| |done|set_solver].
  rewrite length_take. pose proof (fo_filled _ _ _ Hok). lia.
Qed.

(** A miss with a free frame puts the page in it. *)
Lemma fill_frame :
  filled < F -> p ∉ take filled fr ->
  let fr' := <[filled := p]> fr in
  take (S filled) fr' = take filled fr ++ [p] /\ frames_ok F fr' (S filled) /\
  demand F (take filled fr) p (take (S filled) fr').
Proof.
  intros Hlt Hn fr'. pose proof (fo_len _ _ _ Hok) as Hl.
  assert (E : take (S filled) fr' = take filled fr ++ [p]).
  { unfold fr'. rewrite insert_take_drop by lia.
    rewrite take_app_ge by (len). len. by replace (S filled - _) with 1 by lia. }
  assert (Hnd : NoDup (take filled fr ++ [p])).
  { apply NoDup_app. split_and!; [apply Hok|set_solver|apply NoDup_singleton]. }
  split_and!; [done| |].
  - split; rewrite ?E; unfold fr'; [len|lia|done| |].
    + pose proof (fo_pages _ _ _ Hok). set_solver.
    + rewrite drop_insert_lt by lia. rewrite <- (Nat.add_1_r filled), <- drop_drop.
      rewrite (fo_empty _ _ _ Hok), drop_replicate. f_equal. lia.
  - rewrite E. split; [done|len|set_solver|set_solver].
Qed.

(** A miss with all frames in use replaces the page of one of them. *)
Lemma replace_frame v :
  filled = F -> v < F -> p ∉ take filled fr ->
  let fr' := <[v := p]> fr in
  take filled fr' = <[v := p]> (take filled fr) /\ frames_ok F fr' filled /\
  demand F (take filled fr) p (take filled fr').
Proof.
  intros -> Hv Hn fr'. pose proof (fo_len _ _ _ Hok) as Hl.
  rewrite !take_ge in * by (unfold fr'; len).
  assert (Hnd : NoDup fr').
  { apply NoDup_replace; [|done]. pose proof (fo_nodup _ _ _ Hok) as H.
    by rewrite take_ge in H by lia. }
  split_and!; [done| |].
  - split; unfold fr'; [len|lia|by rewrite take_ge by len| |].
    + rewrite take_ge by len. intros Hin. apply list_elem_of_lookup in Hin as [i Hi].
      apply list_lookup_insert_Some in Hi as [(_ & E & _)|(_ & Hi)]; [by apply Hp|].
      apply (fo_pages _ _ _ Hok). rewrite take_ge by lia. by eapply list_elem_of_lookup_2.
    + rewrite drop_ge by len. by rewrite Nat.sub_diag.
  - split; [done|unfold fr'; len|by apply list_elem_of_insert; lia|].
    intros x Hx. apply list_elem_of_lookup in Hx as [i Hi].
    apply list_lookup_insert_Some in Hi as [(_ & E & _)|(_ & Hi)]; [subst; left|].
    right. by eapply list_elem_of_lookup_2.
Qed.
End frames.

Lemma frames_ok_init F : frames_ok F (replicate F EMPTY) 0.
Proof. split; [len|lia|apply NoDup_nil_2|apply not_elem_of_nil|by rewrite Nat.sub_0_r]. Qed.

(** ** The interface of an algorithm *)
Class Simulator (St : Type) := {
  sim_init : nat -> St;
  sim_body : nat -> list Z -> nat -> St -> run St;
  sim_frames : St -> list Z;
  sim_filled : St -> nat;
  sim_faults : St -> nat }.

(** The resident pages of a state. *)
Definition resident {St} `{Simulator St} (s : St) : list Z :=
  take (sim_filled s) (sim_frames s).

(** What every algorithm promises: from a state that satisfies its invariant
    (at time [t], with [F] frames) a reference runs without undefined
    behaviour, is a legal demand-paging step, and counts a fault exactly when
    the page was not resident. *)
Class DemandPaging (St : Type) `{Simulator St} := {
  sim_inv : nat -> nat -> St -> Prop;
  sim_inv_init F : 0 < F -> sim_inv F 0 (sim_init F);
  sim_start F : resident (sim_init F) = [] /\ sim_faults (sim_init F) = 0;
  sim_step F refs k p s :
    0 < F -> refs !! k = Some p -> p <> EMPTY -> sim_inv F k s ->
    exists s', sim_body F refs k s = Ok s' /\ sim_inv F (k + 1) s' /\
      demand F (resident s) p (resident s') /\
      sim_faults s' = sim_faults s + fault p (resident s) }.

Section simulator.
Context {St : Type} `{DemandPaging St}.

Lemma for_range_demand F refs rem : forall k s,
  0 < F -> pages refs -> sim_inv F k s -> k + rem = length refs ->
  exists s' n, for_range (sim_body F refs) k rem s = Ok s' /\
    sim_faults s' = sim_faults s + n /\ demand_run F (resident s) (drop k refs) n.
Proof.
  induction rem as [|rem IH]; intros k s HF Hpg Hinv Hk; simpl.
  - exists s, 0. rewrite drop_ge by lia. split_and!; [done|lia|constructor].
  - destruct (lookup_lt_is_Some_2 refs k ltac:(lia)) as [p Hp].
    assert (p <> EMPTY) as Hne.
    { eapply (Forall_lookup_1 _ _ _ _ Hpg Hp). }
    destruct (sim_step F refs k p s) as (s1 & -> & Hinv1 & Hd & Hf); [done..|]. simpl.
    rewrite Nat.add_1_r in Hinv1.
    destruct (IH (S k) s1) as (s' & n & -> & Hn & Hr); [done..|lia|].
    exists s', (fault p (resident s) + n). split_and!; [done|lia|].
    rewrite (drop_S _ _ _ Hp). by econstructor.
Qed.

(** The simulation ends, and its faults are those of a demand-paging run. *)
Lemma simulate_demand F refs :
  0 < F -> pages refs ->
  exists s n, for_range (sim_body F refs) 0 (length refs) (sim_init F) = Ok s /\
    sim_faults s = n /\ demand_run F [] refs n.
Proof.
  intros HF Hpg. destruct (sim_start F) as [Hr0 Hf0].
  destruct (for_range_demand F refs (length refs) 0 (sim_init F))
    as (s & n & Hs & Hn & Hd); [done|done|by apply sim_inv_init|done|].
  exists s, n. rewrite Hr0, drop_0 in Hd. rewrite Hf0 in Hn. done.
Qed.
End simulator.

Lemma demand_run_bound F T refs n : demand_run F T refs n -> n <= length refs.
Proof. induction 1; simpl; [lia|]. unfold fault. case_decide; lia. Qed.

Lemma fault_in p T : p ∈ T -> fault p T = 0.
Proof. intros. unfold fault. by rewrite decide_True. Qed.
Lemma fault_out p T : p ∉ T -> fault p T = 1.
Proof. intros. unfold fault. by rewrite decide_False. Qed.

(** Start of every proof about a body: read the page, search the frames. *)
Ltac start_body Hp Hok Hne j Hfind Hj Hin Hout :=
  rewrite (aget_lookup _ _ _ Hp); cbn [mbind run_bind];
  destruct (find_in_frames_spec Hok Hne) as [(j & Hfind & Hj & Hin)|(Hfind & Hout)];
  rewrite Hfind; cbn [mbind run_bind].

(** ** FIFO *)
#[export] Instance fifo_sim : Simulator Fifo.state :=
  { sim_init := Fifo.init; sim_body := Fifo.body; sim_frames := Fifo.frames;
    sim_filled := Fifo.filled; sim_faults := Fifo.faults }.

Definition fifo_inv (F t : nat) (s : Fifo.state) : Prop :=
  frames_ok F (Fifo.frames s) (Fifo.filled s) /\ Fifo.idx s < F /\
  (Fifo.filled s < F -> Fifo.idx s = 0).

#[export] Instance fifo_demand : DemandPaging Fifo.state.
Proof.
  refine {| sim_inv := fifo_inv |}.
  - intros F HF. split_and!; [apply frames_ok_init|done|done].
  - intros F. done.
  - intros F refs k p s HF Hp Hne (Hok & Hidx & Hz). simpl. unfold Fifo.body, resident. simpl.
    start_body Hp Hok Hne j Hfind Hj Hin Hout.
    { exists s. split_and!; [done|done|by apply demand_hit|rewrite fault_in by done; lia]. }
    rewrite fault_out by done. pose proof (fo_len _ _ _ Hok) as Hl.
    pose proof (fo_filled _ _ _ Hok) as Hle.
    case_decide as Hc; rewrite aset_lt by lia; eexists; (split; [done|]); simpl.
    + destruct (fill_frame Hok Hne Hc Hout) as (_ & Hok' & Hd).
      split_and!; [split_and!; simpl; [done|done|intros; apply Hz; lia]|done|lia].
    + destruct (replace_frame Hok Hne (Fifo.idx s) ltac:(lia) Hidx Hout) as (_ & Hok' & Hd).
      split_and!; [split_and!; simpl; [done|apply Nat.mod_upper_bound; lia|lia]|done|lia].
Defined.

(** ** LRU *)
#[export] Instance lru_sim : Simulator Lru.state :=
  { sim_init := Lru.init; sim_body := Lru.body; sim_frames := Lru.frames;
    sim_filled := Lru.filled; sim_faults := Lru.faults }.

Definition lru_inv (F t : nat) (s : Lru.state) : Prop :=
  frames_ok F (Lru.frames s) (Lru.filled s) /\ length (Lru.last s) = F.

(** The victim is a frame with the smallest time stamp. *)
Lemma lru_victim_spec F lst :
  0 < F -> length lst = F ->
  exists v a, Lru.lru_victim F lst = Ok v /\ v < F /\ lst !! v = Some a /\
    forall i b, lst !! i = Some b -> (a <= b)%Z.
Proof.
  intros HF Hl. unfold Lru.lru_victim.
  destruct (for_range_inv (Lru.victim_step lst)
    (fun i v => v < F /\ exists a, lst !! v = Some a /\
       forall j b, j < i -> lst !! j = Some b -> (a <= b)%Z) 1 (F - 1) 0)
    as (v & -> & Hv & a & Ha & Hmin).
  - split; [done|]. destruct (aget_lt lst 0 ltac:(lia)) as (a & Ha & _).
    exists a. split; [done|]. intros j b Hj. replace j with 0 by lia. naive_solver lia.
  - intros i v Hi (Hv & a & Ha & Hmin). unfold Lru.victim_step.
    destruct (aget_lt lst i ltac:(lia)) as (b & Hb & ->). simpl.
    rewrite (aget_lookup _ _ _ Ha). simpl. eexists. split; [done|].
    case_decide as Hc; (split; [lia|eexists; split; [done|]]); intros j c Hj Hc';
      (destruct (decide (j = i)) as [->|]; [naive_solver lia|]);
      specialize (Hmin j c ltac:(lia) Hc'); lia.
  - exists v, a. split_and!; [done..|]. intros i b Hi.
    apply (Hmin i b); [|done]. apply lookup_lt_Some in Hi. lia.
Qed.

#[export] Instance lru_demand : DemandPaging Lru.state.
Proof.
  refine {| sim_inv := lru_inv |}.
  - intros F HF. split; [apply frames_ok_init|simpl; len].
  - intros F. done.
  - intros F refs k p s HF Hp Hne (Hok & Hll). simpl. unfold Lru.body, resident. simpl.
    pose proof (fo_len _ _ _ Hok) as Hl. pose proof (fo_filled _ _ _ Hok) as Hle.
    start_body Hp Hok Hne j Hfind Hj Hin Hout.
    { apply lookup_lt_Some in Hj. rewrite aset_lt by lia. eexists. split; [done|]. simpl.
      split_and!; [split; simpl; [done|len]|by apply demand_hit|rewrite fault_in by done; lia]. }
    rewrite fault_out by done. case_decide as Hc.
    + rewrite !aset_lt by lia. simpl. eexists. split; [done|]. simpl.
      destruct (fill_frame Hok Hne Hc Hout) as (_ & Hok' & Hd).
      split_and!; [split; simpl; [done|len]|done|lia].
    + destruct (lru_victim_spec F (Lru.last s) HF Hll) as (v & a & -> & Hv & _). simpl.
      rewrite !aset_lt by lia. simpl. eexists. split; [done|]. simpl.
      destruct (replace_frame Hok Hne v ltac:(lia) Hv Hout) as (_ & Hok' & Hd).
      split_and!; [split; simpl; [done|len]|done|lia].
Defined.

(** ** Clock *)
#[export] Instance clock_sim : Simulator Clock.state :=
  { sim_init := Clock.init; sim_body := Clock.body; sim_frames := Clock.frames;
    sim_filled := Clock.filled; sim_faults := Clock.faults }.

Definition clock_inv (F t : nat) (s : Clock.state) : Prop :=
  frames_ok F (Clock.frames s) (Clock.filled s) /\ length (Clock.refb s) = F /\
  Clock.hand s < F.

(** What a sweep of the hand gives: one frame replaced, the hand after it. *)
Definition swept (F : nat) (p : Z) (fr : list Z) (r : list Z * list bool * nat) : Prop :=
  let '(fr', rb', h') := r in
  exists v, v < F /\ fr' = <[v := p]> fr /\ length rb' = F /\ h' = (v + 1) mod F.

(** A clear bit [d] positions ahead of the hand ends the sweep in [d + 1]
    rounds. *)
Lemma sweep_clear F p fr d : forall fuel rb h,
  0 < F -> length fr = F -> length rb = F -> h < F -> d < fuel ->
  rb !! ((h + d) mod F) = Some false ->
  exists r, Clock.sweep fuel F p fr rb h = Ok r /\ swept F p fr r.
Proof.
  induction d as [|d IH]; intros [|fuel] rb h HF Hfr Hrb Hh Hfuel Hbit; try lia; simpl;
    destruct (aget_lt rb h ltac:(lia)) as (b & Hb & ->); simpl.
  - rewrite Nat.add_0_r, Nat.mod_small in Hbit by lia. simplify_eq.
    rewrite !aset_lt by lia. simpl. eexists. split; [done|]. exists h. split_and!; [done|done|len|done].
  - destruct b.
    + rewrite aset_lt by lia. simpl. apply IH; [done|done|len| |lia|].
      { apply Nat.mod_upper_bound. lia. }
      rewrite Nat.Div0.add_mod_idemp_l, <- Nat.add_assoc. simpl.
      rewrite list_lookup_insert. repeat case_decide; done.
    + rewrite !aset_lt by lia. simpl. eexists. split; [done|]. exists h. split_and!; [done|done|len|done].
Qed.

(** The hand stops after at most [F + 1] rounds: if every bit is set, the
    round that clears the first one makes it the victim of the next turn. *)
Lemma sweep_ends F p fr rb h :
  length fr = F -> length rb = F -> h < F ->
  exists r, Clock.sweep (F + 1) F p fr rb h = Ok r /\ swept F p fr r.
Proof.
  intros Hfr Hrb Hh. rewrite Nat.add_1_r. simpl.
  destruct (aget_lt rb h ltac:(lia)) as (b & Hb & ->). simpl. destruct b.
  - rewrite aset_lt by lia. simpl. apply (sweep_clear F p fr (F - 1)); try lia; [len| |].
    { apply Nat.mod_upper_bound. lia. }
    rewrite Nat.Div0.add_mod_idemp_l.
    replace (h + 1 + (F - 1)) with (h + 1 * F) by lia.
    rewrite Nat.Div0.mod_add, Nat.mod_small by lia. by rewrite list_lookup_insert_eq by lia.
  - rewrite !aset_lt by lia. simpl. eexists. split; [done|]. exists h. split_and!; [done|done|len|done].
Qed.

#[export] Instance clock_demand : DemandPaging Clock.state.
Proof.
  refine {| sim_inv := clock_inv |}.
  - intros F HF. split_and!; [apply frames_ok_init|simpl; len|done].
  - intros F. done.
  - intros F refs k p s HF Hp Hne (Hok & Hrb & Hh). simpl. unfold Clock.body, resident. simpl.
    pose proof (fo_len _ _ _ Hok) as Hl. pose proof (fo_filled _ _ _ Hok) as Hle.
    start_body Hp Hok Hne j Hfind Hj Hin Hout.
    { apply lookup_lt_Some in Hj. rewrite aset_lt by lia. eexists. split; [done|]. simpl.
      split_and!; [split_and!; simpl; [done|len|done]|by apply demand_hit
        |rewrite fault_in by done; lia]. }
    rewrite fault_out by done. case_decide as Hc.
    + rewrite !aset_lt by lia. simpl. eexists. split; [done|]. simpl.
      destruct (fill_frame Hok Hne Hc Hout) as (_ & Hok' & Hd).
      split_and!; [split_and!; simpl; [done|len|done]|done|lia].
    + destruct (sweep_ends F p (Clock.frames s) (Clock.refb s) (Clock.hand s) Hl Hrb Hh)
        as ([[fr' rb'] h'] & -> & v & Hv & -> & Hrb' & ->). simpl.
      eexists. split; [done|]. simpl.
      destruct (replace_frame Hok Hne v ltac:(lia) Hv Hout) as (_ & Hok' & Hd).
      split_and!; [split_and!; simpl; [done|done|apply Nat.mod_upper_bound; lia]|done|lia].
Defined.

(** ** OPT *)
#[export] Instance opt_sim : Simulator Opt.state :=
  { sim_init := Opt.init; sim_body := Opt.body; sim_frames := Opt.frames;
    sim_filled := Opt.filled; sim_faults := Opt.faults }.

Lemma next_ref_spec refs x j rem :
  j + rem = length refs ->
  Opt.next_ref refs x j rem =
    Ok (if decide (nxt x (drop j refs) < rem) then Some (j + nxt x (drop j refs)) else None) /\
  nxt x (drop j refs) <= rem.
Proof.
  revert j. induction rem as [|rem IH]; intros j Hj; simpl.
  - by rewrite drop_ge by lia.
  - destruct (aget_lt refs j ltac:(lia)) as (y & Hy & ->). simpl.
    rewrite (drop_S _ _ _ Hy). simpl. destruct (decide (y = x)) as [->|Hne].
    + rewrite !(decide_True (P := x = x)) by done.
      split; [|lia]. case_decide; [do 2 f_equal; lia|lia].
    + rewrite (decide_False (P := x = y)) by congruence.
      destruct (IH (S j) ltac:(lia)) as [-> Hle]. split; [|lia].
      repeat case_decide; try lia; do 2 f_equal; lia.
Qed.

(** The victim of OPT is a page whose next use is furthest away. *)
Lemma select_spec (refs fr : list Z) k rem : forall i found furthest,
  k < length refs -> i + rem = length fr -> 0 < length fr ->
  (forall j x, j < i -> fr !! j = Some x ->
     (Z.of_nat (k + 1 + nxt x (drop (k + 1) refs)) <= furthest)%Z) ->
  (furthest = (-1)%Z /\ i = 0 \/
   exists y, fr !! found = Some y /\
     furthest = Z.of_nat (k + 1 + nxt y (drop (k + 1) refs))) ->
  exists v y, Opt.select refs fr k i rem found furthest = Ok v /\ fr !! v = Some y /\
    forall x, x ∈ fr -> nxt x (drop (k + 1) refs) <= nxt y (drop (k + 1) refs).
Proof.
  induction rem as [|rem IH]; intros i found furthest Hk Hi Hpos Hmax Hf; simpl.
  - destruct Hf as [[_ ->]|(y & Hy & ->)]; [lia|].
    exists found, y. split_and!; [done..|]. intros x Hx.
    apply list_elem_of_lookup in Hx as [j Hj].
    specialize (Hmax j x ltac:(apply lookup_lt_Some in Hj; lia) Hj). lia.
  - destruct (aget_lt fr i ltac:(lia)) as (x & Hx & ->). simpl.
    destruct (next_ref_spec refs x (k + 1) (length refs - (k + 1)) ltac:(lia)) as [-> Hle].
    simpl. case_decide as Hused; simpl.
    + case_decide as Hc; (apply IH; [done|lia|done| |]).
      * intros j x' Hj Hx'. destruct (decide (j = i)) as [->|]; [naive_solver lia|].
        specialize (Hmax j x' ltac:(lia) Hx'). lia.
      * right. eauto.
      * intros j x' Hj Hx'. destruct (decide (j = i)) as [->|]; [naive_solver lia|].
        apply (Hmax j x'); [lia|done].
      * destruct Hf as [[-> ->]|?]; [lia|by right].
    + exists i, x. split_and!; [done..|]. intros x' _.
      destruct (next_ref_spec refs x' (k + 1) (length refs - (k + 1)) ltac:(lia)) as [_ ?]. lia.
Qed.

(** A step of the simulation of OPT is a step of the furthest-next-use rule. *)
Lemma opt_body_step F refs k p s :
  0 < F -> refs !! k = Some p -> p <> EMPTY ->
  frames_ok F (Opt.frames s) (Opt.filled s) ->
  exists s', Opt.body F refs k s = Ok s' /\
    frames_ok F (Opt.frames s') (Opt.filled s') /\
    demand F (resident s) p (resident s') /\
    opt_step F (drop (k + 1) refs) p (resident s) (resident s') /\
    Opt.faults s' = Opt.faults s + fault p (resident s).
Proof.
  intros HF Hp Hne Hok. unfold Opt.body, resident. simpl.
  pose proof (fo_len _ _ _ Hok) as Hl. pose proof (fo_filled _ _ _ Hok) as Hle.
  start_body Hp Hok Hne j Hfind Hj Hin Hout.
  { exists s. split_and!; [done|done|by apply demand_hit|by constructor
      |rewrite fault_in by done; lia]. }
  rewrite fault_out by done. case_decide as Hc.
  - rewrite aset_lt by lia. simpl. eexists. split; [done|]. simpl.
    destruct (fill_frame Hok Hne Hc Hout) as (E & Hok' & Hd).
    split_and!; [done|done|rewrite E; constructor; [done|len]|lia].
  - destruct (select_spec refs (Opt.frames s) k F 0 0 (-1)%Z) as (v & y & -> & Hv & Hmax);
      [by eapply lookup_lt_Some|lia|lia|lia|by left|].
    simpl. pose proof (lookup_lt_Some _ _ _ Hv) as Hvlt. rewrite aset_lt by lia. simpl.
    eexists. split; [done|]. simpl.
    destruct (replace_frame Hok Hne v ltac:(lia) ltac:(lia) Hout) as (E & Hok' & Hd).
    split_and!; [done|done| |lia].
    rewrite E. rewrite take_ge in * by lia. econstructor; [done|lia|exact Hv|done].
Qed.

#[export] Instance opt_demand : DemandPaging Opt.state.
Proof.
  refine {| sim_inv := fun F _ s => frames_ok F (Opt.frames s) (Opt.filled s) |}.
  - intros F HF. apply frames_ok_init.
  - intros F. done.
  - intros F refs k p s HF Hp Hne Hok.
    destruct (opt_body_step F refs k p s) as (s' & ? & ? & ? & _ & ?); eauto 6.
Defined.

Lemma for_range_opt F refs rem : forall k s,
  0 < F -> pages refs -> frames_ok F (Opt.frames s) (Opt.filled s) ->
  k + rem = length refs ->
  exists s' n, for_range (Opt.body F refs) k rem s = Ok s' /\
    Opt.faults s' = Opt.faults s + n /\ opt_run F (resident s) (drop k refs) n.
Proof.
  induction rem as [|rem IH]; intros k s HF Hpg Hok Hk; simpl.
  - exists s, 0. rewrite drop_ge by lia. split_and!; [done|lia|constructor].
  - destruct (lookup_lt_is_Some_2 refs k ltac:(lia)) as [p Hp].
    pose proof (Forall_lookup_1 _ _ _ _ Hpg Hp) as Hne.
    destruct (opt_body_step F refs k p s) as (s1 & -> & Hok1 & _ & Hst & Hf); [done..|]. simpl.
    destruct (IH (S k) s1) as (s' & n & -> & Hn & Hr); [done..|lia|].
    exists s', (fault p (resident s) + n). split_and!; [done|lia|].
    rewrite (drop_S _ _ _ Hp). rewrite Nat.add_1_r in Hst. by econstructor.
Qed.

(** OPT has at most the faults of any demand-paging run. *)
Lemma opt_le_demand F refs m :
  0 < F -> pages refs -> demand_run F [] refs m ->
  exists n, Opt.simulate_opt F refs = Ok n /\ n <= m.
Proof.
  intros HF Hpg Hd. unfold Opt.simulate_opt.
  destruct (for_range_opt F refs (length refs) 0 (Opt.init F)) as (s & n & -> & Hn & Hr);
    [done|done|apply frames_ok_init|done|].
  simpl. eexists. split; [done|]. simpl in Hn. rewrite Hn. rewrite drop_0 in Hr.
  transitivity (m + 0); [|lia].
  apply (opt_run_exchange F refs [] [] n m 0); [done|done|apply NoDup_nil_2..|done].
Qed.

Lemma simulate_fifo_demand F refs :
  0 < F -> pages refs ->
  exists n, Fifo.simulate_fifo F refs = Ok n /\ demand_run F [] refs n.
Proof.
  intros HF Hpg. destruct (simulate_demand (St := Fifo.state) F refs HF Hpg) as (s & n & Hs & <- & Hd).
  eexists. split; [|done]. unfold Fifo.simulate_fifo. by setoid_rewrite Hs.
Qed.

Lemma simulate_lru_demand F refs :
  0 < F -> pages refs ->
  exists n, Lru.simulate_lru F refs = Ok n /\ demand_run F [] refs n.
Proof.
  intros HF Hpg. destruct (simulate_demand (St := Lru.state) F refs HF Hpg) as (s & n & Hs & <- & Hd).
  eexists. split; [|done]. unfold Lru.simulate_lru. by setoid_rewrite Hs.
Qed.

Lemma simulate_clock_demand F refs :
  0 < F -> pages refs ->
  exists n, Clock.simulate_clock F refs = Ok n /\ demand_run F [] refs n.
Proof.
  intros HF Hpg. destruct (simulate_demand (St := Clock.state) F refs HF Hpg) as (s & n & Hs & <- & Hd).
  eexists. split; [|done]. unfold Clock.simulate_clock. by setoid_rewrite Hs.
Qed.

Lemma simulate_opt_demand F refs :
  0 < F -> pages refs ->
  exists n, Opt.simulate_opt F refs = Ok n /\ demand_run F [] refs n.
Proof.
  intros HF Hpg. destruct (simulate_demand (St := Opt.state) F refs HF Hpg) as (s & n & Hs & <- & Hd).
  eexists. split; [|done]. unfold Opt.simulate_opt. by setoid_rewrite Hs.
Qed.

(** C1. Belady's theorem for [simulate_opt]: with at least one frame and page
    numbers different from the empty-frame marker, the simulation returns the
    number of faults of a demand-paging run on the references with that many
    frames, and no demand-paging run with as many frames has fewer: the
    number returned is the least there is. *)
Theorem opt_optimal (F : nat) (refs : list Z) (HF : 0 < F) (Hpages : pages refs) :
  exists n, Opt.simulate_opt F refs = Ok n /\ demand_run F [] refs n /\
    forall m, demand_run F [] refs m -> n <= m.
Proof.
  destruct (simulate_opt_demand F refs HF Hpages) as (n & Hn & Hd). exists n. split_and!; [done..|].
  intros m Hm. destruct (opt_le_demand F refs m HF Hpages Hm) as (n' & Hn' & Hle). congruence.
Qed.

(** Belady's reference string. *)
Definition belady_refs : list Z := [1; 2; 3; 4; 1; 2; 5; 1; 2; 3; 4; 5]%Z.

Lemma belady_pages : pages belady_refs.
Proof. repeat (constructor; [done|]). constructor. Qed.

(** The always-replace-the-newest algorithm, as another demand-paging run. *)
Lemma demand_run_example : demand_run 1 [] [7; 8; 7]%Z 3.
Proof.
  change 3 with (fault 7 [] + (fault 8 [7%Z] + (fault 7 [8%Z] + 0))).
  apply (dr_cons _ _ _ [7%Z]), (dr_cons _ _ _ [8%Z]), (dr_cons _ _ _ [7%Z]), dr_nil;
    (split; [apply NoDup_singleton|done|set_solver|set_solver]).
Qed.

Lemma opt_optimal_witness :
  Opt.simulate_opt 1 [7; 8; 7]%Z = Ok 3 /\ Opt.simulate_opt 3 belady_refs = Ok 7 /\
  demand_run 3 [] belady_refs 7 /\ forall m, demand_run 3 [] belady_refs m -> 7 <= m.
Proof.
  split; [reflexivity|]. split; [reflexivity|].
  destruct (opt_optimal 3 belady_refs (Nat.lt_0_succ 2) belady_pages) as (n & E & Hd & Hmin).
  vm_compute in E. injection E as <-. by split.
Defined.

(** Every page has to be brought in once. *)
Lemma demand_run_distinct F refs : forall T n L,
  demand_run F T refs n -> NoDup L -> L ⊆ refs -> (forall x, x ∈ L -> x ∉ T) -> length L <= n.
Proof.
  induction refs as [|p refs IH]; intros T n L Hd HL Hsub Hdis.
  { destruct L as [|x L]; [simpl; lia|]. exfalso. apply (not_elem_of_nil x), Hsub. left. }
  inversion Hd as [|? ? T' ? n' Hdm Hd']; subst. destruct Hdm as [_ _ Hp HT'].
  assert (Hlen : length L = occ p L + length (filter (fun x => x <> p) L)).
  { rewrite <- filter_eq_length by done. rewrite <- (filter_all (fun _ => True) L) at 1 by done.
    apply filter_length_split; [intros x; destruct (decide (x = p)); naive_solver|naive_solver]. }
  assert (length (filter (fun x => x <> p) L) <= n').
  { apply (IH T'); [done|by apply NoDup_filter| |].
    - intros x [Hx Hin]%list_elem_of_filter. apply Hsub in Hin. set_solver.
    - intros x [Hx Hin]%list_elem_of_filter Hin'. apply HT' in Hin'. apply (Hdis x Hin). set_solver. }
  assert (occ p L <= fault p T); [|lia]. unfold occ, fault. repeat case_decide; try lia. exfalso. by eapply Hdis.
Qed.

(** The results of the four simulations, and how they are printed. *)
Record all_results (F : nat) (refs : list Z) (o f l c : nat) : Prop := {
  ar_opt : Opt.simulate_opt F refs = Ok o;
  ar_fifo : Fifo.simulate_fifo F refs = Ok f;
  ar_lru : Lru.simulate_lru F refs = Ok l;
  ar_clock : Clock.simulate_clock F refs = Ok c;
  ar_runs : demand_run F [] refs o /\ demand_run F [] refs f /\ demand_run F [] refs l /\ demand_run F [] refs c;
  ar_best : o <= f /\ o <= l /\ o <= c;
  ar_least : length (remove_dups refs) <= o;
  ar_most : f <= length refs /\ l <= length refs /\ c <= length refs }.

Definition all_printed (refs : list Z) (o f l c : nat) : list result :=
  [print_result "Optimal Algorithm:" o (length refs); print_result "FIFO Algorithm:" f (length refs);
   print_result "LRU Algorithm:" l (length refs); print_result "Clock Algorithm:" c (length refs)].

Lemma all_faults F refs :
  0 < F -> pages refs ->
  exists o f l c, simulate_all F refs = Ok (all_printed refs o f l c) /\ all_results F refs o f l c.
Proof.
  intros HF Hpages.
  destruct (simulate_opt_demand F refs HF Hpages) as (o & Ho & Hdo).
  destruct (simulate_fifo_demand F refs HF Hpages) as (f & Hf & Hdf).
  destruct (simulate_lru_demand F refs HF Hpages) as (l & Hl & Hdl).
  destruct (simulate_clock_demand F refs HF Hpages) as (c & Hc & Hdc).
  assert (Hle : forall m, demand_run F [] refs m -> o <= m).
  { intros m Hm. destruct (opt_le_demand F refs m HF Hpages Hm) as (n' & Hn' & ?). congruence. }
  exists o, f, l, c. split; [unfold simulate_all; by rewrite Ho, Hf, Hl, Hc|].
  pose proof (demand_run_bound _ _ _ _ Hdf). pose proof (demand_run_bound _ _ _ _ Hdl).
  pose proof (demand_run_bound _ _ _ _ Hdc). split; auto.
  apply (demand_run_distinct F refs [] o); [done|apply NoDup_remove_dups| |].
  - intros x. by rewrite elem_of_remove_dups.
  - intros x _. apply not_elem_of_nil.
Qed.

(** C2. The four simulations of [main] all return on at least one frame; what
    is printed under each title is the number that simulation returns; each is
    the number of faults of a demand-paging run, OPT has no more faults than
    the other three, and all lie between the number of distinct pages and the
    number of references. *)
Theorem simulate_all_faults (F : nat) (refs : list Z) (HF : 0 < F) (Hpages : pages refs) :
  exists o f l c, simulate_all F refs = Ok (all_printed refs o f l c) /\ all_results F refs o f l c.
Proof. by apply all_faults. Qed.

Lemma simulate_all_faults_witness :
  exists o f l c, simulate_all 3 belady_refs = Ok (all_printed belady_refs o f l c) /\
    all_results 3 belady_refs o f l c /\ (o, f, l, c) = (7, 9, 10, 9) /\ length (remove_dups belady_refs) = 5.
Proof.
  destruct (simulate_all_faults 3 belady_refs (Nat.lt_0_succ 2) belady_pages) as (o & f & l & c & E & H).
  exists o, f, l, c. split; [exact E|]. split; [exact H|]. split; [|reflexivity].
  destruct H as [H1 H2 H3 H4 _ _ _ _]. vm_compute in H1, H2, H3, H4. by injection H1 as <-; injection H2 as <-; injection H3 as <-; injection H4 as <-.
Defined.
