(* ===== verification/PagePolicy.v ===== *)
(** * FIFO, LRU and Clock refine their textbook descriptions

    The arrays, indices, time stamps and reference bits of the simulator are
    related to a queue of pages (FIFO), to the stack of pages by recency (LRU)
    and to a queue of pages with a second-chance bit (Clock).  From the stack
    view of LRU follows that more frames never mean more faults; for FIFO they
    can (Belady's anomaly). *)

From Stdlib Require Import ZArith Lia.
From stdpp Require Import base numbers list option sets sorting strings.
From S2P Require Import Prelude CText PageRepl PageDemand PageFacts.

Local Open Scope nat_scope.

(** ** Policies and refinement *)

(** A policy on an abstract state: a reference gives the next state and the
    number of faults, 0 or 1. *)
Fixpoint policy_faults {A} (step : Z -> A -> A * nat) (a : A) (refs : list Z) : nat :=
  match refs with
  | [] => 0
  | p :: refs' => let '(a', n) := step p a in n + policy_faults step a' refs'
  end.

Section refinement.
Context {St A : Type} `{Simulator St} (step : Z -> A -> A * nat).
Context (F : nat) (refs : list Z) (R : nat -> St -> A -> Prop).
Context (Hpages : pages refs).
Context (Hstep : forall k p s a,
  refs !! k = Some p -> p <> EMPTY -> R k s a ->
  exists s', sim_body F refs k s = Ok s' /\ R (k + 1) s' (step p a).1 /\
    sim_faults s' = sim_faults s + (step p a).2).

Lemma for_range_refines rem : forall k s a,
  k + rem = length refs -> R k s a ->
  exists s', for_range (sim_body F refs) k rem s = Ok s' /\
    sim_faults s' = sim_faults s + policy_faults step a (drop k refs).
Proof.
  induction rem as [|rem IH]; intros k s a Hk HR; simpl.
  - exists s. rewrite drop_ge by lia. simpl. split; [done|lia].
  - destruct (lookup_lt_is_Some_2 refs k ltac:(lia)) as [p Hp].
    pose proof (Forall_lookup_1 _ _ _ _ Hpages Hp) as Hne.
    destruct (Hstep k p s a) as (s1 & -> & HR1 & Hf1); [done..|]. simpl.
    rewrite Nat.add_1_r in HR1.
    destruct (IH (S k) s1 _ ltac:(lia) HR1) as (s' & -> & Hf').
    exists s'. split; [done|]. rewrite (drop_S _ _ _ Hp). simpl.
    destruct (step p a) as [a' n]. simpl in *. lia.
Qed.

Lemma simulate_refines a0 :
  R 0 (sim_init F) a0 -> sim_faults (sim_init F) = 0 ->
  exists s', for_range (sim_body F refs) 0 (length refs) (sim_init F) = Ok s' /\
    sim_faults s' = policy_faults step a0 refs.
Proof.
  intros HR Hf. destruct (for_range_refines (length refs) 0 (sim_init F) a0) as (s' & Hs & E);
    [done..|]. exists s'. rewrite Hf, drop_0 in E. done.
Qed.
End refinement.

(** ** Arrays as circular queues *)

(** The array read from position [i], round to [i] again. *)
Definition rot {A} (i : nat) (l : list A) : list A := drop i l ++ take i l.

Lemma rot_0 {A} (l : list A) : rot 0 l = l.
Proof. unfold rot. by rewrite drop_0, take_0, app_nil_r. Qed.

Lemma rot_elem {A} i (l : list A) x : x ∈ rot i l <-> x ∈ l.
Proof. unfold rot. rewrite <- (take_drop i l) at 3. rewrite !elem_of_app. tauto. Qed.

Lemma rot_fmap {A B} (f : A -> B) i l : f <$> rot i l = rot i (f <$> l).
Proof. unfold rot. by rewrite fmap_app, fmap_drop, fmap_take. Qed.

Lemma rot_length {A} i (l : list A) : length (rot i l) = length l.
Proof. unfold rot. len. Qed.

Lemma rot_head {A} i (l : list A) x :
  l !! i = Some x -> rot i l = x :: (drop (S i) l ++ take i l).
Proof. intros Hx. unfold rot. by rewrite (drop_S _ _ _ Hx). Qed.

(** Writing at the position and advancing it: the queue loses its head and
    gets the new element at the end. *)
Lemma rot_advance {A} i (l : list A) x :
  i < length l ->
  rot ((i + 1) mod length l) (<[i := x]> l) = (drop (S i) l ++ take i l) ++ [x].
Proof.
  intros Hi. unfold rot. rewrite insert_take_drop by done.
  assert (Hl : length (take i l) = i) by len.
  destruct (decide (i + 1 = length l)) as [E|E].
  - rewrite E, Nat.Div0.mod_same, drop_0, take_0, app_nil_r.
    rewrite (drop_ge l (S i)) by lia. done.
  - rewrite Nat.mod_small by lia. rewrite !(cons_middle x), !app_assoc.
    rewrite drop_app_length' by (len). rewrite take_app_length' by (len).
    by rewrite app_nil_r, app_assoc.
Qed.

(** ** FIFO *)
Definition fifo_step (F : nat) (p : Z) (q : list Z) : list Z * nat :=
  if decide (p ∈ q) then (q, 0)
  else if decide (length q < F) then (q ++ [p], 1)
  else (tail q ++ [p], 1).

Definition fifo_rel (F t : nat) (s : Fifo.state) (q : list Z) : Prop :=
  fifo_inv F t s /\ q = rot (Fifo.idx s) (resident s).

Lemma fifo_refines_step F refs k p s q :
  0 < F -> refs !! k = Some p -> p <> EMPTY -> fifo_rel F k s q ->
  exists s', Fifo.body F refs k s = Ok s' /\ fifo_rel F (k + 1) s' (fifo_step F p q).1 /\
    Fifo.faults s' = Fifo.faults s + (fifo_step F p q).2.
Proof.
  intros HF Hp Hne [(Hok & Hidx & Hz) ->]. unfold fifo_step, Fifo.body, resident. simpl.
  pose proof (fo_len _ _ _ Hok) as Hl. pose proof (fo_filled _ _ _ Hok) as Hle.
  start_body Hp Hok Hne j Hfind Hj Hin Hout.
  { rewrite decide_True by (by apply rot_elem). exists s. simpl.
    split_and!; [done|by split|lia]. }
  rewrite (decide_False (P := p ∈ _)) by (by rewrite rot_elem). rewrite rot_length, length_take_le by lia.
  case_decide as Hc; rewrite aset_lt by lia; eexists; (split; [done|]); simpl.
  - destruct (fill_frame Hok Hne Hc Hout) as (E & Hok' & _).
    split; [|lia]. split; [split_and!; simpl; [done|done|lia]|].
    unfold resident. simpl in *. rewrite E, Hz, !rot_0 by done. done.
  - destruct (replace_frame Hok Hne (Fifo.idx s) ltac:(lia) Hidx Hout) as (E & Hok' & _).
    split; [|lia]. split.
    { split_and!; simpl; [done|apply Nat.mod_upper_bound; lia|lia]. }
    unfold resident. simpl in *. rewrite !take_ge in * by len.
    destruct (aget_lt (Fifo.frames s) (Fifo.idx s) ltac:(lia)) as (x & Hx & _).
    rewrite (rot_head _ _ _ Hx). simpl. rewrite <- Hl at 1. symmetry. apply rot_advance. lia.
Qed.

(** C3. [simulate_fifo] refines the FIFO queue: its fault count is that of
    the policy that keeps a queue of at most [F] pages, appends a missing page
    and drops the oldest page when the queue is full. *)
Theorem fifo_refines_queue (F : nat) (refs : list Z)
    (HF : 0 < F) (Hpages : pages refs) :
  Fifo.simulate_fifo F refs = Ok (policy_faults (fifo_step F) [] refs).
Proof.
  destruct (simulate_refines (St := Fifo.state) (fifo_step F) F refs (fifo_rel F) Hpages)
    with (a0 := @nil Z) as (s & Hs & E).
  - intros k p s a. by apply fifo_refines_step.
  - split; [|done]. split_and!; [apply frames_ok_init|done|done].
  - done.
  - unfold Fifo.simulate_fifo. simpl in Hs, E. rewrite Hs. simpl. by rewrite E.
Qed.

Lemma fifo_refines_queue_witness :
  Fifo.simulate_fifo 3 belady_refs = Ok 9 /\
  Fifo.simulate_fifo 3 belady_refs = Ok (policy_faults (fifo_step 3) [] belady_refs).
Proof.
  split; [reflexivity|].
  exact (fifo_refines_queue 3 belady_refs (Nat.lt_0_succ 2) belady_pages).
Defined.

(** Belady's anomaly: [simulate_fifo] can have more faults with more
    frames. *)
Theorem fifo_anomaly :
  exists refs n m, pages refs /\ Fifo.simulate_fifo 3 refs = Ok n /\
    Fifo.simulate_fifo 4 refs = Ok m /\ n < m.
Proof.
  exists belady_refs, 9, 10. split_and!; [apply belady_pages|done|done|lia].
Qed.

(** ** Clock *)

(** The queue of pages with their reference bits, from the hand on. *)
Fixpoint second_chance (fuel : nat) (p : Z) (q : list (Z * bool)) : list (Z * bool) :=
  match fuel, q with
  | S fuel', (x, true) :: q' => second_chance fuel' p (q' ++ [(x, false)])
  | _, (x, false) :: q' => q' ++ [(p, true)]
  | _, _ => q
  end.

(** A hit sets the bit of the page. *)
Definition set_bit (p : Z) (xb : Z * bool) : Z * bool :=
  (xb.1, bool_decide (xb.1 = p) || xb.2).

Definition clock_step (F : nat) (p : Z) (q : list (Z * bool)) : list (Z * bool) * nat :=
  if decide (p ∈ q.*1) then (set_bit p <$> q, 0)
  else if decide (length q < F) then (q ++ [(p, true)], 1)
  else (second_chance (length q) p q, 1).

Definition clock_queue (s : Clock.state) : list (Z * bool) :=
  rot (Clock.hand s) (zip (resident s) (take (Clock.filled s) (Clock.refb s))).

Definition clock_rel (F t : nat) (s : Clock.state) (q : list (Z * bool)) : Prop :=
  clock_inv F t s /\ (Clock.filled s < F -> Clock.hand s = 0) /\ q = clock_queue s.

Lemma zip_lookup {A B} (l : list A) (k : list B) i x y :
  l !! i = Some x -> k !! i = Some y -> zip l k !! i = Some (x, y).
Proof. intros Hx Hy. apply lookup_zip_with_Some. eauto. Qed.

Lemma zip_insert_r {A B} (l : list A) (k : list B) i x y :
  l !! i = Some x -> zip l (<[i := y]> k) = <[i := (x, y)]> (zip l k).
Proof.
  intros Hx. rewrite <- (list_insert_id l i x) at 1 by done. symmetry. exact (insert_zip_with pair l k i x y).
Qed.

(** One round of the sweep, on a known bit. *)
Lemma sweep_round F p fuel (fr : list Z) (rb : list bool) h (b : bool) :
  length fr = F -> length rb = F -> rb !! h = Some b ->
  Clock.sweep (S fuel) F p fr rb h =
    if b then Clock.sweep fuel F p fr (<[h := false]> rb) ((h + 1) mod F)
    else Ok (<[h := p]> fr, <[h := true]> rb, (h + 1) mod F).
Proof.
  intros Hfr Hrb Hb. pose proof (lookup_lt_Some _ _ _ Hb). simpl.
  rewrite (aget_lookup _ _ _ Hb). simpl. by destruct b; rewrite !aset_lt by lia.
Qed.

(** A sweep of the hand is the second-chance rule on the queue. *)
Lemma sweep_second_chance F p : forall fuel fr rb h r,
  length fr = F -> length rb = F -> h < F ->
  Clock.sweep (S fuel) F p fr rb h = Ok r ->
  rot r.2 (zip r.1.1 r.1.2) = second_chance fuel p (rot h (zip fr rb)).
Proof.
  induction fuel as [|fuel IH]; intros fr rb h r Hfr Hrb Hh Hsw;
    destruct (aget_lt fr h ltac:(lia)) as (x & Hx & _);
    destruct (aget_lt rb h ltac:(lia)) as (b & Hb & _);
    (assert (Hz : length (zip fr rb) = F) by (rewrite length_zip_with; lia));
    rewrite (rot_head _ _ _ (zip_lookup _ _ _ _ _ Hx Hb));
    rewrite (sweep_round F p _ fr rb h b Hfr Hrb Hb) in Hsw.
  all: destruct b; [|injection Hsw as <-; simpl; rewrite <- (insert_zip_with pair), <- Hz;
    apply rot_advance; lia].
  - discriminate.
  - apply IH in Hsw; [|done|len|apply Nat.mod_upper_bound; lia].
    rewrite Hsw. cbn [second_chance].
    f_equal. rewrite (zip_insert_r _ _ _ x), <- Hz by done. apply rot_advance. lia.
Qed.

Lemma clock_queue_pages s :
  length (Clock.refb s) = length (Clock.frames s) ->
  forall x, x ∈ (clock_queue s).*1 <-> x ∈ resident s.
Proof.
  intros Hl x. unfold clock_queue. rewrite rot_fmap, rot_elem.
  rewrite fst_zip; [done|]. unfold resident. simpl. len.
Qed.

(** Setting the bit of the one frame that holds [p]. *)
Lemma set_bit_zip (fr : list Z) (rb : list bool) j p :
  NoDup fr -> length rb = length fr -> fr !! j = Some p ->
  zip fr (<[j := true]> rb) = set_bit p <$> zip fr rb.
Proof.
  intros Hnd Hl Hj. apply list_eq. intros i. rewrite list_lookup_fmap.
  destruct (decide (i < length fr)) as [Hi|Hi].
  - destruct (aget_lt fr i Hi) as (x & Hx & _).
    destruct (aget_lt rb i ltac:(lia)) as (b & Hb & _).
    rewrite (zip_lookup _ _ _ _ _ Hx Hb). unfold set_bit. simpl.
    destruct (decide (i = j)) as [->|Hne].
    + simplify_eq. rewrite bool_decide_eq_true_2 by done.
      apply zip_lookup; [done|]. by rewrite list_lookup_insert_eq by lia.
    + rewrite bool_decide_eq_false_2; [|intros ->; by apply Hne; eapply NoDup_lookup].
      apply zip_lookup; [done|]. by rewrite list_lookup_insert_ne by done.
  - rewrite !lookup_ge_None_2; [done|rewrite length_zip_with; len|rewrite length_zip_with; len].
Qed.

Lemma clock_refines_step F refs k p s q :
  0 < F -> refs !! k = Some p -> p <> EMPTY -> clock_rel F k s q ->
  exists s', Clock.body F refs k s = Ok s' /\ clock_rel F (k + 1) s' (clock_step F p q).1 /\
    Clock.faults s' = Clock.faults s + (clock_step F p q).2.
Proof.
  intros HF Hp Hne ((Hok & Hrb & Hh) & Hz & ->).
  pose proof (fo_len _ _ _ Hok) as Hl. pose proof (fo_filled _ _ _ Hok) as Hle.
  pose proof (clock_queue_pages s ltac:(lia) p) as Hpq.
  assert (Hlen : length (clock_queue s) = Clock.filled s).
  { unfold clock_queue. rewrite rot_length, length_zip_with. unfold resident. simpl. len. }
  unfold clock_step, Clock.body. rewrite Hlen.
  start_body Hp Hok Hne j Hfind Hj Hin Hout.
  - rewrite (decide_True (P := p ∈ _)) by (by apply Hpq).
    pose proof (lookup_lt_Some _ _ _ Hj). rewrite aset_lt by lia. simpl.
    eexists. split; [done|]. split; [|simpl; lia]. split; [split_and!; simpl; [done|len|done]|].
    split; [done|]. unfold clock_queue, resident. simpl. rewrite rot_fmap. f_equal.
    pose proof (frame_index Hok Hne j Hj) as Hjf.
    rewrite take_insert_lt by done. symmetry. apply set_bit_zip; [apply Hok|len|].
    by rewrite lookup_take_lt.
  - rewrite (decide_False (P := p ∈ _)) by (by rewrite Hpq). case_decide as Hc.
    + rewrite !aset_lt by lia. simpl. eexists. split; [done|]. split; [|simpl; lia].
      destruct (fill_frame Hok Hne Hc Hout) as (E & Hok' & _).
      split; [split_and!; simpl; [done|len|done]|]. split; [intros; apply Hz; simpl in *; lia|].
      unfold clock_queue, resident in *. simpl. rewrite E, Hz, !rot_0 by done.
      rewrite (take_S_r _ _ true) by (by rewrite list_lookup_insert_eq by lia).
      rewrite take_insert_ge by lia. symmetry. apply (zip_with_app pair _ [p] _ [true]). len.
    + destruct (sweep_ends F p (Clock.frames s) (Clock.refb s) (Clock.hand s) Hl Hrb Hh)
        as ([[fr' rb'] h'] & Hsw & v & Hv & -> & Hrb' & Eh).
      rewrite Hsw. simpl. eexists. split; [done|]. split; [|simpl; lia].
      destruct (replace_frame Hok Hne v ltac:(lia) Hv Hout) as (_ & Hok' & _).
      split; [split_and!; simpl; [done|done|subst; apply Nat.mod_upper_bound; lia]|].
      split; [simpl; lia|]. rewrite Nat.add_1_r in Hsw.
      apply sweep_second_chance in Hsw; [|done..]. simpl in Hsw.
      unfold clock_queue, resident in *. simpl. rewrite !(take_ge _ (Clock.filled s)) by len.
      replace (Clock.filled s) with F by lia. by rewrite Hsw.
Qed.

(** C4. [simulate_clock] refines the second-chance queue: its fault count is
    that of the policy that, when the queue is full, moves pages whose bit is
    set to the back with the bit cleared until it meets a clear bit, and
    replaces that page. *)
Theorem clock_refines_second_chance (F : nat) (refs : list Z)
    (HF : 0 < F) (Hpages : pages refs) :
  Clock.simulate_clock F refs = Ok (policy_faults (clock_step F) [] refs).
Proof.
  destruct (simulate_refines (St := Clock.state) (clock_step F) F refs (clock_rel F) Hpages)
    with (a0 := @nil (Z * bool)) as (s & Hs & E).
  - intros k p s a. by apply clock_refines_step.
  - split; [|done]. split_and!; [apply frames_ok_init|simpl; len|done].
  - done.
  - unfold Clock.simulate_clock. simpl in Hs, E. rewrite Hs. simpl. by rewrite E.
Qed.

Lemma clock_refines_second_chance_witness :
  Clock.simulate_clock 4 belady_refs = Ok 10 /\
  Clock.simulate_clock 4 belady_refs = Ok (policy_faults (clock_step 4) [] belady_refs).
Proof.
  split; [reflexivity|].
  exact (clock_refines_second_chance 4 belady_refs (Nat.lt_0_succ 3) belady_pages).
Defined.

(** ** LRU *)

(** The pages by recency of use, the last used first. *)
Definition touch (p : Z) (st : list Z) : list Z := p :: filter (fun x => x <> p) st.

(** With [F] frames the [F] most recently used pages are resident. *)
Definition lru_step (F : nat) (p : Z) (st : list Z) : list Z * nat :=
  (touch p st, fault p (take F st)).

(** Pages with their time stamps, the newest first. *)
Definition newest_first (q : list (Z * Z)) : Prop :=
  StronglySorted (fun a b => (b.2 < a.2)%Z) q.

Definition lru_rel (F t : nat) (s : Lru.state) (st : list Z) : Prop :=
  lru_inv F t s /\ NoDup st /\ length (take F st) = Lru.filled s /\
  exists q, newest_first q /\ Forall (fun a => (a.2 < Z.of_nat t)%Z) q /\
    q ≡ₚ zip (resident s) (take (Lru.filled s) (Lru.last s)) /\ q.*1 = take F st.

Lemma filter_take_in (p : Z) (st : list Z) : forall F,
  NoDup st -> p ∈ take F st ->
  take F (touch p st) = p :: filter (fun x => x <> p) (take F st).
Proof.
  unfold touch. intros F Hnd Hin. destruct F as [|F]; [by apply not_elem_of_nil in Hin|].
  simpl. f_equal. revert F Hin. induction Hnd as [|x st Hx Hnd IH]; intros F Hin; [by apply not_elem_of_nil in Hin|].
  simpl in Hin |- *. rewrite !filter_cons. destruct (decide (x = p)) as [->|Hne].
  - rewrite !decide_False by naive_solver.
    rewrite !filter_all; [done|..]; intros y Hy ->; [|done].
    apply Hx. by eapply elem_of_take in Hy as (? & ?%list_elem_of_lookup_2 & _).
  - rewrite !decide_True by done. destruct F as [|F]; [set_solver|]. simpl. f_equal.
    apply IH. set_solver.
Qed.

Lemma take_filter_out (p : Z) (st : list Z) : forall F,
  p ∉ take F st -> take F (filter (fun x => x <> p) st) = take F st.
Proof.
  induction st as [|x st IH]; intros [|F] Hin; try done. simpl in Hin.
  rewrite filter_cons, decide_True by set_solver. simpl. f_equal. apply IH. set_solver.
Qed.

Lemma take_touch_miss F p st :
  0 < F -> p ∉ take F st -> take F (touch p st) = p :: take (F - 1) st.
Proof.
  intros HF Hn. destruct F as [|F]; [lia|]. unfold touch. simpl. f_equal.
  rewrite Nat.sub_0_r. apply take_filter_out. intros Hin. apply Hn.
  apply elem_of_take in Hin as (i & Hi & ?). apply elem_of_take. exists i. split; [done|lia].
Qed.

Lemma touch_nodup p st : NoDup st -> NoDup (touch p st).
Proof.
  intros H. constructor; [|by apply NoDup_filter].
  rewrite list_elem_of_filter. naive_solver.
Qed.

(** Taking an element out of a queue sorted by stamp and putting it in front
    with a newer one. *)
Lemma newest_first_move (l1 l2 : list (Z * Z)) a p t :
  newest_first (l1 ++ a :: l2) -> Forall (fun a => (a.2 < t)%Z) (l1 ++ a :: l2) ->
  newest_first ((p, t) :: l1 ++ l2) /\ Forall (fun a => (a.2 < t + 1)%Z) ((p, t) :: l1 ++ l2).
Proof.
  intros Hs Hf. apply Forall_app in Hf as [Hf1 Hf2]. apply Forall_cons in Hf2 as [_ Hf2].
  assert (Hf : Forall (fun a : Z * Z => (a.2 < t)%Z) (l1 ++ l2)) by (by apply Forall_app).
  split.
  - constructor; [|done]. clear -Hs. induction l1 as [|b l1 IH]; simpl in *.
    + by inversion Hs.
    + inversion Hs as [|? ? Hs' Hb]; subst. constructor; [by apply IH|].
      apply Forall_app in Hb as [Hb1 Hb2]. apply Forall_cons in Hb2 as [_ Hb2]. by apply Forall_app.
  - constructor; [simpl; lia|]. eapply Forall_impl; [exact Hf|]. simpl. lia.
Qed.

(** Replacing an entry of a list, seen through a permutation of it. *)
Lemma perm_replace {A} (l q : list A) v a b :
  q ≡ₚ l -> l !! v = Some a ->
  exists l1 l2, q = l1 ++ a :: l2 /\ b :: l1 ++ l2 ≡ₚ <[v := b]> l.
Proof.
  intros Hp Hv. assert (Ha : a ∈ q) by (rewrite Hp; by eapply list_elem_of_lookup_2).
  apply list_elem_of_split in Ha as (l1 & l2 & ->). exists l1, l2. split; [done|].
  pose proof (lookup_lt_Some _ _ _ Hv).
  rewrite insert_take_drop by done. rewrite <- (take_drop_middle l v a Hv) in Hp.
  rewrite <- !Permutation_middle in Hp. apply Permutation_cons_inv in Hp.
  rewrite <- Permutation_middle. by constructor.
Qed.

(** The entry with the oldest stamp is the last of the queue. *)
Lemma newest_first_last (l1 l2 : list (Z * Z)) a :
  newest_first (l1 ++ a :: l2) -> (forall b, b ∈ l1 ++ a :: l2 -> (a.2 <= b.2)%Z) -> l2 = [].
Proof.
  intros Hs Hmin. destruct l2 as [|b l2]; [done|]. exfalso.
  assert ((b.2 < a.2)%Z) as Hlt.
  { induction l1 as [|c l1 IH]; simpl in *.
    - inversion Hs as [|? ? _ Hf]; subst. by inversion Hf.
    - inversion Hs; subst. apply IH; [done|]. set_solver. }
  specialize (Hmin b ltac:(set_solver)). lia.
Qed.

Lemma zip_insert {A B} (l : list A) (k : list B) i x y :
  <[i := (x, y)]> (zip l k) = zip (<[i := x]> l) (<[i := y]> k).
Proof. exact (insert_zip_with pair l k i x y). Qed.

Lemma filter_mid (p : Z) l1 l2 :
  NoDup (l1 ++ p :: l2) -> filter (fun x => x <> p) (l1 ++ p :: l2) = l1 ++ l2.
Proof.
  intros Hnd. apply NoDup_app in Hnd as (_ & H1 & H2). apply NoDup_cons in H2 as [H2 _].
  rewrite filter_app, filter_cons, decide_False by naive_solver.
  f_equal; apply filter_all; [|set_solver].
  intros x Hx ->. apply (H1 p Hx). set_solver.
Qed.

(** *** The three cases of a reference *)
Section lru_cases.
Context (F k : nat) (p : Z) (fr lst : list Z) (nf n : nat) (st : list Z).
Context (Hne : p <> EMPTY) (Hrel : lru_rel F k (Lru.St fr lst nf n) st).

Lemma lru_resident x : x ∈ take F st <-> x ∈ take n fr.
Proof using Hrel.
  destruct Hrel as ((Hok & Hll) & _ & _ & q & _ & _ & Hperm & Hq). simpl in *.
  pose proof (fo_len _ _ _ Hok) as Hl. pose proof (fo_filled _ _ _ Hok) as Hle.
  rewrite <- Hq, Hperm. unfold resident. simpl. rewrite fst_zip by len. done.
Qed.

(** A hit: the stamp of the page becomes the newest. *)
Lemma lru_hit j : fr !! j = Some p -> p ∈ take n fr -> lru_rel F (k + 1) (Lru.St fr (<[j := Z.of_nat k]> lst) nf n) (touch p st).
Proof using Hne Hrel.
  intros Hj Hin. pose proof (proj2 (lru_resident p) Hin) as Hst.
  destruct Hrel as ((Hok & Hll) & Hnd & Hfl & q & Hsort & Hold & Hperm & Hq). unfold resident in Hperm. simpl in *.
  pose proof (frame_index Hok Hne j Hj) as Hjf. pose proof (fo_len _ _ _ Hok) as Hl. pose proof (fo_filled _ _ _ Hok) as Hle.
  destruct (aget_lt lst j ltac:(lia)) as (a & Ha & _). assert (HF' : NoDup (take F st)) by (by apply NoDup_take).
  split; [split; [done|simpl; len]|]. split; [by apply touch_nodup|]. rewrite filter_take_in by done.
  destruct (perm_replace _ q j (p, a) (p, Z.of_nat k) Hperm) as (l1 & l2 & -> & Hp2).
  { apply zip_lookup; by rewrite lookup_take_lt. }
  destruct (newest_first_move _ _ _ p _ Hsort Hold) as [Hs' Ho'].
  rewrite fmap_app, fmap_cons in Hq. cbn [fst] in Hq. rewrite <- Hq in HF', Hfl |- *.
  rewrite (filter_mid p l1.*1 l2.*1 HF'). split; [rewrite <- Hfl; len|].
  exists ((p, Z.of_nat k) :: l1 ++ l2). split_and!; [done| | |].
  - by rewrite Nat2Z.inj_add.
  - rewrite Hp2, zip_insert. unfold resident. simpl.
    rewrite take_insert_lt, (list_insert_id (take n _)) by (done || by rewrite lookup_take_lt). done.
  - by rewrite fmap_cons, fmap_app.
Qed.

(** A free frame is taken. *)
Lemma lru_fill : n < F -> p ∉ take n fr ->
  lru_rel F (k + 1) (Lru.St (<[n := p]> fr) (<[n := Z.of_nat k]> lst) (S nf) (S n)) (touch p st).
Proof using Hne Hrel.
  intros Hc Hout. assert (Hres : p ∉ take F st) by (by rewrite lru_resident).
  destruct Hrel as ((Hok & Hll) & Hnd & Hfl & q & Hsort & Hold & Hperm & Hq). unfold resident in Hperm. simpl in *.
  pose proof (fo_len _ _ _ Hok) as Hl. destruct (fill_frame Hok Hne Hc Hout) as (E & Hok' & _). simpl in E.
  assert (Hst : length st <= F - 1) by (rewrite length_take in Hfl; lia).
  rewrite (take_ge st F) in * by lia.
  split; [split; simpl; [done|len]|]. split; [by apply touch_nodup|].
  rewrite take_touch_miss by (done || lia || by rewrite take_ge by lia).
  rewrite (take_ge st (F - 1)) by lia. simpl. split; [by rewrite Hfl|].
  exists ((p, Z.of_nat k) :: q). split_and!.
  - by constructor.
  - constructor; [simpl; lia|]. eapply Forall_impl; [exact Hold|]. simpl. lia.
  - unfold resident. simpl. rewrite E.
    rewrite (take_S_r _ _ (Z.of_nat k)) by (by rewrite list_lookup_insert_eq by lia). rewrite take_insert_ge by lia.
    rewrite (zip_with_app pair _ [p] _ [Z.of_nat k]) by len. rewrite Hperm. apply Permutation_cons_append.
  - by rewrite fmap_cons, Hq.
Qed.

(** The page with the oldest stamp goes: it is the last of the stack. *)
Lemma lru_replace v a : 0 < F -> n = F -> v < F -> lst !! v = Some a -> (forall i c, lst !! i = Some c -> (a <= c)%Z) -> p ∉ take n fr ->
  lru_rel F (k + 1) (Lru.St (<[v := p]> fr) (<[v := Z.of_nat k]> lst) (S nf) n) (touch p st).
Proof using Hne Hrel.
  intros HF Hn Hv Ha Hmin Hout. assert (Hres : p ∉ take F st) by (by rewrite lru_resident).
  destruct Hrel as ((Hok & Hll) & Hnd & Hfl & q & Hsort & Hold & Hperm & Hq). unfold resident in Hperm. simpl in *.
  pose proof (fo_len _ _ _ Hok) as Hl. destruct (replace_frame Hok Hne v Hn Hv Hout) as (E & Hok' & _). simpl in E.
  split; [split; simpl; [done|len]|]. split; [by apply touch_nodup|]. rewrite take_touch_miss by done.
  destruct (aget_lt fr v ltac:(lia)) as (x & Hx & _).
  destruct (perm_replace _ q v (x, a) (p, Z.of_nat k) Hperm) as (l1 & l2 & -> & Hp2).
  { apply zip_lookup; by rewrite lookup_take_lt by lia. }
  assert (l2 = []) as ->.
  { eapply newest_first_last; [exact Hsort|]. intros b Hb. rewrite Hperm in Hb.
    apply elem_of_lookup_zip_with in Hb as (i & y & c & -> & _ & Hc').
    apply lookup_take_Some in Hc' as [Hc' _]. simpl. by eapply Hmin. }
  destruct (newest_first_move _ _ _ p _ Hsort Hold) as [Hs' Ho'].
  rewrite app_nil_r in *. rewrite fmap_app in Hq. cbn [fmap list_fmap fst] in Hq.
  assert (E' : take (F - 1) st = l1.*1).
  { transitivity (take (F - 1) (take F st)); [rewrite take_take; f_equal; lia|].
    rewrite <- Hq. apply take_app_length'. apply (f_equal length) in Hq. len. }
  rewrite E'. split; [apply (f_equal length) in Hq; len|].
  exists ((p, Z.of_nat k) :: l1). split_and!; [done| | |done].
  - by rewrite Nat2Z.inj_add.
  - rewrite Hp2, zip_insert. unfold resident. simpl. by rewrite !take_insert_lt by lia.
Qed.
End lru_cases.

Lemma lru_refines_step F refs k p s st :
  0 < F -> refs !! k = Some p -> p <> EMPTY -> lru_rel F k s st ->
  exists s', Lru.body F refs k s = Ok s' /\ lru_rel F (k + 1) s' (lru_step F p st).1 /\
    Lru.faults s' = Lru.faults s + (lru_step F p st).2.
Proof.
  destruct s as [fr lst nf n]. intros HF Hp Hne Hrel. pose proof (lru_resident _ _ _ _ _ _ _ Hrel) as Hres.
  destruct (Hrel) as ((Hok & Hll) & _). simpl in Hok, Hll. pose proof (fo_len _ _ _ Hok) as Hl. pose proof (fo_filled _ _ _ Hok) as Hle.
  unfold lru_step, Lru.body. simpl. start_body Hp Hok Hne j Hfind Hj Hin Hout.
  - pose proof (frame_index Hok Hne j Hj) as Hjf. rewrite aset_lt by lia. eexists. split; [done|].
    rewrite fault_in by (by apply Hres). split; [by apply lru_hit|simpl; lia].
  - rewrite fault_out by (by rewrite Hres). case_decide as Hc.
    + rewrite !aset_lt by lia. simpl. eexists. split; [done|]. split; [by apply lru_fill|simpl; lia].
    + destruct (lru_victim_spec F lst HF Hll) as (v & a & -> & Hv & Ha & Hmin). simpl.
      rewrite !aset_lt by lia. simpl. eexists. split; [done|]. split; [|simpl; lia].
      eapply lru_replace; try done. lia.
Qed.

Lemma lru_stack F refs :
  0 < F -> pages refs -> Lru.simulate_lru F refs = Ok (policy_faults (lru_step F) [] refs).
Proof.
  intros HF Hpages.
  destruct (simulate_refines (St := Lru.state) (lru_step F) F refs (lru_rel F) Hpages)
    with (a0 := @nil Z) as (s & Hs & E).
  - intros k p s a. by apply lru_refines_step.
  - split; [split; [apply frames_ok_init|simpl; len]|]. split; [apply NoDup_nil_2|].
    split; [by rewrite take_nil|]. exists []. split_and!; [constructor|constructor|done|].
    by rewrite take_nil.
  - done.
  - unfold Lru.simulate_lru. simpl in Hs, E. rewrite Hs. simpl. by rewrite E.
Qed.

(** More frames hold at least the same pages. *)
Lemma lru_faults_mono F F' refs st :
  F <= F' -> policy_faults (lru_step F') st refs <= policy_faults (lru_step F) st refs.
Proof.
  intros HF. revert st. induction refs as [|p refs IH]; intros st; simpl; [lia|].
  specialize (IH (touch p st)). cut (fault p (take F' st) <= fault p (take F st)); [lia|].
  unfold fault. case_decide as H1; case_decide as H2; try lia.
  exfalso. apply H1. apply elem_of_take in H2 as (i & Hi & ?).
  apply elem_of_take. exists i. split; [done|lia].
Qed.

(** C5. [simulate_lru] refines the recency stack: a reference is a fault
    exactly when the page is not among the [F] most recently used pages, and
    the time stamps always evict the least recently used one. *)
Theorem lru_refines_stack (F : nat) (refs : list Z)
    (HF : 0 < F) (Hpages : pages refs) :
  Lru.simulate_lru F refs = Ok (policy_faults (lru_step F) [] refs).
Proof. by apply lru_stack. Qed.

Lemma lru_refines_stack_witness :
  Lru.simulate_lru 3 belady_refs = Ok 10 /\
  Lru.simulate_lru 3 belady_refs = Ok (policy_faults (lru_step 3) [] belady_refs).
Proof.
  split; [reflexivity|].
  exact (lru_refines_stack 3 belady_refs (Nat.lt_0_succ 2) belady_pages).
Defined.

(** LRU has no anomaly: with at least as many frames [simulate_lru] never
    has more faults. *)
Theorem lru_no_anomaly (F F' : nat) (refs : list Z)
    (HF : 0 < F) (HFF : F <= F') (Hpages : pages refs) :
  exists n n', Lru.simulate_lru F refs = Ok n /\ Lru.simulate_lru F' refs = Ok n' /\ n' <= n.
Proof.
  eexists _, _. split_and!; [apply lru_stack; done|apply lru_stack; [lia|done]|].
  by apply lru_faults_mono.
Qed.

Lemma lru_no_anomaly_witness :
  exists n n', Lru.simulate_lru 3 belady_refs = Ok n /\
    Lru.simulate_lru 4 belady_refs = Ok n' /\ n' <= n.
Proof.
  apply (lru_no_anomaly 3 4 belady_refs); [lia|lia|exact belady_pages].
Defined.
