(* ===== verification/PageMain.v ===== *)
(** * Reading the input of the page replacement simulator

    The reader ends on every text, keeps its array within its capacity, and
    reads back what a file of numbers says; [main] composes it with the four
    simulations. *)

From Stdlib Require Import ZArith Lia Ascii String SpecFloat.
From stdpp Require Import base numbers list option strings.
From S2P Require Import Prelude CText PageRepl PageFacts.

Local Open Scope nat_scope.

(** The array has room: [realloc] doubles a capacity that is positive. *)
Definition seq_ok (q : RefSeq) : Prop := length (refs q) <= cap q /\ 0 < cap q.

Lemma push_ref_ok x q :
  seq_ok q -> exists q', push_ref x q = Ok q' /\ seq_ok q' /\ refs q' = refs q ++ [x].
Proof.
  intros [Hl Hc]. unfold push_ref. simpl.
  destruct (decide (length (refs q) = cap q)) as [E|E]; (rewrite decide_True by lia);
    eexists; (split; [done|]); (split; [split; simpl; len|done]).
Qed.

Lemma read_refs_ends fuel : forall s q,
  seq_ok q -> String.length s < fuel -> read_refs fuel s q <> NoFuel.
Proof.
  induction fuel as [|fuel IH]; intros s q Hq Hs; [lia|]. simpl.
  pose proof (scan_d_fuel s). destruct (scan_d s) as [[[x s']|]| |] eqn:E; simpl; try done.
  destruct (push_ref_ok x q Hq) as (q' & -> & Hq' & _). simpl.
  apply IH; [done|]. apply scan_d_length in E. lia.
Qed.

Lemma read_refs_lines l : forall fuel q,
  Forall int_range l -> seq_ok q -> length l < fuel ->
  exists q', read_refs fuel (String "010"%char (print_lines l)) q = Ok q' /\ refs q' = refs q ++ l.
Proof.
  induction l as [|x l IH]; intros [|fuel] q Hl Hq Hf; simpl in Hf; try lia.
  - exists q. simpl. by rewrite app_nil_r.
  - apply Forall_cons in Hl as [Hx Hl]. cbn [read_refs].
    rewrite (proj2 (scan_d_lines x l Hx)). cbn [mbind run_bind].
    destruct (push_ref_ok x q Hq) as (q1 & -> & Hq1 & E1). cbn [mbind run_bind].
    destruct (IH fuel q1 Hl Hq1 ltac:(lia)) as (q' & -> & E).
    exists q'. split; [done|]. rewrite E, E1. by rewrite <- app_assoc.
Qed.

Lemma print_lines_length l : length l <= String.length (print_lines l).
Proof.
  induction l as [|x l IH]; simpl; [lia|].
  rewrite str_length_app. simpl. lia.
Qed.

(** C6. [read_input] ends on every file: its loop never runs out of the bound
    that the length of the text gives. *)
Theorem read_input_ends (file : option string) : read_input file <> NoFuel.
Proof.
  destruct file as [s|]; [|done]. unfold read_input. pose proof (scan_d_fuel s).
  destruct (scan_d s) as [[[f s']|]| |]; try done. cbn [mbind run_bind].
  case_decide; [done|].
  pose proof (read_refs_ends (S (String.length s')) s' (MkSeq [] 128)) as Hr.
  destruct (read_refs _ _ _); try done. exfalso. apply Hr; [split; simpl; lia|lia|done].
Qed.

Lemma read_input_lines F l :
  (1 <= F <= MAX_FRAMES)%Z -> Forall int_range l ->
  exists q, read_input (Some (print_lines (F :: l))) = Ok (ReadOk F q) /\ refs q = l.
Proof.
  intros HF Hl. assert (int_range F) as HFi.
  { unfold int_range, INT_MIN, INT_MAX, MAX_FRAMES in *. lia. }
  unfold read_input. rewrite (proj1 (scan_d_lines F l HFi)). cbn [mbind run_bind].
  rewrite decide_False by (unfold MAX_FRAMES in *; lia).
  destruct (read_refs_lines l (S (String.length (String "010"%char (print_lines l)))) (MkSeq [] 128))
    as (q & -> & E); [done|split; simpl; lia|pose proof (print_lines_length l); simpl; lia|].
  exists q. by simpl in E |- *.
Qed.

(** C7. On a file with a frame count in range and page numbers, one per line,
    [main] reads them back exactly, and what it prints under each title is the
    number of faults that simulation returns for that many frames and those
    references. *)
Theorem main_simulates (F : Z) (l : list Z)
    (HF : (1 <= F <= MAX_FRAMES)%Z) (Hl : Forall int_range l) (Hpages : pages l) :
  exists o f u c,
    main 2 (Some (print_lines (F :: l))) = Ok (0%Z, all_printed l o f u c) /\
    all_results (Z.to_nat F) l o f u c.
Proof.
  destruct (read_input_lines F l HF Hl) as (q & Hr & Hq).
  destruct (all_faults (Z.to_nat F) l ltac:(lia) Hpages) as (o & f & u & c & Hs & Hres).
  exists o, f, u, c. split; [|done]. unfold main. rewrite decide_False by lia.
  rewrite Hr. cbn [mbind run_bind]. by rewrite Hq, Hs.
Qed.

Lemma main_simulates_witness :
  exists o f u c,
    main 2 (Some (print_lines (3 :: belady_refs)%Z)) = Ok (0%Z, all_printed belady_refs o f u c) /\
    all_results 3 belady_refs o f u c.
Proof.
  apply (main_simulates 3 belady_refs); [unfold MAX_FRAMES; lia| |exact belady_pages].
  repeat (constructor; [unfold int_range, INT_MIN, INT_MAX; lia|]). constructor.
Defined.

(** [main] does not test what [read_input] returns.  A frame count out of
    range still prints four results (no faults, rate 0) and exits with 0, and
    a file with no number makes the simulations run on an uninitialised frame
    count.  A page numbered -1 is taken for an empty frame: references to it
    are hits from the start. *)
Theorem main_unchecked_input :
  (exists out, main 2 (Some "0 1 2 3") = Ok (0%Z, out) /\ Forall (fun r => nfaults r = 0) out) /\
  main 2 (Some "frames: 3") = Undef /\
  main 2 None = Undef /\
  simulate_all 3 [-1; -1]%Z =
    Ok [print_result "Optimal Algorithm:" 0 2; print_result "FIFO Algorithm:" 0 2;
        print_result "LRU Algorithm:" 0 2; print_result "Clock Algorithm:" 0 2].
Proof.
  split_and!; [|reflexivity..]. eexists. split; [reflexivity|].
  repeat (constructor; [reflexivity|]). constructor.
Qed.
