(* ===== verification/Fat.v ===== *)
(** * The FAT file system

    [src/Assignment4/Assignment4-2/fat.c]: a file allocation table, a
    directory of fixed size and a data area in one global structure, the
    commands on it, and its persistence between two runs of the program.

    [myfat] is passed and returned explicitly; every command returns the new
    structure, the value the C function returns and the text it prints.
    Fixed-size [char] arrays are lists of characters; the arguments of the
    commands are C strings, so they hold no NUL. *)

From Stdlib Require Import ZArith Lia Ascii String.
From stdpp Require Import base numbers list option strings.
From S2P Require Import Prelude CText.

Local Open Scope Z_scope.

Definition MAX_FILE_NUM : Z := 100.
Definition NUM_BLOCKS : Z := 1024.
Definition BLOCK_SIZE : Z := 32.
Definition MAX_FILE_NAME : Z := 100.

(** Entries of the table: free, end of chain, or the next block. *)
Definition FAT_FREE : Z := 0.
Definition FAT_EOF : Z := 65535.

Definition NUL : ascii := "000".

Record FileEntry := Entry {
  filename : list ascii;
  start_block : Z;
  size : Z }.

Record FileSystem := FS {
  fat_table : list Z;
  directory : list FileEntry;
  data_area : list ascii }.

Definition set_fat (t : list Z) (fs : FileSystem) : FileSystem :=
  FS t (directory fs) (data_area fs).
Definition set_dir (d : list FileEntry) (fs : FileSystem) : FileSystem :=
  FS (fat_table fs) d (data_area fs).
Definition set_data (a : list ascii) (fs : FileSystem) : FileSystem :=
  FS (fat_table fs) (directory fs) a.

(** [memset (&myfat, 0, sizeof (FileSystem))] *)
Definition zero_entry : FileEntry := Entry (replicate (Z.to_nat MAX_FILE_NAME) NUL) 0 0.
Definition zero_fs : FileSystem :=
  FS (replicate (Z.to_nat NUM_BLOCKS) 0)
     (replicate (Z.to_nat MAX_FILE_NUM) zero_entry)
     (replicate (Z.to_nat (NUM_BLOCKS * BLOCK_SIZE)) NUL).

(** ** Strings in arrays *)

(** [strcmp (arr, s) == 0]; running off the array is undefined. *)
Fixpoint strcmp_eq (arr : list ascii) (s : string) : run bool :=
  match arr with
  | [] => Undef
  | c :: arr' =>
      match s with
      | EmptyString => Ok (bool_decide (c = NUL))
      | String d s' => if decide (c = d) then strcmp_eq arr' s' else Ok false
      end
  end.

(** [strcpy (arr, s)] *)
Definition strcpy (arr : list ascii) (s : string) : run (list ascii) :=
  acopy arr 0 (list_ascii_of_string s ++ [NUL]).

(** [arr[0] == '\0'] *)
Definition is_empty (arr : list ascii) : run bool :=
  c ← aget arr 0; Ok (bool_decide (c = NUL)).

(** The characters of [l] before the first NUL, as [%s] prints them. *)
Fixpoint c_str (l : list ascii) : string :=
  match l with
  | [] => ""
  | c :: l' => if decide (c = NUL) then "" else String c (c_str l')
  end.

(** ** The commands *)
Definition nl : string := String "010" "".
Definition quoted (s : string) : string := "'" +:+ s +:+ "'".

(** [for (i ...) if (strcmp (directory[i].filename, filename) == 0)]: the
    first index that matches. *)
Fixpoint find_entry (dir : list FileEntry) (name : string) (i : nat)
  : run (option (nat * FileEntry)) :=
  match dir with
  | [] => Ok None
  | e :: dir' =>
      b ← strcmp_eq (filename e) name;
      if (b : bool) then Ok (Some (i, e)) else find_entry dir' name (S i)
  end.

Fixpoint free_from (t : list Z) (i : nat) : option nat :=
  match t with
  | [] => None
  | x :: t' => if decide (x = FAT_FREE) then Some i else free_from t' (S i)
  end.

Definition find_free_block (fs : FileSystem) : option nat := free_from (fat_table fs) 0.

(** The second pair of loops of [create_file]: the first empty entry [i] for
    which the scan of the table finds a free block [j]. *)
Fixpoint find_slot (fs : FileSystem) (dir : list FileEntry) (i : nat)
  : run (option (nat * FileEntry * nat)) :=
  match dir with
  | [] => Ok None
  | e :: dir' =>
      b ← is_empty (filename e);
      if (b : bool) then
        match find_free_block fs with
        | Some j => Ok (Some (i, e, j))
        | None => find_slot fs dir' (S i)
        end
      else find_slot fs dir' (S i)
  end.

Definition create_file (fs : FileSystem) (name : string) : run (FileSystem * Z * string) :=
  dup ← find_entry (directory fs) name 0;
  match dup with
  | Some _ => Ok (fs, -1, "File " +:+ quoted name +:+ " already exists." +:+ nl)
  | None =>
      slot ← find_slot fs (directory fs) 0;
      match slot with
      | Some (i, e, j) =>
          t ← aset (fat_table fs) j FAT_EOF;
          fn ← strcpy (filename e) name;
          d ← aset (directory fs) i (Entry fn (Z.of_nat j) 0);
          Ok (set_dir d (set_fat t fs), 0, "File " +:+ quoted name +:+ " created." +:+ nl)
      | None => Ok (fs, -1, "Error: Directory or Disk full." +:+ nl)
      end
  end.

(** [while (remain >= BLOCK_SIZE && fat_table[block] != 0xFFFF)] of
    [write_file]; each round takes a block size from [remain]. *)
Fixpoint seek (fuel : nat) (t : list Z) (block remain : Z) : run Z :=
  match fuel with
  | O => NoFuel
  | S fuel' =>
      if decide (BLOCK_SIZE <= remain) then
        next ← zget t block;
        if decide (next <> FAT_EOF) then seek fuel' t next (remain - BLOCK_SIZE)
        else Ok block
      else Ok block
  end.

(** The end of the write loop: all bytes written, the table full after some
    of them, or a block number out of range. *)
Inductive write_end := Written (n : Z) | DiskFull (n : Z) | Corrupt.

(** [while (bytes_written < data_len)]: each round writes at least a byte.
    [data] is the part of the argument from [data_offset] on, which equals
    [bytes_written] throughout. *)
Fixpoint write_loop (fuel : nat) (fs : FileSystem) (block offset : Z)
    (data : list ascii) (written : Z) : run (FileSystem * write_end) :=
  match fuel with
  | O => NoFuel
  | S fuel' =>
      match data with
      | [] => Ok (fs, Written written)
      | _ :: _ =>
          if decide (block < 0 \/ NUM_BLOCKS <= block) then Ok (fs, Corrupt)
          else
            let put (fs : FileSystem) (block offset : Z) :=
              let remaining := Z.of_nat (length data) in
              let space := BLOCK_SIZE - offset in
              let to_write := if decide (remaining < space) then remaining else space in
              a ← acopy (data_area fs) (block * BLOCK_SIZE + offset)
                    (take (Z.to_nat to_write) data);
              write_loop fuel' (set_data a fs) block (offset + to_write)
                (drop (Z.to_nat to_write) data) (written + to_write)
            in
            if decide (BLOCK_SIZE - offset <= 0) then
              match find_free_block fs with
              | None => Ok (fs, DiskFull written)
              | Some new_block =>
                  t ← zset (fat_table fs) block (Z.of_nat new_block);
                  t' ← aset t new_block FAT_EOF;
                  put (set_fat t' fs) (Z.of_nat new_block) 0
              end
            else put fs block offset
      end
  end.

Definition write_file (fs : FileSystem) (name data : string) : run (FileSystem * Z * string) :=
  found ← find_entry (directory fs) name 0;
  match found with
  | None => Ok (fs, -1, "FILE " +:+ name +:+ " not found." +:+ nl)
  | Some (i, e) =>
      let file_size := size e in
      if decide (start_block e < 0 \/ NUM_BLOCKS <= start_block e) then
        Ok (fs, -1, "File " +:+ name +:+ " has invalid start block." +:+ nl)
      else
        block ← seek (S (Z.to_nat (file_size / BLOCK_SIZE))) (fat_table fs)
                  (start_block e) file_size;
        let bytes := list_ascii_of_string data in
        '(fs', w) ← write_loop (S (length bytes)) fs block
                      (Z.rem file_size BLOCK_SIZE) bytes 0;
        let finish (n : Z) (msg : string) :=
          d ← aset (directory fs') i (Entry (filename e) (start_block e) (file_size + n));
          Ok (set_dir d fs', 0, msg +:+ "Data written to " +:+ quoted name +:+ "." +:+ nl) in
        match w with
        | Corrupt => Ok (fs', -1, "FAT chain corrupt file " +:+ name +:+ "." +:+ nl)
        | Written n => finish n ""
        | DiskFull n =>
            finish n ("No more space in FAT table. Partial data append to "
                      +:+ name +:+ "." +:+ nl)
        end
  end.

(** [while (block != 0xFFFF && bytes_read < total_size)] of [read_file]: the
    text printed and whether the chain was sound. *)
Fixpoint read_loop (fuel : nat) (fs : FileSystem) (block bytes_read total : Z)
  : run (string * bool) :=
  match fuel with
  | O => NoFuel
  | S fuel' =>
      if decide (block <> FAT_EOF /\ bytes_read < total) then
        if decide (block < 0 \/ NUM_BLOCKS <= block) then Ok ("", false)
        else
          let remaining := total - bytes_read in
          let read_size := if decide (remaining < BLOCK_SIZE) then remaining else BLOCK_SIZE in
          let out := c_str (take (Z.to_nat read_size)
                       (drop (Z.to_nat (block * BLOCK_SIZE)) (data_area fs))) in
          next ← zget (fat_table fs) block;
          '(rest, ok) ← read_loop fuel' fs next (bytes_read + read_size) total;
          Ok (out +:+ rest, ok)
      else Ok ("", true)
  end.

Definition read_file (fs : FileSystem) (name : string) : run (FileSystem * Z * string) :=
  found ← find_entry (directory fs) name 0;
  match found with
  | None => Ok (fs, -1, "File " +:+ name +:+ " not found." +:+ nl)
  | Some (_, e) =>
      let total_size := size e in
      if decide (total_size = 0) then Ok (fs, 0, "file " +:+ name +:+ " is empty" +:+ nl)
      else if decide (start_block e = -1) then
        Ok (fs, -1, "File " +:+ name +:+ " not initalized. Use create command first." +:+ nl)
      else
        '(out, ok) ← read_loop (S (Z.to_nat total_size)) fs (start_block e) 0 total_size;
        let head := "Content of " +:+ quoted name +:+ " : " in
        if (ok : bool) then Ok (fs, 0, head +:+ out +:+ nl)
        else Ok (fs, -1, head +:+ out +:+ "FAT chain corrupt while read " +:+ name +:+ "." +:+ nl)
  end.

(** [while (block != 0xFFFF)] of [delete_file]. *)
Fixpoint free_chain (fuel : nat) (t : list Z) (block : Z) : run (list Z) :=
  match fuel with
  | O => NoFuel
  | S fuel' =>
      if decide (block = FAT_EOF) then Ok t
      else
        next ← zget t block;
        t' ← zset t block FAT_FREE;
        free_chain fuel' t' next
  end.

(** [fuel] bounds the loop over the chain. *)
Definition delete_file_fuel (fuel : nat) (fs : FileSystem) (name : string)
  : run (FileSystem * Z * string) :=
  found ← find_entry (directory fs) name 0;
  match found with
  | None => Ok (fs, -1, "File " +:+ name +:+ " not found." +:+ nl)
  | Some (i, e) =>
      t ← free_chain fuel (fat_table fs) (start_block e);
      fn ← aset (filename e) 0 NUL;
      d ← aset (directory fs) i (Entry fn (start_block e) (size e));
      Ok (set_dir d (set_fat t fs), 0, "File " +:+ quoted name +:+ " deleted." +:+ nl)
  end.

Definition delete_file : FileSystem -> string -> run (FileSystem * Z * string) :=
  delete_file_fuel (S (Z.to_nat NUM_BLOCKS)).

Fixpoint list_entries (dir : list FileEntry) : run string :=
  match dir with
  | [] => Ok ""
  | e :: dir' =>
      b ← is_empty (filename e);
      rest ← list_entries dir';
      Ok (if (b : bool) then rest
          else "File : " +:+ c_str (filename e) +:+ ", SIze: " +:+ print_d (size e)
               +:+ " bytes" +:+ nl +:+ rest)
  end.

Definition list_files (fs : FileSystem) : run string :=
  out ← list_entries (directory fs);
  Ok ("Files in the file system." +:+ nl +:+ out).

(** ** The command line *)

(** [execute_cmd (cmd, filename, data, num)]: [None] is the null pointer.
    [strcmp] and the commands dereference what the guards let through. *)
Definition execute_cmd (fs : FileSystem) (cmd : string) (fname data : option string) (num : Z)
  : run (FileSystem * string) :=
  let op (r : run (FileSystem * Z * string)) := '(fs', _, out) ← r; Ok (fs', out) in
  if decide (cmd = "create") then
    match fname with
    | Some f => if decide (num <> 3) then Ok (fs, "Usage: create <filename>" +:+ nl)
                else op (create_file fs f)
    | None => Ok (fs, "Usage: create <filename>" +:+ nl)
    end
  else if decide (cmd = "write") then
    match fname with
    | Some f =>
        if decide (num <> 4) then Ok (fs, "Usage : write <filename> <data>" +:+ nl)
        else match data with Some d => op (write_file fs f d) | None => Undef end
    | None => Ok (fs, "Usage : write <filename> <data>" +:+ nl)
    end
  else if decide (cmd = "read") then
    match fname with
    | Some f => if decide (num <> 3) then Ok (fs, "Usage : read <filename>" +:+ nl)
                else op (read_file fs f)
    | None => Ok (fs, "Usage : read <filename>" +:+ nl)
    end
  else if decide (cmd = "delete") then
    match fname with
    | Some f => if decide (num <> 3) then Ok (fs, "Usage : delete <filename>" +:+ nl)
                else op (delete_file fs f)
    | None => Ok (fs, "Usage : delete <filename>" +:+ nl)
    end
  else if decide (cmd = "list") then
    out ← list_files fs; Ok (fs, out)
  else Ok (fs, "Invalid command." +:+ nl).

(** The file [fs_state.dat]: absent, or an image of the structure. *)
Definition disk := option FileSystem.

Definition load_file_system (d : disk) : FileSystem * string :=
  match d with
  | None => (zero_fs, "Warning : No saved state found. Starting fresh." +:+ nl)
  | Some fs => (fs, "")
  end.

(** [can_open] says whether [fopen (FS_STAT, "wb")] succeeds. *)
Definition save_file_system (can_open : bool) (fs : FileSystem) (d : disk) : disk * string :=
  if can_open then (Some fs, "")
  else (d, "Error : can't save file system state." +:+ nl).

(** [main]: exit code, disk and text.  [args] are [argv[1]], ... *)
Definition main (can_open : bool) (d : disk) (args : list string) : run (Z * disk * string) :=
  match args with
  | [] => Ok (1, d, "USAGE : ./fat <COMMAND> [ARGS]..." +:+ nl)
  | cmd :: _ =>
      let '(fs, out1) := load_file_system d in
      '(fs', out2) ← execute_cmd fs cmd (args !! 1%nat) (args !! 2%nat)
                       (Z.of_nat (length args) + 1);
      let '(d', out3) := save_file_system can_open fs' d in
      Ok (0, d', out1 +:+ out2 +:+ out3)
  end.
