(* ===== verification/FatInv.v ===== *)
(** * The invariant of the FAT file system

    Every live directory entry owns a chain of blocks that ends in the
    end-of-chain mark, chains are disjoint, every block in use belongs to a
    chain, and sizes fit the chains.  [repr fs m] relates such a structure to
    the map [m] from file names to contents, the abstract state of the file
    system. *)

From Stdlib Require Import ZArith Lia Ascii String.
From stdpp Require Import base numbers list option strings gmap sets.
From S2P Require Import Prelude CText Fat.

Local Open Scope nat_scope.

(** ** Chains *)
Inductive chain (t : list Z) : list nat -> Prop :=
| chain_last b : t !! b = Some FAT_EOF -> chain t [b]
| chain_next b b' c :
    t !! b = Some (Z.of_nat b') -> b' <> 0 -> chain t (b' :: c) -> chain t (b :: b' :: c).

(** The blocks a directory owns: a chain per live entry. *)
Abbreviation ownership := (list (option (list nat))).
Definition blocks (own : ownership) : list nat := concat (default [] <$> own).

Record entry_ok (t : list Z) (e : FileEntry) (oc : option (list nat)) : Prop := {
  eo_len : length (filename e) = Z.to_nat MAX_FILE_NAME;
  eo_nul : NUL ∈ filename e;
  eo_use : match oc with
    | None => c_str (filename e) = ""
    | Some c =>
        c_str (filename e) <> "" /\ chain t c /\ start_block e = Z.of_nat (default 0 (head c)) /\
        (32 * (Z.of_nat (length c) - 1) <= size e <= 32 * Z.of_nat (length c))%Z
    end }.

Record wf (fs : FileSystem) (own : ownership) : Prop := {
  wf_fat : length (fat_table fs) = Z.to_nat NUM_BLOCKS;
  wf_dir : length (directory fs) = Z.to_nat MAX_FILE_NUM;
  wf_data : length (data_area fs) = Z.to_nat (NUM_BLOCKS * BLOCK_SIZE);
  wf_entries : Forall2 (entry_ok (fat_table fs)) (directory fs) own;
  wf_disjoint : NoDup (blocks own);
  wf_noleak b x : fat_table fs !! b = Some x -> x <> FAT_FREE -> b ∈ blocks own;
  wf_names i j e e' :
    directory fs !! i = Some e -> directory fs !! j = Some e' ->
    c_str (filename e) <> "" -> c_str (filename e) = c_str (filename e') -> i = j }.

(** ** Contents *)
Definition block_data (d : list ascii) (b : nat) : list ascii := take 32 (drop (32 * b) d).
Definition chain_data (d : list ascii) (c : list nat) : list ascii :=
  concat (block_data d <$> c).
Definition content (fs : FileSystem) (e : FileEntry) (c : list nat) : list ascii :=
  take (Z.to_nat (size e)) (chain_data (data_area fs) c).

(** [fs] stores the files of [m] (with the chains [own]); contents hold no
    NUL, since they come from C strings. *)
Record repr_own (fs : FileSystem) (own : ownership) (m : gmap string (list ascii)) : Prop := {
  ro_wf : wf fs own;
  ro_file i e c :
    directory fs !! i = Some e -> own !! i = Some (Some c) ->
    m !! c_str (filename e) = Some (content fs e c) /\ NUL ∉ content fs e c;
  ro_dom name :
    is_Some (m !! name) ->
    exists i e c, directory fs !! i = Some e /\ own !! i = Some (Some c) /\
      c_str (filename e) = name }.

Definition repr (fs : FileSystem) (m : gmap string (list ascii)) : Prop :=
  exists own, repr_own fs own m.

(** The arguments of the commands. *)
Definition c_string (s : string) : Prop := NUL ∉ list_ascii_of_string s.
Definition valid_name (s : string) : Prop :=
  s <> "" /\ c_string s /\ String.length s < Z.to_nat MAX_FILE_NAME.

(** ** C strings *)
Lemma c_str_app s r : c_string s -> c_str (list_ascii_of_string s ++ NUL :: r) = s.
Proof.
  unfold c_string. induction s as [|c s IH]; simpl; intros H; [done|].
  rewrite decide_False by set_solver. f_equal. apply IH. set_solver.
Qed.

Lemma c_str_clean l : NUL ∉ l -> c_str l = string_of_list_ascii l.
Proof.
  induction l as [|c l IH]; simpl; intros H; [done|].
  rewrite decide_False by set_solver. f_equal. apply IH. set_solver.
Qed.

Lemma strcmp_eq_spec arr s :
  NUL ∈ arr -> c_string s -> strcmp_eq arr s = Ok (bool_decide (c_str arr = s)).
Proof.
  unfold c_string. revert s. induction arr as [|c arr IH]; intros s Harr Hs; simpl.
  { by apply not_elem_of_nil in Harr. }
  destruct s as [|d s]; simpl in *.
  - f_equal. apply bool_decide_ext. case_decide; naive_solver.
  - destruct (decide (c = d)) as [->|Hne].
    + rewrite (decide_False (P := d = NUL)) by set_solver.
      rewrite IH; [|set_solver|set_solver]. f_equal. apply bool_decide_ext. naive_solver.
    + f_equal. symmetry. apply bool_decide_eq_false. case_decide; naive_solver.
Qed.

Lemma c_str_length l : NUL ∈ l -> String.length (c_str l) < length l.
Proof.
  induction l as [|c l IH]; intros H; [by apply not_elem_of_nil in H|]. simpl.
  case_decide; simpl; [lia|]. apply elem_of_cons in H as [?|H]; [done|]. specialize (IH H). lia.
Qed.

Lemma list_ascii_length s : length (list_ascii_of_string s) = String.length s.
Proof. induction s as [|c s IH]; simpl; congruence. Qed.

Lemma strcpy_spec arr s :
  length arr = Z.to_nat MAX_FILE_NAME -> valid_name s ->
  exists arr', strcpy arr s = Ok arr' /\ length arr' = length arr /\ NUL ∈ arr' /\
    c_str arr' = s.
Proof.
  intros Hl (Hne & Hc & Hlen). unfold strcpy.
  assert (0 + length (list_ascii_of_string s ++ [NUL]) <= length arr).
  { rewrite length_app, list_ascii_length. simpl. lia. }
  rewrite (acopy_nat arr 0) by done. eexists. split; [done|].
  split; [by apply length_splice|]. unfold splice. simpl. rewrite <- app_assoc. simpl.
  split; [set_solver|by apply c_str_app].
Qed.

Lemma is_empty_spec arr : NUL ∈ arr -> is_empty arr = Ok (bool_decide (c_str arr = "")).
Proof.
  destruct arr as [|c arr]; intros H; [by apply not_elem_of_nil in H|].
  unfold is_empty. simpl. f_equal. apply bool_decide_ext. case_decide; naive_solver.
Qed.

(** ** Searching the directory and the table *)
Lemma find_entry_spec dir name i :
  c_string name -> Forall (fun e => NUL ∈ filename e) dir ->
  (find_entry dir name i = Ok None /\ forall e, e ∈ dir -> c_str (filename e) <> name) \/
  exists k e, find_entry dir name i = Ok (Some (i + k, e)) /\ dir !! k = Some e /\
    c_str (filename e) = name.
Proof.
  intros Hn Hd. revert i. induction Hd as [|e dir He Hd IH]; intros i; simpl.
  - left. split; [done|]. intros e He. by apply not_elem_of_nil in He.
  - rewrite strcmp_eq_spec by done. simpl. case_bool_decide as E.
    + right. exists 0, e. by rewrite Nat.add_0_r.
    + destruct (IH (S i)) as [[-> Hno]|(k & e' & -> & Hk & E')].
      * left. split; [done|]. set_solver.
      * right. exists (S k), e'. by rewrite <- Nat.add_succ_comm.
Qed.

Lemma free_from_spec t i :
  match free_from t i with
  | Some j => exists k, j = i + k /\ t !! k = Some FAT_FREE
  | None => forall k x, t !! k = Some x -> x <> FAT_FREE
  end.
Proof.
  revert i. induction t as [|x t IH]; intros i; simpl; [done|].
  case_decide as E.
  - exists 0. subst. by rewrite Nat.add_0_r.
  - specialize (IH (S i)). destruct (free_from t (S i)) as [j|].
    + destruct IH as (k & -> & Hk). exists (S k). split; [lia|done].
    + intros [|k] y Hy; simpl in Hy; [naive_solver|by eapply IH].
Qed.

Lemma find_slot_spec fs dir i :
  Forall (fun e => NUL ∈ filename e) dir ->
  (find_slot fs dir i = Ok None /\
     (find_free_block fs = None \/ forall e, e ∈ dir -> c_str (filename e) <> "")) \/
  exists k e j, find_slot fs dir i = Ok (Some (i + k, e, j)) /\ dir !! k = Some e /\
    c_str (filename e) = "" /\ find_free_block fs = Some j.
Proof.
  intros Hd. revert i. induction Hd as [|e dir He Hd IH]; intros i; simpl.
  - left. split; [done|]. right. intros e He. by apply not_elem_of_nil in He.
  - rewrite is_empty_spec by done. simpl. case_bool_decide as E.
    + destruct (find_free_block fs) as [j|] eqn:Hj.
      * right. exists 0, e, j. by rewrite Nat.add_0_r.
      * destruct (IH (S i)) as [[-> _]|(k & ? & ? & ? & ? & ? & ?)]; [|done].
        left. split; [done|by left].
    + destruct (IH (S i)) as [[-> Hno]|(k & e' & j & -> & Hk & E' & Hj)].
      * left. split; [done|]. destruct Hno; [by left|right; set_solver].
      * right. exists (S k), e', j. by rewrite <- Nat.add_succ_comm.
Qed.

(** ** Ownership *)
Lemma elem_of_blocks own b :
  b ∈ blocks own <-> exists i c, own !! i = Some (Some c) /\ b ∈ c.
Proof.
  unfold blocks. rewrite list_elem_of_In, in_concat.
  setoid_rewrite <- list_elem_of_In. split.
  - intros (c & Hc & Hb). apply list_elem_of_fmap in Hc as (oc & -> & Hoc).
    destruct oc as [c|]; [|by apply not_elem_of_nil in Hb].
    apply list_elem_of_lookup in Hoc as [i Hi]. eauto.
  - intros (i & c & Hi & Hb). exists c. split; [|done].
    apply list_elem_of_fmap. exists (Some c). split; [done|]. by eapply list_elem_of_lookup_2.
Qed.

(** The blocks of all entries but [i]. *)
Definition others (own : ownership) (i : nat) : list nat := blocks (<[i := None]> own).

Lemma blocks_split own i oc :
  own !! i = Some oc -> blocks own ≡ₚ default [] oc ++ others own i.
Proof.
  intros Hi. unfold others, blocks. pose proof (lookup_lt_Some _ _ _ Hi).
  rewrite insert_take_drop by done. rewrite <- (take_drop_middle own i oc Hi) at 1.
  rewrite !fmap_app, !concat_app. simpl. rewrite !app_assoc.
  by rewrite (Permutation_app_comm (concat _) (default [] oc)).
Qed.

Lemma others_insert own i oc : others (<[i := oc]> own) i = others own i.
Proof. unfold others. by rewrite list_insert_insert_eq. Qed.

Lemma elem_of_others own i b :
  b ∈ others own i <-> exists j c, j <> i /\ own !! j = Some (Some c) /\ b ∈ c.
Proof.
  unfold others. rewrite elem_of_blocks. split.
  - intros (j & c & Hj & Hb). apply list_lookup_insert_Some in Hj as [(_ & ? & _)|[? ?]]; [done|].
    eauto 6.
  - intros (j & c & Hne & Hj & Hb). exists j, c. split; [|done].
    by rewrite list_lookup_insert_ne by done.
Qed.

(** ** Chains under updates of the table *)
Lemma chain_ext t t' c : chain t c -> (forall b, b ∈ c -> t' !! b = t !! b) -> chain t' c.
Proof.
  induction 1 as [b Hb|b b' c Hb Hne Hc IH]; intros Heq.
  - constructor. rewrite Heq; [done|set_solver].
  - constructor; [rewrite Heq; [done|set_solver]|done|].
    apply IH. intros x Hx. apply Heq. set_solver.
Qed.

Lemma chain_nonempty t c : chain t c -> exists b c', c = b :: c'.
Proof. destruct 1; eauto. Qed.

Lemma chain_used t c b : chain t c -> b ∈ c -> exists x, t !! b = Some x /\ x <> FAT_FREE.
Proof.
  induction 1 as [b0 Hb|b0 b' c Hb Hne Hc IH]; intros Hin.
  - apply list_elem_of_singleton in Hin as ->. by exists FAT_EOF.
  - apply elem_of_cons in Hin as [->|Hin]; [|by apply IH].
    exists (Z.of_nat b'). split; [done|]. unfold FAT_FREE. lia.
Qed.

Lemma chain_data_ext d d' c :
  (forall b, b ∈ c -> block_data d' b = block_data d b) -> chain_data d' c = chain_data d c.
Proof.
  intros H. unfold chain_data. f_equal. apply list_fmap_ext. intros i b Hb.
  apply H. by eapply list_elem_of_lookup_2.
Qed.

(** ** Replacing one entry *)
Lemma entry_ok_ext t t' e oc :
  entry_ok t e oc -> (forall b, b ∈ default [] oc -> t' !! b = t !! b) -> entry_ok t' e oc.
Proof.
  intros [Hl Hn Hu] Heq. split; [done..|]. destruct oc as [c|]; [|done].
  destruct Hu as (? & ? & ? & ? & ?). split_and!; try done. by eapply chain_ext.
Qed.

Section update.
Context {fs : FileSystem} {own : ownership} {m : gmap string (list ascii)}.
Context (Hr : repr_own fs own m).
Context {i : nat} {e : FileEntry} {oc : option (list nat)}.
Context (Hi : directory fs !! i = Some e) (Hoc : own !! i = Some oc).

Lemma entry_facts j e' :
  directory fs !! j = Some e' -> exists oc', own !! j = Some oc' /\ entry_ok (fat_table fs) e' oc'.
Proof. intros Hj. by apply (Forall2_lookup_l _ _ _ _ _ (wf_entries _ _ (ro_wf _ _ _ Hr))). Qed.

Lemma live_chain j e' :
  directory fs !! j = Some e' -> c_str (filename e') <> "" ->
  exists c, own !! j = Some (Some c) /\ entry_ok (fat_table fs) e' (Some c).
Proof.
  intros Hj Hne. destruct (entry_facts j e' Hj) as ([c|] & Ho & He); [eauto|].
  by destruct He.
Qed.

Context (t' : list Z) (e' : FileEntry) (oc' : option (list nat)) (d' : list ascii).
Let fs' : FileSystem := FS t' (<[i := e']> (directory fs)) d'.
Let own' : ownership := <[i := oc']> own.

Context (Hlt : length t' = length (fat_table fs)) (Hld : length d' = length (data_area fs)).
Context (Hold : forall b, b ∈ others own i ->
  t' !! b = fat_table fs !! b /\ block_data d' b = block_data (data_area fs) b).
Context (Hfree : forall b x, t' !! b = Some x -> x <> FAT_FREE ->
  b ∈ default [] oc' \/ b ∈ others own i).
Context (Hnd : NoDup (default [] oc' ++ others own i)).
Context (He' : entry_ok t' e' oc').
Context (Hname : forall j e0, j <> i -> directory fs !! j = Some e0 ->
  c_str (filename e') <> "" -> c_str (filename e0) <> c_str (filename e')).

Lemma dir_lt : i < length (directory fs).
Proof. by eapply lookup_lt_Some. Qed.
Lemma own_lt : i < length own.
Proof. by eapply lookup_lt_Some. Qed.

Lemma dir'_lookup j e0 :
  directory fs' !! j = Some e0 -> (j = i /\ e0 = e') \/ (j <> i /\ directory fs !! j = Some e0).
Proof. intros H. apply list_lookup_insert_Some in H as [(-> & -> & _)|[? ?]]; auto. Qed.

Lemma wf_update : wf fs' own'.
Proof.
  pose proof (ro_wf _ _ _ Hr) as Hwf. pose proof dir_lt. pose proof own_lt.
  split; unfold fs', own'; simpl.
  - rewrite Hlt. apply Hwf.
  - rewrite length_insert. apply Hwf.
  - rewrite Hld. apply Hwf.
  - apply Forall2_same_length_lookup. split.
    + rewrite !length_insert. by eapply Forall2_length, wf_entries.
    + intros j e0 o0 Hj Ho. apply dir'_lookup in Hj as [[-> ->]|[Hne Hj]].
      * rewrite list_lookup_insert_eq in Ho by done. by simplify_eq.
      * rewrite list_lookup_insert_ne in Ho by done.
        destruct (entry_facts j e0 Hj) as (o1 & Ho1 & Hok). simplify_eq.
        eapply entry_ok_ext; [exact Hok|]. intros b Hb. apply Hold.
        apply elem_of_others. destruct o0 as [c|]; [eauto|by apply not_elem_of_nil in Hb].
  - rewrite (blocks_split _ i oc') by (by rewrite list_lookup_insert_eq).
    by rewrite others_insert.
  - intros b x Hb Hx. rewrite (blocks_split _ i oc') by (by rewrite list_lookup_insert_eq).
    rewrite others_insert, elem_of_app. by eapply Hfree.
  - intros j k e1 e2 Hj Hk Hne E. apply dir'_lookup in Hj, Hk.
    destruct Hj as [[-> ->]|[Hj Hj']], Hk as [[-> ->]|[Hk Hk']]; [done|..].
    + by destruct (Hname k e2 Hk Hk' Hne).
    + destruct (Hname j e1 Hj Hj'); congruence.
    + by eapply (wf_names _ _ Hwf).
Qed.

Lemma other_content j e0 c :
  j <> i -> directory fs !! j = Some e0 -> own !! j = Some (Some c) ->
  content fs' e0 c = content fs e0 c.
Proof.
  intros Hne Hj Ho. unfold content, fs'. simpl. f_equal. apply chain_data_ext.
  intros b Hb. apply Hold. apply elem_of_others. eauto.
Qed.

(** The map without the old entry. *)
Let m0 : gmap string (list ascii) :=
  match oc with Some _ => delete (c_str (filename e)) m | None => m end.

Lemma other_file j e0 c :
  j <> i -> directory fs !! j = Some e0 -> own !! j = Some (Some c) ->
  m0 !! c_str (filename e0) = Some (content fs e0 c).
Proof.
  intros Hne Hj Ho. destruct (ro_file _ _ _ Hr j e0 c Hj Ho) as [Hm _].
  unfold m0. destruct oc as [c1|]; [|done]. rewrite lookup_delete_ne; [done|].
  destruct (entry_facts i e Hi) as (? & Ho' & Hok). simplify_eq.
  destruct (eo_use _ _ _ Hok) as [Hlive _]. intros E.
  apply Hne. symmetry. by eapply (wf_names _ _ (ro_wf _ _ _ Hr)).
Qed.

Lemma m0_dom name :
  is_Some (m0 !! name) -> exists j e0 c, j <> i /\ directory fs !! j = Some e0 /\
    own !! j = Some (Some c) /\ c_str (filename e0) = name.
Proof.
  unfold m0. intros Hs. assert (is_Some (m !! name)) as Hs'.
  { destruct oc; [|done]. destruct Hs as [x Hx]. apply lookup_delete_Some in Hx as [_ ?]. eauto. }
  destruct (ro_dom _ _ _ Hr name Hs') as (j & e0 & c & Hj & Ho & E).
  exists j, e0, c. split_and!; try done. intros ->. simplify_eq.
  destruct Hs as [x Hx]. by rewrite lookup_delete_eq in Hx.
Qed.

Lemma repr_update_none : oc' = None -> repr_own fs' own' m0.
Proof.
  intros Enone. split; [apply wf_update| |].
  - intros j e0 c Hj Ho. pose proof own_lt.
    apply list_lookup_insert_Some in Ho as [(_ & ? & _)|[Hne Ho]]; [congruence|].
    apply dir'_lookup in Hj as [[-> _]|[_ Hj]]; [done|].
    rewrite (other_content j e0 c) by done. split; [by apply (other_file j)|].
    by apply (ro_file _ _ _ Hr j).
  - intros name Hs. destruct (m0_dom name Hs) as (j & e0 & c & Hne & Hj & Ho & Ename).
    exists j, e0, c. unfold fs', own'. simpl.
    by rewrite !list_lookup_insert_ne by done.
Qed.

Lemma repr_update_some c' :
  oc' = Some c' -> NUL ∉ content fs' e' c' ->
  repr_own fs' own' (<[c_str (filename e') := content fs' e' c']> m0).
Proof.
  intros E Hnul. pose proof dir_lt. pose proof own_lt.
  assert (Hlive : c_str (filename e') <> "").
  { pose proof (eo_use _ _ _ He') as Hu. rewrite E in Hu. apply Hu. }
  split; [apply wf_update| |].
  - intros j e0 c Hj Ho. apply dir'_lookup in Hj as [[-> ->]|[Hne Hj]].
    + unfold own' in Ho. rewrite list_lookup_insert_eq in Ho by done.
      assert (c = c') as -> by congruence. rewrite lookup_insert_eq. by split.
    + unfold own' in Ho. rewrite list_lookup_insert_ne in Ho by done.
      rewrite (other_content j e0 c) by done.
      split; [|by apply (ro_file _ _ _ Hr j)].
      rewrite lookup_insert_ne; [by apply (other_file j)|]. intros E'. by eapply Hname.
  - intros name Hs. destruct (decide (c_str (filename e') = name)) as [<-|Hne].
    + exists i, e', c'. unfold fs', own'. simpl. rewrite !list_lookup_insert_eq by done. split_and!; [done|by rewrite E|done].
    + rewrite lookup_insert_ne in Hs by done.
      destruct (m0_dom name Hs) as (j & e0 & c & Hji & Hj & Ho & E').
      exists j, e0, c. unfold fs', own'. simpl. by rewrite !list_lookup_insert_ne by done.
Qed.
End update.
