(* ===== verification/FatOps.v ===== *)
(** * The file system commands on well-formed structures

    Lemmas that relate the loops of the commands (search, seek, write, read,
    free) to the chains and contents of [FatInv]. *)

From Stdlib Require Import ZArith Lia Ascii String.
From stdpp Require Import base numbers list option strings gmap sets.
From S2P Require Import Prelude CText Fat FatInv.

Local Open Scope nat_scope.

(** ** Facts of a represented structure *)
Section facts.
Context {fs : FileSystem} {own : ownership} {m : gmap string (list ascii)}.
Context (Hr : repr_own fs own m).

Lemma entries_nul : Forall (fun e => NUL ∈ filename e) (directory fs).
Proof.
  apply Forall_lookup_2. intros i e Hi.
  destruct (entry_facts Hr i e Hi) as (? & _ & He). apply He.
Qed.

Lemma fat_length : length (fat_table fs) = 1024.
Proof. by rewrite (wf_fat _ _ (ro_wf _ _ _ Hr)). Qed.

Lemma data_length : length (data_area fs) = 32 * 1024.
Proof. by rewrite (wf_data _ _ (ro_wf _ _ _ Hr)). Qed.

Lemma block_lt b x : fat_table fs !! b = Some x -> b < 1024.
Proof. intros H. apply lookup_lt_Some in H. by rewrite fat_length in H. Qed.

(** A free block belongs to no chain. *)
Lemma free_not_owned j : fat_table fs !! j = Some FAT_FREE -> j ∉ blocks own.
Proof.
  intros Hj Hin. apply elem_of_blocks in Hin as (i & c & Hi & Hb).
  destruct (Forall2_lookup_r _ _ _ _ _ (wf_entries _ _ (ro_wf _ _ _ Hr)) Hi) as (e & He & Hok).
  destruct (eo_use _ _ _ Hok) as (_ & Hc & _).
  destruct (chain_used _ _ _ Hc Hb) as (x & Hx & Hne). congruence.
Qed.

(** The search by name finds the file of that name. *)
Lemma find_file name :
  valid_name name ->
  (find_entry (directory fs) name 0 = Ok None /\ m !! name = None) \/
  exists i e c, find_entry (directory fs) name 0 = Ok (Some (i, e)) /\
    directory fs !! i = Some e /\ own !! i = Some (Some c) /\
    entry_ok (fat_table fs) e (Some c) /\ c_str (filename e) = name /\
    m !! name = Some (content fs e c) /\ NUL ∉ content fs e c.
Proof.
  intros (Hne & Hcs & _).
  destruct (find_entry_spec (directory fs) name 0 Hcs entries_nul)
    as [[-> Hno]|(k & e & -> & Hk & E)].
  - left. split; [done|]. apply eq_None_not_Some. intros Hs.
    destruct (ro_dom _ _ _ Hr name Hs) as (i & e & c & Hi & _ & E).
    apply (Hno e); [by eapply list_elem_of_lookup_2|done].
  - right. destruct (live_chain Hr k e Hk ltac:(congruence)) as (c & Hc & Hok).
    destruct (ro_file _ _ _ Hr k e c Hk Hc) as [Hm Hn]. rewrite E in Hm.
    exists k, e, c. by split_and!.
Qed.

(** The blocks of a chain. *)
Lemma chain_nodup i c : own !! i = Some (Some c) -> NoDup (c ++ others own i).
Proof.
  intros Hi. rewrite <- (blocks_split own i (Some c) Hi : _ ≡ₚ c ++ _).
  apply (wf_disjoint _ _ (ro_wf _ _ _ Hr)).
Qed.

Lemma chain_blocks c : chain (fat_table fs) c -> Forall (fun b => b < 1024) c.
Proof.
  intros Hc. apply Forall_forall. intros b Hb.
  destruct (chain_used _ _ _ Hc Hb) as (x & Hx & _). by eapply block_lt.
Qed.
End facts.

Lemma bounded_nodup_length (c : list nat) n : NoDup c -> Forall (fun b => b < n) c -> length c <= n.
Proof.
  intros Hnd Hf. rewrite <- (length_seq n 0). apply submseteq_length, NoDup_submseteq; [done|].
  intros b Hb. rewrite elem_of_seq. rewrite Forall_forall in Hf.
  specialize (Hf b Hb). simpl in Hf. lia.
Qed.

(** ** Data of blocks *)
Lemma block_data_lookup d b k :
  block_data d b !! k = if decide (k < 32) then d !! (32 * b + k) else None.
Proof.
  unfold block_data. case_decide.
  - by rewrite lookup_take_lt, lookup_drop.
  - by rewrite lookup_take_ge by lia.
Qed.

Lemma block_data_length d b : 32 * b + 32 <= length d -> length (block_data d b) = 32.
Proof. intros H. unfold block_data. rewrite length_take, length_drop. lia. Qed.

Lemma chain_data_length d c :
  Forall (fun b => 32 * b + 32 <= length d) c -> length (chain_data d c) = 32 * length c.
Proof.
  unfold chain_data. induction 1 as [|b c Hb Hc IH]; [done|].
  rewrite fmap_cons. cbn [concat]. rewrite length_app, block_data_length, IH by done.
  cbn [length]. lia.
Qed.

Lemma chain_data_app d c1 c2 : chain_data d (c1 ++ c2) = chain_data d c1 ++ chain_data d c2.
Proof. unfold chain_data. by rewrite fmap_app, concat_app. Qed.

Lemma chain_data_one d b : chain_data d [b] = block_data d b.
Proof. unfold chain_data. simpl. by rewrite app_nil_r. Qed.

Lemma splice_lookup {A} (l : list A) i src k :
  i + length src <= length l ->
  splice l i src !! k = if decide (i <= k < i + length src) then src !! (k - i) else l !! k.
Proof.
  intros H. unfold splice. assert (length (take i l) = i) by (rewrite length_take; lia).
  case_decide.
  - rewrite lookup_app_r, lookup_app_l by lia. f_equal. lia.
  - destruct (decide (k < i)).
    + rewrite lookup_app_l by lia. by rewrite lookup_take_lt by lia.
    + rewrite !lookup_app_r by lia. rewrite lookup_drop. f_equal. lia.
Qed.

(** Writing within block [b] leaves the other blocks alone, ... *)
Lemma block_data_splice_ne d b b' o src :
  b <> b' -> o + length src <= 32 -> 32 * b + o + length src <= length d ->
  block_data (splice d (32 * b + o) src) b' = block_data d b'.
Proof.
  intros Hne Ho Hd. apply list_eq. intros k. rewrite !block_data_lookup.
  case_decide; [|done]. rewrite splice_lookup by done. by rewrite decide_False by lia.
Qed.

(** ... and puts the bytes at their offset. *)
Lemma block_data_splice d b o src :
  o + length src <= 32 -> 32 * b + 32 <= length d ->
  take (o + length src) (block_data (splice d (32 * b + o) src) b) =
    take o (block_data d b) ++ src.
Proof.
  intros Ho Hd. assert (length (take o (block_data d b)) = o).
  { rewrite length_take, block_data_length by done. lia. }
  apply list_eq. intros k. destruct (decide (k < o + length src)) as [Hk|Hk].
  - rewrite lookup_take_lt, block_data_lookup, decide_True by lia.
    rewrite splice_lookup by lia. case_decide.
    + rewrite lookup_app_r by lia. f_equal. lia.
    + rewrite lookup_app_l by lia. rewrite lookup_take_lt, block_data_lookup by lia.
      by rewrite decide_True by lia.
  - rewrite lookup_take_ge by lia. symmetry. apply lookup_ge_None_2. rewrite length_app. lia.
Qed.

(** ** Freeing a chain *)
Definition clear (t : list Z) (c : list nat) : list Z := foldl (fun t b => <[b := FAT_FREE]> t) t c.

Lemma clear_length t c : length (clear t c) = length t.
Proof. revert t. induction c as [|b c IH]; intros t; simpl; [done|]. by rewrite IH, length_insert. Qed.

Lemma clear_other t c b : b ∉ c -> clear t c !! b = t !! b.
Proof.
  revert t. induction c as [|b' c IH]; intros t Hb; simpl; [done|].
  rewrite IH by set_solver. apply list_lookup_insert_ne. set_solver.
Qed.

Lemma clear_in t c b x : b ∈ c -> clear t c !! b = Some x -> x = FAT_FREE.
Proof.
  revert t. induction c as [|b' c IH]; intros t Hb; simpl; [by apply not_elem_of_nil in Hb|].
  destruct (decide (b ∈ c)); [by apply IH|].
  assert (b = b') as -> by set_solver. rewrite clear_other by done.
  intros E. by apply list_lookup_insert_Some in E as [(_ & -> & _)|[? _]].
Qed.

Lemma free_chain_spec t c fuel :
  chain t c -> NoDup c -> Forall (fun b => b < 1024) c -> length c < fuel ->
  free_chain fuel t (Z.of_nat (default 0 (head c))) = Ok (clear t c).
Proof.
  revert t fuel. induction c as [|b c IH]; intros t [|fuel] Hc Hnd Hlt Hf;
    simpl in *; try lia; [inversion Hc|].
  apply NoDup_cons in Hnd as [Hb Hnd]. apply Forall_cons in Hlt as [Hb1 Hlt].
  rewrite decide_False by (unfold FAT_EOF; lia).
  inversion Hc as [? Hlast|? b' c' Hnext Hne Hc']; subst; simpl.
  - rewrite (zget_nat _ _ _ Hlast). simpl.
    rewrite zset_nat by (by eapply lookup_lt_Some). simpl.
    destruct fuel as [|fuel]; [simpl in Hf; lia|]. simpl. done.
  - rewrite (zget_nat _ _ _ Hnext). simpl.
    rewrite zset_nat by (by eapply lookup_lt_Some). simpl.
    apply (IH (<[b := FAT_FREE]> t) fuel); [|done|done|simpl in *; lia].
    eapply chain_ext; [exact Hc'|]. intros x Hx. apply list_lookup_insert_ne. set_solver.
Qed.


(** ** The end of a chain *)
Lemma chain_cons_inv t b c :
  chain t (b :: c) ->
  (c = [] /\ t !! b = Some FAT_EOF) \/
  exists b' c', c = b' :: c' /\ t !! b = Some (Z.of_nat b') /\ b' <> 0 /\ chain t c.
Proof. inversion 1; subst; eauto 10. Qed.

Lemma chain_end t c b : chain t (c ++ [b]) -> t !! b = Some FAT_EOF.
Proof.
  induction c as [|b0 c IH]; simpl; intros Hc; apply chain_cons_inv in Hc.
  - by destruct Hc as [[_ ?]|(? & ? & ? & _)].
  - destruct Hc as [[E _]|(? & ? & ? & ? & ? & Hc)]; [by destruct c|by apply IH].
Qed.

Lemma chain_unsnoc t c : chain t c -> exists c0 b, c = c0 ++ [b].
Proof.
  intros Hc. destruct c as [|b c _] using rev_ind; [inversion Hc|eauto].
Qed.

(** Linking block [j] behind the last block [b]. *)
Lemma chain_snoc t c b j :
  chain t (c ++ [b]) -> j ∉ c ++ [b] -> NoDup (c ++ [b]) -> j <> 0 -> j < length t ->
  chain (<[j := FAT_EOF]> (<[b := Z.of_nat j]> t)) ((c ++ [b]) ++ [j]).
Proof.
  intros Hc Hj Hnd H0 Hlt. pose proof (chain_end t c b Hc) as Hb.
  apply lookup_lt_Some in Hb. induction c as [|b0 c IH]; simpl in *.
  - constructor; [|done|constructor].
    + rewrite list_lookup_insert_ne by set_solver. by rewrite list_lookup_insert_eq.
    + rewrite list_lookup_insert_eq; [done|]. by rewrite length_insert.
  - apply NoDup_cons in Hnd as [Hb0 Hnd].
    apply chain_cons_inv in Hc as [[E _]|(b1 & c1 & E & Hn & Hne & Hc)]; [by destruct c|].
    specialize (IH Hc ltac:(set_solver) Hnd). rewrite E in IH, Hb0, Hj |- *. simpl in *.
    constructor; [|done|exact IH].
    rewrite !list_lookup_insert_ne; [done| |set_solver].
    intros ->. rewrite <- E, elem_of_app in Hb0. set_solver.
Qed.

(** The search for the last block stops there, also when that block is full. *)
Lemma seek_spec t c b remain fuel :
  chain t (c ++ [b]) -> Forall (fun x => x < 1024) (c ++ [b]) ->
  (32 * Z.of_nat (length c) <= remain <= 32 * Z.of_nat (length c) + 32)%Z ->
  length c < fuel ->
  seek fuel t (Z.of_nat (default 0 (head (c ++ [b])))) remain = Ok (Z.of_nat b).
Proof.
  revert remain fuel. induction c as [|b0 c IH]; intros remain [|fuel] Hc Hlt Hr Hf;
    cbn [app length] in *; try lia; simpl seek.
  - apply chain_end with (c := []) in Hc. case_decide; [|done].
    rewrite (zget_nat _ _ _ Hc). done.
  - rewrite decide_True by (unfold BLOCK_SIZE; lia).
    apply chain_cons_inv in Hc as [[E _]|(b1 & c1 & E & Hn & Hne & Hc)]; [by destruct c|].
    rewrite (zget_nat _ _ _ Hn). simpl.
    apply Forall_cons in Hlt as [_ Hlt].
    assert (b1 < 1024) by (rewrite E in Hlt; by apply Forall_cons in Hlt as [? _]).
    rewrite decide_True by (unfold FAT_EOF; lia).
    rewrite <- (IH (remain - BLOCK_SIZE)%Z fuel Hc Hlt) by (unfold BLOCK_SIZE; lia).
    by rewrite E.
Qed.

(** ** Reading *)
Lemma string_of_list_app l1 l2 :
  string_of_list_ascii (l1 ++ l2) = string_of_list_ascii l1 +:+ string_of_list_ascii l2.
Proof.
  induction l1 as [|c l1 IH]; [done|]. simpl. rewrite IH. done.
Qed.

Lemma read_loop_done fuel fs block br : 0 < fuel -> read_loop fuel fs block br br = Ok ("", true).
Proof. intros H. destruct fuel; [lia|]. simpl. by rewrite decide_False by lia. Qed.

(** One round: the whole block or the rest of the file, whichever is less. *)
Lemma read_loop_step fuel fs b next br total :
  b < 1024 -> fat_table fs !! b = Some next -> (br < total)%Z ->
  let n := (Z.min (total - br) 32) in
  NUL ∉ take (Z.to_nat n) (block_data (data_area fs) b) ->
  read_loop (S fuel) fs (Z.of_nat b) br total =
    ('(rest, ok) ← read_loop fuel fs next (br + n) total;
     Ok (string_of_list_ascii (take (Z.to_nat n) (block_data (data_area fs) b)) +:+ rest, ok)).
Proof.
  intros Hb Hn Hlt n Hnul. cbn [read_loop].
  rewrite decide_True by (unfold FAT_EOF; lia).
  rewrite decide_False by (unfold NUM_BLOCKS; lia).
  rewrite (zget_nat _ _ _ Hn). cbn [mbind run_bind].
  replace (if decide (total - br < BLOCK_SIZE)%Z then total - br else BLOCK_SIZE)%Z with n
    by (unfold n, BLOCK_SIZE; case_decide; lia).
  rewrite <- c_str_clean by done. unfold block_data.
  rewrite take_take, Nat.min_l by lia.
  by replace (Z.to_nat (Z.of_nat b * BLOCK_SIZE)) with (32 * b) by (unfold BLOCK_SIZE; lia).
Qed.

Lemma read_loop_spec fs c fuel br total :
  chain (fat_table fs) c -> Forall (fun b => b < 1024) c ->
  length (data_area fs) = 32 * 1024 ->
  (br <= total <= br + 32 * Z.of_nat (length c))%Z ->
  NUL ∉ take (Z.to_nat (total - br)) (chain_data (data_area fs) c) ->
  Z.to_nat (total - br) < fuel ->
  read_loop fuel fs (Z.of_nat (default 0 (head c))) br total =
    Ok (string_of_list_ascii (take (Z.to_nat (total - br)) (chain_data (data_area fs) c)), true).
Proof.
  intros Hc Hlt Hd. revert br fuel. induction c as [|b c IH]; [inversion Hc|].
  intros br fuel Hbr Hn Hf. apply Forall_cons in Hlt as [Hb Hlt].
  destruct (decide (br = total)) as [->|Hne].
  { rewrite read_loop_done by lia. by rewrite Z.sub_diag. }
  destruct fuel as [|fuel]; [lia|]. cbn [head default length] in *.
  change (b :: c) with ([b] ++ c) in Hn |- *.
  rewrite chain_data_app, chain_data_one, take_app in Hn |- *.
  assert (length (block_data (data_area fs) b) = 32) as Hl by (apply block_data_length; lia).
  assert (Hx : exists next, fat_table fs !! b = Some next /\
    (c = [] \/ (next = Z.of_nat (default 0 (head c)) /\ chain (fat_table fs) c))).
  { apply chain_cons_inv in Hc as [[-> ?]|(b1 & c1 & -> & ? & ? & ?)]; eauto. }
  destruct Hx as (next & Hnext & Hrest).
  assert (Htk : take (Z.to_nat (Z.min (total - br) 32)) (block_data (data_area fs) b) =
    take (Z.to_nat (total - br)) (block_data (data_area fs) b)).
  { destruct (decide (total - br <= 32)%Z); [by rewrite Z.min_l|].
    rewrite Z.min_r by lia. rewrite !take_ge; [done|lia|lia]. }
  rewrite (read_loop_step _ _ _ next br total Hb Hnext); cycle 1.
  { lia. }
  { rewrite Htk. rewrite elem_of_app in Hn. tauto. }
  rewrite Hl in Hn |- *. rewrite Htk, string_of_list_app.
  assert (Hm : Z.to_nat (total - br) - 32 = Z.to_nat (total - (br + Z.min (total - br) 32)))
    by lia.
  destruct Hrest as [->|[-> Hc']].
  - rewrite Z.min_l, (Z.add_comm br), Z.sub_add by (simpl in Hbr; lia).
    rewrite read_loop_done by lia. cbn [mbind run_bind]. unfold chain_data.
    rewrite fmap_nil. cbn [concat]. by rewrite take_nil.
  - rewrite IH; [|done|done|lia| |lia]; rewrite <- Hm; [done|].
    rewrite elem_of_app in Hn. tauto.
Qed.

(** ** Writing *)

(** The entry [e] with the size [s]. *)
Definition resize (e : FileEntry) (s : Z) : FileEntry := Entry (filename e) (start_block e) s.

Lemma content_put d c b o src :
  b ∉ c -> Forall (fun x => x < 1024) (c ++ [b]) -> length d = 32 * 1024 ->
  o + length src <= 32 ->
  take (32 * length c + o + length src) (chain_data (splice d (32 * b + o) src) (c ++ [b])) =
    take (32 * length c + o) (chain_data d (c ++ [b])) ++ src.
Proof.
  intros Hb Hlt Hd Ho. apply Forall_app in Hlt as [Hlt Hlb].
  apply Forall_cons in Hlb as [Hlb _]. rewrite !chain_data_app, !chain_data_one.
  assert (Hc : chain_data (splice d (32 * b + o) src) c = chain_data d c).
  { apply chain_data_ext. intros x Hx. apply block_data_splice_ne; [by intros ->|done|lia]. }
  assert (Hl : length (chain_data d c) = 32 * length c).
  { apply chain_data_length. eapply Forall_impl; [exact Hlt|]. simpl. lia. }
  rewrite Hc, <- Nat.add_assoc, <- Hl, !take_app_add, <- app_assoc. f_equal.
  apply block_data_splice; lia.
Qed.

(** While [write_loop] runs, the bytes written so far count as content of the
    entry, although its size is set at the end: [dir] is the directory with
    the size [s]. *)
Section write.
Context {i : nat} {e : FileEntry} {fs : FileSystem} {own : ownership}.
Context {m : gmap string (list ascii)} {c : list nat} {b : nat} {s : Z}.
Let name := c_str (filename e).
Let dir := <[i := resize e s]> (directory fs).
Context (Hi : i < length (directory fs)).
Context (Hr : repr_own (set_dir dir fs) own m).
Context (Ho : own !! i = Some (Some (c ++ [b]))).

Local Lemma wr_dir : directory (set_dir dir fs) !! i = Some (resize e s).
Proof. by apply list_lookup_insert_eq. Qed.

Local Lemma wr_ok : entry_ok (fat_table fs) (resize e s) (Some (c ++ [b])).
Proof. destruct (entry_facts Hr i _ wr_dir) as (oc & Hoc & Hok). by simplify_eq. Qed.

Local Lemma wr_size : (32 * Z.of_nat (length c) <= s <= 32 * Z.of_nat (length c) + 32)%Z.
Proof.
  destruct (eo_use _ _ _ wr_ok) as (_ & _ & _ & Hs). rewrite length_app in Hs. simpl in Hs. lia.
Qed.

Local Lemma wr_chain : chain (fat_table fs) (c ++ [b]).
Proof. apply (eo_use _ _ _ wr_ok). Qed.

Local Lemma wr_content :
  m !! name = Some (take (Z.to_nat s) (chain_data (data_area fs) (c ++ [b]))) /\
  NUL ∉ take (Z.to_nat s) (chain_data (data_area fs) (c ++ [b])).
Proof. exact (ro_file _ _ _ Hr i _ _ wr_dir Ho). Qed.

Local Lemma wr_names j e0 :
  j <> i -> directory (set_dir dir fs) !! j = Some e0 -> name <> "" ->
  c_str (filename e0) <> name.
Proof.
  intros Hne Hj Hn E. apply Hne. symmetry.
  eapply (wf_names _ _ (ro_wf _ _ _ Hr)); [exact wr_dir|exact Hj|done|done].
Qed.

(** Copying [src] into the room left in the last block. *)
Lemma put_step src :
  NUL ∉ src ->
  (s + Z.of_nat (length src) <= 32 * Z.of_nat (length c) + 32)%Z ->
  let o := Z.to_nat (s - 32 * Z.of_nat (length c)) in
  let d' := splice (data_area fs) (32 * b + o) src in
  exists x, m !! name = Some x /\
  repr_own (set_dir (<[i := resize e (s + Z.of_nat (length src))]> (directory fs))
    (set_data d' fs)) own (<[name := x ++ src]> m).
Proof.
  intros Hsrc Hroom o d'. pose proof wr_size as Hs. destruct wr_content as [Hm Hx].
  pose proof (data_length Hr : length (data_area fs) = 32 * 1024) as Hd.
  pose proof (chain_nodup Hr _ _ Ho) as Hnd.
  pose proof (chain_blocks Hr _ wr_chain) as Hlt.
  assert (Hbc : (b ∉ c) /\ (b ∉ others own i)).
  { rewrite <- app_assoc in Hnd. apply NoDup_app in Hnd as (_ & Hc & Hb).
    apply NoDup_cons in Hb as [Hb _]. split; [|done]. intros Hin.
    apply (Hc b Hin). by left. }
  eexists. split; [exact Hm|].
  assert (Hc : content (FS (fat_table fs) dir d') (resize e (s + Z.of_nat (length src))) (c ++ [b])
    = take (Z.to_nat s) (chain_data (data_area fs) (c ++ [b])) ++ src).
  { unfold content, d'. simpl.
    replace (Z.to_nat (s + Z.of_nat (length src))) with (32 * length c + o + length src) by lia.
    replace (Z.to_nat s) with (32 * length c + o) by lia.
    apply content_put; [apply Hbc|done|done|lia]. }
  assert (Hu : repr_own (FS (fat_table fs) (<[i := resize e (s + Z.of_nat (length src))]> dir) d')
    (<[i := Some (c ++ [b])]> own)
    (<[name := content (FS (fat_table fs) dir d') (resize e (s + Z.of_nat (length src))) (c ++ [b])]>
       (delete name m))).
  { eapply (repr_update_some Hr wr_dir Ho); simpl; try done.
    - apply length_splice.
      apply Forall_app in Hlt as [_ Hlt]. apply Forall_cons in Hlt as [Hlt _]. lia.
    - intros b0 Hb0. split; [done|]. apply block_data_splice_ne; [|lia|].
      + intros ->. by destruct Hbc.
      + apply Forall_app in Hlt as [_ Hlt]. apply Forall_cons in Hlt as [Hlt _]. lia.
    - intros b0 x Hb0 Hx0. rewrite <- elem_of_app.
      rewrite <- (blocks_split own i _ Ho : _ ≡ₚ ((c ++ [b]) ++ _)).
      by eapply (wf_noleak _ _ (ro_wf _ _ _ Hr)).
    - destruct wr_ok as [H1 H2 H3]. split; [done..|].
      destruct H3 as (H3 & H4 & H5 & _). cbn [size resize]. rewrite length_app. cbn [length].
      split_and!; first [done|lia].
    - intros j e0 Hne Hj Hn. by apply (wr_names j).
    - unfold content in Hc |- *. cbn [data_area] in *. rewrite Hc, elem_of_app. tauto. }
  rewrite Hc, insert_delete_eq, (list_insert_id own i _ Ho) in Hu.
  unfold dir in Hu. by rewrite list_insert_insert_eq in Hu.
Qed.

(** Linking a free block [j] behind a last block that is full. *)
Lemma alloc_step j :
  fat_table fs !! j = Some FAT_FREE -> j <> 0 -> s = (32 * Z.of_nat (length c) + 32)%Z ->
  repr_own (set_dir dir (set_fat (<[j := FAT_EOF]> (<[b := Z.of_nat j]> (fat_table fs))) fs))
    (<[i := Some ((c ++ [b]) ++ [j])]> own) m.
Proof.
  intros Hj H0 Hs. set (t' := <[j := FAT_EOF]> (<[b := Z.of_nat j]> (fat_table fs))).
  pose proof (free_not_owned Hr j Hj) as Hfree.
  rewrite (blocks_split own i _ Ho : _ ≡ₚ ((c ++ [b]) ++ _)) in Hfree.
  pose proof (chain_nodup Hr _ _ Ho) as Hnd. destruct wr_content as [Hm Hx].
  rewrite elem_of_app in Hfree. apply NoDup_app in Hnd as (Hnd & Hsep & Hno).
  assert (Hjb : b <> j) by (intros ->; apply Hfree; left; apply elem_of_app; right; by left).
  assert (Hbo : b ∉ others own i) by (apply Hsep, elem_of_app; right; by left).
  assert (Hl : length (chain_data (data_area fs) (c ++ [b])) = Z.to_nat s).
  { rewrite chain_data_length; [rewrite length_app; cbn [length]; lia|].
    eapply Forall_impl; [exact (chain_blocks Hr _ wr_chain)|]. intros x. cbv beta.
    pose proof (data_length Hr : length (data_area fs) = 32 * 1024). lia. }
  assert (Hc : content (FS t' dir (data_area fs)) (resize e s) ((c ++ [b]) ++ [j]) =
    take (Z.to_nat s) (chain_data (data_area fs) (c ++ [b]))).
  { unfold content. cbn [size resize data_area]. rewrite chain_data_app, take_app_le; [done|lia]. }
  assert (Hu : repr_own (FS t' (<[i := resize e s]> dir) (data_area fs))
    (<[i := Some ((c ++ [b]) ++ [j])]> own)
    (<[name := content (FS t' dir (data_area fs)) (resize e s) ((c ++ [b]) ++ [j])]>
       (delete name m))).
  { eapply (repr_update_some Hr wr_dir Ho); try done.
    - unfold t'. by rewrite !length_insert.
    - intros b0 Hb0. split; [|done]. unfold t'.
      rewrite !list_lookup_insert_ne; [done|by intros ->|intros ->; tauto].
    - intros b0 x Hb0 Hx0. cbn [default from_option id]. rewrite <- elem_of_app.
      destruct (decide (b0 = j)) as [->|Hne];
        [rewrite !elem_of_app; left; right; by left|].
      rewrite <- app_assoc. apply elem_of_app.
      unfold t' in Hb0. rewrite list_lookup_insert_ne in Hb0 by done.
      apply list_lookup_insert_Some in Hb0 as [(-> & _ & _)|[_ Hb0]].
      { left. apply elem_of_app. right. by left. }
      pose proof (wf_noleak _ _ (ro_wf _ _ _ Hr) b0 x Hb0 Hx0) as Hin.
      rewrite (blocks_split own i _ Ho : _ ≡ₚ ((c ++ [b]) ++ _)), elem_of_app in Hin.
      destruct Hin as [Hin|Hin]; [by left|right; apply elem_of_app; by right].
    - cbn [default from_option id]. apply NoDup_app. split_and!; [| |done].
      2: { intros x [Hx0| ->%list_elem_of_singleton]%elem_of_app; [by apply Hsep|tauto]. }
      apply NoDup_app. split_and!; [done| |apply NoDup_singleton].
      intros x Hx0 ->%list_elem_of_singleton. tauto.
    - destruct wr_ok as [H1 H2 (H3 & H4 & H5 & _)]. split; [done..|].
      cbn [size resize start_block filename] in *. rewrite !length_app. cbn [length].
      split_and!; [done| |by rewrite H5; destruct c|lia..].
      apply chain_snoc; [done|tauto|done|done|by eapply lookup_lt_Some].
    - intros j0 e0 Hne Hj0 Hn. by apply (wr_names j0).
    - unfold content in Hc |- *. cbn [data_area] in *. by rewrite Hc. }
  rewrite Hc, insert_delete_eq, insert_id in Hu by done.
  unfold dir in Hu |- *. by rewrite list_insert_insert_eq in Hu.
Qed.
End write.

(** Block 0 is in use: a search for a free block cannot return the number that
    marks a free entry. *)
Definition block0_used (fs : FileSystem) : Prop := fat_table fs !! 0 <> Some FAT_FREE.

(** The file system after the loop has appended a prefix of [data]. *)
Record appended (fs fs' : FileSystem) (i : nat) (e : FileEntry) (m : gmap string (list ascii))
    (s : Z) (data : list ascii) (n : nat) : Prop := {
  ap_le : n <= length data;
  ap_dir : directory fs' = directory fs;
  ap_block0 : block0_used fs';
  ap_repr : exists own' x, m !! c_str (filename e) = Some x /\
    repr_own (set_dir (<[i := resize e (s + Z.of_nat n)]> (directory fs)) fs') own'
      (<[c_str (filename e) := x ++ take n data]> m) }.

Definition end_ok (fs' : FileSystem) (data : list ascii) (n : nat) (written : Z) (w : write_end) : Prop :=
  (w = Written (written + Z.of_nat n) /\ n = length data) \/
  (w = DiskFull (written + Z.of_nat n) /\ n < length data /\ find_free_block fs' = None).

(** What a run of the loop from the given state establishes. *)
Definition writes (fs : FileSystem) (i : nat) (e : FileEntry) (m : gmap string (list ascii))
    (s : Z) (data : list ascii) (written : Z) (r : run (FileSystem * write_end)) : Prop :=
  exists fs' w n, r = Ok (fs', w) /\ end_ok fs' data n written w /\
    appended fs fs' i e m s data n.

(** The copy of one round, after the test for a full block. *)
Definition put_round (fuel : nat) (fs : FileSystem) (block offset : Z) (data : list ascii)
    (written : Z) : run (FileSystem * write_end) :=
  let remaining := Z.of_nat (length data) in
  let space := (BLOCK_SIZE - offset)%Z in
  let to_write := if decide (remaining < space)%Z then remaining else space in
  a ← acopy (data_area fs) (block * BLOCK_SIZE + offset) (take (Z.to_nat to_write) data);
  write_loop fuel (set_data a fs) block (offset + to_write)
    (drop (Z.to_nat to_write) data) (written + to_write).

Section write_loop.
Context (i : nat) (e : FileEntry).

(** The loop on [fuel] is correct from every state. *)
Definition loop_ok (fuel : nat) : Prop :=
  forall fs own m c b s data written,
  i < length (directory fs) ->
  repr_own (set_dir (<[i := resize e s]> (directory fs)) fs) own m ->
  own !! i = Some (Some (c ++ [b])) -> block0_used fs ->
  NUL ∉ data -> length data < fuel ->
  writes fs i e m s data written
    (write_loop fuel fs (Z.of_nat b) (s - 32 * Z.of_nat (length c)) data written).

Lemma put_round_ok fuel fs own m c b s data written :
  loop_ok fuel ->
  i < length (directory fs) ->
  repr_own (set_dir (<[i := resize e s]> (directory fs)) fs) own m ->
  own !! i = Some (Some (c ++ [b])) -> block0_used fs ->
  NUL ∉ data -> length data < S fuel -> data <> [] ->
  (s < 32 * Z.of_nat (length c) + 32)%Z ->
  writes fs i e m s data written
    (put_round fuel fs (Z.of_nat b) (s - 32 * Z.of_nat (length c)) data written).
Proof.
  intros IH Hi Hr Ho H0 Hn Hf Hne Hroom. unfold put_round.
  pose proof (wr_size Hi Hr Ho) as Hs.
  pose proof (chain_blocks Hr _ (wr_chain Hi Hr Ho)) as Hlt.
  apply Forall_app in Hlt as [_ Hlt]. apply Forall_cons in Hlt as [Hlt _].
  pose proof (data_length Hr : length (data_area fs) = 32 * 1024) as Hd.
  set (o := Z.to_nat (s - 32 * Z.of_nat (length c))).
  set (k := Nat.min (length data) (32 - o)).
  replace (if decide _ then _ else _) with (Z.of_nat k)
    by (unfold k, o, BLOCK_SIZE; case_decide; lia).
  rewrite Nat2Z.id.
  replace (Z.of_nat b * BLOCK_SIZE + (s - 32 * Z.of_nat (length c)))%Z
    with (Z.of_nat (32 * b + o)) by (unfold o, BLOCK_SIZE; lia).
  assert (Hk : length (take k data) = k) by (rewrite length_take; lia).
  assert (0 < length data) by (destruct data; [done|simpl; lia]).
  rewrite acopy_nat by lia. cbn [mbind run_bind].
  assert ((NUL ∉ take k data) /\ (NUL ∉ drop k data)) as [Hn1 Hn2].
  { rewrite <- (take_drop k data), elem_of_app in Hn. tauto. }
  destruct (put_step Hi Hr Ho (take k data) Hn1) as (x & Hx & Hr'); [lia|].
  fold o in Hr'. rewrite Hk in Hr'.
  destruct (IH (set_data (splice (data_area fs) (32 * b + o) (take k data)) fs)
    own (<[c_str (filename e) := x ++ take k data]> m) c b (s + Z.of_nat k)%Z
    (drop k data) (written + Z.of_nat k)%Z) as (fs' & w & n & Hw & He & Ha); try done.
  { rewrite length_drop. lia. }
  exists fs', w, (k + n). split; [|split].
  - rewrite <- Hw. f_equal. lia.
  - destruct He as [[-> ->]|(-> & ? & ?)]; rewrite length_drop in *; [left|right];
      (split; [f_equal; lia|]); [|split; [|done]]; lia.
  - destruct Ha as [Hle Hdir Hb0 (own' & x' & Hx' & Hr2)]. rewrite length_drop in Hle.
    split; [lia|done|done|]. exists own', x. split; [done|].
    rewrite lookup_insert_eq in Hx'. simplify_eq.
    rewrite insert_insert_eq, <- app_assoc in Hr2.
    rewrite take_take_drop in Hr2.
    rewrite Nat2Z.inj_add, Z.add_assoc. done.
Qed.

Lemma write_loop_unfold fuel fs b offset data written :
  b < 1024 -> data <> [] ->
  write_loop (S fuel) fs (Z.of_nat b) offset data written =
    if decide (BLOCK_SIZE - offset <= 0)%Z then
      match find_free_block fs with
      | None => Ok (fs, DiskFull written)
      | Some j =>
          t ← zset (fat_table fs) (Z.of_nat b) (Z.of_nat j);
          t' ← aset t j FAT_EOF;
          put_round fuel (set_fat t' fs) (Z.of_nat j) 0 data written
      end
    else put_round fuel fs (Z.of_nat b) offset data written.
Proof.
  intros Hb Hne. destruct data as [|c data]; [done|]. cbn [write_loop].
  by rewrite decide_False by (unfold NUM_BLOCKS; lia).
Qed.

Lemma loop_ok_all fuel : loop_ok fuel.
Proof.
  induction fuel as [|fuel IH]; intros fs own m c b s data written Hi Hr Ho H0 Hn Hf; [lia|].
  pose proof (wr_size Hi Hr Ho) as Hs. pose proof (wr_chain Hi Hr Ho) as Hc.
  destruct (wr_content Hi Hr Ho) as [Hm _].
  destruct (decide (data = [])) as [->|Hne].
  { exists fs, (Written written), 0. split; [done|]. split.
    - left. split; [f_equal; lia|done].
    - split; [done..|]. eexists own, _. split; [exact Hm|].
      rewrite take_nil, app_nil_r, Z.add_0_r. by rewrite insert_id. }
  pose proof (chain_end _ _ _ Hc) as Hb. pose proof (block_lt Hr _ _ Hb) as Hb1.
  rewrite write_loop_unfold by done. unfold BLOCK_SIZE.
  case_decide; [|by apply (put_round_ok fuel fs own); try done; lia].
  pose proof (free_from_spec (fat_table fs) 0) as Hj. unfold find_free_block.
  destruct (free_from (fat_table fs) 0) as [j|] eqn:Efree; cycle 1.
  { exists fs, (DiskFull written), 0. split; [done|]. split.
    - right. split_and!; [f_equal; lia|by destruct data; [|simpl; lia]|done].
    - split; [lia|done|done|]. eexists own, _. split; [exact Hm|].
      rewrite take_0, app_nil_r, Z.add_0_r. by rewrite insert_id. }
  destruct Hj as (k & -> & Hj). simpl in Hj |- *.
  assert (k <> 0) by (intros ->; by apply H0).
  pose proof (alloc_step Hi Hr Ho k Hj) as Hr'.
  rewrite zset_nat by (by eapply lookup_lt_Some). cbn [mbind run_bind].
  rewrite aset_lt by (rewrite length_insert; by eapply lookup_lt_Some). cbn [mbind run_bind].
  pose proof (lookup_lt_Some _ _ _ Ho).
  replace 0%Z with (s - 32 * Z.of_nat (length (c ++ [b])))%Z
    by (rewrite length_app; cbn [length]; lia).
  destruct (put_round_ok fuel (set_fat (<[k := FAT_EOF]> (<[b := Z.of_nat k]> (fat_table fs))) fs)
    (<[i := Some ((c ++ [b]) ++ [k])]> own) m (c ++ [b]) k s data written)
    as (fs' & w & n & Hw & He & Ha); try done.
  - apply Hr'; [done|lia].
  - by rewrite list_lookup_insert_eq.
  - unfold block0_used. cbn [fat_table set_fat]. rewrite list_lookup_insert_ne by done.
    intros E. apply list_lookup_insert_Some in E as [(_ & E & _)|[_ E]]; [|by apply H0].
    unfold FAT_FREE in E. lia.
  - rewrite length_app. cbn [length]. lia.
  - exists fs', w, n. split_and!; [done..|]. by destruct Ha.
Qed.
End write_loop.
