(* ===== verification/FatFacts.v ===== *)
(** * Theorems about the FAT file system

    The commands of [fat.c] implement a map from names to contents: each is
    related to the corresponding operation on the map through [repr].  [cmd_spec]
    is the abstract file store and [main_refines] the refinement of the whole
    program, including the saving and loading between two runs.  The last part
    shows the inputs on which the code leaves this contract. *)

From Stdlib Require Import ZArith Lia Ascii String.
From stdpp Require Import base numbers list option strings gmap sets.
From S2P Require Import Prelude CText Fat FatInv FatOps.

Local Open Scope nat_scope.

(** ** The fresh file system *)
Lemma replicate_lookup_inv {A} n (x y : A) i : replicate n x !! i = Some y -> y = x.
Proof. intros H. by apply lookup_replicate in H as [-> _]. Qed.

Lemma zero_entry_ok t : entry_ok t zero_entry None.
Proof.
  split; [done| |done]. unfold zero_entry. cbn [filename].
  apply elem_of_replicate. by split.
Qed.

Lemma zero_repr_own : repr_own zero_fs (replicate 100 None) ∅.
Proof.
  split.
  - split; unfold zero_fs; cbn [fat_table directory data_area].
    + by rewrite length_replicate.
    + by rewrite length_replicate.
    + by rewrite length_replicate.
    + apply Forall2_replicate, zero_entry_ok.
    + change (blocks (replicate 100 None)) with (@nil nat). constructor.
    + intros b x Hx Hne. by apply replicate_lookup_inv in Hx as ->.
    + intros i j e e' Hi _ Hne _. by apply replicate_lookup_inv in Hi as ->.
  - intros i e c _ Ho. by apply replicate_lookup_inv in Ho.
  - intros name [x Hx]. by rewrite lookup_empty in Hx.
Qed.

(** ** Updates of the directory *)

(** The free entry [k] and the free block [j] become the empty file [name]. *)
Lemma create_entry_repr fs own m k e fn j :
  repr_own fs own m -> directory fs !! k = Some e -> c_str (filename e) = "" ->
  fat_table fs !! j = Some FAT_FREE ->
  length fn = length (filename e) -> NUL ∈ fn -> valid_name (c_str fn) -> m !! c_str fn = None ->
  repr (FS (<[j := FAT_EOF]> (fat_table fs)) (<[k := Entry fn (Z.of_nat j) 0]> (directory fs))
          (data_area fs))
    (<[c_str fn := []]> m).
Proof.
  intros Hr Hk He Hj Hfl Hfn (Hne & _ & _) Hm.
  destruct (entry_facts Hr k e Hk) as (oc & Hoc & Hok).
  destruct oc as [c|]; [by destruct (eo_use _ _ _ Hok)|].
  pose proof (free_not_owned Hr j Hj) as Hfree.
  assert (Hsp : blocks own ≡ₚ others own k) by apply (blocks_split own k _ Hoc).
  rewrite Hsp in Hfree.
  exists (<[k := Some [j]]> own).
  apply (repr_update_some Hr Hk Hoc (<[j := FAT_EOF]> (fat_table fs))
    (Entry fn (Z.of_nat j) 0) (Some [j]) (data_area fs)) with (c' := [j]); try done.
  - by rewrite length_insert.
  - intros b Hb. split; [|done]. rewrite list_lookup_insert_ne; [done|]. by intros ->.
  - intros b x Hb Hx. destruct (decide (b = j)) as [->|Hbj]; [left; by left|].
    right. rewrite list_lookup_insert_ne in Hb by done. rewrite <- Hsp.
    by eapply (wf_noleak _ _ (ro_wf _ _ _ Hr)).
  - cbn [default from_option id app]. apply NoDup_cons. split; [done|].
    rewrite <- Hsp. apply (wf_disjoint _ _ (ro_wf _ _ _ Hr)).
  - split; [|done|].
    + cbn [filename]. rewrite Hfl. apply Hok.
    + split_and!; [done| |done|done|done]. constructor.
      rewrite list_lookup_insert_eq; [done|]. by eapply lookup_lt_Some.
  - intros i e0 Hi He0 _ E. destruct (decide (c_str (filename e0) = "")) as [E0|E0].
    { cbn [filename] in E. congruence. }
    destruct (live_chain Hr i e0 He0 E0) as (c & Hc & _).
    destruct (ro_file _ _ _ Hr i e0 c He0 Hc) as [Hx _]. cbn [filename] in E. congruence.
  - apply not_elem_of_nil.
Qed.

(** The block found is the first free one, so block 0 is in use afterwards. *)
Lemma first_free_used t j :
  free_from t 0 = Some j -> <[j := FAT_EOF]> t !! 0 <> Some FAT_FREE.
Proof.
  destruct t as [|x t]; simpl; [done|]. case_decide as E.
  - intros [= <-]. done.
  - pose proof (free_from_spec t 1) as Hs. intros Ej. rewrite Ej in Hs.
    destruct Hs as (k & -> & _). simpl. congruence.
Qed.

(** The entry [k] is cleared and its chain freed. *)
Lemma delete_entry_repr fs own m k e fn c :
  repr_own fs own m -> directory fs !! k = Some e -> own !! k = Some (Some c) ->
  length fn = length (filename e) -> NUL ∈ fn -> c_str fn = "" ->
  repr (FS (clear (fat_table fs) c) (<[k := Entry fn (start_block e) (size e)]> (directory fs))
          (data_area fs))
    (delete (c_str (filename e)) m).
Proof.
  intros Hr Hk Ho Hfl Hfn Hfs. pose proof (chain_nodup Hr _ _ Ho) as Hnd.
  apply NoDup_app in Hnd as (_ & Hsep & Hnd).
  assert (Hsp : blocks own ≡ₚ c ++ others own k) by apply (blocks_split own k _ Ho).
  eexists. eapply (repr_update_none Hr Hk Ho _ _ None); try done.
  - apply clear_length.
  - intros b Hb. split; [|done]. apply clear_other. intros Hin. by apply (Hsep b).
  - intros b x Hb Hx. right. destruct (decide (b ∈ c)) as [Hin|Hin].
    { destruct Hx. by eapply clear_in. }
    rewrite clear_other in Hb by done.
    pose proof (wf_noleak _ _ (ro_wf _ _ _ Hr) b x Hb Hx) as Hin'.
    rewrite Hsp, elem_of_app in Hin'. tauto.
  - split; [|done|done]. cbn [filename]. rewrite Hfl.
    destruct (entry_facts Hr k e Hk) as (? & _ & Hok). apply Hok.
Qed.

(** The file has room for an append at the place where [write_file] starts:
    it is empty or its last block is not full. *)
Definition has_room (x : list ascii) : Prop := x = [] \/ length x mod 32 <> 0.

(** The offset of [write_file] is the end of the data in the last block. *)
Lemma write_offset (x : list ascii) (sz : Z) (k : nat) :
  has_room x -> Z.of_nat (length x) = sz ->
  (32 * Z.of_nat k <= sz <= 32 * Z.of_nat k + 32)%Z ->
  Z.rem sz BLOCK_SIZE = (sz - 32 * Z.of_nat k)%Z.
Proof.
  intros Hroom <- Hk. unfold BLOCK_SIZE. rewrite Z.rem_mod_nonneg by lia.
  assert (Z.of_nat (length x) = 32 * Z.of_nat k + Z.of_nat (length x - 32 * k))%Z as E by lia.
  assert (length x - 32 * k < 32).
  { destruct Hroom as [->|Hne]; [simpl; lia|].
    destruct (decide (length x = 32 * (k + 1))) as [E'|]; [|lia].
    rewrite E', Nat.mul_comm, Nat.Div0.mod_mul in Hne. lia. }
  rewrite E at 1. rewrite Z.add_comm, Z.mul_comm, Z.mod_add by lia.
  rewrite Z.mod_small by lia. lia.
Qed.

(** ** What each command does to the map of files *)
Section commands.
Context {fs : FileSystem} {m : gmap string (list ascii)} (Hr : repr fs m).
Context (name : string) (Hname : valid_name name).

Lemma create_file_repr :
  exists fs' r out, create_file fs name = Ok (fs', r, out) /\
  ((r = 0%Z /\ m !! name = None /\ repr fs' (<[name := []]> m) /\ block0_used fs' /\
      out = "File " +:+ quoted name +:+ " created." +:+ nl) \/
   (r = (-1)%Z /\ fs' = fs /\ is_Some (m !! name) /\
      out = "File " +:+ quoted name +:+ " already exists." +:+ nl) \/
   (r = (-1)%Z /\ fs' = fs /\ m !! name = None /\
      (find_free_block fs = None \/ Forall (fun e => c_str (filename e) <> "") (directory fs)) /\
      out = "Error: Directory or Disk full." +:+ nl)).
Proof.
  destruct Hr as [own Hro]. unfold create_file.
  destruct (find_file Hro name Hname) as [[-> Hm]|(i & e & c & -> & _ & _ & _ & _ & Hm & _)];
    simpl; [|eexists _, _, _; split; [done|right; left; rewrite Hm; eauto]].
  destruct (find_slot_spec fs (directory fs) 0 (entries_nul Hro))
    as [[-> Hfull]|(k & e & j & -> & Hk & He & Hj)]; simpl.
  { eexists _, _, _. split; [done|]. right; right. split_and!; try done.
    destruct Hfull as [?|?]; [by left|right; by apply Forall_forall]. }
  pose proof (free_from_spec (fat_table fs) 0) as Hf. unfold find_free_block in Hj.
  rewrite Hj in Hf. destruct Hf as (j0 & -> & Hf). simpl in Hj |- *.
  rewrite aset_lt by (by eapply lookup_lt_Some). simpl.
  destruct (entry_facts Hro k e Hk) as (oc & Hoc & Hok).
  destruct (strcpy_spec (filename e) name (eo_len _ _ _ Hok) Hname) as (fn & -> & Hfl & Hfn & Hfs).
  simpl. rewrite aset_lt by (by eapply lookup_lt_Some). simpl.
  eexists _, _, _. split; [done|left]. split_and!; try done.
  - rewrite <- Hfs in Hname, Hm |- *. by apply (create_entry_repr fs own m k e fn j0).
  - by apply first_free_used.
Qed.

Lemma delete_file_repr :
  exists fs' r out, delete_file fs name = Ok (fs', r, out) /\
  ((r = 0%Z /\ is_Some (m !! name) /\ repr fs' (delete name m) /\
      out = "File " +:+ quoted name +:+ " deleted." +:+ nl) \/
   (r = (-1)%Z /\ fs' = fs /\ m !! name = None /\
      out = "File " +:+ name +:+ " not found." +:+ nl)).
Proof.
  destruct Hr as [own Hro]. unfold delete_file, delete_file_fuel.
  destruct (find_file Hro name Hname)
    as [[-> Hm]|(i & e & c & -> & Hi & Ho & Hok & Hn & Hm & _)];
    cbn [mbind run_bind]; [eexists _, _, _; split; [done|right; eauto]|].
  destruct (eo_use _ _ _ Hok) as (_ & Hc & -> & _).
  pose proof (chain_nodup Hro _ _ Ho) as Hnd. apply NoDup_app in Hnd as (Hnd & _).
  pose proof (chain_blocks Hro _ Hc) as Hlt.
  pose proof (bounded_nodup_length _ _ Hnd Hlt) as Hlen.
  rewrite (free_chain_spec _ c) by (first [done|unfold NUM_BLOCKS; lia]).
  cbn [mbind run_bind]. pose proof (eo_len _ _ _ Hok) as Hl.
  destruct (filename e) as [|c0 fn] eqn:Efn; [done|]. rewrite aset_lt by (simpl; lia).
  cbn [mbind run_bind]. rewrite aset_lt by (by eapply lookup_lt_Some).
  eexists _, _, _. split; [done|left]. rewrite Hm. split_and!; [done|eauto| |done].
  rewrite <- Hn, <- Efn. destruct (eo_use _ _ _ Hok) as (_ & _ & <- & _).
  apply (delete_entry_repr fs own m i e _ c Hro Hi Ho).
  - by rewrite length_insert.
  - rewrite Efn. by left.
  - by rewrite Efn.
Qed.

Lemma content_length own i e c :
  repr_own fs own m -> directory fs !! i = Some e -> own !! i = Some (Some c) ->
  Z.of_nat (length (content fs e c)) = size e.
Proof.
  intros Hro Hi Ho. destruct (entry_facts Hro i e Hi) as (oc & Hoc & Hok). simplify_eq.
  destruct (eo_use _ _ _ Hok) as (_ & Hc & _ & Hs).
  pose proof (chain_nonempty _ _ Hc) as (? & ? & ->). cbn [length] in *.
  unfold content. rewrite length_take, chain_data_length; [cbn [length]; lia|].
  eapply Forall_impl; [exact (chain_blocks Hro _ Hc)|]. intros b. cbv beta.
  pose proof (data_length Hro). lia.
Qed.

Lemma read_file_repr :
  exists r, read_file fs name = Ok (fs, r,
    match m !! name with
    | None => "File " +:+ name +:+ " not found." +:+ nl
    | Some [] => "file " +:+ name +:+ " is empty" +:+ nl
    | Some x => "Content of " +:+ quoted name +:+ " : " +:+ string_of_list_ascii x +:+ nl
    end) /\ (r = 0%Z <-> is_Some (m !! name)).
Proof.
  destruct Hr as [own Hro]. unfold read_file.
  destruct (find_file Hro name Hname)
    as [[-> Hm]|(i & e & c & -> & Hi & Ho & Hok & Hn & Hm & Hnul)];
    cbn [mbind run_bind]; rewrite Hm.
  { eexists. split; [done|]. split; [done|]. by intros []. }
  pose proof (content_length own i e c Hro Hi Ho) as Hl.
  destruct (eo_use _ _ _ Hok) as (_ & Hc & Hsb & Hs). rewrite Hsb.
  destruct (content fs e c) as [|a x] eqn:Ex; cbn [length] in Hl.
  { rewrite <- Hl. rewrite decide_True by done.
    exists 0%Z. split; [done|]. split; [by eexists|done]. }
  rewrite decide_False by lia. rewrite decide_False by lia.
  unfold content in Ex. rewrite <- Ex in Hnul.
  replace (Z.to_nat (size e)) with (Z.to_nat (size e - 0)) in Hnul by lia.
  rewrite read_loop_spec; [|done|by apply (chain_blocks Hro)|by apply (data_length Hro)|lia|done|lia].
  cbn [mbind run_bind]. rewrite Z.sub_0_r, Ex, !str_app_assoc.
  exists 0%Z. split; [done|]. split; [by eexists|done].
Qed.

Lemma write_file_missing data :
  m !! name = None ->
  write_file fs name data = Ok (fs, (-1)%Z, "FILE " +:+ name +:+ " not found." +:+ nl).
Proof.
  intros Hm. destruct Hr as [own Hro]. unfold write_file.
  destruct (find_file Hro name Hname) as [[-> _]|(? & ? & ? & _ & _ & _ & _ & _ & Hm' & _)];
    [done|congruence].
Qed.

Lemma write_file_repr data x :
  m !! name = Some x -> has_room x -> block0_used fs -> c_string data ->
  exists fs' n out, write_file fs name data = Ok (fs', 0%Z, out) /\
    repr fs' (<[name := x ++ take n (list_ascii_of_string data)]> m) /\ block0_used fs' /\
    ((n = String.length data /\ out = "Data written to " +:+ quoted name +:+ "." +:+ nl) \/
     (n < String.length data /\ find_free_block fs' = None /\
      out = "No more space in FAT table. Partial data append to " +:+ name +:+ "." +:+ nl
            +:+ "Data written to " +:+ quoted name +:+ "." +:+ nl)).
Proof.
  intros Hx Hroom H0 Hd. destruct Hr as [own Hro]. unfold write_file.
  destruct (find_file Hro name Hname)
    as [[_ Hm]|(i & e & c & -> & Hi & Ho & Hok & Hn & Hm & Hnul)]; [congruence|].
  cbn [mbind run_bind]. rewrite Hm in Hx. injection Hx as <-.
  pose proof (content_length own i e c Hro Hi Ho) as Hl.
  destruct (eo_use _ _ _ Hok) as (_ & Hc & Hsb & Hs).
  destruct (chain_unsnoc _ _ Hc) as (c0 & b & ->). rewrite length_app in Hs. cbn [length] in Hs.
  pose proof (chain_blocks Hro _ Hc) as Hlt.
  assert (Hb : default 0 (head (c0 ++ [b])) < 1024).
  { destruct c0; cbn [head app default from_option id] in *; by apply Forall_cons in Hlt as [? _]. }
  rewrite decide_False by (unfold NUM_BLOCKS; lia).
  assert (Hoff : Z.rem (size e) BLOCK_SIZE = (size e - 32 * Z.of_nat (length c0))%Z).
  { apply (write_offset (content fs e (c0 ++ [b]))); [done|done|lia]. }
  assert (Hfuel : length c0 < S (Z.to_nat (size e / BLOCK_SIZE))).
  { assert (Z.of_nat (length c0) <= size e / BLOCK_SIZE)%Z; [|lia].
    apply Z.div_le_lower_bound; unfold BLOCK_SIZE; lia. }
  rewrite Hsb. rewrite (seek_spec _ c0 b) by (first [done|lia]). cbn [mbind run_bind].
  rewrite Hoff, <- Hsb.
  destruct (loop_ok_all i e (S (length (list_ascii_of_string data))) fs own m c0 b (size e)
    (list_ascii_of_string data) 0%Z) as (fs' & w & n & -> & Hend & [Hle Hdir Hb0 Hap]); try done.
  - by eapply lookup_lt_Some.
  - rewrite list_insert_id; [by destruct fs|]. rewrite Hi. by destruct e.
  - lia.
  - destruct Hap as (own' & x & Hx & Hap). rewrite Hn in Hx, Hap. simplify_eq.
    cbn [mbind run_bind]. unfold end_ok in Hend. rewrite list_ascii_length in *.
    destruct Hend as [[-> ->]|(-> & Hlt' & Hfull)];
      rewrite Z.add_0_l, aset_lt by (rewrite Hdir; by eapply lookup_lt_Some); cbn [mbind run_bind];
      (eexists _, _, _; split; [done|]; split; [rewrite Hdir; by exists own'|]; split; [done|]).
    + by left; split.
    + right. rewrite !str_app_assoc. by split_and!.
Qed.
End commands.

(** ** The listing *)
Fixpoint files_of (fs : FileSystem) (dir : list FileEntry) (own : ownership)
  : list (string * list ascii) :=
  match dir, own with
  | e :: dir', Some c :: own' => (c_str (filename e), content fs e c) :: files_of fs dir' own'
  | _ :: dir', None :: own' => files_of fs dir' own'
  | _, _ => []
  end.

Definition file_line (f : string * list ascii) : string :=
  "File : " +:+ f.1 +:+ ", SIze: " +:+ print_d (Z.of_nat (length f.2)) +:+ " bytes" +:+ nl.

Fixpoint listing (l : list (string * list ascii)) : string :=
  match l with [] => "" | f :: l' => file_line f +:+ listing l' end.

Lemma elem_of_files fs dir own n x :
  (n, x) ∈ files_of fs dir own <->
  exists i e c, dir !! i = Some e /\ own !! i = Some (Some c) /\
    n = c_str (filename e) /\ x = content fs e c.
Proof.
  revert own. induction dir as [|e dir IH]; intros own; simpl.
  { split; [by intros ?%not_elem_of_nil|by intros (? & ? & ? & ? & _)]. }
  destruct own as [|[c|] own].
  - split; [by intros ?%not_elem_of_nil|by intros (? & ? & ? & _ & ? & _)].
  - rewrite elem_of_cons, IH. split.
    + intros [[= -> ->]|(i & e0 & c0 & ?)]; [by exists 0, e, c|by exists (S i), e0, c0].
    + intros ([|i] & e0 & c0 & ? & ? & -> & ->); simpl in *; simplify_eq; [by left|right; eauto 10].
  - rewrite IH. split.
    + intros (i & e0 & c0 & ?). by exists (S i), e0, c0.
    + intros ([|i] & e0 & c0 & ? & ? & ?); simpl in *; simplify_eq; eauto 10.
Qed.

Lemma NoDup_files fs dir own :
  Forall2 (fun e oc => oc <> None -> c_str (filename e) <> "") dir own ->
  (forall i j e e', dir !! i = Some e -> dir !! j = Some e' -> c_str (filename e) <> "" ->
    c_str (filename e) = c_str (filename e') -> i = j) ->
  NoDup (files_of fs dir own).
Proof.
  induction 1 as [|e oc dir own He Hf IH]; intros Hn; simpl; [constructor|].
  assert (NoDup (files_of fs dir own)).
  { apply IH. intros i j e1 e2 Hi Hj Hne E. by specialize (Hn (S i) (S j) e1 e2 Hi Hj Hne E) as [=]. }
  destruct oc as [c|]; [|done]. apply NoDup_cons. split; [|done].
  rewrite elem_of_files. intros (i & e' & c' & Hi & _ & E & _).
  by specialize (Hn 0 (S i) e e' eq_refl Hi (He ltac:(done)) E).
Qed.

Lemma list_entries_spec fs dir own :
  Forall2 (fun e oc => NUL ∈ filename e /\
    match oc with
    | Some c => c_str (filename e) <> "" /\ Z.of_nat (length (content fs e c)) = size e
    | None => c_str (filename e) = ""
    end) dir own ->
  list_entries dir = Ok (listing (files_of fs dir own)).
Proof.
  induction 1 as [|e oc dir own [He Hoc] Hf IH]; [done|]. cbn [list_entries].
  rewrite is_empty_spec by done. cbn [mbind run_bind]. rewrite IH. cbn [mbind run_bind files_of].
  destruct oc as [c|].
  - destruct Hoc as [Hne Hl]. rewrite bool_decide_eq_false_2 by done.
    unfold file_line. cbn [listing fst snd]. unfold file_line. cbn [fst snd]. rewrite Hl.
    by rewrite !str_app_assoc.
  - by rewrite bool_decide_eq_true_2 by done.
Qed.

Lemma list_files_repr fs m :
  repr fs m -> exists l, l ≡ₚ map_to_list m /\
    list_files fs = Ok ("Files in the file system." +:+ nl +:+ listing l).
Proof.
  intros [own Hro]. pose proof (wf_entries _ _ (ro_wf _ _ _ Hro)) as Hw.
  exists (files_of fs (directory fs) own). split.
  - apply NoDup_Permutation; [|apply NoDup_map_to_list|].
    + apply NoDup_files; [|apply (wf_names _ _ (ro_wf _ _ _ Hro))].
      eapply Forall2_impl; [exact Hw|]. intros e [c|] Hok Hne; [|done]. apply Hok.
    + intros [n x]. rewrite elem_of_files, elem_of_map_to_list. split.
      * intros (i & e & c & Hi & Ho & -> & ->). by apply (ro_file _ _ _ Hro i).
      * intros Hx. destruct (ro_dom _ _ _ Hro n ltac:(eauto)) as (i & e & c & Hi & Ho & E).
        exists i, e, c. split_and!; [done..|].
        destruct (ro_file _ _ _ Hro i e c Hi Ho) as [Hm _]. congruence.
  - unfold list_files. rewrite (list_entries_spec fs _ own); [done|].
    apply Forall2_same_length_lookup. split; [by eapply Forall2_length|].
    intros i e oc Hi Ho. destruct (entry_facts Hro i e Hi) as (? & ? & Hok). simplify_eq.
    split; [apply Hok|]. destruct oc as [c|]; [|apply Hok]. split; [apply Hok|].
    by eapply content_length.
Qed.

(** ** The file store *)
Inductive command :=
| Create (f : string) | Write (f d : string) | Read (f : string) | Delete (f : string) | List.

(** The command line of a command, [argv[1]] on. *)
Definition argv (c : command) : list string :=
  match c with
  | Create f => ["create"; f]
  | Write f d => ["write"; f; d]
  | Read f => ["read"; f]
  | Delete f => ["delete"; f]
  | List => ["list"]
  end.

(** The contract: the new map and the text printed.  Creating a file may fail
    and a write may stop early (a full disk), in no other way. *)
Inductive cmd_spec (m : gmap string (list ascii))
  : command -> gmap string (list ascii) -> string -> Prop :=
| spec_create f :
    m !! f = None ->
    cmd_spec m (Create f) (<[f := []]> m) ("File " +:+ quoted f +:+ " created." +:+ nl)
| spec_create_dup f x :
    m !! f = Some x ->
    cmd_spec m (Create f) m ("File " +:+ quoted f +:+ " already exists." +:+ nl)
| spec_create_full f :
    m !! f = None -> cmd_spec m (Create f) m ("Error: Directory or Disk full." +:+ nl)
| spec_write f d x :
    m !! f = Some x ->
    cmd_spec m (Write f d) (<[f := x ++ list_ascii_of_string d]> m)
      ("Data written to " +:+ quoted f +:+ "." +:+ nl)
| spec_write_part f d x n :
    m !! f = Some x -> n < String.length d ->
    cmd_spec m (Write f d) (<[f := x ++ take n (list_ascii_of_string d)]> m)
      ("No more space in FAT table. Partial data append to " +:+ f +:+ "." +:+ nl
       +:+ "Data written to " +:+ quoted f +:+ "." +:+ nl)
| spec_write_none f d :
    m !! f = None -> cmd_spec m (Write f d) m ("FILE " +:+ f +:+ " not found." +:+ nl)
| spec_read f a x :
    m !! f = Some (a :: x) ->
    cmd_spec m (Read f) m ("Content of " +:+ quoted f +:+ " : "
                           +:+ string_of_list_ascii (a :: x) +:+ nl)
| spec_read_empty f :
    m !! f = Some [] -> cmd_spec m (Read f) m ("file " +:+ f +:+ " is empty" +:+ nl)
| spec_read_none f :
    m !! f = None -> cmd_spec m (Read f) m ("File " +:+ f +:+ " not found." +:+ nl)
| spec_delete f x :
    m !! f = Some x ->
    cmd_spec m (Delete f) (delete f m) ("File " +:+ quoted f +:+ " deleted." +:+ nl)
| spec_delete_none f :
    m !! f = None -> cmd_spec m (Delete f) m ("File " +:+ f +:+ " not found." +:+ nl)
| spec_list l :
    l ≡ₚ map_to_list m ->
    cmd_spec m List m ("Files in the file system." +:+ nl +:+ listing l).

(** The arguments for which the contract holds. *)
Definition cmd_valid (fs : FileSystem) (m : gmap string (list ascii)) (c : command) : Prop :=
  match c with
  | Create f | Read f | Delete f => valid_name f
  | Write f d =>
      valid_name f /\ c_string d /\
      forall x, m !! f = Some x -> has_room x /\ block0_used fs
  | List => True
  end.

(** ** The program *)

(** A disk that holds the files of [m]; no saved state is an empty store. *)
Definition repr_disk (d : disk) (m : gmap string (list ascii)) : Prop :=
  repr (load_file_system d).1 m.

(** The output of [c] on [d]: a warning precedes it when there is no saved
    state. *)
Definition with_warning (d : disk) (out : string) : string := (load_file_system d).2 +:+ out.

(** [main] around a command that runs to its end and saves the state. *)
Lemma main_op d c fs' out :
  execute_cmd (load_file_system d).1 (default "" (head (argv c))) (argv c !! 1) (argv c !! 2)
    (Z.of_nat (length (argv c)) + 1) = Ok (fs', out) ->
  main true d (argv c) = Ok (0%Z, Some fs', with_warning d out).
Proof.
  intros H. unfold main, with_warning. destruct (load_file_system d) as [fs o]. cbn [fst snd] in *.
  destruct c; cbn [argv head default from_option id] in *; rewrite H; cbn [mbind run_bind save_file_system];
    by rewrite str_app_nil_r.
Qed.

(** The calls that the command lines lead to. *)
Lemma execute_create fs f :
  execute_cmd fs (default "" (head (argv (Create f)))) (argv (Create f) !! 1) (argv (Create f) !! 2)
    (Z.of_nat (length (argv (Create f))) + 1) =
  ('(fs', _, out) ← create_file fs f; Ok (fs', out)).
Proof. done. Qed.

Lemma execute_write fs f d :
  execute_cmd fs (default "" (head (argv (Write f d)))) (argv (Write f d) !! 1)
    (argv (Write f d) !! 2) (Z.of_nat (length (argv (Write f d))) + 1) =
  ('(fs', _, out) ← write_file fs f d; Ok (fs', out)).
Proof. done. Qed.

Lemma execute_read fs f :
  execute_cmd fs (default "" (head (argv (Read f)))) (argv (Read f) !! 1) (argv (Read f) !! 2)
    (Z.of_nat (length (argv (Read f))) + 1) =
  ('(fs', _, out) ← read_file fs f; Ok (fs', out)).
Proof. done. Qed.

(** A file owns block 0 as soon as there is one: creation takes the first free
    block.  Only a deletion can free it again. *)
Definition first_block_used (fs : FileSystem) (m : gmap string (list ascii)) : Prop :=
  m = ∅ \/ block0_used fs.

(** Whether block 0 is known to be in use after the command [c], which took
    the store from [m] to [m']. *)
Definition next_anchor (m : gmap string (list ascii)) (c : command)
    (m' : gmap string (list ascii)) (b : bool) : bool :=
  match c with
  | Create f => b || bool_decide (m !! f = None /\ m' !! f <> None)
  | Delete f => bool_decide (m' = ∅) || (b && bool_decide (m !! f = None))
  | _ => b
  end.

(** A command on a represented store, as [execute_cmd] dispatches it. *)
Lemma execute_refines fs m c :
  repr fs m -> cmd_valid fs m c ->
  exists fs' m' out,
    execute_cmd fs (default "" (head (argv c))) (argv c !! 1) (argv c !! 2)
      (Z.of_nat (length (argv c)) + 1) = Ok (fs', out) /\
    repr fs' m' /\ cmd_spec m c m' out /\
    forall b, (b = true -> first_block_used fs m) ->
      next_anchor m c m' b = true -> first_block_used fs' m'.
Proof.
  intros Hr Hv. destruct c as [f|f d|f|f|]; simpl in Hv; unfold execute_cmd;
    cbn [argv head default from_option id length].
  - destruct (create_file_repr Hr f Hv) as (fs' & r & out & E & Hc).
    change (([ "create"; f] !! 1)) with (Some f). simpl. rewrite E. simpl.
    destruct Hc as [(_ & Hm & Hr' & Hb & ->)|[(_ & -> & [x Hm] & ->)|(_ & -> & Hm & _ & ->)]].
    + eexists _, _, _. split_and!; [done|done|by constructor|by right].
    + eexists _, _, _. split_and!; [done|done|by econstructor|]. intros b Hb H.
      apply Hb. apply orb_true_iff in H as [?|H]; [done|]. apply bool_decide_eq_true_1 in H. naive_solver.
    + eexists _, _, _. split_and!; [done|done|by apply spec_create_full|]. intros b Hb H.
      apply Hb. apply orb_true_iff in H as [?|H]; [done|]. apply bool_decide_eq_true_1 in H. naive_solver.
  - destruct Hv as (Hf & Hd & Hx). simpl. destruct (m !! f) as [x|] eqn:Hm.
    + destruct (Hx x eq_refl) as [Hroom H0].
      destruct (write_file_repr Hr f Hf d x Hm Hroom H0 Hd) as (fs' & n & out & -> & Hr' & Hb & Hn).
      simpl. destruct Hn as [[-> ->]|(Hlt & _ & ->)].
      * rewrite <- list_ascii_length, firstn_all in Hr'.
        eexists _, _, _. split_and!; [done|done|by econstructor|by right].
      * eexists _, _, _. split_and!; [done|done|by econstructor|by right].
    + rewrite (write_file_missing Hr f Hf d Hm). simpl.
      eexists _, _, _. split_and!; [done|done|by constructor|auto].
  - simpl. destruct (read_file_repr Hr f Hv) as (r & -> & _). simpl.
    eexists _, m, _. split_and!; [done|done| |auto].
    destruct (m !! f) as [[|a x]|] eqn:Hm; by constructor.
  - simpl. destruct (delete_file_repr Hr f Hv) as (fs' & r & out & -> & Hc). simpl.
    destruct Hc as [(_ & [x Hx] & Hr' & ->)|(_ & -> & Hm & ->)].
    + eexists _, _, _. split_and!; [done|done|by econstructor|]. intros b Hb H.
      apply orb_true_iff in H as [H|H]; [left; by apply bool_decide_eq_true_1 in H|].
      apply andb_true_iff in H as [_ H]. apply bool_decide_eq_true_1 in H. congruence.
    + eexists _, _, _. split_and!; [done|done|by constructor|]. intros b Hb H.
      apply orb_true_iff in H as [H|H]; [left; by apply bool_decide_eq_true_1 in H|].
      apply andb_true_iff in H as [H _]. auto.
  - simpl. destruct (list_files_repr fs m Hr) as (l & Hl & ->). simpl.
    eexists _, m, _. split_and!; [done|done|by constructor|auto].
Qed.

(** C8. [fat.c] implements the file store: run on a disk that holds the files
    [m], [main] with the command line of a valid command exits with 0, prints
    what the store prints and leaves a disk that holds the files of the store
    after the command.  This covers every command and every outcome: files
    that exist or not, a full directory, a full table in the middle of a
    write.  A write is valid when the last block of the file has room and
    block 0 is in use. *)
Theorem main_refines (d : disk) (m : gmap string (list ascii)) (c : command)
    (Hd : repr_disk d m) (Hc : cmd_valid (load_file_system d).1 m c) :
  exists d' m' out,
    main true d (argv c) = Ok (0%Z, d', with_warning d out) /\
    repr_disk d' m' /\ cmd_spec m c m' out.
Proof.
  destruct (execute_refines _ _ _ Hd Hc) as (fs' & m' & out & E & Hr & Hs & _).
  exists (Some fs'), m', out. split; [by apply main_op|by split].
Qed.

Lemma main_refines_witness :
  repr_disk None ∅ /\
  exists d' m' out, main true None (argv (Create "a")) = Ok (0%Z, d', with_warning None out) /\
    repr_disk d' m' /\ cmd_spec ∅ (Create "a") m' out.
Proof.
  assert (H : repr_disk None ∅) by (eexists; exact zero_repr_own).
  split; [exact H|]. apply (main_refines None ∅ (Create "a") H).
  split; [done|]. split; [|unfold MAX_FILE_NAME; simpl; lia].
  unfold c_string. intros Hin. apply list_elem_of_singleton in Hin. discriminate Hin.
Defined.

(** ** Sessions: one run of the program per command *)
Fixpoint session (d : disk) (cs : list command) : run (disk * list string) :=
  match cs with
  | [] => Ok (d, [])
  | c :: cs' =>
      '(_, d1, out) ← main true d (argv c);
      '(d2, outs) ← session d1 cs';
      Ok (d2, out :: outs)
  end.

Inductive store_run : gmap string (list ascii) -> list command -> gmap string (list ascii) ->
    list string -> Prop :=
| store_done m : store_run m [] m []
| store_step m c m1 out cs m2 outs :
    cmd_spec m c m1 out -> store_run m1 cs m2 outs -> store_run m (c :: cs) m2 (out :: outs).

(** What a command may ask of the store, whatever its representation; [b] says
    that block 0 is in use. *)
Definition abs_valid (m : gmap string (list ascii)) (b : bool) (c : command) : Prop :=
  match c with
  | Create f | Read f | Delete f => valid_name f
  | Write f d => valid_name f /\ c_string d /\ forall x, m !! f = Some x -> has_room x /\ b = true
  | List => True
  end.

Fixpoint safe_session (m : gmap string (list ascii)) (b : bool) (cs : list command) : Prop :=
  match cs with
  | [] => True
  | c :: cs' => abs_valid m b c /\
      forall m' out, cmd_spec m c m' out -> safe_session m' (next_anchor m c m' b) cs'
  end.

Lemma abs_valid_cmd fs m b c :
  abs_valid m b c -> (b = true -> first_block_used fs m) -> cmd_valid fs m c.
Proof.
  destruct c as [f|f d|f|f|]; simpl; intros Hv Hb; try done.
  destruct Hv as (Hf & Hd & Hx). split_and!; try done. intros x Hm. destruct (Hx x Hm) as [Hr Hb'].
  split; [done|]. destruct (Hb Hb') as [->|?]; [by rewrite lookup_empty in Hm|done].
Qed.

Lemma session_saved fs m b cs :
  repr fs m -> (b = true -> first_block_used fs m) -> safe_session m b cs ->
  exists d' outs m', session (Some fs) cs = Ok (d', outs) /\ store_run m cs m' outs /\
    repr_disk d' m'.
Proof.
  revert fs m b. induction cs as [|c cs IH]; intros fs m b Hr Hb Hs.
  { exists (Some fs), [], m. split_and!; [done|constructor|done]. }
  destruct Hs as [Hv Hs].
  destruct (execute_refines fs m c Hr (abs_valid_cmd fs m b c Hv Hb)) as (fs' & m' & out & E & Hr' & Hspec & Hb').
  destruct (IH fs' m' _ Hr' (Hb' b Hb) (Hs m' out Hspec)) as (d' & outs & m2 & E2 & Hrun & Hd).
  exists d', (out :: outs), m2. cbn [session]. rewrite (main_op (Some fs) c fs' out E).
  cbn [mbind run_bind]. rewrite E2. split_and!; [done|by econstructor|done].
Qed.


(** A file that is created and written at once. *)
Lemma create_write_safe m b f d cs :
  m !! f = None -> valid_name f -> c_string d ->
  (forall m' b', m' = m \/ (exists x, m' = <[f := x]> m) -> safe_session m' b' cs) ->
  safe_session m b (Create f :: Write f d :: cs).
Proof.
  intros Hm Hf Hd Hcs. split; [done|]. intros m1 o1 H1. cbn [safe_session abs_valid next_anchor].
  assert (Hc : m1 = <[f := []]> m \/ m1 = m) by (inversion H1; subst; [by left|congruence|by right]).
  clear H1. split.
  - split_and!; [done|done|]. intros x Hx. destruct Hc as [->| ->]; [|congruence].
    rewrite lookup_insert_eq in Hx. injection Hx as <-. split; [by left|].
    apply orb_true_iff. right. apply bool_decide_eq_true_2. by rewrite lookup_insert_eq.
  - intros m2 o2 H2. apply Hcs. destruct Hc as [->| ->].
    + right. inversion H2; subst; rewrite ?insert_insert_eq; eauto.
    + left. inversion H2; subst; congruence.
Qed.

(** A session with two writes, reads and a deletion between them. *)
Definition busy_session : list command :=
  [Create "a"; Write "a" "hi"; Read "a"; Delete "a"; Create "b"; Write "b" "x"; Read "b"; List].

Lemma valid_name_1 c : c <> "000"%char -> valid_name (String c "").
Proof.
  intros Hc. split; [done|]. split; [|unfold MAX_FILE_NAME; simpl; lia].
  intros Hin. by apply list_elem_of_singleton in Hin.
Qed.

Lemma busy_session_safe : safe_session ∅ true busy_session.
Proof.
  apply create_write_safe; [done|by apply valid_name_1| |].
  { intros Hin. cbn [list_ascii_of_string] in Hin. rewrite !elem_of_cons in Hin. destruct Hin as [Hin|[Hin|Hin%not_elem_of_nil]]; done. }
  intros m1 b1 Hm1. split; [by apply valid_name_1|]. intros m2 o2 H2.
  assert (m2 = m1) as -> by (by inversion H2). clear H2 o2.
  split; [by apply valid_name_1|]. intros m3 o3 H3.
  assert (Hb : m3 !! "b" = None).
  { destruct Hm1 as [->|[x ->]]; inversion H3; subst; simplify_map_eq; done. }
  apply create_write_safe; [done|by apply valid_name_1| |].
  { intros Hin. by apply list_elem_of_singleton in Hin. }
  intros m4 b4 _. split; [by apply valid_name_1|]. by split.
Qed.


(** *** Capacity *)

(** When the only file leaves no free block, it fills all blocks but perhaps
    the last. *)
Lemma full_disk_content fs f x :
  repr fs {[ f := x ]} -> find_free_block fs = None -> 32 * 1023 <= length x.
Proof.
  intros [own Hro] Hfull. pose proof (ro_wf _ _ _ Hro) as Hwf.
  destruct (ro_dom _ _ _ Hro f) as (i & e & c & Hi & Ho & E);
    [rewrite lookup_singleton_eq; eauto|].
  destruct (ro_file _ _ _ Hro i e c Hi Ho) as [Hm _].
  rewrite E, lookup_singleton_eq in Hm. injection Hm as ->.
  assert (Hall : forall b, b < 1024 -> b ∈ c).
  { intros b Hb. rewrite <- (fat_length Hro) in Hb. apply lookup_lt_is_Some_2 in Hb as [y Hy].
    pose proof (free_from_spec (fat_table fs) 0) as Hf. unfold find_free_block in Hfull.
    rewrite Hfull in Hf. pose proof (wf_noleak _ _ Hwf b y Hy (Hf b y Hy)) as Hin.
    apply elem_of_blocks in Hin as (j & c' & Hj & Hb').
    destruct (Forall2_lookup_r _ _ _ _ _ (wf_entries _ _ Hwf) Hj) as (e' & He' & Hok').
    destruct (ro_file _ _ _ Hro j e' c' He' Hj) as [Hm' _].
    apply lookup_singleton_Some in Hm' as [E' _].
    assert (i = j) as ->; [|congruence].
    eapply (wf_names _ _ Hwf); [exact Hi|exact He'| |congruence].
    rewrite E. destruct (eo_use _ _ _ Hok') as [Hne _]. congruence. }
  assert (1024 <= length c).
  { rewrite <- (length_seq 1024 0). apply submseteq_length, NoDup_submseteq; [apply NoDup_seq|].
    intros b Hb%elem_of_seq. apply Hall. lia. }
  destruct (entry_facts Hro i e Hi) as (? & ? & Hok). simplify_eq.
  destruct (eo_use _ _ _ Hok) as (_ & _ & _ & Hs).
  pose proof (content_length (m := {[c_str (filename e) := content fs e c]}) own i e c Hro Hi Ho). lia.
Qed.

Lemma fresh_create f :
  valid_name f -> exists fs' out,
    main true None (argv (Create f)) = Ok (0%Z, Some fs', out) /\
    repr fs' {[ f := [] ]} /\ block0_used fs'.
Proof.
  intros Hf. destruct (create_file_repr (ex_intro _ _ zero_repr_own) f Hf)
    as (fs' & r & out & E & [(-> & _ & Hr & Hb & ->)|[(_ & _ & [x Hx] & _)|(_ & _ & _ & Hfull & _)]]).
  - eexists fs', _. split; [|done]. apply main_op. rewrite execute_create.
    cbn [load_file_system fst]. by rewrite E.
  - by rewrite lookup_empty in Hx.
  - exfalso. destruct Hfull as [Hx|Hx]; [done|].
    apply (Forall_lookup_1 _ _ 0 zero_entry) in Hx; [by apply Hx|done].
Qed.

(** C10. Round trip through the disk, over three processes: a file created on
    a fresh disk and written once with up to 1023 blocks of data is read back
    byte for byte. *)
Theorem write_read_roundtrip (f data : string)
    (Hf : valid_name f) (Hd : c_string data) (Hlen : 0 < String.length data <= 32 * 1023) :
  exists d' o1 o2, session None [Create f; Write f data; Read f] =
    Ok (d', [o1; o2; "Content of " +:+ quoted f +:+ " : " +:+ data +:+ nl]).
Proof.
  destruct (fresh_create f Hf) as (fs1 & o1 & E1 & Hr1 & Hb1).
  assert (Hx : ({[f := []]} : gmap string (list ascii)) !! f = Some [])
    by apply lookup_singleton_eq.
  destruct (write_file_repr Hr1 f Hf data [] Hx (or_introl eq_refl) Hb1 Hd)
    as (fs2 & n & o2 & E2 & Hr2 & _ & Hn).
  rewrite insert_singleton_eq in Hr2. cbn [app] in Hr2.
  assert (n = String.length data) as ->.
  { destruct Hn as [[? _]|(Hlt & Hfull & _)]; [done|].
    pose proof (full_disk_content _ _ _ Hr2 Hfull) as Hcap.
    rewrite length_take in Hcap. lia. }
  rewrite <- list_ascii_length, firstn_all in Hr2.
  destruct (read_file_repr Hr2 f Hf) as (r & E3 & _). rewrite lookup_singleton_eq in E3.
  exists (Some fs2), o1, o2. cbn [session]. rewrite E1. cbn [mbind run_bind].
  rewrite (main_op (Some fs1) (Write f data) fs2 o2); [|rewrite execute_write; cbn [load_file_system fst]; by rewrite E2].
  cbn [mbind run_bind].
  rewrite (main_op (Some fs2) (Read f) fs2 ("Content of " +:+ quoted f +:+ " : " +:+ data +:+ nl)).
  - cbn [mbind run_bind]. done.
  - rewrite execute_read. cbn [load_file_system fst]. rewrite E3. destruct data as [|a data]; [cbn [String.length] in Hlen; lia|].
    cbn [list_ascii_of_string mbind run_bind].
    change (a :: list_ascii_of_string data) with (list_ascii_of_string (String a data)).
    by rewrite string_of_list_ascii_of_string.
Qed.

Lemma write_read_roundtrip_witness :
  exists d' o1 o2, session None [Create "a"; Write "a" "hi"; Read "a"] =
    Ok (d', [o1; o2; "Content of " +:+ quoted "a" +:+ " : " +:+ "hi" +:+ nl]).
Proof.
  apply (write_read_roundtrip "a" "hi").
  - split; [done|]. split; [|unfold MAX_FILE_NAME; simpl; lia].
    intros Hin. apply list_elem_of_singleton in Hin. discriminate Hin.
  - intros Hin. apply elem_of_cons in Hin as [Hin|Hin]; [discriminate Hin|].
    apply list_elem_of_singleton in Hin. discriminate Hin.
  - cbn [String.length]. lia.
Defined.

(** ** Where the code leaves the contract *)

(** What the processes of a session print. *)
Definition texts (cs : list command) : run (list string) :=
  '(_, outs) ← session None cs; Ok outs.

Definition a32 : string := "aaaaaaaaaaaaaaaaaaaaaaaaaaaaaaaa".

(** Appending to a file whose size is a positive multiple of the block
    size overwrites the last block instead of linking a new one: after a write
    of 32 bytes, a second write of four reports success and the listing says
    36 bytes, but the file reads as 32 bytes of which the first four are the
    new data. *)
Theorem append_at_block_boundary :
  texts [Create "f"; Write "f" a32; Write "f" "tail"; Read "f"; List] = Ok
    ["Warning : No saved state found. Starting fresh." +:+ nl +:+ "File 'f' created." +:+ nl;
     "Data written to 'f'." +:+ nl; "Data written to 'f'." +:+ nl;
     "Content of 'f' : tailaaaaaaaaaaaaaaaaaaaaaaaaaaaa" +:+ nl;
     "Files in the file system." +:+ nl +:+ "File : f, SIze: 36 bytes" +:+ nl].
Proof. vm_compute. reflexivity. Qed.

(** Block 0 cannot be the second block of a file: its number is the mark
    of a free entry.  After the first file is deleted, a longer write to
    another one takes block 0 and the entry of its first block becomes 0,
    that is free; the next file is then given a block in use, its data
    overwrites the other file's and that file loses its second block. *)
Theorem block_zero_reused :
  exists o1 o2 o3 o4 o5 o6, texts
    [Create "x"; Create "g"; Delete "x"; Write "g" (a32 +:+ "bb"); Create "h"; Write "h" "HHHH";
     Read "g"] = Ok [o1; o2; o3; o4; o5; o6;
     "Content of 'g' : HHHHaaaaaaaaaaaaaaaaaaaaaaaaaaaa" +:+ nl].
Proof. eexists _, _, _, _, _, _. vm_compute. reflexivity. Qed.

(** [delete_file] with the empty name on a fresh file system never ends:
    the first unused entry matches, its start block is 0 and entry 0 of the
    table is 0, so the loop frees block 0 forever. *)
Theorem delete_empty_name_diverges (fuel : nat) : delete_file_fuel fuel zero_fs "" = NoFuel.
Proof.
  assert (H : free_chain fuel (fat_table zero_fs) 0 = NoFuel).
  { assert (forall t, t !! 0 = Some 0%Z -> free_chain fuel t 0 = NoFuel) as Hl; [|by apply Hl].
    induction fuel as [|fuel IH]; intros t Ht; [done|]. cbn [free_chain].
    rewrite decide_False by done. rewrite (zget_nat t 0 0%Z Ht : zget t 0 = _). cbn [mbind run_bind].
    rewrite (zset_nat t 0 FAT_FREE (lookup_lt_Some _ _ _ Ht) : zset t 0 _ = _).
    cbn [mbind run_bind]. apply IH. rewrite list_lookup_insert_eq; [done|].
    by eapply lookup_lt_Some. }
  unfold delete_file_fuel. change (find_entry (directory zero_fs) "" 0) with (Ok (Some (0, zero_entry))).
  cbn [mbind run_bind start_block zero_entry]. by rewrite H.
Qed.

(** The empty name also reaches [write_file]: it matches the first unused
    entry, whose start block is 0, and the data lands in the first block of
    the file that owns block 0. *)
Theorem write_empty_name_clobbers :
  exists o1 o2 o3, texts [Create "f"; Write "f" "hello"; Write "" "XX"; Read "f"] =
    Ok [o1; o2; o3; "Content of 'f' : XXllo" +:+ nl].
Proof. eexists _, _, _. vm_compute. reflexivity. Qed.

(** [create_file] copies the name with [strcpy] into 100 bytes: for a new
    name of 100 characters or more, with a free entry and a free block, it
    writes past the entry. *)
Theorem create_long_name (fs : FileSystem) (m : gmap string (list ascii)) (name : string)
    (Hr : repr fs m) (Hn : c_string name) (Hlong : Z.to_nat MAX_FILE_NAME <= String.length name)
    (Hslot : exists i e, directory fs !! i = Some e /\ c_str (filename e) = "")
    (Hfree : find_free_block fs <> None) :
  create_file fs name = Undef.
Proof.
  destruct Hr as [own Hr]. unfold create_file.
  destruct (find_entry_spec (directory fs) name 0 Hn (entries_nul Hr)) as [[-> _]|(k & e & _ & Hk & E)].
  - cbn [mbind run_bind].
    destruct (find_slot_spec fs (directory fs) 0 (entries_nul Hr))
      as [[_ [?|Hno]]|(k & e & j & -> & Hk & He & Hj)]; [done| |].
    { destruct Hslot as (i & e & Hi & He). destruct (Hno e); [by eapply list_elem_of_lookup_2|done]. }
    cbn [mbind run_bind]. pose proof (free_from_spec (fat_table fs) 0) as Hf.
    unfold find_free_block in Hj. rewrite Hj in Hf. destruct Hf as (j0 & -> & Hf).
    rewrite aset_lt by (by eapply lookup_lt_Some). cbn [mbind run_bind].
    destruct (entry_facts Hr k e Hk) as (oc & _ & Hok).
    unfold strcpy, acopy. rewrite decide_False; [done|].
    rewrite length_app, list_ascii_length, (eo_len _ _ _ Hok). cbn [length]. lia.
  - exfalso. destruct (entry_facts Hr k e Hk) as (oc & _ & Hok).
    pose proof (c_str_length (filename e) (eo_nul _ _ _ Hok)) as Hl.
    rewrite E, (eo_len _ _ _ Hok) in Hl. lia.
Qed.

Definition long_name : string := a32 +:+ a32 +:+ a32 +:+ "aaaa".

Lemma create_long_name_witness : create_file zero_fs long_name = Undef.
Proof.
  apply (create_long_name zero_fs ∅ long_name).
  - eexists. exact zero_repr_own.
  - unfold c_string. apply (bool_decide_eq_true_1 (NUL ∉ list_ascii_of_string long_name)).
    vm_compute. reflexivity.
  - vm_compute. lia.
  - exists 0, zero_entry. split; reflexivity.
  - vm_compute. discriminate.
Defined.
