(* ===== verification/B64Facts.v ===== *)
(** * Facts about binary64

    The value of a finite double as an integer in units of 2^-1074, and what
    rounding to nearest does to it: [rounds_to X r] says that [r] is a finite
    double whose value is [X], or a nearest one on the grid of its exponent.
    Sums and differences round ([add_rounds], [sub_rounds]), comparisons
    compare values ([compare_val]). *)

From Stdlib Require Import ZArith Lia Bool SpecFloat.
From stdpp Require Import base numbers list option.
From S2P Require Import Prelude CText.

Local Open Scope Z_scope.

(** ** Values *)

(** The smallest exponent. *)
Definition lsb : Z := 1074.

Definition val (x : spec_float) : Z :=
  match x with
  | S754_finite s m e => cond_Zopp s (Zpos m) * 2 ^ (e + lsb)
  | _ => 0
  end.

(** A finite double: 53 bits, normal unless its exponent is the least. *)
Definition fin (x : spec_float) : Prop :=
  match x with
  | S754_zero _ => True
  | S754_finite _ m e => Zpos m < 2 ^ 53 /\ - lsb <= e /\ (e = - lsb \/ 2 ^ 52 <= Zpos m)
  | _ => False
  end.

Lemma pow2_pos n : 0 <= n -> 0 < 2 ^ n.
Proof. intros. by apply Z.pow_pos_nonneg. Qed.

Lemma pow2_le a b : a <= b -> 2 ^ a <= 2 ^ b.
Proof. intros. by apply Z.pow_le_mono_r. Qed.

Lemma pow2_le_inv a b : 0 <= b -> 2 ^ a <= 2 ^ b -> a <= b.
Proof. intros Hb H. by apply (Z.pow_le_mono_r_iff 2). Qed.

Lemma pow2_lt_inv a b : 0 <= b -> 2 ^ a < 2 ^ b -> a < b.
Proof. intros Hb H. apply Z.nle_gt. intros Hle. apply (pow2_le b a) in Hle. lia. Qed.

Lemma cond_Zopp_abs s m : 0 <= m -> Z.abs (cond_Zopp s m) = m.
Proof. destruct s; simpl; lia. Qed.

(** ** Digits *)
Lemma digits2_bounds m :
  2 ^ (Zpos (digits2_pos m) - 1) <= Zpos m < 2 ^ Zpos (digits2_pos m).
Proof.
  induction m as [m IH|m IH|]; cbn [digits2_pos]; [| |done];
    rewrite Pos2Z.inj_succ, Z.pow_succ_r by lia;
    replace (Z.succ (Zpos (digits2_pos m)) - 1) with (Z.succ (Zpos (digits2_pos m) - 1)) by lia;
    rewrite Z.pow_succ_r by lia; lia.
Qed.

Lemma digits2_unique m d : 2 ^ (d - 1) <= Zpos m < 2 ^ d -> Zpos (digits2_pos m) = d.
Proof.
  intros H. pose proof (digits2_bounds m) as H'.
  assert (0 <= d).
  { destruct (Z.lt_ge_cases d 0); [|done]. rewrite (Z.pow_neg_r 2 d) in H by done. lia. }
  assert (Zpos (digits2_pos m) - 1 < d) by (apply pow2_lt_inv; lia).
  assert (d - 1 < Zpos (digits2_pos m)) by (apply pow2_lt_inv; lia). lia.
Qed.

(** ** Shifting *)
Lemma iter_pos_nat {A} (f : A -> A) p x : SpecFloat.iter_pos f p x = Nat.iter (Pos.to_nat p) f x.
Proof.
  revert x. induction p as [p IH|p IH|]; intros x; cbn [SpecFloat.iter_pos]; [| |done].
  - rewrite Pos2Nat.inj_xI, !IH, <- Nat.iter_succ_r, <- Nat.iter_add. f_equal. lia.
  - rewrite Pos2Nat.inj_xO, !IH, <- Nat.iter_add. f_equal. lia.
Qed.

(** The record after [k] bits of [m] were shifted out: [low] is what was
    lost. *)
Definition shifted (m : Z) (k : nat) (r : shr_record) : Prop :=
  0 <= shr_m r /\ exists low, m = shr_m r * 2 ^ Z.of_nat k + low /\ 0 <= low < 2 ^ Z.of_nat k /\
    match shr_r r, shr_s r with
    | false, false => low = 0
    | false, true => 0 < 2 * low < 2 ^ Z.of_nat k
    | true, false => 2 * low = 2 ^ Z.of_nat k
    | true, true => 2 ^ Z.of_nat k < 2 * low
    end.

Lemma shr_1_half r : 0 <= shr_m r ->
  exists b : bool, shr_m r = 2 * shr_m (shr_1 r) + Z.b2z b /\ 0 <= shr_m (shr_1 r) /\
    shr_r (shr_1 r) = b /\ shr_s (shr_1 r) = shr_r r || shr_s r.
Proof.
  destruct r as [[|[p|p|]|p] rr ss]; cbn [shr_m shr_r shr_s shr_1]; intros H; try lia;
    [exists false|exists true|exists false|exists true]; cbn [shr_m shr_r shr_s Z.b2z]; split_and!; lia || done.
Qed.

Lemma shifted_iter m k : 0 <= m ->
  shifted m k (Nat.iter k shr_1 (Build_shr_record m false false)).
Proof.
  intros Hm. induction k as [|k IH].
  - split; [done|]. exists 0. cbn. lia.
  - rewrite Nat.iter_succ. set (r := Nat.iter k shr_1 _) in *. destruct IH as (Hr & low & Em & Hl & Hloc).
    destruct (shr_1_half r Hr) as (b & E & Hr' & Eb & Es). split; [done|].
    rewrite Nat2Z.inj_succ, Z.pow_succ_r by lia.
    exists (Z.b2z b * 2 ^ Z.of_nat k + low). split; [rewrite Em, E; ring|].
    rewrite Eb, Es. pose proof (pow2_pos (Z.of_nat k)).
    destruct b, (shr_r r), (shr_s r); cbn [Z.b2z orb] in *; lia.
Qed.

(** Rounding the shifted mantissa stays within half a unit. *)
Lemma round_half m k r : shifted m k r ->
  let m1 := round_nearest_even (shr_m r) (loc_of_shr_record r) in
  shr_m r <= m1 <= shr_m r + 1 /\ 2 * Z.abs (m1 * 2 ^ Z.of_nat k - m) <= 2 ^ Z.of_nat k.
Proof.
  intros (Hr & low & Em & Hl & Hloc) m1. pose proof (pow2_pos (Z.of_nat k) ltac:(lia)) as Hp.
  assert (H : (m1 = shr_m r /\ 2 * low <= 2 ^ Z.of_nat k) \/
              (m1 = shr_m r + 1 /\ 2 ^ Z.of_nat k <= 2 * low)).
  { unfold m1. destruct r as [q [] []]; cbn [loc_of_shr_record shr_m shr_r shr_s round_nearest_even] in *;
      [| destruct (Z.even q)| |]; lia. }
  destruct H as [[-> H]|[-> H]]; rewrite Em; split; lia.
Qed.

Lemma shr_exact m e n : n <= 0 -> shr (Build_shr_record m false false) e n = (Build_shr_record m false false, e).
Proof. by destruct n. Qed.

Lemma shr_pos m e n : 0 < n -> 0 <= m -> exists r,
  shr (Build_shr_record m false false) e n = (r, e + n) /\ shifted m (Z.to_nat n) r.
Proof.
  intros Hn Hm. destruct n as [|p|p]; try lia. eexists. split; [done|].
  rewrite iter_pos_nat. by apply shifted_iter.
Qed.

(** ** Rounding *)
Definition rounds_to (X : Z) (r : spec_float) : Prop :=
  fin r /\ (val r = X \/ exists g, 0 <= g /\ (2 ^ g | val r) /\
    2 * Z.abs (val r - X) <= 2 ^ g /\ 2 ^ (52 + g) <= Z.abs X).

Lemma fexp_eq e : fexp B64.prec B64.emax e = Z.max (e - 53) (- lsb).
Proof. reflexivity. Qed.

(** The second shift of [binary_round_aux] and the range check. *)
Lemma finish_round sx m1 e1 :
  2 ^ 52 <= m1 <= 2 ^ 53 -> - lsb <= e1 -> e1 <= 970 ->
  exists r, (let '(mrs, e2) := shr_fexp B64.prec B64.emax m1 e1 loc_Exact in
    match shr_m mrs with
    | Z0 => S754_zero sx
    | Zpos m => if Z.leb e2 (Z.sub B64.emax B64.prec) then S754_finite sx m e2 else S754_infinity sx
    | _ => S754_nan
    end) = r /\ fin r /\ val r = cond_Zopp sx m1 * 2 ^ (e1 + lsb).
Proof.
  intros Hm He He'. eexists. split; [reflexivity|]. unfold shr_fexp. rewrite fexp_eq.
  destruct m1 as [|m|m]; try lia. cbn [Zdigits2 shr_record_of_loc].
  destruct (Z.lt_ge_cases (Zpos m) (2 ^ 53)) as [Hlt|Hge].
  - rewrite (digits2_unique m 53) by (change (53 - 1) with 52; lia).
    rewrite shr_exact by lia. cbn [shr_m]. change (B64.emax - B64.prec) with 971.
    rewrite (proj2 (Z.leb_le _ _)) by lia. split; [|done]. cbn [fin]. lia.
  - assert (Zpos m = 2 ^ 53) as Em by lia. rewrite (digits2_unique m 54) by (rewrite Em; lia).
    assert (m = 9007199254740992%positive) as -> by (by injection Em).
    replace (Z.max (54 + e1 - 53) (- lsb) - e1) with 1 by lia.
    cbn [shr SpecFloat.iter_pos shr_1 shr_m orb]. change (B64.emax - B64.prec) with 971.
    rewrite (proj2 (Z.leb_le _ _)) by lia. split; [cbn [fin]; lia|].
    cbn [val]. replace (e1 + 1 + lsb) with (Z.succ (e1 + lsb)) by lia.
    rewrite Z.pow_succ_r by lia. destruct sx; cbn [cond_Zopp]; lia.
Qed.

Lemma round_aux sx m e :
  let d := Zpos (digits2_pos m) in
  - lsb <= e -> Z.max (d + e - 53) (- lsb) >= e -> d + e <= 1023 ->
  rounds_to (cond_Zopp sx (Zpos m) * 2 ^ (e + lsb))
    (binary_round_aux B64.prec B64.emax sx (Zpos m) e loc_Exact).
Proof.
  intros d He Hc Hd. unfold binary_round_aux. unfold shr_fexp at 1. rewrite fexp_eq.
  cbn [Zdigits2 shr_record_of_loc]. fold d. pose proof (digits2_bounds m) as Hb. fold d in Hb.
  destruct (Z.le_gt_cases d 53) as [Hle|Hgt].
  - rewrite shr_exact by lia. cbn [shr_m loc_of_shr_record round_nearest_even].
    unfold shr_fexp. rewrite fexp_eq. cbn [Zdigits2 shr_record_of_loc]. fold d.
    rewrite shr_exact by lia. cbn [shr_m]. change (B64.emax - B64.prec) with 971.
    rewrite (proj2 (Z.leb_le _ _)) by (unfold lsb in *; lia). split; [|by left]. cbn [fin].
    pose proof (pow2_le d 53 Hle). split; [lia|]. split; [done|].
    destruct (decide (e = - lsb)); [by left|right]. assert (d = 53) as Ed by lia. rewrite Ed in Hb. lia.
  - destruct (shr_pos (Zpos m) e (Z.max (d + e - 53) (- lsb) - e)) as (r & -> & Hsh); [lia|lia|].
    replace (Z.max (d + e - 53) (- lsb) - e) with (d - 53) in * by lia.
    pose proof (round_half _ _ _ Hsh) as Hh. destruct Hsh as (Hr & low & Em & Hl & _).
    rewrite Z2Nat.id in * by lia. cbv zeta in Hh.
    set (m1 := round_nearest_even _ _) in *. destruct Hh as [Hm1 Hh].
    pose proof (pow2_pos (d - 53) ltac:(lia)) as Hp.
    assert (Hq : 2 ^ 52 <= shr_m r < 2 ^ 53).
    { split.
      - apply Z.lt_succ_r, (Z.mul_lt_mono_pos_r (2 ^ (d - 53))); [done|].
        replace (d - 1) with (52 + (d - 53)) in Hb by lia. rewrite Z.pow_add_r in Hb by lia. lia.
      - apply (Z.mul_lt_mono_pos_r (2 ^ (d - 53))); [done|].
        rewrite <- Z.pow_add_r by lia. replace (53 + (d - 53)) with d by lia. lia. }
    destruct (finish_round sx m1 (e + (d - 53))) as (x & Ex & Hfin & Hval); [lia|lia|lia|].
    match goal with |- rounds_to _ ?y => change y with (let '(mrs, e2) :=
        shr_fexp B64.prec B64.emax m1 (e + (d - 53)) loc_Exact in
      match shr_m mrs with
      | Z0 => S754_zero sx
      | Zpos m => if Z.leb e2 (Z.sub B64.emax B64.prec) then S754_finite sx m e2 else S754_infinity sx
      | _ => S754_nan end) end.
    rewrite Ex. split; [done|]. right. exists (d - 53 + (e + lsb)). split; [lia|].
    replace (e + (d - 53) + lsb) with (d - 53 + (e + lsb)) in Hval by lia.
    pose proof (pow2_pos (e + lsb) ltac:(lia)) as Hp'.
    split; [by exists (cond_Zopp sx m1)|]. rewrite Hval.
    rewrite !Z.pow_add_r by lia. split.
    + replace (cond_Zopp sx m1 * (2 ^ (d - 53) * 2 ^ (e + lsb)) - cond_Zopp sx (Zpos m) * 2 ^ (e + lsb))
        with (cond_Zopp sx (m1 * 2 ^ (d - 53) - Zpos m) * 2 ^ (e + lsb))
        by (destruct sx; cbn [cond_Zopp]; ring).
      rewrite Z.abs_mul, (Z.abs_eq (2 ^ (e + lsb))) by lia.
      replace (Z.abs (cond_Zopp sx (m1 * 2 ^ (d - 53) - Zpos m))) with (Z.abs (m1 * 2 ^ (d - 53) - Zpos m))
        by (destruct sx; cbn [cond_Zopp]; lia). nia.
    + rewrite Z.abs_mul, cond_Zopp_abs, (Z.abs_eq (2 ^ (e + lsb))) by lia.
      rewrite (Z.pow_add_r 2 52), (Z.pow_add_r 2 (d - 53)) by lia. rewrite Z.mul_assoc. apply Z.mul_le_mono_nonneg_r; [lia|]. rewrite Em.
      pose proof (Z.mul_le_mono_nonneg_r (2 ^ 52) (shr_m r) (2 ^ (d - 53))). lia.
Qed.

Lemma iter_xO m p : Zpos (Pos.iter xO m p) = Zpos m * 2 ^ Zpos p.
Proof.
  induction p as [|p IH] using Pos.peano_ind; [simpl; lia|].
  rewrite Pos.iter_succ, Pos2Z.inj_succ, Z.pow_succ_r by lia.
  rewrite Pos2Z.inj_xO, IH. ring.
Qed.

Lemma shl_align_val m e e' : e' <= e ->
  snd (shl_align m e e') = e' /\ Zpos (fst (shl_align m e e')) = Zpos m * 2 ^ (e - e').
Proof.
  intros H. unfold shl_align. destruct (e' - e) as [|p|p] eqn:E; [|lia|].
  - replace (e - e') with 0 by lia. cbn [fst snd]. rewrite Z.pow_0_r. split; lia.
  - cbn [fst snd]. rewrite iter_xO. replace (e - e') with (Zpos p) by lia. done.
Qed.

Lemma binary_round_spec sx m e :
  - lsb <= e -> Zpos m * 2 ^ (e + lsb) < 2 ^ (1023 + lsb) ->
  rounds_to (cond_Zopp sx (Zpos m) * 2 ^ (e + lsb)) (binary_round B64.prec B64.emax sx m e).
Proof.
  intros He Hlim. unfold binary_round. rewrite fexp_eq.
  set (d := Zpos (digits2_pos m)). pose proof (digits2_bounds m) as Hb. fold d in Hb.
  assert (Hd : d + e <= 1023).
  { assert (d - 1 + (e + lsb) < 1023 + lsb); [|lia]. apply pow2_lt_inv; [unfold lsb; lia|].
    rewrite Z.pow_add_r by (unfold d, lsb in *; lia).
    pose proof (pow2_pos (e + lsb) ltac:(lia)). nia. }
  set (e1 := Z.max (d + e - 53) (- lsb)).
  destruct (Z.lt_ge_cases e1 e) as [Hlt|Hge].
  - destruct (shl_align_val m e e1 ltac:(lia)) as [E1 E2].
    destruct (shl_align m e e1) as [mz ez]. cbn [fst snd] in *. subst ez.
    pose proof (pow2_pos (e - e1) ltac:(lia)) as Hp.
    assert (Hdz : Zpos (digits2_pos mz) = d + (e - e1)).
    { apply digits2_unique. rewrite E2. replace (d + (e - e1) - 1) with (d - 1 + (e - e1)) by lia.
      rewrite !Z.pow_add_r by (unfold d; lia). nia. }
    replace (cond_Zopp sx (Zpos m) * 2 ^ (e + lsb)) with (cond_Zopp sx (Zpos mz) * 2 ^ (e1 + lsb)).
    + apply round_aux; rewrite ?Hdz; lia.
    + rewrite E2. replace (e + lsb) with (e - e1 + (e1 + lsb)) by lia. rewrite (Z.pow_add_r 2 (e - e1)) by lia.
      destruct sx; cbn [cond_Zopp]; ring.
  - assert (Ea : shl_align m e e1 = (m, e)).
    { unfold shl_align. destruct (e1 - e) eqn:E; [done|done|lia]. }
    rewrite Ea. apply round_aux; unfold d in *; lia.
Qed.

Lemma normalize_spec m e sz :
  - lsb <= e -> Z.abs m * 2 ^ (e + lsb) < 2 ^ (1023 + lsb) ->
  rounds_to (m * 2 ^ (e + lsb)) (binary_normalize B64.prec B64.emax m e sz).
Proof.
  intros He Hlim. destruct m as [|m|m]; cbn [binary_normalize].
  - split; [done|by left].
  - by apply (binary_round_spec false).
  - by apply (binary_round_spec true).
Qed.

(** ** Operations *)
Lemma fin_align s m e ez :
  ez <= e -> - lsb <= ez ->
  cond_Zopp s (Zpos (fst (shl_align m e ez))) * 2 ^ (ez + lsb) = cond_Zopp s (Zpos m) * 2 ^ (e + lsb).
Proof.
  intros H H'. destruct (shl_align_val m e ez H) as [_ ->].
  replace (e + lsb) with (e - ez + (ez + lsb)) by lia. rewrite (Z.pow_add_r 2 (e - ez)) by lia.
  destruct s; cbn [cond_Zopp]; ring.
Qed.

Lemma abs_scale m k : 0 <= k -> Z.abs (m * 2 ^ k) = Z.abs m * 2 ^ k.
Proof. intros H. pose proof (pow2_pos k H). rewrite Z.abs_mul. lia. Qed.

Lemma add_rounds a b :
  fin a -> fin b -> Z.abs (val a + val b) < 2 ^ (1023 + lsb) -> rounds_to (val a + val b) (B64.add a b).
Proof.
  intros Ha Hb Hlim. unfold B64.add.
  destruct a as [sa| | |sa ma ea], b as [sb| | |sb mb eb]; try done; cbn [SFadd].
  - destruct sa, sb; (split; [done|by left]).
  - split; [done|by left].
  - split; [done|left; cbn [val]; lia].
  - cbn [fin val] in *. destruct Ha as (_ & Ha & _), Hb as (_ & Hb & _).
    rewrite <- (fin_align sa ma ea (Z.min ea eb)), <- (fin_align sb mb eb (Z.min ea eb)) in * by lia.
    rewrite <- Z.mul_add_distr_r in *. rewrite abs_scale in Hlim by lia. apply normalize_spec; [lia|done].
Qed.

Lemma sub_rounds a b :
  fin a -> fin b -> Z.abs (val a - val b) < 2 ^ (1023 + lsb) -> rounds_to (val a - val b) (B64.sub a b).
Proof.
  intros Ha Hb Hlim. unfold B64.sub.
  destruct a as [sa| | |sa ma ea], b as [sb| | |sb mb eb]; try done; cbn [SFsub].
  - destruct sa, sb; (split; [done|by left]).
  - split; [done|]. left. cbn [val]. destruct sb; cbn [negb cond_Zopp]; lia.
  - split; [done|left; cbn [val]; lia].
  - cbn [fin val] in *. destruct Ha as (_ & Ha & _), Hb as (_ & Hb & _).
    rewrite <- (fin_align sa ma ea (Z.min ea eb)), <- (fin_align sb mb eb (Z.min ea eb)) in * by lia.
    rewrite <- Z.mul_sub_distr_r in *. rewrite abs_scale in Hlim by lia. apply normalize_spec; [lia|done].
Qed.

Lemma of_Z_rounds z : Z.abs z < 2 ^ 1023 -> rounds_to (z * 2 ^ lsb) (B64.of_Z z).
Proof.
  intros H. apply (normalize_spec z 0); [done|]. rewrite Z.add_0_l, Z.pow_add_r by done.
  apply Z.mul_lt_mono_pos_r; [by apply pow2_pos|done].
Qed.

Lemma abs_val x : fin x -> fin (SFabs x) /\ val (SFabs x) = Z.abs (val x).
Proof.
  destruct x as [| | |s m e]; try done. intros H. split; [done|]. cbn [SFabs val cond_Zopp].
  destruct H as (_ & H & _). rewrite abs_scale by lia. by rewrite cond_Zopp_abs.
Qed.

(** ** Order *)

(** A larger exponent makes a larger magnitude. *)
Lemma mag_lt m1 e1 m2 e2 s1 s2 :
  fin (S754_finite s1 m1 e1) -> fin (S754_finite s2 m2 e2) -> e1 < e2 ->
  Zpos m1 * 2 ^ (e1 + lsb) < Zpos m2 * 2 ^ (e2 + lsb).
Proof.
  cbn [fin]. intros (H1 & H1' & _) (_ & _ & [H2|H2]) Hlt; [lia|].
  apply (Z.lt_le_trans _ (2 ^ 53 * 2 ^ (e1 + lsb))).
  - apply Z.mul_lt_mono_pos_r; [apply pow2_pos; lia|done].
  - apply (Z.le_trans _ (2 ^ 52 * 2 ^ (e2 + lsb))).
    + rewrite <- !Z.pow_add_r by lia. apply pow2_le. lia.
    + apply Z.mul_le_mono_nonneg_r; [|done]. pose proof (pow2_pos (e2 + lsb)). lia.
Qed.

Lemma mag_compare m1 e1 m2 e2 s1 s2 :
  fin (S754_finite s1 m1 e1) -> fin (S754_finite s2 m2 e2) ->
  match Z.compare e1 e2 with Lt => Lt | Gt => Gt | Eq => Pos.compare_cont Eq m1 m2 end =
  Z.compare (Zpos m1 * 2 ^ (e1 + lsb)) (Zpos m2 * 2 ^ (e2 + lsb)).
Proof.
  intros H1 H2. destruct (Z.compare_spec e1 e2) as [E|Hlt|Hlt].
  - subst e2. destruct H1 as (_ & H1 & _).
    rewrite <- Zmult_compare_compat_r by (apply Z.lt_gt, pow2_pos; lia). done.
  - symmetry. apply Z.compare_lt_iff. by eapply mag_lt.
  - symmetry. apply Z.compare_gt_iff. by eapply mag_lt.
Qed.

Lemma compare_val a b : fin a -> fin b -> SFcompare a b = Some (Z.compare (val a) (val b)).
Proof.
  destruct a as [sa| | |sa ma ea], b as [sb| | |sb mb eb]; try done; intros Ha Hb; cbn [SFcompare val].
  - pose proof (pow2_pos (eb + lsb) ltac:(destruct Hb; lia)). f_equal.
    destruct sb; cbn [cond_Zopp]; symmetry; [apply Z.compare_gt_iff|apply Z.compare_lt_iff]; nia.
  - pose proof (pow2_pos (ea + lsb) ltac:(destruct Ha; lia)). f_equal.
    destruct sa; cbn [cond_Zopp]; symmetry; [apply Z.compare_lt_iff|apply Z.compare_gt_iff]; nia.
  - pose proof (pow2_pos (ea + lsb) ltac:(destruct Ha; lia)).
    pose proof (pow2_pos (eb + lsb) ltac:(destruct Hb; lia)). f_equal.
    destruct sa, sb; cbn [cond_Zopp].
    + rewrite !Z.mul_opp_l, Z.compare_opp, (Z.compare_antisym (Zpos ma * _)),
        <- (mag_compare _ _ _ _ _ _ Ha Hb).
      by destruct (Z.compare ea eb).
    + symmetry. apply Z.compare_lt_iff. nia.
    + symmetry. apply Z.compare_gt_iff. nia.
    + by apply (mag_compare _ _ _ _ _ _ Ha Hb).
Qed.

Lemma ltb_val a b : fin a -> fin b -> SFltb a b = Z.ltb (val a) (val b).
Proof. intros Ha Hb. unfold SFltb, Z.ltb. by rewrite compare_val. Qed.

Lemma leb_val a b : fin a -> fin b -> SFleb a b = Z.leb (val a) (val b).
Proof. intros Ha Hb. unfold SFleb, Z.leb. by rewrite compare_val by done; destruct (Z.compare _ _). Qed.

(** ** What rounding preserves *)

(** Values on a grid that fits 53 bits are not rounded. *)
Lemma rounds_exact X r h :
  rounds_to X r -> 0 <= h -> (2 ^ h | X) -> Z.abs X < 2 ^ (53 + h) -> val r = X.
Proof.
  intros [_ [H|(g & Hg & Hd & He & Hn)]] Hh HX Hlim; [done|].
  assert (Hgh : g <= h) by (assert (52 + g < 53 + h) by (apply pow2_lt_inv; lia); lia).
  assert (HXg : (2 ^ g | X)).
  { apply (Z.divide_trans _ (2 ^ h)); [|done]. exists (2 ^ (h - g)). rewrite <- Z.pow_add_r by lia.
    f_equal. lia. }
  destruct (Z.divide_sub_r _ _ _ Hd HXg) as [k Hk]. pose proof (pow2_pos g Hg).
  rewrite Hk in He. assert (k = 0) by nia. lia.
Qed.

(** The error is at most half a unit of the last place. *)
Lemma rounds_error X r n :
  rounds_to X r -> 53 <= n -> Z.abs X < 2 ^ n -> Z.abs (val r - X) <= 2 ^ (n - 54).
Proof.
  intros [_ [->|(g & Hg & Hd & He & Hn)]] Hge Hlim.
  { rewrite Z.sub_diag. apply Z.pow_nonneg. lia. }
  assert (52 + g < n) by (apply pow2_lt_inv; lia).
  destruct (decide (g = 0)) as [->|Hne].
  - change (2 ^ 0) with 1 in He. assert (val r - X = 0) as -> by lia. apply Z.pow_nonneg. lia.
  - pose proof (pow2_le (g - 1) (n - 54) ltac:(lia)).
    replace g with (Z.succ (g - 1)) in He by lia. rewrite Z.pow_succ_r in He by lia. lia.
Qed.

(** A double above [2 ^ (52 + g)] is a multiple of [2 ^ g]. *)
Lemma fin_grid a g : fin a -> 0 <= g -> 2 ^ (52 + g) <= val a -> (2 ^ g | val a).
Proof.
  intros Ha Hg Hle. pose proof (pow2_pos (52 + g) ltac:(lia)).
  destruct a as [| | |s m e]; [cbn [val] in *; lia|done|done|].
  destruct Ha as (Hm & He' & _). cbn [val] in *.
  destruct s; cbn [cond_Zopp] in *; [pose proof (pow2_pos (e + lsb) ltac:(lia)); nia|].
  assert (Hge : g <= e + lsb).
  { assert (52 + g < 53 + (e + lsb)); [|lia]. apply pow2_lt_inv; [lia|].
    rewrite (Z.pow_add_r 2 53) by lia. pose proof (pow2_pos (e + lsb) ltac:(lia)).
    apply (Z.le_lt_trans _ (Zpos m * 2 ^ (e + lsb))); [lia|]. by apply Z.mul_lt_mono_pos_r. }
  apply Z.divide_mul_r. exists (2 ^ (e + lsb - g)). rewrite <- Z.pow_add_r by lia. f_equal. lia.
Qed.

(** Multiples of [2 ^ g] less than one step apart. *)
Lemma step_le g x y : 0 <= g -> (2 ^ g | x) -> (2 ^ g | y) -> x - y < 2 ^ g -> x <= y.
Proof.
  intros Hg Hx Hy Hlt. destruct (Z.divide_sub_r _ _ _ Hx Hy) as [k Hk]. pose proof (pow2_pos g Hg).
  apply Z.nlt_ge. intros H'. assert (0 < k) by nia.
  assert (1 * 2 ^ g <= k * 2 ^ g) by (apply Z.mul_le_mono_nonneg_r; lia). lia.
Qed.

Lemma pow2_divide g h : 0 <= g <= h -> (2 ^ g | 2 ^ h).
Proof. intros H. exists (2 ^ (h - g)). rewrite <- Z.pow_add_r by lia. f_equal. lia. Qed.

(** A double below the exact value is below the rounded one. *)
Lemma rounds_above X r a : rounds_to X r -> 0 <= X -> fin a -> val a <= X -> val a <= val r.
Proof.
  intros [_ [->|(g & Hg & Hd & He & Hn)]] HX Ha Hle; [done|]. rewrite Z.abs_eq in Hn by done.
  pose proof (pow2_pos g Hg) as Hp. apply Z.nlt_ge. intros Hlt.
  assert (Hr : 2 ^ (52 + g) <= val r) by (apply (step_le g); [done|by apply pow2_divide; lia|done|lia]).
  assert (val a <= val r); [|lia]. apply (step_le g); [done|apply fin_grid; [done|done|lia]|done|lia].
Qed.

(** Rounding is monotone. *)
Lemma rounds_mono X Y r s : rounds_to X r -> rounds_to Y s -> 0 <= X -> X < Y -> val r <= val s.
Proof.
  intros HX HY H0 Hlt. pose proof HX as [Hfr [Er|(g & Hg & Hdg & Heg & Hng)]].
  { rewrite Er. rewrite <- Er in Hlt |- *. apply (rounds_above Y s r HY); [lia|done|lia]. }
  rewrite Z.abs_eq in Hng by done. pose proof (pow2_pos g Hg). apply Z.nlt_ge. intros Hgt.
  destruct HY as [Hfs [Es|(h & Hh & Hdh & Heh & Hnh)]].
  - assert (val r <= val s); [|lia]. apply (step_le g); [done|done|apply fin_grid; [done|done|lia]|lia].
  - rewrite Z.abs_eq in Hnh by lia. pose proof (pow2_pos h Hh).
    pose proof (pow2_le g (Z.max g h) ltac:(lia)). pose proof (pow2_le h (Z.max g h) ltac:(lia)).
    assert (Hbig : 2 ^ (52 + Z.max g h) <= Y).
    { destruct (Z.max_spec g h) as [[_ ->]|[_ ->]]; lia. }
    assert (Hs : 2 ^ (52 + Z.max g h) <= val s) by (apply (step_le h); [done|apply pow2_divide; lia|done|lia]).
    assert (val r <= val s); [|lia]. apply (step_le (Z.max g h)); [lia|apply fin_grid; [done|lia|lia]..|lia].
Qed.

(** A value has one double, but for the sign of zero. *)
Lemma val_inj a b : fin a -> fin b -> val a = val b -> a = b \/ (val a = 0 /\ exists sa sb, a = S754_zero sa /\ b = S754_zero sb).
Proof.
  intros Ha Hb E. pose proof (compare_val a b Ha Hb) as Hc. rewrite E, Z.compare_refl in Hc.
  destruct a as [sa| | |sa ma ea], b as [sb| | |sb mb eb]; try done; [right; eauto|by destruct sb|by destruct sa|].
  left. cbn [SFcompare] in Hc. destruct sa, sb; try done; destruct (Z.compare_spec ea eb) as [<-| |]; try done;
    injection Hc as Hc; change (Pos.compare_cont Eq ma mb) with (Pos.compare ma mb) in Hc.
  - destruct (Pos.compare_spec ma mb) as [<-| |]; done.
  - destruct (Pos.compare_spec ma mb) as [<-| |]; done.
Qed.

Lemma add_mono a b c : fin a -> fin b -> fin c -> 0 <= val a + val c -> val a <= val b ->
  val b + val c < 2 ^ (1023 + lsb) -> val (B64.add a c) <= val (B64.add b c).
Proof.
  intros Ha Hb Hc H0 Hle Hlim. destruct (Z.eq_dec (val a) (val b)) as [E|Hne].
  - destruct (val_inj a b Ha Hb E) as [->|(_ & sa & sb & -> & ->)]; [done|].
    destruct c as [sc| | |sc mc ec]; try done. by destruct sa, sb, sc.
  - apply (rounds_mono (val a + val c) (val b + val c)); [apply add_rounds; try done; lia..|done|lia].
Qed.
