(* ===== verification/CpuSched.v ===== *)
(** * The CPU scheduling simulator

    [src/Assignment2/Assignment2-3/cpu_scheduler.c]: the process table, the
    Gantt segments, the selection rules, the four simulations, the statistics
    and [main].  The code computes with [double]; here the arithmetic is an
    interface, [TimeOps], with two instances: [binary64], which rounds as the
    code does, and [ticks], exact arithmetic in units of 1e-10 ms, in which the
    constants 0.1 and 1e-9 are integers.  FCFS and SJF add each burst once and
    compare only arrivals, and the order they serve does not depend on rounding:
    their theorems are about [ticks].  SRTF compares what is left after
    roundings; its theorems, and what round robin reports, are about
    [binary64] ([CpuRound], [CpuDouble]).

    The source does not compile as it stands: [add_seg] stores an undeclared
    [eend] where its parameter is [end], a stray [/] precedes the fifth comment
    of [simulate_FCFS], and [true] is used without [stdbool.h].  The model
    takes the evident meaning. *)

From Stdlib Require Import ZArith Lia SpecFloat QArith_base Ascii String.
From stdpp Require Import base numbers list option strings.
From S2P Require Import Prelude CText.

Local Open Scope Z_scope.

Definition MAX_TASKS : Z := 1000.
Definition PID_IDLE : Z := -1.
Definition PID_CS : Z := -2.

(** ** Time *)

(** [T] holds times, [R] averages and percentages. *)
Class TimeOps (T R : Type) := {
  of_int : Z -> T;
  tadd : T -> T -> T;
  tsub : T -> T -> T;
  tlt : T -> T -> bool;
  tle : T -> T -> bool;
  tabs : T -> T;
  tmin : T -> T -> T;
  ceil_int : T -> Z;
  eps : T;
  cs_overhead : T;
  quot : T -> T -> R;
  times100 : R -> R;
  rzero : R }.

#[export] Instance ticks : TimeOps Z Q := {
  of_int z := z * 10000000000;
  tadd := Z.add;
  tsub := Z.sub;
  tlt := Z.ltb;
  tle := Z.leb;
  tabs := Z.abs;
  tmin := Z.min;
  ceil_int t := - ((- t) / 10000000000);
  eps := 10;
  cs_overhead := 1000000000;
  quot a b := Qdiv (inject_Z a) (inject_Z b);
  times100 q := Qmult q (inject_Z 100);
  rzero := inject_Z 0 }.

(** [(int) ceil (x)] of a finite [x]. *)
Definition sf_ceil (x : spec_float) : Z :=
  match x with
  | S754_finite s m e =>
      let v := if s then Zneg m else Zpos m in
      if decide (0 <= e) then v * 2 ^ e else - ((- v) / 2 ^ (- e))
  | _ => 0
  end.

#[export] Instance binary64 : TimeOps spec_float spec_float := {
  of_int := B64.of_Z;
  tadd := B64.add;
  tsub := B64.sub;
  tlt := SFltb;
  tle := SFleb;
  tabs := SFabs;
  tmin a b := if SFltb b a then b else a;
  ceil_int := sf_ceil;
  eps := B64.dec 1 9;
  cs_overhead := B64.dec 1 1;
  quot := B64.div;
  times100 q := B64.mul q (B64.of_Z 100);
  rzero := S754_zero false }.

(** ** Processes and segments *)
Record Proc (T : Type) := MkProc {
  pid : Z;
  arrival : Z;
  burst : Z;
  remain : T;
  first_start : T;
  finish : T;
  started : bool;
  done : bool }.
Arguments MkProc {T}.
Arguments pid {T}.
Arguments arrival {T}.
Arguments burst {T}.
Arguments remain {T}.
Arguments first_start {T}.
Arguments finish {T}.
Arguments started {T}.
Arguments done {T}.

Record Segment (T : Type) := Seg { start : T; end_ : T; spid : Z }.
Arguments Seg {T}.
Arguments start {T}.
Arguments end_ {T}.
Arguments spid {T}.

(** The global state: [P[0 .. N-1]], [segs[0 .. segc-1]] and [segcap]. *)
Record Sim (T : Type) := MkSim {
  procs : list (Proc T);
  segs : list (Segment T);
  segcap : nat }.
Arguments MkSim {T}.
Arguments procs {T}.
Arguments segs {T}.
Arguments segcap {T}.

Section scheduler.
Context {T R : Type} {ops : TimeOps T R}.
Implicit Types (p : Proc T) (s : Sim T) (now : T).

Definition zero : T := of_int 0.

(** [P[k]] with [k] chosen by a search: -1 is outside the table. *)
Definition pget (s : Sim T) (k : option nat) : run (Proc T) :=
  match k with Some i => aget (procs s) i | None => Undef end.

Definition pset (s : Sim T) (i : nat) (p : Proc T) : run (Sim T) :=
  P ← aset (procs s) i p; Ok (MkSim P (segs s) (segcap s)).

(** [add_seg (st, en, id)] *)
Definition add_seg (st en : T) (id : Z) (s : Sim T) : run (Sim T) :=
  if tle en st then Ok s
  else
    let push :=
      let cap := if decide (length (segs s) = segcap s)
                 then (if decide (segcap s = 0%nat) then 128%nat else (segcap s * 2)%nat)
                 else segcap s in
      if decide (length (segs s) < cap)%nat
      then Ok (MkSim (procs s) (segs s ++ [Seg st en id]) cap) else Undef in
    match last (segs s) with
    | Some g =>
        if tlt (tabs (tsub (end_ g) st)) eps && bool_decide (spid g = id) then
          Ok (MkSim (procs s)
                (<[(length (segs s) - 1)%nat := Seg (start g) en (spid g)]> (segs s)) (segcap s))
        else push
    | None => push
    end.

(** ** Searches over the table *)

(** [!P[i].done && P[i].arrival <= now + 1e-9] *)
Definition ready (now : T) (p : Proc T) : bool :=
  negb (done p) && tle (of_int (arrival p)) (tadd now eps).

(** [!P[i].done && P[i].arrival > now + 1e-9] *)
Definition later (now : T) (p : Proc T) : bool :=
  negb (done p) && tlt (tadd now eps) (of_int (arrival p)).

Definition any_ready (now : T) (P : list (Proc T)) : bool := existsb (ready now) P.
Definition all_done (P : list (Proc T)) : bool := forallb done P.

(** The loops that keep the index of the best candidate so far in [best]
    ([found]); [better x b] says that [x] replaces [b]. *)
Fixpoint search (ok : Proc T -> bool) (better : Proc T -> Proc T -> bool)
    (l : list (Proc T)) (i : nat) (best : option (nat * Proc T)) : option nat :=
  match l with
  | [] => fst <$> best
  | p :: l' =>
      let best' :=
        if ok p then
          match best with
          | None => Some (i, p)
          | Some (_, b) => if better p b then Some (i, p) else best
          end
        else best in
      search ok better l' (S i) best'
  end.

Definition next_arrival_after (now : T) (P : list (Proc T)) : option nat :=
  search (later now) (fun x b => bool_decide (arrival x < arrival b)) P 0 None.

Definition fcfs_better (x b : Proc T) : bool :=
  bool_decide (arrival x < arrival b) ||
  (bool_decide (arrival x = arrival b) && bool_decide (pid x < pid b)).

Definition sjf_better (x b : Proc T) : bool :=
  bool_decide (burst x < burst b) ||
  (bool_decide (burst x = burst b) && fcfs_better x b).

Definition srtf_better (x b : Proc T) : bool :=
  tlt (remain x) (remain b) ||
  (tlt (tabs (tsub (remain x) (remain b))) eps && fcfs_better x b).

Definition pick_FCFS (now : T) (P : list (Proc T)) : option nat :=
  search (ready now) fcfs_better P 0 None.
Definition pick_SJF (now : T) (P : list (Proc T)) : option nat :=
  search (ready now) sjf_better P 0 None.
Definition pick_SRTF (now : T) (P : list (Proc T)) : option nat :=
  search (ready now) srtf_better P 0 None.

(** ** Output *)

(** The process of the first segment that covers time [t]. *)
Fixpoint seg_at (l : list (Segment T)) (t : Z) : Z :=
  match l with
  | [] => PID_IDLE
  | g :: l' =>
      if tle (start g) (tadd (of_int t) eps) && tlt (tadd (of_int t) eps) (end_ g)
      then spid g else seg_at l' t
  end.

Fixpoint gantt_cells (l : list (Segment T)) (t : Z) (n : nat) : string :=
  match n with
  | O => ""
  | S n' =>
      let id := seg_at l t in
      (if decide (id = PID_CS) then "" else " P" +:+ print_d id +:+ " |")
      +:+ gantt_cells l (t + 1) n'
  end.

Definition print_gantt (s : Sim T) (makespan : T) : string :=
  "Gantt Chart:" +:+ String "010" "|"
  +:+ gantt_cells (segs s) 0 (Z.to_nat (ceil_int (tsub makespan eps)))
  +:+ String "010" "".

(** The four numbers [print_stats] prints. *)
Record Stats := MkStats { avgW : R; avgT : R; avgR : R; util : R }.

Record sums := MkSums {
  sum_wait : T; sum_resp : T; sum_turn : T; sum_of_burst : T; finish_max : T }.

Definition add_stats (a : sums) (p : Proc T) : sums :=
  let turn := tsub (finish p) (of_int (arrival p)) in
  MkSums (tadd (sum_wait a) (tsub turn (of_int (burst p))))
    (tadd (sum_resp a) (tsub (first_start p) (of_int (arrival p))))
    (tadd (sum_turn a) turn)
    (tadd (sum_of_burst a) (of_int (burst p)))
    (if tlt (finish_max a) (finish p) then finish p else finish_max a).

Definition print_stats (P : list (Proc T)) : Stats :=
  let a := foldl add_stats (MkSums zero zero zero zero zero) P in
  let n := of_int (Z.of_nat (length P)) in
  MkStats (quot (sum_wait a) n) (quot (sum_turn a) n) (quot (sum_resp a) n)
    (if tlt zero (finish_max a) then times100 (quot (sum_of_burst a) (finish_max a)) else rzero).

(** ** FCFS and SJF *)

(** [if (!P[k].started) { P[k].first_start = now; P[k].started = 1; }] *)
Definition note_start (now : T) (p : Proc T) : Proc T :=
  if started p then p
  else MkProc (pid p) (arrival p) (burst p) (remain p) now (finish p) true (done p).

(** [P[k].remain = 0; P[k].done = 1; P[k].finish = now] *)
Definition complete (now : T) (p : Proc T) : Proc T :=
  MkProc (pid p) (arrival p) (burst p) zero (first_start p) now (started p) true.

(** The idle step at the head of the loops: [None] is the [break]. *)
Definition idle_until (now : T) (s : Sim T) : run (option (T * Sim T)) :=
  match next_arrival_after now (procs s) with
  | None => Ok None
  | nx =>
      q ← pget s nx;
      s' ← add_seg now (of_int (arrival q)) PID_IDLE s;
      Ok (Some (of_int (arrival q), s'))
  end.

Definition wait_ready (now : T) (s : Sim T) : run (option (T * Sim T)) :=
  if any_ready now (procs s) then Ok (Some (now, s)) else idle_until now s.

(** A context switch: a segment of its own and the time it takes. *)
Definition context_switch (now : T) (s : Sim T) : run (T * Sim T) :=
  s' ← add_seg now (tadd now cs_overhead) PID_CS s;
  Ok (tadd now cs_overhead, s').

(** The loop of [simulate_FCFS] and [simulate_SJF], which differ only in the
    selection. *)
Fixpoint np_loop (pick : T -> list (Proc T) -> option nat) (fuel : nat)
    (now : T) (prev_pid : Z) (s : Sim T) : run (T * Sim T) :=
  match fuel with
  | O => NoFuel
  | S fuel' =>
      if all_done (procs s) then Ok (now, s)
      else
        w ← wait_ready now s;
        match w with
        | None => Ok (now, s)
        | Some (now, s) =>
            match pick now (procs s) with
            | None => Undef
            | Some k =>
                p ← aget (procs s) k;
                '(now, s) ← (if decide (prev_pid <> pid p /\ prev_pid <> PID_IDLE)
                             then context_switch now s else Ok (now, s));
                let p := note_start now p in
                s ← add_seg now (tadd now (remain p)) (pid p) s;
                let now := tadd now (remain p) in
                s ← pset s k (complete now p);
                np_loop pick fuel' now (pid p) s
            end
        end
  end.

(** Each round completes a process. *)
Definition simulate_FCFS (s : Sim T) : run (T * Sim T) :=
  np_loop pick_FCFS (S (length (procs s))) zero PID_IDLE s.
Definition simulate_SJF (s : Sim T) : run (T * Sim T) :=
  np_loop pick_SJF (S (length (procs s))) zero PID_IDLE s.

(** ** SRTF *)

(** The part of a round after the selection of process [k], which is [p]. *)
Definition srtf_run (now : T) (running_pid : Z) (k : nat) (p : Proc T) (s : Sim T)
  : run (T * Z * Sim T) :=
  '(now, p, s) ←
    (if decide (running_pid <> pid p) then
       '(now, s) ← (if decide (running_pid <> PID_IDLE)
                    then context_switch now s else Ok (now, s));
       Ok (now, note_start now p, s)
     else Ok (now, p, s));
  next_event ←
    match next_arrival_after now (procs s) with
    | None => Ok (tadd now (remain p))
    | nx => q ← pget s nx; Ok (tmin (tadd now (remain p)) (of_int (arrival q)))
    end;
  s ← add_seg now next_event (pid p) s;
  let ran := tsub next_event now in
  let p := MkProc (pid p) (arrival p) (burst p) (tsub (remain p) ran) (first_start p)
             (finish p) (started p) (done p) in
  if tle (remain p) eps then
    s ← pset s k (complete next_event p); Ok (next_event, PID_IDLE, s)
  else
    s ← pset s k p; Ok (next_event, pid p, s).

Fixpoint srtf_loop (fuel : nat) (now : T) (running_pid : Z) (s : Sim T) : run (T * Sim T) :=
  match fuel with
  | O => NoFuel
  | S fuel' =>
      if all_done (procs s) then Ok (now, s)
      else
        w ← wait_ready now s;
        match w with
        | None => Ok (now, s)
        | Some (now, s) =>
            match pick_SRTF now (procs s) with
            | None => Undef
            | Some k =>
                p ← aget (procs s) k;
                '(now, running_pid, s) ← srtf_run now running_pid k p s;
                srtf_loop fuel' now running_pid s
            end
        end
  end.

(** Each round completes a process or reaches the next arrival. *)
Definition simulate_SRTF (s : Sim T) : run (T * Sim T) :=
  srtf_loop (S (2 * length (procs s))) zero PID_IDLE s.

(** ** Round robin *)

(** [q[0 .. r-1]] and the index [f] of the front; the indices only grow. *)
Record Queue := MkQueue { qs : list nat; qf : nat }.

Definition q_init : Queue := MkQueue [] 0.
Definition q_empty (Q : Queue) : bool := bool_decide (qf Q = length (qs Q)).
Definition q_push (Q : Queue) (x : nat) : run Queue :=
  if decide (Z.of_nat (length (qs Q)) < MAX_TASKS)
  then Ok (MkQueue (qs Q ++ [x]) (qf Q)) else Undef.
Definition q_pop (Q : Queue) : run (nat * Queue) :=
  x ← aget (qs Q) (qf Q); Ok (x, MkQueue (qs Q) (S (qf Q))).

(** [for (i ...) if (test (P[i])) q_push (Q, i)] *)
Fixpoint push_if (test : Proc T -> bool) (l : list (Proc T)) (i : nat) (Q : Queue) : run Queue :=
  match l with
  | [] => Ok Q
  | p :: l' =>
      Q' ← (if test p then q_push Q i else Ok Q);
      push_if test l' (S i) Q'
  end.

(** Arrivals in the interval from [from] (excluded) to [to] (included). *)
Definition enqueue_arrivals (Q : Queue) (from to : T) (P : list (Proc T)) : run Queue :=
  push_if (fun p => negb (done p) && tlt (tadd from eps) (of_int (arrival p))
                    && tle (of_int (arrival p)) (tadd to eps)) P 0 Q.

(** A round with a popped process [p] that is not done. *)
Definition rr_run (tq : Z) (now : T) (prev : Z) (k : nat) (p : Proc T) (Q : Queue) (s : Sim T)
  : run (T * Queue * Sim T) :=
  '(now, s) ← (if decide (prev <> pid p /\ prev <> PID_IDLE)
               then context_switch now s else Ok (now, s));
  let p := note_start now p in
  let run_for := tmin (of_int tq) (remain p) in
  let end_time := tadd now run_for in
  s ← add_seg now end_time (pid p) s;
  Q ← enqueue_arrivals Q now end_time (procs s);
  let p := MkProc (pid p) (arrival p) (burst p) (tsub (remain p) run_for) (first_start p)
             (finish p) (started p) (done p) in
  if tle (remain p) eps then
    s ← pset s k (complete end_time p); Ok (end_time, Q, s)
  else
    s ← pset s k p; Q ← q_push Q k; Ok (end_time, Q, s).

Fixpoint rr_loop (tq : Z) (fuel : nat) (now : T) (prev : Z) (Q : Queue) (s : Sim T)
  : run (T * Sim T) :=
  match fuel with
  | O => NoFuel
  | S fuel' =>
      if all_done (procs s) then Ok (now, s)
      else if q_empty Q then
        w ← idle_until now s;
        match w with
        | None => Ok (now, s)
        | Some (now, s) =>
            Q ← push_if (ready now) (procs s) 0 Q;
            rr_loop tq fuel' now PID_IDLE Q s
        end
      else
        '(k, Q) ← q_pop Q;
        p ← aget (procs s) k;
        if done p then rr_loop tq fuel' now prev Q s
        else
          '(now, Q, s) ← rr_run tq now prev k p Q s;
          rr_loop tq fuel' now (pid p) Q s
  end.

(** Every round pops or pushes, and the array takes 1000 pushes. *)
Definition simulate_RR (tq : Z) (s : Sim T) : run (T * Sim T) :=
  let nx := next_arrival_after (of_int (-1)) (procs s) in
  '(now, s) ←
    match nx with
    | None => Ok (zero, s)
    | _ =>
        q ← pget s nx;
        if decide (0 < arrival q) then
          s ← add_seg zero (of_int (arrival q)) PID_IDLE s; Ok (of_int (arrival q), s)
        else Ok (zero, s)
    end;
  Q ← push_if (fun p => tle (of_int (arrival p)) (tadd now eps)) (procs s) 0 q_init;
  rr_loop tq (S (2 * Z.to_nat MAX_TASKS)) now PID_IDLE Q s.

(** ** [main] *)

(** [cmp_arrival]: the differences are [int] subtractions. *)
Definition cmp_arrival (x y : Proc T) : run Z :=
  if decide (arrival x <> arrival y) then int_add (arrival x) (- arrival y)
  else int_add (pid x) (- pid y).

(** [qsort (P, N, sizeof (Proc), cmp_arrival)]: the comparator fixes the order
    up to equal keys; this one keeps the input order of those. *)
Fixpoint sort_insert (x : Proc T) (l : list (Proc T)) : run (list (Proc T)) :=
  match l with
  | [] => Ok [x]
  | y :: l' =>
      c ← cmp_arrival x y;
      if decide (c <= 0) then Ok (x :: l)
      else l'' ← sort_insert x l'; Ok (y :: l'')
  end.

Fixpoint qsort (l : list (Proc T)) : run (list (Proc T)) :=
  match l with
  | [] => Ok []
  | x :: l' => l'' ← qsort l'; sort_insert x l''
  end.

(** [fscanf (f, "%d %d %d", &pid, &arr, &bur)]: [None] when fewer than three
    numbers are read. *)
Definition scan3 (txt : string) : run (option (Z * Z * Z * string)) :=
  a ← scan_d txt;
  match a with
  | None => Ok None
  | Some (x, t1) =>
      b ← scan_d t1;
      match b with
      | None => Ok None
      | Some (y, t2) =>
          c ← scan_d t2;
          Ok (match c with None => None | Some (z, t3) => Some (x, y, z, t3) end)
      end
  end.

Definition new_proc (id arr bur : Z) : Proc T :=
  MkProc id arr bur (of_int bur) zero zero false false.

(** The [while (true)] that fills [P]; [fuel] is the number of free slots. *)
Fixpoint read_procs (fuel : nat) (txt : string) : run (list (Proc T)) :=
  match fuel with
  | O => Ok []
  | S fuel' =>
      r ← scan3 txt;
      match r with
      | None => Ok []
      | Some (id, arr, bur, txt') =>
          l ← read_procs fuel' txt'; Ok (new_proc id arr bur :: l)
      end
  end.

(** [atoi] of a text that starts with a number, 0 otherwise. *)
Definition atoi (txt : string) : run Z :=
  r ← scan_d txt; Ok (match r with Some (z, _) => z | None => 0 end).

(** What a simulation prints: the chart and the statistics.  [print_gantt] is
    given the last time, or the end of the last segment. *)
Definition report_now (r : run (T * Sim T)) : run (string * Stats) :=
  '(now, s) ← r; Ok (print_gantt s now, print_stats (procs s)).

Definition report_last (r : run (T * Sim T)) : run (string * Stats) :=
  '(_, s) ← r;
  match last (segs s) with
  | Some g => Ok (print_gantt s (end_ g), print_stats (procs s))
  | None => Undef
  end.

(** [main]: [file] is the text of the input file, [None] when it cannot be
    opened.  Every error exits with 1 before anything is printed to the
    output. *)
Definition main (args : list string) (file : option string) : run (Z * option (string * Stats)) :=
  match args with
  | _ :: alg :: rest =>
      tq ← (if decide (alg = "RR") then
              match rest with
              | [] => Ok None
              | a :: _ => q ← atoi a; Ok (if decide (q <= 0) then None else Some q)
              end
            else Ok (Some 0));
      match tq, file with
      | Some tq, Some txt =>
          l ← read_procs (Z.to_nat MAX_TASKS) txt;
          if decide (length l = 0%nat) then Ok (1, None)
          else
            P ← qsort l;
            let s := MkSim P [] 0 in
            let out r := o ← r; Ok (0, Some o) in
            if decide (alg = "FCFS") then out (report_now (simulate_FCFS s))
            else if decide (alg = "SJF") then out (report_now (simulate_SJF s))
            else if decide (alg = "SRTF") then out (report_last (simulate_SRTF s))
            else if decide (alg = "RR") then out (report_last (simulate_RR tq s))
            else Ok (1, None)
      | _, _ => Ok (1, None)
      end
  | _ => Ok (1, None)
  end.
End scheduler.
