(* ===== verification/CpuFacts.v ===== *)
(** * Theorems about the CPU scheduling simulator

    The time line of a simulation is gap-free, every process receives exactly
    its burst, and start and finish times are consistent: [sim_ok] is kept by
    every round of every algorithm, in exact arithmetic ([ticks]).  From it
    follow the results of FCFS, SJF and SRTF, and what round robin
    guarantees. *)

From Stdlib Require Import ZArith Lia SpecFloat QArith_base String.
From stdpp Require Import base numbers list option strings sets.
From S2P Require Import Prelude CText CpuSched.

Local Open Scope Z_scope.

(** ** Searching the table *)
Section search.
Context {T : Type} (ok : Proc T -> bool) (better : Proc T -> Proc T -> bool).

(** The best of the processes seen so far. *)
Definition best_of (l : list (Proc T)) (b : option (nat * Proc T)) : Prop :=
  match b with
  | None => forall q, q ∈ l -> ok q = false
  | Some (i, p) => l !! i = Some p /\ ok p = true /\
      forall q, q ∈ l -> ok q = true -> better q p = false
  end.

Lemma search_best all pre l best :
  all = pre ++ l ->
  (forall x, x ∈ all -> better x x = false) ->
  (forall x y z, x ∈ all -> y ∈ all -> z ∈ all ->
    better x y = true -> better y z = true -> better x z = true) ->
  best_of pre best ->
  match search ok better l (length pre) best with
  | None => best_of all None
  | Some i => exists p, best_of all (Some (i, p))
  end.
Proof.
  revert pre best. induction l as [|p l IH]; intros pre best Hall Hirr Htr Hb.
  { rewrite app_nil_r in Hall. subst pre. simpl. destruct best as [[i b]|]; simpl; eauto. }
  cbn [search]. replace (S (length pre)) with (length (pre ++ [p])) by (rewrite length_app; simpl; lia).
  apply IH; [by rewrite <- app_assoc|done|done|].
  assert (Hp : p ∈ all) by (rewrite Hall; set_solver).
  assert (Hpre : forall q, q ∈ pre -> q ∈ all) by (rewrite Hall; set_solver).
  assert (Hlp : (pre ++ [p]) !! length pre = Some p) by (by rewrite list_lookup_middle).
  destruct (ok p) eqn:Eok; [destruct best as [[i b]|]|].
  - destruct Hb as (Hi & Hok & Hmin). pose proof (list_elem_of_lookup_2 _ _ _ Hi) as Hbin.
    destruct (better p b) eqn:Eb; simpl.
    + split_and!; [done|done|]. intros q [Hq| ->%list_elem_of_singleton]%elem_of_app Hoq; [|by apply Hirr].
      destruct (better q p) eqn:Eq; [|done].
      pose proof (Htr q p b (Hpre _ Hq) Hp (Hpre _ Hbin) Eq Eb) as Hqb.
      by rewrite (Hmin q Hq Hoq) in Hqb.
    + split_and!; [by apply lookup_app_l_Some|done|].
      intros q [Hq| ->%list_elem_of_singleton]%elem_of_app Hoq; [by apply Hmin|done].
  - simpl. split_and!; [done|done|]. intros q [Hq| ->%list_elem_of_singleton]%elem_of_app Hoq;
      [by rewrite (Hb q Hq) in Hoq|by apply Hirr].
  - destruct best as [[i b]|]; simpl in *.
    + destruct Hb as (Hi & Hok & Hmin). split_and!; [by apply lookup_app_l_Some|done|].
      intros q [Hq| ->%list_elem_of_singleton]%elem_of_app Hoq; [by apply Hmin|congruence].
    + intros q [Hq| ->%list_elem_of_singleton]%elem_of_app; [by apply Hb|done].
Qed.

Lemma search_spec l :
  (forall x, x ∈ l -> better x x = false) ->
  (forall x y z, x ∈ l -> y ∈ l -> z ∈ l ->
    better x y = true -> better y z = true -> better x z = true) ->
  match search ok better l 0 None with
  | None => forall q, q ∈ l -> ok q = false
  | Some i => exists p, l !! i = Some p /\ ok p = true /\
      forall q, q ∈ l -> ok q = true -> better q p = false
  end.
Proof.
  intros Hirr Htr. pose proof (search_best l [] l None eq_refl Hirr Htr) as H.
  simpl in H. specialize (H ltac:(intros q Hq; by apply not_elem_of_nil in Hq)).
  by destruct (search ok better l 0 None).
Qed.
End search.

(** A search that finds nothing, whatever the comparison. *)
Lemma search_None {T} ok better (l : list (Proc T)) i best :
  search ok better l i best = None -> best = None /\ forall q, q ∈ l -> ok q = false.
Proof.
  revert i best. induction l as [|p l IH]; intros i best; simpl.
  - destruct best; [done|]. intros _. split; [done|]. intros q Hq. by apply not_elem_of_nil in Hq.
  - intros E. apply IH in E as [E Hl]. destruct (ok p) eqn:Eok.
    + destruct best as [[? b]|]; [by destruct (better p b)|done].
    + subst. split; [done|]. intros q [->|Hq]%elem_of_cons; auto.
Qed.

(** The process found passes the test. *)
Lemma search_sound_from {T} ok better (l : list (Proc T)) i best k :
  search ok better l i best = Some k ->
  (exists b, best = Some (k, b)) \/
  (i <= k)%nat /\ exists p, l !! (k - i)%nat = Some p /\ ok p = true.
Proof.
  revert i best. induction l as [|p l IH]; intros i best; simpl.
  - destruct best as [[j b]|]; simpl; [|done]. intros [= ->]. eauto.
  - intros E. apply IH in E as [[b E]|[Hle (q & Hq & Hok)]].
    + destruct (ok p) eqn:Eok; [|eauto].
      assert (Hhere : i = k -> (i <= k)%nat /\ exists q, (p :: l) !! (k - i)%nat = Some q /\ ok q = true).
      { intros ->. rewrite Nat.sub_diag. eauto. }
      destruct best as [[j b']|]; [|right; apply Hhere; congruence].
      destruct (better p b'); [right; apply Hhere; congruence|eauto].
    + right. split; [lia|]. exists q. split; [|done].
      by replace (k - i)%nat with (S (k - S i)) by lia.
Qed.

Lemma search_sound {T} ok better (l : list (Proc T)) k :
  search ok better l 0 None = Some k -> exists p, l !! k = Some p /\ ok p = true.
Proof.
  intros E. apply search_sound_from in E as [[b ?]|[_ H]]; [done|]. by rewrite Nat.sub_0_r in H.
Qed.

Lemma fcfs_better_spec {T} (x b : Proc T) :
  fcfs_better x b = true <->
  arrival x < arrival b \/ (arrival x = arrival b /\ pid x < pid b).
Proof.
  unfold fcfs_better. rewrite orb_true_iff, andb_true_iff, !bool_decide_eq_true. done.
Qed.

Lemma sjf_better_spec {T} (x b : Proc T) :
  sjf_better x b = true <->
  burst x < burst b \/ (burst x = burst b /\ fcfs_better x b = true).
Proof.
  unfold sjf_better. rewrite orb_true_iff, andb_true_iff, !bool_decide_eq_true. done.
Qed.

Definition same_key {T} (x y : Proc T) : Prop :=
  pid x = pid y /\ arrival x = arrival y /\ burst x = burst y.

(** A comparison usable in a search: an order on the fixed fields. *)
Class SelectionOrder {T} (better : Proc T -> Proc T -> bool) : Prop := {
  better_key x x' y y' : same_key x x' -> same_key y y' -> better x y = better x' y';
  better_irr x : better x x = false;
  better_tr x y z : better x y = true -> better y z = true -> better x z = true }.

#[export] Instance fcfs_order {T} : SelectionOrder (@fcfs_better T).
Proof.
  split.
  - intros x x' y y' (E1 & E2 & E3) (E4 & E5 & E6). unfold fcfs_better.
    by rewrite E1, E2, E4, E5.
  - intros x. apply not_true_iff_false. rewrite fcfs_better_spec. lia.
  - intros x y z. rewrite !fcfs_better_spec. lia.
Qed.

#[export] Instance sjf_order {T} : SelectionOrder (@sjf_better T).
Proof.
  split.
  - intros x x' y y' (E1 & E2 & E3) (E4 & E5 & E6). unfold sjf_better, fcfs_better.
    by rewrite E1, E2, E3, E4, E5, E6.
  - intros x. apply not_true_iff_false. rewrite sjf_better_spec, fcfs_better_spec. lia.
  - intros x y z. rewrite !sjf_better_spec, !fcfs_better_spec. lia.
Qed.

Lemma search_ordered {T} ok better `{!SelectionOrder better} (l : list (Proc T)) :
  match search ok better l 0 None with
  | None => forall q, q ∈ l -> ok q = false
  | Some i => exists p, l !! i = Some p /\ ok p = true /\
      forall q, q ∈ l -> ok q = true -> better q p = false
  end.
Proof.
  apply search_spec; [intros; apply better_irr|intros x y z _ _ _; apply better_tr].
Qed.

(** ** The time line *)

(** The segments cover the time from 0 to [t] without gaps. *)
Inductive covers : list (Segment Z) -> Z -> Prop :=
| covers_nil : covers [] 0
| covers_snoc l t e id : covers l t -> t < e -> covers (l ++ [Seg t e id]) e.

(** The time [id] had the CPU. *)
Fixpoint service (l : list (Segment Z)) (id : Z) : Z :=
  match l with
  | [] => 0
  | g :: l' => (if decide (spid g = id) then end_ g - start g else 0) + service l' id
  end.

Lemma service_app l1 l2 id : service (l1 ++ l2) id = service l1 id + service l2 id.
Proof. induction l1 as [|g l1 IH]; cbn [service app]; lia. Qed.

Lemma service_one g id : service [g] id = if decide (spid g = id) then end_ g - start g else 0.
Proof. simpl. lia. Qed.

Definition cap_ok (s : Sim Z) : Prop := (length (segs s) <= segcap s)%nat.

(** [add_seg] extends the time line to [en] and gives the time to [id]. *)
Lemma add_seg_ok st en id s :
  covers (segs s) st -> cap_ok s -> st <= en ->
  exists s', add_seg st en id s = Ok s' /\ procs s' = procs s /\
    covers (segs s') en /\ cap_ok s' /\
    forall j, service (segs s') j = service (segs s) j + (if decide (id = j) then en - st else 0).
Proof.
  intros Hc Hcap Hle. unfold add_seg. cbn [tle tlt tabs tsub eps ticks].
  destruct (Z.leb_spec en st) as [Hes|Hes].
  { assert (en = st) as -> by lia. exists s. split_and!; try done. intros j. case_decide; lia. }
  set (push := if decide _ then Ok (MkSim _ (segs s ++ _) _) else Undef).
  assert (Hpush : exists s', push = Ok s' /\ procs s' = procs s /\ covers (segs s') en /\
    cap_ok s' /\ forall j, service (segs s') j =
      service (segs s) j + (if decide (id = j) then en - st else 0)).
  { unfold push, cap_ok in *. rewrite decide_True by (repeat case_decide; lia).
    eexists. split_and!; [done|done|by constructor| |].
    - simpl. rewrite length_app. simpl. repeat case_decide; lia.
    - intros j. simpl. by rewrite service_app, service_one. }
  destruct (last (segs s)) as [g|] eqn:Eg; [|done].
  destruct (_ && _) eqn:Em; [|done]. clear push Hpush.
  inversion Hc as [El Et|l t e i' Hl Hlt El Et]; [by rewrite <- El in Eg|]. subst e.
  rewrite <- El, last_snoc in Eg. injection Eg as <-. cbn [spid] in Em.
  apply andb_true_iff in Em as [_ Ei]. apply bool_decide_eq_true_1 in Ei as ->.
  eexists. split; [done|]. cbn [procs segs start spid]. rewrite length_app. cbn [length].
  replace (length l + 1 - 1)%nat with (length l + 0)%nat by lia.
  rewrite insert_app_r. cbn [insert list_insert]. split_and!; [done|constructor; [done|lia]| |].
  - unfold cap_ok in *. rewrite <- El in Hcap. cbn [segs segcap]. by rewrite length_app in *.
  - intros j. rewrite !service_app, !service_one. cbn [spid end_ start]. case_decide; lia.
Qed.

(** ** The invariant *)

(** Milliseconds in ticks, and the grid of tenths of a millisecond on which
    all times of a simulation lie. *)
Definition ms (z : Z) : Z := z * 10000000000.
Definition grid (t : Z) : Prop := (1000000000 | t).

Lemma grid_ms z : grid (ms z).
Proof. exists (z * 10). unfold ms. lia. Qed.
Lemma grid_add a b : grid a -> grid b -> grid (a + b).
Proof. apply Z.divide_add_r. Qed.
Lemma grid_sub a b : grid a -> grid b -> grid (a - b).
Proof. apply Z.divide_sub_r. Qed.
Lemma grid_cs : grid 1000000000.
Proof. by exists 1. Qed.
#[export] Hint Resolve grid_ms grid_add grid_sub grid_cs : ospj.

(** The tolerance of the comparisons vanishes on the grid. *)
Lemma grid_le a b : grid a -> grid b -> a <= b + 10 -> a <= b.
Proof. intros [x ->] [y ->] H. lia. Qed.

(** What a process [p] of the table looks like at time [now], given the
    segments [l] so far and the process [p0] of the input. *)
Record proc_ok (now : Z) (l : list (Segment Z)) (p0 p : Proc Z) : Prop := {
  po_key : pid p = pid p0 /\ arrival p = arrival p0 /\ burst p = burst p0;
  po_service : service l (pid p) + remain p = ms (burst p);
  po_remain : 0 <= remain p /\ grid (remain p);
  po_done : done p = true -> remain p = 0 /\ started p = true /\
    first_start p + ms (burst p) <= finish p <= now;
  po_started : started p = true -> ms (arrival p) <= first_start p /\
    first_start p + ms (burst p) - remain p <= now;
  po_fresh : started p = false -> done p = false /\ remain p = ms (burst p) }.

(** The inputs: distinct process numbers, no negative burst. *)
Record input_ok (P0 : list (Proc Z)) : Prop := {
  in_pids : NoDup (pid <$> P0);
  in_pos p : p ∈ P0 -> 0 <= pid p /\ 0 <= burst p }.

Record sim_ok (P0 : list (Proc Z)) (now : Z) (s : Sim Z) : Prop := {
  so_covers : covers (segs s) now;
  so_cap : cap_ok s;
  so_now : grid now;
  so_procs : Forall2 (proc_ok now (segs s)) P0 (procs s) }.

(** A fresh table, as [main] reads it. *)
Definition fresh (p : Proc Z) : Prop :=
  p = new_proc (ops := ticks) (pid p) (arrival p) (burst p).

Lemma sim_ok_init P0 :
  input_ok P0 -> Forall fresh P0 -> sim_ok P0 0 (MkSim P0 [] 0).
Proof.
  intros Hin Hf. split; cbn [segs procs]; [exact covers_nil|unfold cap_ok; simpl; lia|by exists 0|].
  apply Forall_Forall2_diag. apply Forall_forall. intros p Hp.
  rewrite Forall_forall in Hf. pose proof (Hf p Hp) as E. unfold fresh in E.
  destruct (in_pos _ Hin p Hp) as [_ Hb].
  rewrite E. split; cbn; try done.
  - split; [lia|]. exists (burst p * 10). lia.
Qed.

(** Time passes for others: a segment of another process. *)
Lemma proc_ok_wait now now' l l' p0 p :
  proc_ok now l p0 p -> now <= now' -> service l' (pid p) = service l (pid p) ->
  proc_ok now' l' p0 p.
Proof.
  intros [Hk Hs Hr Hd Hst Hf] Hle El. split; try done.
  - lia.
  - intros H. destruct (Hd H) as (? & ? & ?). split_and!; [done|done|lia|lia].
  - intros H. specialize (Hst H). lia.
Qed.

Section invariant.
Context {P0 : list (Proc Z)} (Hin : input_ok P0).
Context {now : Z} {s : Sim Z} (Hs : sim_ok P0 now s).

Lemma proc_input i p : procs s !! i = Some p ->
  exists p0, P0 !! i = Some p0 /\ proc_ok now (segs s) p0 p /\ 0 <= pid p /\ 0 <= burst p.
Proof.
  intros Hi. destruct (Forall2_lookup_r _ _ _ _ _ (so_procs _ _ _ Hs) Hi) as (p0 & H0 & Hok).
  exists p0. destruct (po_key _ _ _ _ Hok) as (Ep & _ & Eb).
  destruct (in_pos _ Hin p0 (list_elem_of_lookup_2 _ i _ H0)). rewrite Ep, Eb. by split_and!.
Qed.

Lemma pid_inj i j p q :
  procs s !! i = Some p -> procs s !! j = Some q -> pid p = pid q -> i = j.
Proof.
  intros Hi Hj E. destruct (proc_input i p Hi) as (p0 & H0 & Hp & _).
  destruct (proc_input j q Hj) as (q0 & H1 & Hq & _).
  destruct (po_key _ _ _ _ Hp) as (E1 & _), (po_key _ _ _ _ Hq) as (E2 & _).
  eapply (NoDup_lookup (pid <$> P0)); [apply Hin| |].
  - rewrite list_lookup_fmap, H0. simpl. by rewrite <- E1, E.
  - rewrite list_lookup_fmap, H1. simpl. by rewrite <- E2.
Qed.

(** A segment that belongs to no process. *)
Lemma sim_ok_gap en id :
  now <= en -> grid en -> id < 0 ->
  exists s', add_seg now en id s = Ok s' /\ procs s' = procs s /\ sim_ok P0 en s'.
Proof.
  intros Hle Hg Hid. destruct Hs as [Hc Hcap Hn Hp].
  destruct (add_seg_ok now en id s Hc Hcap Hle) as (s' & E & Ep & Hc' & Hcap' & Hsv).
  exists s'. split; [done|]. split; [done|]. split; [done|done|done|].
  rewrite Ep. apply Forall2_same_length_lookup. split; [by eapply Forall2_length|].
  intros i p0 p H0 Hi. destruct (proc_input i p Hi) as (p1 & H1 & Hok & Hpos & _).
  simplify_eq. eapply proc_ok_wait; [exact Hok|done|]. rewrite Hsv, decide_False by lia. lia.
Qed.

(** Process [k] runs from [now] for [d] and becomes [p']. *)
Lemma sim_ok_run k p p' d :
  procs s !! k = Some p -> 0 <= d <= remain p -> grid d ->
  pid p' = pid p -> arrival p' = arrival p -> burst p' = burst p ->
  remain p' = remain p - d -> started p' = true -> ms (arrival p) <= first_start p' ->
  first_start p' + ms (burst p) - remain p' <= now + d ->
  (done p' = true -> remain p' = 0 /\ finish p' = now + d) ->
  exists s1 s2, add_seg now (now + d) (pid p) s = Ok s1 /\ procs s1 = procs s /\
    pset s1 k p' = Ok s2 /\ procs s2 = <[k := p']> (procs s) /\ sim_ok P0 (now + d) s2.
Proof.
  intros Hk Hd Hg Epid Earr Ebur Erem Est Hfs Hran Hdone. destruct Hs as [Hc Hcap Hn Hp].
  destruct (add_seg_ok now (now + d) (pid p) s Hc Hcap) as (s1 & E & Ep & Hc' & Hcap' & Hsv); [lia|].
  exists s1, (MkSim (<[k := p']> (procs s)) (segs s1) (segcap s1)). unfold pset.
  rewrite Ep, aset_lt by (by eapply lookup_lt_Some). split_and!; try done.
  split; cbn [segs procs]; [done|done|by apply grid_add|].
  apply Forall2_same_length_lookup. split; [rewrite length_insert; by eapply Forall2_length|].
  intros i q0 q H0 Hi. apply list_lookup_insert_Some in Hi as [(<- & <- & _)|[Hne Hi]].
  - destruct (proc_input k p Hk) as (p0 & H0' & Hok & _). simplify_eq.
    destruct Hok as [Hkey Hserv Hrem _ _ _]. split.
    + by rewrite Epid, Earr, Ebur.
    + rewrite Epid, Ebur, Hsv, decide_True by done. lia.
    + rewrite Erem. split; [lia|]. apply grid_sub; [apply Hrem|done].
    + intros H. destruct (Hdone H) as [H1 H2]. rewrite Ebur. split_and!; [done|done|lia|lia].
    + intros _. rewrite Earr, Ebur. lia.
    + congruence.
  - destruct (proc_input i q Hi) as (p0 & H0' & Hok & _). simplify_eq.
    eapply proc_ok_wait; [exact Hok|lia|]. rewrite Hsv, decide_False; [lia|].
    intros E'. apply Hne. by eapply pid_inj.
Qed.
End invariant.

(** ** Waiting and switching *)
Lemma ready_spec now (p : Proc Z) :
  ready (ops := ticks) now p = true <-> done p = false /\ ms (arrival p) <= now + 10.
Proof.
  unfold ready. rewrite andb_true_iff, negb_true_iff. cbn [tle tadd of_int eps ticks].
  by rewrite Z.leb_le.
Qed.

Lemma later_spec now (p : Proc Z) :
  later (ops := ticks) now p = true <-> done p = false /\ now + 10 < ms (arrival p).
Proof.
  unfold later. rewrite andb_true_iff, negb_true_iff. cbn [tlt tadd of_int eps ticks].
  by rewrite Z.ltb_lt.
Qed.

Lemma any_ready_spec now (P : list (Proc Z)) :
  any_ready (ops := ticks) now P = true <-> exists p, p ∈ P /\ ready (ops := ticks) now p = true.
Proof.
  unfold any_ready. rewrite existsb_exists. setoid_rewrite <- list_elem_of_In. done.
Qed.

Lemma all_done_spec {T} (P : list (Proc T)) :
  all_done P = true <-> forall p, p ∈ P -> done p = true.
Proof. unfold all_done. rewrite forallb_forall. setoid_rewrite <- list_elem_of_In. done. Qed.

Lemma not_all_done {T} (P : list (Proc T)) :
  all_done P = false -> exists p, p ∈ P /\ done p = false.
Proof.
  unfold all_done. induction P as [|p P IH]; simpl; [done|]. intros H.
  apply andb_false_iff in H as [H|H]; [exists p; set_solver|].
  destruct (IH H) as (q & Hq & ?). exists q. set_solver.
Qed.

Lemma next_arrival_spec now (P : list (Proc Z)) :
  match next_arrival_after (ops := ticks) now P with
  | None => forall q, q ∈ P -> later (ops := ticks) now q = false
  | Some i => exists p, P !! i = Some p /\ later (ops := ticks) now p = true /\
      forall q, q ∈ P -> later (ops := ticks) now q = true -> arrival p <= arrival q
  end.
Proof.
  unfold next_arrival_after.
  pose proof (search_spec (later (ops := ticks) now)
    (fun x b => bool_decide (arrival x < arrival b)) P) as H.
  destruct (search _ _ P 0 None) as [i|].
  - destruct H as (p & Hi & Hl & Hmin).
    + intros x _. apply bool_decide_eq_false_2. lia.
    + intros x y z _ _ _ H1%bool_decide_eq_true_1 H2%bool_decide_eq_true_1.
      apply bool_decide_eq_true_2. lia.
    + exists p. split_and!; try done. intros q Hq Hlq.
      apply Hmin in Hlq; [|done]. apply bool_decide_eq_false_1 in Hlq. lia.
  - apply H.
    + intros x _. apply bool_decide_eq_false_2. lia.
    + intros x y z _ _ _ H1%bool_decide_eq_true_1 H2%bool_decide_eq_true_1.
      apply bool_decide_eq_true_2. lia.
Qed.

Section waiting.
Context {P0 : list (Proc Z)} (Hin : input_ok P0).
Context {now : Z} {s : Sim Z} (Hs : sim_ok P0 now s).

Lemma idle_until_ok :
  (idle_until now s = Ok None /\ forall q, q ∈ procs s -> later (ops := ticks) now q = false) \/
  exists now' s' q, idle_until now s = Ok (Some (now', s')) /\ procs s' = procs s /\
    sim_ok P0 now' s' /\ now < now' /\ q ∈ procs s /\ done q = false /\ now' = ms (arrival q) /\
    forall q', q' ∈ procs s -> later (ops := ticks) now q' = true -> now' <= ms (arrival q').
Proof.
  unfold idle_until. pose proof (next_arrival_spec now (procs s)) as Hn.
  destruct (next_arrival_after now (procs s)) as [i|]; [right|by left].
  destruct Hn as (p & Hi & Hl & Hmin). unfold pget. rewrite (aget_lookup _ _ _ Hi).
  cbn [mbind run_bind]. apply later_spec in Hl as [Hd Hl].
  change (of_int (arrival p)) with (ms (arrival p)).
  destruct (sim_ok_gap Hin Hs (ms (arrival p)) PID_IDLE) as (s' & -> & Ep & Hs').
  { lia. } { apply grid_ms. } { unfold PID_IDLE. lia. }
  cbn [mbind run_bind]. exists (ms (arrival p)), s', p. split_and!; try done; [lia| |].
  - by eapply list_elem_of_lookup_2.
  - intros q' Hq' Hl'. specialize (Hmin q' Hq' Hl'). unfold ms. lia.
Qed.

Lemma wait_ready_ok :
  all_done (procs s) = false ->
  exists now' s', wait_ready now s = Ok (Some (now', s')) /\ procs s' = procs s /\
    sim_ok P0 now' s' /\ now <= now' /\ any_ready (ops := ticks) now' (procs s) = true /\
    (any_ready (ops := ticks) now (procs s) = true -> now' = now).
Proof.
  intros Hnd. unfold wait_ready.
  destruct (any_ready now (procs s)) eqn:Ea.
  { eexists _, _. split_and!; [done|done|done|lia|done|done]. }
  destruct idle_until_ok as [[_ Hno]|(now' & s' & q & -> & Ep & Hs' & Hlt & Hq & Hd & E & _)].
  - exfalso. apply not_all_done in Hnd as (q & Hq & Hd).
    assert (ready (ops := ticks) now q = true); [|by apply not_true_iff_false in Ea; apply Ea, any_ready_spec; eauto].
    apply ready_spec. split; [done|]. specialize (Hno q Hq).
    apply not_true_iff_false in Hno. rewrite later_spec in Hno.
    apply Z.nlt_ge. intros Hlt. by apply Hno.
  - eexists _, _. split_and!; [done|done|done|lia| |done].
    apply any_ready_spec. exists q. split; [done|]. apply ready_spec. split; [done|lia].
Qed.

Lemma context_switch_ok :
  exists s', context_switch now s = Ok (now + 1000000000, s') /\ procs s' = procs s /\
    sim_ok P0 (now + 1000000000) s'.
Proof.
  unfold context_switch. cbn [tadd cs_overhead ticks].
  destruct (sim_ok_gap Hin Hs (now + 1000000000) PID_CS) as (s' & -> & Ep & Hs'); [lia| |done|eauto].
  apply grid_add; [apply Hs|apply grid_cs].
Qed.
End waiting.

(** ** Counting *)
Definition undone {T} (P : list (Proc T)) : nat := length (filter (fun p => done p = false) P).

Lemma undone_finish {T} (P : list (Proc T)) k p p' :
  P !! k = Some p -> done p = false -> done p' = true -> S (undone (<[k := p']> P)) = undone P.
Proof.
  intros Hk Hd Hd'. unfold undone. rewrite insert_take_drop by (by eapply lookup_lt_Some).
  rewrite <- (take_drop_middle P k p Hk) at 3.
  rewrite !filter_app, !length_app, !filter_cons.
  rewrite decide_False by congruence. rewrite decide_True by done. cbn [length]. lia.
Qed.

Lemma undone_keep {T} (P : list (Proc T)) k p p' :
  P !! k = Some p -> done p = false -> done p' = false -> undone (<[k := p']> P) = undone P.
Proof.
  intros Hk Hd Hd'. unfold undone. rewrite insert_take_drop by (by eapply lookup_lt_Some).
  rewrite <- (take_drop_middle P k p Hk) at 3.
  rewrite !filter_app, !length_app, !filter_cons.
  rewrite !decide_True by done. cbn [length]. lia.
Qed.

Lemma undone_le {T} (P : list (Proc T)) : (undone P <= length P)%nat.
Proof. apply length_filter. Qed.
