(* ===== verification/CpuPolicy.v ===== *)
(** * FCFS and SJF

    The results of the two simulations in exact arithmetic: they end, every
    process is served, start and finish times are those of a gap-free
    schedule, and the order in which processes run is the one of the policy.
    The slices of round robin in exact arithmetic. *)

From Stdlib Require Import ZArith Lia SpecFloat QArith_base String.
From stdpp Require Import base numbers list option strings sets.
From S2P Require Import Prelude CText CpuSched CpuFacts.

Local Open Scope Z_scope.

(** ** Non-preemptive simulations *)
Section nonpreemptive.
Context (better : Proc Z -> Proc Z -> bool) `{!SelectionOrder better}.
Context (P0 : list (Proc Z)) (Hin : input_ok P0).
Let pick (now : Z) (P : list (Proc Z)) := search (ready (ops := ticks) now) better P 0 None.

(** A process that precedes [q] in the order of the policy, and that had
    arrived when [q] was chosen, has finished before [q] starts. *)
Definition served_first (p q : Proc Z) : Prop :=
  done q = true -> better p q = true ->
  ms (arrival p) + 1000000000 <= first_start q \/ arrival p <= arrival q ->
  done p = true /\ finish p <= first_start q.

Record np_ok (now : Z) (s : Sim Z) : Prop := {
  no_sim : sim_ok P0 now s;
  no_proc p : p ∈ procs s -> started p = done p /\
    (done p = true -> finish p = first_start p + ms (burst p));
  no_order p q : p ∈ procs s -> q ∈ procs s -> served_first p q }.

(** The chosen process runs to completion from time [now2]. *)
Lemma np_run now now2 s s2 k p :
  np_ok now s -> pick now (procs s) = Some k -> procs s !! k = Some p ->
  sim_ok P0 now2 s2 -> procs s2 = procs s -> now <= now2 <= now + 1000000000 ->
  let p' := note_start now2 p in
  exists s3 s4, add_seg now2 (now2 + remain p') (pid p') s2 = Ok s3 /\
    pset s3 k (complete (ops := ticks) (now2 + remain p') p') = Ok s4 /\
    np_ok (now2 + remain p') s4 /\ (S (undone (procs s4)) = undone (procs s))%nat.
Proof.
  intros [Hs Hp Ho] Hpick Hk Hs2 Ep Hnow p'.
  pose proof (search_ordered (ready (ops := ticks) now) better (procs s)) as Hb.
  unfold pick in Hpick. rewrite Hpick in Hb. destruct Hb as (p1 & Hk1 & Hr & Hmin). simplify_eq.
  apply ready_spec in Hr as [Hd Har]. apply grid_le in Har; [|apply grid_ms|apply Hs].
  destruct (Hp p (list_elem_of_lookup_2 _ _ _ Hk)) as [Est _]. rewrite Hd in Est.
  assert (Ep' : p' = MkProc (pid p) (arrival p) (burst p) (remain p) now2 (finish p) true (done p))
    by (unfold p', note_start; by rewrite Est).
  clearbody p'. subst p'. cbn [remain pid].
  rewrite <- Ep in Hk. destruct (proc_input Hin Hs2 k p Hk) as (p0 & _ & Hok & _ & _).
  pose proof (po_remain _ _ _ _ Hok) as [Hrem Hg].
  destruct (po_fresh _ _ _ _ Hok Est) as [_ Efresh].
  destruct (sim_ok_run Hin Hs2 k p (complete (ops := ticks) (now2 + remain p)
      (MkProc (pid p) (arrival p) (burst p) (remain p) now2 (finish p) true (done p))) (remain p))
    as (s3 & s4 & E3 & Ep3 & E4 & Ep4 & Hs4);
    cbn [complete pid arrival burst remain first_start finish started done zero of_int ticks];
    try done; try lia.
  exists s3, s4. split_and!; [done|done| |].
  2: { rewrite Ep4, Ep. rewrite Ep in Hk. by eapply undone_finish. }
  rewrite Ep in Ep4, Hk. split; [done| |].
  - intros q Hq. rewrite Ep4 in Hq. apply list_elem_of_lookup in Hq as [i Hq].
    apply list_lookup_insert_Some in Hq as [(_ & <- & _)|[_ Hq]].
    + cbn. split; [done|]. intros _. unfold ms in *. lia.
    + by apply Hp, (list_elem_of_lookup_2 _ i).
  - intros x y Hx Hy. rewrite Ep4 in Hx, Hy.
    apply list_elem_of_lookup in Hx as [i Hx], Hy as [j Hy].
    apply list_lookup_insert_Some in Hx as [(_ & <- & _)|[Hix Hx]];
      apply list_lookup_insert_Some in Hy as [(_ & <- & _)|[Hjy Hy]]; intros Hdy Hxy Harr.
    + rewrite (better_irr _) in Hxy. done.
    + exfalso. rewrite (better_key _ p _ y) in Hxy by done.
      destruct (Ho p y) as [Hdp _]; try done; try (by eapply list_elem_of_lookup_2). congruence.
    + rewrite (better_key _ x _ p) in Hxy by done. cbn [first_start complete arrival] in *.
      assert (Hxin : x ∈ procs s) by (by eapply list_elem_of_lookup_2).
      destruct (done x) eqn:Edx.
      * split; [done|]. destruct (proc_input Hin Hs i x Hx) as (x0 & _ & Hokx & _).
        destruct (po_done _ _ _ _ Hokx Edx) as (_ & _ & ?). lia.
      * exfalso. rewrite Hmin in Hxy; [done|done|]. apply ready_spec. split; [done|].
        unfold ms in *. lia.
    + by apply (Ho x y (list_elem_of_lookup_2 _ _ _ Hx) (list_elem_of_lookup_2 _ _ _ Hy)).
Qed.

Lemma np_wait now now' s s' :
  np_ok now s -> sim_ok P0 now' s' -> procs s' = procs s -> np_ok now' s'.
Proof.
  intros [Hs Hp Ho] Hs' Ep. split; [done| |].
  - intros p. rewrite Ep. apply Hp.
  - intros p q. rewrite Ep. apply Ho.
Qed.

Lemma np_loop_ok fuel now prev s :
  np_ok now s -> (undone (procs s) < fuel)%nat ->
  exists now' s', np_loop pick fuel now prev s = Ok (now', s') /\ np_ok now' s' /\
    all_done (procs s') = true.
Proof.
  revert now prev s. induction fuel as [|fuel IH]; intros now prev s Hn Hf; [lia|].
  cbn [np_loop]. destruct (all_done (procs s)) eqn:Ed; [eauto|].
  destruct (wait_ready_ok Hin (no_sim _ _ Hn) Ed) as (now1 & s1 & -> & Ep1 & Hs1 & Hle & Hr & _).
  pose proof (np_wait now now1 s s1 Hn Hs1 Ep1) as Hn1. cbn [mbind run_bind].
  destruct (pick now1 (procs s1)) as [k|] eqn:Ek.
  2: { exfalso. apply search_None in Ek as [_ Hno]. rewrite Ep1 in Hno.
       apply any_ready_spec in Hr as (q & Hq & Hr). by rewrite Hno in Hr. }
  pose proof (search_ordered (ready (ops := ticks) now1) better (procs s1)) as Hb.
  unfold pick in Ek. rewrite Ek in Hb. destruct Hb as (p & Hk & _).
  rewrite (aget_lookup _ _ _ Hk). cbn [mbind run_bind].
  assert (Hcs : exists now2 s2,
    (if decide (prev <> pid p /\ prev <> PID_IDLE) then context_switch now1 s1 else Ok (now1, s1))
      = Ok (now2, s2) /\ sim_ok P0 now2 s2 /\ procs s2 = procs s1 /\
    now1 <= now2 <= now1 + 1000000000).
  { case_decide.
    - destruct (context_switch_ok Hin Hs1) as (s2 & -> & Ep2 & Hs2).
      eexists _, _. split_and!; [done|done|done|lia|lia].
    - eexists _, _. split_and!; [done|done|done|lia|lia]. }
  destruct Hcs as (now2 & s2 & -> & Hs2 & Ep2 & Hnow). cbn [mbind run_bind].
  destruct (np_run now1 now2 s1 s2 k p Hn1 Ek Hk Hs2 Ep2 Hnow) as (s3 & s4 & E3 & E4 & Hn4 & Hu).
  cbn [tadd ticks]. rewrite E3. cbn [mbind run_bind]. rewrite E4. cbn [mbind run_bind].
  apply IH; [done|]. rewrite Ep1 in Hu. lia.
Qed.

Lemma np_init : Forall fresh P0 -> np_ok 0 (MkSim P0 [] 0).
Proof.
  intros Hf. rewrite Forall_forall in Hf. split.
  - apply sim_ok_init; [done|by apply Forall_forall].
  - intros p Hp. by rewrite (Hf p Hp).
  - intros p q _ Hq Hd. by rewrite (Hf q Hq) in Hd.
Qed.
End nonpreemptive.

(** ** Results *)

(** A complete schedule for the processes [P0] up to time [now]: every process
    is done, received exactly its burst, did not start before it arrived and
    did not finish before it could, and the segments leave no gap. *)
Record schedule (P0 : list (Proc Z)) (now : Z) (s : Sim Z) : Prop := {
  sc_covers : covers (segs s) now;
  sc_procs : Forall2 (fun p0 p => same_key p p0 /\ done p = true /\
    service (segs s) (pid p) = ms (burst p) /\
    ms (arrival p) <= first_start p /\
    first_start p + ms (burst p) <= finish p <= now) P0 (procs s) }.

Lemma sim_ok_schedule P0 now s :
  sim_ok P0 now s -> all_done (procs s) = true -> schedule P0 now s.
Proof.
  intros Hs Hd. split; [apply Hs|]. rewrite all_done_spec in Hd.
  apply Forall2_same_length_lookup. split; [by eapply Forall2_length, so_procs|].
  intros i p0 p H0 Hi. destruct (Forall2_lookup_r _ _ _ _ _ (so_procs _ _ _ Hs) Hi) as (p1 & H1 & Hok).
  simplify_eq. pose proof (Hd p (list_elem_of_lookup_2 _ _ _ Hi)) as Hdp.
  destruct (po_done _ _ _ _ Hok Hdp) as (Hr & Hst & Hf).
  destruct (po_started _ _ _ _ Hok Hst) as [Ha _].
  pose proof (po_service _ _ _ _ Hok). split_and!; first [done|lia|apply Hok].
Qed.

(** Non-preemptive: the burst is served in one piece. *)
Definition in_one_piece (s : Sim Z) : Prop :=
  forall p, p ∈ procs s -> finish p = first_start p + ms (burst p).

Definition in_order (better : Proc Z -> Proc Z -> bool) (s : Sim Z) : Prop :=
  forall p q, p ∈ procs s -> q ∈ procs s -> better p q = true ->
    ms (arrival p) + 1000000000 <= first_start q \/ arrival p <= arrival q ->
    finish p <= first_start q.

Lemma np_result better `{!SelectionOrder better} P0 :
  input_ok P0 -> Forall fresh P0 ->
  exists now s, np_loop (fun now P => search (ready (ops := ticks) now) better P 0 None)
      (S (length P0)) 0 PID_IDLE (MkSim P0 [] 0) = Ok (now, s) /\
    schedule P0 now s /\ in_one_piece s /\ in_order better s.
Proof.
  intros Hin Hf.
  destruct (np_loop_ok better P0 Hin (S (length P0)) 0 PID_IDLE (MkSim P0 [] 0))
    as (now & s & E & Hn & Hd).
  { by apply np_init. }
  { cbn [procs]. pose proof (undone_le P0). lia. }
  exists now, s. split; [done|]. pose proof (proj1 (all_done_spec _) Hd) as Hd'. split_and!.
  - apply sim_ok_schedule; [apply Hn|done].
  - intros p Hp. by apply (no_proc _ _ _ _ Hn p Hp), Hd'.
  - intros p q Hp Hq Hb Harr. by apply (no_order _ _ _ _ Hn p q Hp Hq (Hd' q Hq) Hb Harr).
Qed.

(** C11. FCFS: for distinct process numbers and bursts that are not negative
    [simulate_FCFS] ends with a complete gap-free schedule in which each
    process runs in one piece, and a process that arrived before another one
    (or with it and has the smaller number) finishes before the other
    starts. *)
Theorem fcfs_schedule (P0 : list (Proc Z)) (Hin : input_ok P0) (Hf : Forall fresh P0) :
  exists now s, simulate_FCFS (ops := ticks) (MkSim P0 [] 0) = Ok (now, s) /\
    schedule P0 now s /\ in_one_piece s /\
    forall p q, p ∈ procs s -> q ∈ procs s -> fcfs_better p q = true -> finish p <= first_start q.
Proof.
  destruct (np_result fcfs_better P0 Hin Hf) as (now & s & E & Hs & Ho & Hord).
  exists now, s. split_and!; [done|done|done|]. intros p q Hp Hq Hb.
  apply Hord; try done. right. apply fcfs_better_spec in Hb. lia.
Qed.

(** SJF: the same schedule properties for [simulate_SJF]; and a process
    with a smaller burst that had arrived when another one was chosen
    finishes before the other starts. *)
Theorem sjf_schedule (P0 : list (Proc Z)) (Hin : input_ok P0) (Hf : Forall fresh P0) :
  exists now s, simulate_SJF (ops := ticks) (MkSim P0 [] 0) = Ok (now, s) /\
    schedule P0 now s /\ in_one_piece s /\
    forall p q, p ∈ procs s -> q ∈ procs s -> burst p < burst q ->
      ms (arrival p) + cs_overhead (TimeOps := ticks) <= first_start q -> finish p <= first_start q.
Proof.
  destruct (np_result sjf_better P0 Hin Hf) as (now & s & E & Hs & Ho & Hord).
  exists now, s. split_and!; [done|done|done|]. intros p q Hp Hq Hb Harr.
  apply Hord; try done; [|by left]. apply sjf_better_spec. by left.
Qed.

(** Three processes. *)
Definition three : list (Proc Z) :=
  [new_proc (ops := ticks) 1 0 5; new_proc (ops := ticks) 2 1 3; new_proc (ops := ticks) 3 2 1].

Lemma three_ok : input_ok three /\ Forall fresh three.
Proof.
  split; [split|].
  - apply (bool_decide_eq_true_1 _). vm_compute. reflexivity.
  - intros p Hp. unfold three in Hp. rewrite !elem_of_cons in Hp.
    destruct Hp as [->|[->|[->|Hp]]]; cbn; [lia..|by apply not_elem_of_nil in Hp].
  - repeat constructor.
Qed.

Lemma fcfs_schedule_witness :
  exists now s, simulate_FCFS (ops := ticks) (MkSim three [] 0) = Ok (now, s) /\
    schedule three now s /\ in_one_piece s /\
    forall p q, p ∈ procs s -> q ∈ procs s -> fcfs_better p q = true -> finish p <= first_start q.
Proof. apply (fcfs_schedule three); apply three_ok. Defined.

Lemma sjf_schedule_witness :
  exists now s, simulate_SJF (ops := ticks) (MkSim three [] 0) = Ok (now, s) /\
    schedule three now s /\ in_one_piece s /\
    forall p q, p ∈ procs s -> q ∈ procs s -> burst p < burst q ->
      ms (arrival p) + cs_overhead (TimeOps := ticks) <= first_start q -> finish p <= first_start q.
Proof. apply (sjf_schedule three); apply three_ok. Defined.

(** ** Slices *)

(** A process that gets the CPU, with its start noted. *)
Lemma note_start_ok now l p0 p :
  proc_ok now l p0 p -> ms (arrival p) <= now ->
  let p2 := note_start now p in
  pid p2 = pid p /\ arrival p2 = arrival p /\ burst p2 = burst p /\ remain p2 = remain p /\
  done p2 = done p /\ started p2 = true /\ ms (arrival p) <= first_start p2 /\
  first_start p2 + ms (burst p) - remain p <= now.
Proof.
  intros Hok Ha p2. unfold p2, note_start. destruct (started p) eqn:Es.
  - destruct (po_started _ _ _ _ Hok Es). by split_and!.
  - destruct (po_fresh _ _ _ _ Hok Es) as [_ Er]. cbn. split_and!; first [done|lia].
Qed.

(** The process after running for [d]. *)
Definition ran (p2 : Proc Z) (d : Z) : Proc Z :=
  MkProc (pid p2) (arrival p2) (burst p2) (remain p2 - d) (first_start p2) (finish p2)
    (started p2) (done p2).

(** A slice of [d] for process [k], the common part of the preemptive
    algorithms: the remaining time tells whether it is complete. *)
Lemma slice_ok P0 (Hin : input_ok P0) now s k p d :
  sim_ok P0 now s -> procs s !! k = Some p -> done p = false -> ms (arrival p) <= now ->
  0 <= d <= remain p -> grid d ->
  let p2 := note_start now p in
  let p3 := if decide (d = remain p) then complete (ops := ticks) (now + d) (ran p2 d) else ran p2 d in
  pid p2 = pid p /\ remain p2 = remain p /\
  tle (remain (ran p2 d)) eps = bool_decide (d = remain p) /\
  exists s1 s2, add_seg now (now + d) (pid p) s = Ok s1 /\ procs s1 = procs s /\
    pset s1 k p3 = Ok s2 /\ procs s2 = <[k := p3]> (procs s) /\ sim_ok P0 (now + d) s2 /\
    arrival p3 = arrival p /\ started p3 = true /\ pid p3 = pid p /\
    done p3 = bool_decide (d = remain p) /\ remain p3 = remain p - d.
Proof.
  intros Hs Hk Hd Ha Hdr Hgd p2 p3.
  destruct (proc_input Hin Hs k p Hk) as (p0 & _ & Hok & Hpos & _).
  pose proof (po_remain _ _ _ _ Hok) as [Hrem Hg].
  destruct (note_start_ok now _ p0 p Hok Ha) as (E1 & E2 & E3 & E4 & E5 & E6 & E7 & E8).
  fold p2 in E1, E2, E3, E4, E5, E6, E7, E8. split; [done|]. split; [done|]. split.
  { unfold ran. cbn [remain tle eps ticks]. rewrite E4.
    destruct (Z.leb_spec (remain p - d) 10) as [H|H];
      [rewrite bool_decide_eq_true_2|rewrite bool_decide_eq_false_2]; [done| |done|lia].
    pose proof (grid_le (remain p) d Hg Hgd). lia. }
  assert (Hp3 : pid p3 = pid p /\ arrival p3 = arrival p /\ burst p3 = burst p /\
    remain p3 = remain p - d /\ started p3 = true /\ first_start p3 = first_start p2 /\
    done p3 = bool_decide (d = remain p) /\ (done p3 = true -> remain p3 = 0 /\ finish p3 = now + d)).
  { unfold p3, ran. case_decide as Ed.
    - rewrite bool_decide_eq_true_2 by done. cbn. split_and!; first [done|lia].
    - rewrite bool_decide_eq_false_2 by done. cbn. rewrite E5. split_and!; first [done|lia|congruence]. }
  destruct Hp3 as (F1 & F2 & F3 & F4 & F5 & F6 & F7 & F8). clearbody p3.
  destruct (sim_ok_run Hin Hs k p p3 d) as (s1 & s2 & H1 & H2 & H3 & H4 & H5); try done; [lia|lia|].
  exists s1, s2. by split_and!.
Qed.
