(* ===== verification/CpuRR.v ===== *)
(** * Round robin

    [simulate_RR] ends for every table and quantum; it is complete when all
    processes arrive together and the quanta fit the array of the queue.  Two
    runs show what happens otherwise.  ([CpuDouble] says what it reports in the
    doubles of the code, with any arrivals.) *)

From Stdlib Require Import ZArith Lia SpecFloat QArith_base String.
From stdpp Require Import base numbers list option strings sets.
From S2P Require Import Prelude CText CpuSched CpuFacts CpuPolicy.

Local Open Scope Z_scope.

(** ** Termination *)
Section ends.
Context {T R : Type} {ops : TimeOps T R}.
(** A time is not after itself plus the tolerance. *)
Context (Hrefl : forall z, tle (of_int z) (tadd (of_int z) eps) = true).

Lemma add_seg_procs st en id (s s' : Sim T) : add_seg st en id s = Ok s' -> procs s' = procs s.
Proof.
  unfold add_seg. destruct (tle en st); [by intros [= ->]|].
  destruct (last (segs s)) as [g|]; [destruct (_ && _); [by intros [= <-]|]|];
    (destruct (decide _); [by intros [= <-]|done]).
Qed.

Definition q_ok (Q : Queue) : Prop :=
  (qf Q <= length (qs Q))%nat /\ Z.of_nat (length (qs Q)) <= MAX_TASKS.

(** The queue after some pushes. *)
Definition pushed (Q Q' : Queue) : Prop :=
  exists l, qs Q' = qs Q ++ l /\ qf Q' = qf Q /\ (q_ok Q -> q_ok Q').

Lemma pushed_refl Q : pushed Q Q.
Proof. exists []. by rewrite app_nil_r. Qed.

Lemma pushed_trans Q1 Q2 Q3 : pushed Q1 Q2 -> pushed Q2 Q3 -> pushed Q1 Q3.
Proof.
  intros (l & E1 & F1 & H1) (l' & E2 & F2 & H2). exists (l ++ l').
  rewrite E2, E1, F2, F1, app_assoc. by auto.
Qed.

Lemma q_push_pushed Q x Q' : q_push Q x = Ok Q' -> pushed Q Q' /\ qs Q' = qs Q ++ [x].
Proof.
  unfold q_push. case_decide; [|done]. intros [= <-]. split; [|done]. exists [x].
  split; [done|]. split; [done|]. unfold q_ok. cbn [qs qf]. rewrite length_app. cbn [length]. lia.
Qed.

Lemma push_if_pushed test (l : list (Proc T)) i Q Q' :
  push_if test l i Q = Ok Q' ->
  pushed Q Q' /\ (existsb test l = true -> (length (qs Q) < length (qs Q'))%nat).
Proof.
  revert i Q. induction l as [|p l IH]; intros i Q; cbn [push_if existsb].
  - intros [= <-]. split; [apply pushed_refl|done].
  - intros H. apply run_bind_Ok in H as (Q1 & H1 & H). apply IH in H as [H Hlt].
    destruct (test p).
    + apply q_push_pushed in H1 as [H1 E1]. split; [by eapply pushed_trans|]. intros _.
      destruct H as (l' & E & _). rewrite E, E1, !length_app. simpl. lia.
    + injection H1 as <-. split; [done|]. simpl. by apply Hlt.
Qed.

Lemma context_switch_procs now (s : Sim T) now' s' :
  context_switch now s = Ok (now', s') -> procs s' = procs s.
Proof.
  unfold context_switch. intros H. apply run_bind_Ok in H as (s1 & H1 & H). injection H as _ <-.
  by eapply add_seg_procs.
Qed.

Lemma rr_run_pushed tq now prev k p Q (s : Sim T) now' Q' s' :
  rr_run tq now prev k p Q s = Ok (now', Q', s') -> pushed Q Q'.
Proof.
  unfold rr_run. intros H. apply run_bind_Ok in H as ([now1 s1] & _ & H).
  apply run_bind_Ok in H as (s2 & _ & H). apply run_bind_Ok in H as (Q2 & HQ & H).
  apply push_if_pushed in HQ as [HQ _]. destruct (tle _ _).
  - apply run_bind_Ok in H as (s3 & _ & H). by injection H as _ <- _.
  - apply run_bind_Ok in H as (s3 & _ & H). apply run_bind_Ok in H as (Q3 & H3 & H).
    injection H as _ <- _. apply q_push_pushed in H3 as [H3 _]. by eapply pushed_trans.
Qed.

Lemma add_seg_fuel st en id (s : Sim T) : add_seg st en id s <> NoFuel.
Proof.
  unfold add_seg. destruct (tle en st); [done|].
  destruct (last (segs s)); [destruct (_ && _); [done|]|]; by destruct (decide _).
Qed.

Lemma push_if_fuel test (l : list (Proc T)) i Q : push_if test l i Q <> NoFuel.
Proof.
  revert i Q. induction l as [|q l IH]; intros i Q; [done|]. cbn [push_if].
  destruct (test q); [unfold q_push; case_decide|]; cbn [mbind run_bind]; [apply IH|done|apply IH].
Qed.

Lemma rr_run_fuel tq now prev k p Q (s : Sim T) : rr_run tq now prev k p Q s <> NoFuel.
Proof.
  unfold rr_run, context_switch, pset, enqueue_arrivals, q_push, aset.
  repeat first
    [ progress cbn [mbind run_bind]
    | match goal with
      | |- context [add_seg ?a ?b ?c ?d] =>
          pose proof (add_seg_fuel a b c d); destruct (add_seg a b c d)
      | |- context [push_if ?a ?b ?c ?d] =>
          pose proof (push_if_fuel a b c d); destruct (push_if a b c d)
      | |- context [decide ?P] => destruct (decide P)
      | |- context [tle ?a ?b] => destruct (tle a b)
      end
    | done ].
Qed.

Lemma idle_until_ready now (s : Sim T) now' s' :
  idle_until now s = Ok (Some (now', s')) ->
  procs s' = procs s /\ existsb (ready now') (procs s') = true.
Proof.
  unfold idle_until. destruct (next_arrival_after now (procs s)) as [i|] eqn:En; [|done].
  apply search_sound in En as (q & Hi & Hl). unfold pget. rewrite (aget_lookup _ _ _ Hi).
  cbn [mbind run_bind]. intros H. apply run_bind_Ok in H as (s1 & H1 & H). injection H as <- <-.
  apply add_seg_procs in H1. split; [done|]. rewrite H1. apply existsb_exists.
  exists q. split; [by eapply list_elem_of_In, list_elem_of_lookup_2|].
  unfold ready. unfold later in Hl. apply andb_true_iff in Hl as [-> _]. apply Hrefl.
Qed.

Lemma idle_until_fuel now (s : Sim T) : idle_until now s <> NoFuel.
Proof.
  unfold idle_until, pget, aget. destruct (next_arrival_after now (procs s)) as [i|]; [|done].
  destruct (procs s !! i) as [q|]; cbn [mbind run_bind]; [|done].
  pose proof (add_seg_fuel now (of_int (arrival q)) PID_IDLE s). by destruct (add_seg _ _ _ _).
Qed.

(** Pushes left and elements in the queue. *)
Definition rr_measure (Q : Queue) : nat :=
  (2 * (1000 - length (qs Q)) + (length (qs Q) - qf Q))%nat.

Lemma rr_loop_fuel tq fuel now prev Q (s : Sim T) :
  q_ok Q -> (rr_measure Q < fuel)%nat -> rr_loop tq fuel now prev Q s <> NoFuel.
Proof.
  revert now prev Q s. induction fuel as [|fuel IH]; intros now prev Q s HQ Hf; [lia|].
  unfold rr_measure, q_ok, MAX_TASKS in *. cbn [rr_loop].
  destruct (all_done (procs s)); [done|]. unfold q_empty. case_bool_decide as Ee.
  - pose proof (idle_until_fuel now s). destruct (idle_until now s) as [[[now1 s1]|]| |] eqn:Ei; try done.
    apply idle_until_ready in Ei as [_ Hr]. cbn [mbind run_bind].
    pose proof (push_if_fuel (ready now1) (procs s1) 0 Q).
    destruct (push_if (ready now1) (procs s1) 0 Q) as [Q1| |] eqn:Eq; try done.
    apply push_if_pushed in Eq as [(l & E & F & Hok) Hlt]. specialize (Hlt Hr). specialize (Hok HQ).
    cbn [mbind run_bind]. apply IH; unfold q_ok, MAX_TASKS in *; [done|].
    destruct Hok as [? Hok]. rewrite F. lia.
  - unfold q_pop. destruct (aget_lt (qs Q) (qf Q)) as (k & _ & ->); [lia|]. cbn [mbind run_bind].
    unfold aget. destruct (procs s !! k) as [p|]; [|done]. cbn [mbind run_bind].
    assert (HQ1 : q_ok (MkQueue (qs Q) (S (qf Q)))) by (unfold q_ok, MAX_TASKS; cbn [qs qf]; lia).
    destruct (done p); [apply IH; cbn [qs qf]; [done|lia]|].
    pose proof (rr_run_fuel tq now prev k p (MkQueue (qs Q) (S (qf Q))) s).
    destruct (rr_run tq now prev k p _ s) as [[[now1 Q1] s1]| |] eqn:Er; try done.
    apply rr_run_pushed in Er as (l & E & F & Hok). specialize (Hok HQ1).
    cbn [mbind run_bind]. apply IH; [done|]. unfold q_ok, MAX_TASKS in Hok.
    rewrite F in *. cbn [qs qf] in *. rewrite E, length_app in *. lia.
Qed.

Lemma simulate_RR_fuel tq (s : Sim T) : simulate_RR tq s <> NoFuel.
Proof.
  unfold simulate_RR.
  set (m := match next_arrival_after (of_int (-1)) (procs s) with None => _ | Some _ => _ end).
  assert (Hm : m <> NoFuel).
  { unfold m, pget, aget. destruct (next_arrival_after _ _) as [i|]; [|done].
    destruct (procs s !! i) as [q|]; cbn [mbind run_bind]; [|done]. destruct (decide _); [|done].
    pose proof (add_seg_fuel zero (of_int (arrival q)) PID_IDLE s). by destruct (add_seg _ _ _ _). }
  destruct m as [[now1 s1]| |]; try done. cbn [mbind run_bind].
  match goal with |- context [push_if ?t ?l ?i ?q] =>
    pose proof (push_if_fuel t l i q); destruct (push_if t l i q) as [Q| |] eqn:Eq end; try done.
  apply push_if_pushed in Eq as [(l & E & F & Hok) _]. cbn [mbind run_bind].
  assert (HQ : q_ok Q) by (apply Hok; unfold q_ok, MAX_TASKS; cbn [qs qf q_init length]; lia).
  apply rr_loop_fuel; [done|]. unfold rr_measure, q_ok, MAX_TASKS in *. lia.
Qed.
End ends.

(** Round robin ends: for every process table and every quantum, in any
    arithmetic in which a time is not after itself plus the tolerance,
    [simulate_RR] never exhausts the bound of its loop.  (It may still leave
    the array of the queue.) *)
Theorem rr_ends {T R : Type} {ops : TimeOps T R}
    (Hrefl : forall z, tle (of_int z) (tadd (of_int z) eps) = true) (tq : Z) (s : Sim T) :
  simulate_RR tq s <> NoFuel.
Proof. by apply simulate_RR_fuel. Qed.

Lemma rr_ends_witness : simulate_RR (ops := ticks) 2 (MkSim three [] 0) <> NoFuel.
Proof. apply (rr_ends (ops := ticks)). intros z. cbn. apply Z.leb_le. lia. Defined.

(** ** A round *)
Section round.
Context (P0 : list (Proc Z)) (Hin : input_ok P0) (tq : Z) (Htq : 0 < tq).

(** A round gives the process [p] at index [k] a slice of [d], the quantum or
    the rest; then come the arrivals, then [p] itself unless it is complete. *)
Lemma rr_run_eq now prev k p Q s :
  sim_ok P0 now s -> procs s !! k = Some p -> done p = false -> ms (arrival p) <= now ->
  let d := Z.min (ms tq) (remain p) in
  exists now2 s' p3, now <= now2 /\
    rr_run (ops := ticks) tq now prev k p Q s =
      (Q1 ← enqueue_arrivals (ops := ticks) Q now2 (now2 + d) (procs s);
       if bool_decide (d = remain p) then Ok (now2 + d, Q1, s')
       else Q2 ← q_push Q1 k; Ok (now2 + d, Q2, s')) /\
    sim_ok P0 (now2 + d) s' /\ procs s' = <[k := p3]> (procs s) /\
    arrival p3 = arrival p /\ done p3 = bool_decide (d = remain p) /\ remain p3 = remain p - d.
Proof.
  intros Hs Hk Hd Ha d. unfold rr_run.
  assert (Hsw : exists now2 s2,
    (if decide (prev <> pid p /\ prev <> PID_IDLE) then context_switch now s else Ok (now, s))
      = Ok (now2, s2) /\ sim_ok P0 now2 s2 /\ procs s2 = procs s /\ now <= now2).
  { case_decide.
    - destruct (context_switch_ok Hin Hs) as (s2 & -> & Ep & Hs2).
      eexists _, _. split_and!; [done|done|done|lia].
    - eexists _, _. split_and!; [done|done|done|lia]. }
  destruct Hsw as (now2 & s2 & -> & Hs2 & Ep & Hle). cbn [mbind run_bind].
  rewrite <- Ep in Hk. destruct (proc_input Hin Hs2 k p Hk) as (p0 & _ & Hok & _ & _).
  pose proof (po_remain _ _ _ _ Hok) as [Hrem Hg].
  assert (Hgd : grid d).
  { unfold d. destruct (Z.min_spec (ms tq) (remain p)) as [[_ ->]|[_ ->]]; [apply grid_ms|done]. }
  assert (Hdr : 0 <= d <= remain p) by (unfold d, ms; lia).
  destruct (slice_ok P0 Hin now2 s2 k p d Hs2 Hk Hd ltac:(lia) Hdr Hgd)
    as (E1 & E2 & Etle & s3 & s4 & E3 & Ep3 & E4 & Ep4 & Hs4 & Ea4 & Est4 & Epid4 & Ed4 & Er4).
  rewrite <- E1 in E3. cbn [tmin tadd tsub ticks]. change (of_int tq) with (ms tq).
  replace (Z.min (ms tq) (remain (note_start now2 p))) with d by (by rewrite E2). rewrite E3. cbn [mbind run_bind]. rewrite Ep3.
  change (MkProc _ _ _ _ _ _ _ _) with (ran (note_start now2 p) d). rewrite Etle.
  rewrite bool_decide_decide in *. rewrite Ep in *.
  exists now2, s4, (if decide (d = remain p) then complete (ops := ticks) (now2 + d) (ran (note_start now2 p) d)
                    else ran (note_start now2 p) d).
  split_and!; try done. destruct (enqueue_arrivals Q now2 (now2 + d) (procs s)) as [Q1| |]; [|done..].
  cbn [mbind run_bind]. destruct (decide (d = remain p)); by rewrite E4.
Qed.
End round.

(** The indices that pass a test, which are those pushed. *)
Fixpoint hits {T} (test : Proc T -> bool) (l : list (Proc T)) (i : nat) : list nat :=
  match l with [] => [] | p :: l' => (if test p then [i] else []) ++ hits test l' (S i) end.

Lemma push_if_hits {T} test (l : list (Proc T)) i Q :
  Z.of_nat (length (qs Q) + length (hits test l i)) <= MAX_TASKS ->
  push_if test l i Q = Ok (MkQueue (qs Q ++ hits test l i) (qf Q)).
Proof.
  revert i Q. induction l as [|p l IH]; intros i Q Hroom; cbn [push_if hits] in *.
  - rewrite app_nil_r. by destruct Q.
  - rewrite length_app in Hroom. destruct (test p); cbn [length app] in *.
    + unfold q_push. rewrite decide_True by lia. cbn [mbind run_bind]. rewrite IH; cbn [qs qf].
      * by rewrite <- app_assoc.
      * rewrite length_app. cbn [length]. lia.
    + cbn [mbind run_bind]. apply IH. lia.
Qed.

Lemma elem_hits {T} test (l : list (Proc T)) i j :
  j ∈ hits test l i <-> exists n p, j = (i + n)%nat /\ l !! n = Some p /\ test p = true.
Proof.
  revert i. induction l as [|p l IH]; intros i; cbn [hits].
  - rewrite elem_of_nil. split; [done|]. by intros (n & q & _ & H & _).
  - rewrite elem_of_app, IH. split.
    + intros [H|(n & q & -> & Hn & Hq)]; [|exists (S n), q; split_and!; [lia|done|done]].
      destruct (test p) eqn:E; [|by apply not_elem_of_nil in H].
      apply list_elem_of_singleton in H as ->. exists 0%nat, p. split_and!; [lia|done|done].
    + intros ([|n] & q & -> & Hn & Hq); [left|right].
      * injection Hn as <-. rewrite Hq. apply list_elem_of_singleton. lia.
      * exists n, q. split_and!; [lia|done|done].
Qed.

Lemma NoDup_hits {T} test (l : list (Proc T)) i : NoDup (hits test l i).
Proof.
  revert i. induction l as [|p l IH]; intros i; cbn [hits]; [apply NoDup_nil_2|].
  destruct (test p); [|apply IH]. apply NoDup_cons. split; [|apply IH].
  rewrite elem_hits. intros (n & q & E & _). lia.
Qed.

(** Different places with a positive number each. *)
Lemma places_count (l : list nat) (ns : list Z) :
  NoDup l -> (forall n, n ∈ ns -> 0 <= n) -> (forall i, i ∈ l -> exists n, ns !! i = Some n /\ 1 <= n) ->
  Z.of_nat (length l) <= foldr Z.add 0 ns.
Proof.
  intros Hd. revert ns. induction Hd as [|i l Hi Hd IH]; intros ns Hpos Hl.
  { cbn [length]. clear Hl. induction ns as [|n ns IHn]; cbn [foldr]; [lia|].
    pose proof (Hpos n ltac:(by left)). specialize (IHn ltac:(intros; apply Hpos; by right)). lia. }
  destruct (Hl i ltac:(by left)) as (n & Hn & Hn1).
  assert (Hsum : forall ms j x, ms !! j = Some x -> foldr Z.add 0 (<[j := 0]> ms) = foldr Z.add 0 ms - x).
  { clear. induction ms as [|y ms IHm]; intros [|j] x H; simplify_eq/=; [lia|]. rewrite (IHm j x H). lia. }
  specialize (IH (<[i := 0]> ns)). rewrite (Hsum ns i n Hn) in IH. cbn [length].
  assert (Z.of_nat (length l) <= foldr Z.add 0 ns - n); [apply IH|lia].
  - intros x Hx. apply list_elem_of_lookup in Hx as [j Hj].
    apply list_lookup_insert_Some in Hj as [(_ & <- & _)|[_ Hj]]; [done|]. by eapply Hpos, list_elem_of_lookup_2.
  - intros j Hj. rewrite list_lookup_insert_ne by (intros ->; done). apply Hl. by right.
Qed.

(** The start of [simulate_RR]: idle until the first arrival, then all that
    have arrived enter the queue. *)
Lemma rr_start P0 (Hin : input_ok P0) (Hf : Forall fresh P0) tq :
  exists now1 s1, sim_ok P0 now1 s1 /\ procs s1 = P0 /\
    ((forall p, p ∈ P0 -> arrival p = 0) -> now1 = 0) /\
    simulate_RR (ops := ticks) tq (MkSim P0 [] 0) =
      (Q ← push_if (fun p => tle (of_int (arrival p)) (tadd now1 eps)) P0 0 q_init;
       rr_loop (ops := ticks) tq 2001 now1 PID_IDLE Q s1).
Proof.
  pose proof (sim_ok_init P0 Hin Hf) as Hs. unfold simulate_RR. cbn [procs].
  change (S (2 * Z.to_nat MAX_TASKS)) with 2001%nat.
  pose proof (next_arrival_spec (of_int (-1)) P0) as Hn.
  destruct (next_arrival_after (of_int (-1)) P0) as [i|].
  - destruct Hn as (q & Hi & _). unfold pget. cbn [procs]. rewrite (aget_lookup _ _ _ Hi).
    cbn [mbind run_bind]. case_decide as Hpos.
    + destruct (sim_ok_gap Hin Hs (ms (arrival q)) PID_IDLE) as (s1 & E & Ep & Hs1).
      { unfold ms. lia. } { apply grid_ms. } { done. }
      change (add_seg zero (of_int (arrival q)) PID_IDLE) with (add_seg 0 (ms (arrival q)) PID_IDLE).
      rewrite E. cbn [mbind run_bind]. rewrite Ep. exists (ms (arrival q)), s1. split_and!; try done.
      intros H0. rewrite (H0 q) in Hpos; [lia|by eapply list_elem_of_lookup_2].
    + cbn [mbind run_bind]. by exists 0, (MkSim P0 [] 0).
  - cbn [mbind run_bind]. by exists 0, (MkSim P0 [] 0).
Qed.

(** ** Simultaneous arrivals *)
Section together.
Context (P0 : list (Proc Z)) (Hin : input_ok P0) (tq : Z) (Htq : 0 < tq).
Context (H0 : forall p, p ∈ P0 -> arrival p = 0).

(** The rounds a process still needs after its next one. *)
Definition more_rounds (p : Proc Z) : Z :=
  if done p then 0 else Z.max 0 ((remain p + ms tq - 1) / ms tq - 1).

Definition rounds (P : list (Proc Z)) : Z := foldr (fun p n => more_rounds p + n) 0 P.

Lemma rounds_insert P k p p' :
  P !! k = Some p -> rounds (<[k := p']> P) = rounds P - more_rounds p + more_rounds p'.
Proof.
  revert k. induction P as [|q P IH]; intros [|k] Hk; simplify_eq/=; [lia|].
  rewrite (IH k Hk). lia.
Qed.

Lemma rounds_pos P : 0 <= rounds P.
Proof.
  induction P as [|q P IH]; [done|].
  assert (0 <= more_rounds q) by (unfold more_rounds; destruct (done q); lia).
  cbn [rounds foldr]. fold (rounds P). lia.
Qed.

(** Another quantum is needed: one round less remains. *)
Lemma more_rounds_step p p' :
  done p = false -> done p' = false -> ms tq < remain p -> remain p' = remain p - ms tq ->
  more_rounds p = more_rounds p' + 1 /\ 0 <= more_rounds p'.
Proof.
  intros Hd Hd' Hlt Er. unfold more_rounds. rewrite Hd, Hd', Er.
  assert (0 < ms tq) by (unfold ms; lia).
  replace (remain p - ms tq + ms tq - 1) with (remain p + ms tq - 1 + (-1) * ms tq) by lia.
  rewrite Z.div_add by lia.
  assert (2 <= (remain p + ms tq - 1) / ms tq) by (apply Z.div_le_lower_bound; lia). lia.
Qed.

(** The queue holds each process that is not done once, and has room for all
    the rounds to come. *)
Record together_ok (now : Z) (Q : Queue) (s : Sim Z) : Prop := {
  to_sim : sim_ok P0 now s;
  to_now : 0 <= now;
  to_pending i : i ∈ drop (qf Q) (qs Q) <-> exists p, procs s !! i = Some p /\ done p = false;
  to_nodup : NoDup (drop (qf Q) (qs Q));
  to_front : (qf Q <= length (qs Q))%nat;
  to_room : Z.of_nat (length (qs Q)) + rounds (procs s) <= MAX_TASKS }.

Lemma arrival_zero now s i p : sim_ok P0 now s -> procs s !! i = Some p -> arrival p = 0.
Proof.
  intros Hs Hi. destruct (proc_input Hin Hs i p Hi) as (p0 & Hp0 & Hok & _).
  destruct (po_key _ _ _ _ Hok) as (_ & -> & _). by apply H0, (list_elem_of_lookup_2 _ i).
Qed.

Lemma push_if_none {T} test (l : list (Proc T)) i Q :
  (forall p, p ∈ l -> test p = false) -> push_if test l i Q = Ok Q.
Proof.
  revert i. induction l as [|p l IH]; intros i H; [done|]. cbn [push_if].
  rewrite (H p) by (by left). cbn [mbind run_bind]. apply IH. intros q Hq. apply H. by right.
Qed.

Lemma no_arrivals now s Q from to :
  sim_ok P0 now s -> 0 <= from -> enqueue_arrivals (ops := ticks) Q from to (procs s) = Ok Q.
Proof.
  intros Hs Hle. apply push_if_none. intros p Hp. apply list_elem_of_lookup in Hp as [i Hi].
  rewrite (arrival_zero now s i p Hs Hi). cbn [tlt tadd of_int eps ticks].
  destruct (Z.ltb_spec (from + 10) (0 * 10000000000)); [lia|]. by rewrite andb_false_r.
Qed.

Lemma rr_loop_together fuel now prev Q s :
  together_ok now Q s -> (rr_measure Q < fuel)%nat ->
  exists now' s', rr_loop (ops := ticks) tq fuel now prev Q s = Ok (now', s') /\
    sim_ok P0 now' s' /\ all_done (procs s') = true.
Proof.
  revert now prev Q s. induction fuel as [|fuel IH]; intros now prev Q s Ht Hf; [lia|].
  destruct Ht as [Hs Hnow Hpend Hnd Hfront Hroom]. cbn [rr_loop].
  destruct (all_done (procs s)) eqn:Ed; [eauto|].
  apply not_all_done in Ed as (q & Hq & Hdq). apply list_elem_of_lookup in Hq as [i Hi].
  assert (Hin_i : i ∈ drop (qf Q) (qs Q)) by (apply Hpend; eauto).
  unfold q_empty. rewrite bool_decide_eq_false_2.
  2: { intros E. rewrite drop_ge in Hin_i by lia. by apply not_elem_of_nil in Hin_i. }
  assert (Hlt : (qf Q < length (qs Q))%nat).
  { destruct (decide (qf Q < length (qs Q))%nat); [done|].
    rewrite drop_ge in Hin_i by lia. by apply not_elem_of_nil in Hin_i. }
  unfold q_pop. destruct (aget_lt (qs Q) (qf Q) Hlt) as (k & Hk & ->). cbn [mbind run_bind].
  rewrite (drop_S _ _ _ Hk) in Hpend, Hnd. apply NoDup_cons in Hnd as [Hkn Hnd].
  destruct (proj1 (Hpend k) ltac:(by left)) as (p & Hp & Hd).
  rewrite (aget_lookup _ _ _ Hp). cbn [mbind run_bind]. rewrite Hd.
  pose proof (arrival_zero now s k p Hs Hp) as Ha.
  destruct (rr_run_eq P0 Hin tq Htq now prev k p (MkQueue (qs Q) (S (qf Q))) s Hs Hp Hd)
    as (now2 & s2 & p3 & Hle & E & Hs2 & Ep2 & Ea2 & Ed2 & Er2); [rewrite Ha; unfold ms; lia|].
  rewrite E, (no_arrivals now s) by (first [done|lia]). cbn [mbind run_bind].
  pose proof (rounds_insert (procs s) k p p3 Hp) as Hrd.
  destruct (proc_input Hin Hs k p Hp) as (p0 & _ & Hok & _).
  pose proof (po_remain _ _ _ _ Hok) as [Hrem _].
  assert (Hpend' : forall j, (exists q, <[k := p3]> (procs s) !! j = Some q /\ done q = false) <->
    (j ∈ drop (S (qf Q)) (qs Q) \/ (j = k /\ done p3 = false))).
  { intros j. specialize (Hpend j). destruct (decide (j = k)) as [->|Hne].
    - rewrite list_lookup_insert_eq by (by eapply lookup_lt_Some). naive_solver.
    - rewrite list_lookup_insert_ne by done. rewrite <- Hpend, elem_of_cons. naive_solver. }
  unfold rr_measure in *. case_bool_decide as Edone.
  - apply IH; [|cbn [qs qf]; lia]. split; cbn [qs qf]; [done|unfold ms; lia| |done|lia|].
    + intros j. rewrite Ep2, Hpend', Ed2. naive_solver.
    + rewrite Ep2, Hrd. unfold more_rounds at 2. rewrite Ed2.
      unfold more_rounds. rewrite Hd. lia.
  - destruct (more_rounds_step p p3) as [Hm1 Hm2]; [done|done|lia|lia|].
    pose proof (rounds_pos (<[k := p3]> (procs s))) as Hpos.
    assert (Hpush : Z.of_nat (length (qs Q)) < MAX_TASKS).
    { rewrite Hrd in Hpos. lia. }
    unfold q_push. cbn [qs qf]. rewrite decide_True by done. cbn [mbind run_bind].
    assert (Hdrop : drop (S (qf Q)) (qs Q ++ [k]) = drop (S (qf Q)) (qs Q) ++ [k])
      by (rewrite drop_app_le by lia; done).
    apply IH; [|cbn [qs qf]; rewrite length_app; cbn [length]; unfold MAX_TASKS in *; lia].
    split; cbn [qs qf]; [done|unfold ms; lia| | | |].
    + intros j. rewrite Ep2, Hpend', Ed2, Hdrop, elem_of_app, list_elem_of_singleton. naive_solver.
    + rewrite Hdrop. apply NoDup_app. split_and!; [done| |apply NoDup_singleton].
      intros x Hx ->%list_elem_of_singleton. done.
    + rewrite length_app. cbn [length]. lia.
    + rewrite length_app, Ep2, Hrd. cbn [length]. lia.
Qed.
End together.

Lemma push_if_all {T} test (l : list (Proc T)) i Q :
  (forall p, p ∈ l -> test p = true) ->
  Z.of_nat (length (qs Q) + length l) <= MAX_TASKS ->
  push_if test l i Q = Ok (MkQueue (qs Q ++ seq i (length l)) (qf Q)).
Proof.
  revert i Q. induction l as [|p l IH]; intros i Q Ht Hroom; cbn [push_if length seq].
  - rewrite app_nil_r. by destruct Q.
  - cbn [length] in Hroom. rewrite (Ht p) by (by left). unfold q_push.
    rewrite decide_True by lia. cbn [mbind run_bind].
    rewrite IH; cbn [qs qf]; [by rewrite <- app_assoc| |].
    + intros q Hq. apply Ht. by right.
    + rewrite length_app. cbn [length]. lia.
Qed.

(** The quanta a process takes. *)
Definition quanta {T} (tq : Z) (p : Proc T) : Z := Z.max 1 ((burst p + tq - 1) / tq).

Lemma more_rounds_fresh tq p : 0 < tq -> fresh p -> 1 + more_rounds tq p = quanta tq p.
Proof.
  intros Htq Hf. unfold more_rounds, quanta.
  replace (done p) with false by (by rewrite Hf).
  replace (remain p) with (ms (burst p)) by (by rewrite Hf).
  assert ((ms (burst p) + ms tq - 1) / ms tq = (burst p + tq - 1) / tq) as ->; [|lia].
  symmetry. pose proof (Z.div_mod (burst p + tq - 1) tq ltac:(lia)) as Hdm.
  pose proof (Z.mod_pos_bound (burst p + tq - 1) tq Htq).
  set (c := (burst p + tq - 1) / tq) in *.
  apply (Z.div_unique _ _ c (ms (burst p) + ms tq - 1 - ms tq * c)); [left|lia].
  unfold ms. lia.
Qed.

Fixpoint total_quanta {T} (tq : Z) (P : list (Proc T)) : Z :=
  match P with [] => 0 | p :: P' => quanta tq p + total_quanta tq P' end.

Lemma rounds_fresh tq P :
  0 < tq -> Forall fresh P -> Z.of_nat (length P) + rounds tq P = total_quanta tq P.
Proof.
  intros Htq. induction 1 as [|p P Hp HP IH]; [done|].
  cbn [total_quanta length rounds foldr]. fold (rounds tq P).
  pose proof (more_rounds_fresh tq p Htq Hp). lia.
Qed.


Definition pair0 : list (Proc Z) := [new_proc (ops := ticks) 1 0 5; new_proc (ops := ticks) 2 0 3].


(** ** Where round robin fails *)

(** The outcome of a run with [double] times: number, start and done flags. *)
Definition rr_outcome (tq : Z) (l : list (Z * Z * Z)) : run (list (Z * bool * bool)) :=
  '(_, s) ← simulate_RR (ops := binary64) tq
     (MkSim ((fun x => new_proc (ops := binary64) x.1.1 x.1.2 x.2) <$> l) [] 0);
  Ok ((fun p => (pid p, started p, done p)) <$> procs s).

(** A process that arrives during a context switch is lost: arrivals are
    collected from the time after the switch on, so process 3, which arrives
    at 11 while the CPU switches, never enters the queue; when the others are
    done the loop finds no later arrival and stops.  The process is reported
    with start and finish time 0. *)
Theorem rr_loses_process :
  rr_outcome 1 [(1, 0, 11); (2, 0, 11); (3, 11, 1)] =
    Ok [(1, true, true); (2, true, true); (3, false, false)].
Proof. vm_compute. reflexivity. Qed.

(** The queue is an array of 1000 entries whose indices never wrap, so a
    single process that needs 1001 quanta overruns it, while one that needs
    1000 completes. *)
Theorem rr_queue_overrun :
  rr_outcome 1 [(1, 0, 1001)] = Undef /\ rr_outcome 1 [(1, 0, 1000)] = Ok [(1, true, true)].
Proof. split; vm_compute; reflexivity. Qed.
