(* ===== verification/CpuRound.v ===== *)
(** * Preemptive scheduling in rounded arithmetic

    [Rounded] is what the simulations of [CpuSched] need of the arithmetic of
    times: values within half a unit of the last place, comparisons on values.
    Against it this file proves that a simulation keeps [rsim_ok]: the segments
    leave no gap, what a process received and what remains add up to its burst
    up to the rounding errors, and its start and finish times are the ends of
    its first and last segment.  [CpuDouble] gives the instance of the doubles
    of the code and the results for SRTF and round robin. *)

From Stdlib Require Import ZArith Lia SpecFloat QArith_base String.
From stdpp Require Import base numbers list option strings sets.
From S2P Require Import Prelude CText CpuSched CpuFacts.

Local Open Scope Z_scope.

(** ** Rounded times *)

(** [tval] is the value of a time in units of which [msec] make a
    millisecond; [err] bounds the rounding of sums and differences below
    [span] milliseconds. *)
Class Rounded {T R} (ops : TimeOps T R) := {
  fits : T -> Prop;
  tval : T -> Z;
  msec : Z;
  err : Z;
  span : Z;
  err_pos : 0 <= err;
  fits_int z : Z.abs z <= 2 ^ 31 -> fits (of_int z) /\ tval (of_int z) = z * msec;
  fits_add a b : fits a -> fits b -> Z.abs (tval a + tval b) < span * msec ->
    fits (tadd a b) /\ Z.abs (tval (tadd a b) - (tval a + tval b)) <= err;
  add_above a b : fits a -> fits b -> 0 <= tval a -> 0 <= tval b ->
    tval a + tval b < span * msec -> tval a <= tval (tadd a b);
  add_le a b c : fits a -> fits b -> fits c -> 0 <= tval a + tval c -> tval a <= tval b ->
    tval b + tval c < span * msec -> tval (tadd a c) <= tval (tadd b c);
  fits_sub a b : fits a -> fits b -> Z.abs (tval a - tval b) < span * msec ->
    fits (tsub a b) /\ Z.abs (tval (tsub a b) - (tval a - tval b)) <= err;
  sub_whole a b i j : fits a -> fits b -> tval a = i * msec -> tval b = j * msec ->
    0 <= i - j <= 2 ^ 31 -> tval (tsub a b) = (i - j) * msec;
  fits_abs a : fits a -> fits (tabs a) /\ tval (tabs a) = Z.abs (tval a);
  tlt_val a b : fits a -> fits b -> tlt a b = (tval a <? tval b);
  tle_val a b : fits a -> fits b -> tle a b = (tval a <=? tval b);
  tmin_val a b : fits a -> fits b ->
    (tmin a b = a /\ tval a <= tval b) \/ (tmin a b = b /\ tval b <= tval a);
  fits_eps : fits eps /\ 4 * err < tval eps /\ 2 * tval eps <= msec;
  fits_cs : fits cs_overhead /\ 0 <= tval cs_overhead /\ tval cs_overhead + 4 * err <= msec }.

Section rounded.
Context {T R : Type} {ops : TimeOps T R} {RT : Rounded ops}.
Implicit Types (l : list (Segment T)) (p q : Proc T) (s : Sim T) (now : T).

Lemma msec_pos : 0 < msec.
Proof. pose proof err_pos. destruct fits_eps as (_ & ? & ?). lia. Qed.

Lemma zero_val : fits zero /\ tval zero = 0.
Proof. apply (fits_int 0). done. Qed.

(** ** Segments *)

(** The segments cover the time from 0 to [t] without gaps. *)
Inductive timeline : list (Segment T) -> Z -> Prop :=
| timeline_nil : timeline [] 0
| timeline_snoc l g t : timeline l t -> tval (start g) = t -> t < tval (end_ g) ->
    timeline (l ++ [g]) (tval (end_ g)).

(** The segments of process [id], and the time they last. *)
Definition runs (l : list (Segment T)) (id : Z) : list (Segment T) := filter (fun g => spid g = id) l.

Definition lasts (l : list (Segment T)) : Z :=
  foldr (fun g n => tval (end_ g) - tval (start g) + n) 0 l.

Definition cpu_time (l : list (Segment T)) (id : Z) : Z := lasts (runs l id).

Lemma lasts_app l1 l2 : lasts (l1 ++ l2) = lasts l1 + lasts l2.
Proof. unfold lasts. induction l1 as [|g l1 IH]; cbn [foldr app]; lia. Qed.

Lemma runs_app l1 l2 id : runs (l1 ++ l2) id = runs l1 id ++ runs l2 id.
Proof. apply filter_app. Qed.

Lemma runs_one g id : runs [g] id = if decide (spid g = id) then [g] else [].
Proof. reflexivity. Qed.

(** Time [st] to [en] went to [id]: nothing changes when it is empty;
    otherwise [id] has a segment more, or its last segment, which ended at
    [st], now ends at [en]. *)
Definition passed (st en : T) (id : Z) (l l' : list (Segment T)) : Prop :=
  (tval st = tval en /\ l' = l) \/
  (tval st < tval en /\ (forall j, j <> id -> runs l' j = runs l j) /\
   (runs l' id = runs l id ++ [Seg st en id] \/
    exists r g, runs l id = r ++ [g] /\ tval (end_ g) = tval st /\
      runs l' id = r ++ [Seg (start g) en id])).

Lemma passed_other st en id l l' j : passed st en id l l' -> j <> id -> runs l' j = runs l j.
Proof. intros [[_ ->]|(_ & H & _)] Hj; [done|by apply H]. Qed.

Lemma passed_time st en id l l' : passed st en id l l' ->
  cpu_time l' id = cpu_time l id + (tval en - tval st).
Proof.
  unfold cpu_time. intros [[E ->]|(_ & _ & [->|(r & g & -> & E & ->)])]; [lia| |];
    rewrite !lasts_app; cbn [lasts foldr start end_]; lia.
Qed.

(** The first segment keeps its start. *)
Lemma passed_first st en id l l' t : passed st en id l l' ->
  start <$> head (runs l id) = Some t -> start <$> head (runs l' id) = Some t.
Proof.
  intros [[_ ->]|(_ & _ & [->|(r & g & -> & _ & ->)])]; [done| |]; intros H.
  - by destruct (runs l id).
  - by destruct r.
Qed.

Lemma passed_new st en id l l' : passed st en id l l' -> runs l id = [] -> tval st < tval en ->
  runs l' id = [Seg st en id].
Proof.
  intros [[E _]|(_ & _ & [->|(r & g & E & _)])] E0 Hlt; [lia|by rewrite E0|].
  rewrite E0 in E. by destruct r.
Qed.

Lemma passed_last st en id l l' : passed st en id l l' -> tval st < tval en ->
  end_ <$> last (runs l' id) = Some en.
Proof.
  intros [[E _]|(_ & _ & [->|(r & g & _ & _ & ->)])] Hlt; [lia| |]; by rewrite last_snoc.
Qed.

Definition room_ok s : Prop := (length (segs s) <= segcap s)%nat.

Lemma add_seg_passed st en id s :
  timeline (segs s) (tval st) -> room_ok s -> fits st -> fits en -> tval st <= tval en ->
  exists s', add_seg st en id s = Ok s' /\ procs s' = procs s /\
    timeline (segs s') (tval en) /\ room_ok s' /\ passed st en id (segs s) (segs s').
Proof.
  intros Ht Hcap Hst Hen Hle. unfold add_seg. rewrite tle_val by done.
  destruct (Z.leb_spec (tval en) (tval st)) as [Hes|Hes].
  { assert (tval st = tval en) as E by lia. exists s. rewrite <- E. split_and!; try done. by left. }
  set (push := if decide _ then Ok (MkSim _ (segs s ++ _) _) else Undef).
  assert (Hpush : exists s', push = Ok s' /\ procs s' = procs s /\ timeline (segs s') (tval en) /\
    room_ok s' /\ passed st en id (segs s) (segs s')).
  { unfold push, room_ok in *. rewrite decide_True by (repeat case_decide; lia).
    eexists. split; [done|]. cbn [procs segs segcap]. split_and!; [done| | |].
    - by apply (timeline_snoc (segs s) (Seg st en id) (tval st)).
    - rewrite length_app. cbn [length]. repeat case_decide; lia.
    - right. split; [done|]. split; [|left; by rewrite runs_app, runs_one, decide_True by done].
      intros j Hj. rewrite runs_app, runs_one, decide_False by done. by rewrite app_nil_r. }
  destruct (last (segs s)) as [g|] eqn:Eg; [|done].
  destruct (_ && _) eqn:Em; [|done]. clear push Hpush.
  inversion Ht as [El Et|l g' t Hl Eg' Hlt El Et]; [by rewrite <- El in Eg|]. subst t.
  rewrite <- El, last_snoc in Eg. injection Eg as ->.
  apply andb_true_iff in Em as [_ Ei]. apply bool_decide_eq_true_1 in Ei. subst id.
  eexists. split; [done|]. cbn [procs segs segcap]. rewrite length_app. cbn [length].
  replace (length l + 1 - 1)%nat with (length l + 0)%nat by lia.
  rewrite insert_app_r. cbn [insert list_insert]. split_and!; [done| | |].
  - eapply (timeline_snoc l (Seg (start g) en (spid g))); [exact Hl|done|cbn [end_]; lia].
  - unfold room_ok in *. rewrite <- El in Hcap. cbn [segs segcap]. by rewrite length_app in *.
  - right. split; [done|]. split.
    + intros j Hj. rewrite !runs_app, !runs_one. cbn [spid]. by rewrite !decide_False by congruence.
    + right. exists (runs l (spid g)), g. rewrite !runs_app, !runs_one. cbn [spid].
      by rewrite !decide_True by done.
Qed.

(** ** The invariant *)

(** The inputs: distinct process numbers; arrivals and bursts that are not
    negative; the table as [main] reads it. *)
Record table_ok (P0 : list (Proc T)) : Prop := {
  to_pids : NoDup (pid <$> P0);
  to_pos p : p ∈ P0 -> 0 <= pid p /\ 0 <= arrival p /\ 0 <= burst p;
  to_new p : p ∈ P0 -> p = new_proc (pid p) (arrival p) (burst p) }.

Definition last_arrival (P0 : list (Proc T)) : Z := foldr (fun p n => Z.max (arrival p) n) 0 P0.
Definition all_bursts (P0 : list (Proc T)) : Z := foldr (fun p n => burst p + n) 0 P0.

(** What a process [p] of the table looks like at time [now], given the
    segments [l] so far and the process [p0] of the input, after [k] slices. *)
Record rproc_ok (k now : Z) (l : list (Segment T)) (p0 p : Proc T) : Prop := {
  rp_key : same_key p p0;
  rp_fits : fits (remain p);
  rp_time : Z.abs (cpu_time l (pid p) + tval (remain p) - burst p * msec) <=
    3 * err * k + (if done p then tval eps else 0);
  rp_left : done p = false ->
    (started p = false /\ burst p = 0 /\ tval (remain p) = 0) \/ tval eps < tval (remain p);
  rp_started : started p = true ->
    arrival p * msec <= tval (first_start p) + tval eps + err /\ tval (first_start p) <= now /\
    (0 < burst p -> start <$> head (runs l (pid p)) = Some (first_start p));
  rp_done : done p = true -> started p = true /\ tval (remain p) = 0 /\
    tval (first_start p) <= tval (finish p) <= now /\
    (0 < burst p -> end_ <$> last (runs l (pid p)) = Some (finish p));
  rp_fresh : started p = false -> done p = false /\ runs l (pid p) = [] }.

(** The time still to be served. *)
Definition todo (P : list (Proc T)) : Z :=
  foldr (fun p n => (if done p then 0 else tval (remain p)) + n) 0 P.

(** [b] is the time lost so far to switches and rounding. *)
Record rsim_ok (P0 : list (Proc T)) (k b : Z) (now : T) (s : Sim T) : Prop := {
  rs_line : timeline (segs s) (tval now);
  rs_room : room_ok s;
  rs_fits : fits now;
  rs_slices : 0 <= k;
  rs_procs : Forall2 (rproc_ok k (tval now) (segs s)) P0 (procs s);
  rs_bound : Z.max (tval now) (last_arrival P0 * msec) + todo (procs s) <=
    (last_arrival P0 + all_bursts P0) * msec + b }.

(** What is to come fits the range of the arithmetic. *)
Definition in_span (P0 : list (Proc T)) (b : Z) : Prop :=
  (last_arrival P0 + all_bursts P0 + 2) * msec + b <= span * msec /\
  last_arrival P0 <= 2 ^ 31 /\ all_bursts P0 <= 2 ^ 31.

Lemma timeline_pos l t : timeline l t -> 0 <= t.
Proof. induction 1; lia. Qed.

Lemma last_arrival_le P0 p : p ∈ P0 -> arrival p <= last_arrival P0.
Proof.
  unfold last_arrival. induction P0 as [|q P0 IH]; [by intros ?%not_elem_of_nil|].
  cbn [foldr]. intros [->|Hp]%elem_of_cons; [lia|]. specialize (IH Hp). lia.
Qed.

Lemma all_bursts_le P0 p : table_ok P0 -> p ∈ P0 -> burst p <= all_bursts P0.
Proof.
  intros Ht. assert (Hpos : forall q, q ∈ P0 -> 0 <= burst q) by (intros q Hq; by apply Ht).
  clear Ht. unfold all_bursts. revert p.
  assert (H0 : forall P, (forall q, q ∈ P -> 0 <= burst q) -> 0 <= foldr (fun p n => burst p + n) 0 P).
  { clear. induction P as [|q P IH]; intros H; cbn [foldr]; [done|].
    pose proof (H q ltac:(by left)). pose proof (IH ltac:(intros x Hx; apply H; by right)). lia. }
  induction P0 as [|q P0 IH]; intros p; [by intros ?%not_elem_of_nil|].
  pose proof (Hpos q ltac:(by left)) as Hq. cbn [foldr].
  pose proof (H0 P0 ltac:(intros x Hx; apply Hpos; by right)) as Hr.
  intros [->|Hp]%elem_of_cons; [lia|].
  specialize (IH ltac:(intros x Hx; apply Hpos; by right) p Hp). lia.
Qed.

Lemma todo_insert P k p p' : P !! k = Some p ->
  todo (<[k := p']> P) = todo P - (if done p then 0 else tval (remain p))
    + (if done p' then 0 else tval (remain p')).
Proof.
  unfold todo. revert k. induction P as [|q P IH]; intros [|k] Hk; simplify_eq/=; [lia|].
  rewrite (IH k Hk). lia.
Qed.

Lemma todo_pos P :
  (forall q, q ∈ P -> done q = false -> 0 <= tval (remain q)) -> 0 <= todo P.
Proof.
  unfold todo. induction P as [|p P IH]; intros H; cbn [foldr]; [done|].
  pose proof (IH ltac:(intros q Hq; apply H; by right)).
  destruct (done p) eqn:E; [lia|]. pose proof (H p ltac:(by left) E). lia.
Qed.

Lemma todo_elem P p :
  (forall q, q ∈ P -> done q = false -> 0 <= tval (remain q)) ->
  p ∈ P -> done p = false -> tval (remain p) <= todo P.
Proof.
  intros Hall Hp Hd. apply list_elem_of_split in Hp as (l1 & l2 & ->).
  assert (E : todo (l1 ++ p :: l2) = todo l1 + tval (remain p) + todo l2).
  { unfold todo. rewrite foldr_app. cbn [foldr]. rewrite Hd. clear.
    induction l1; cbn [foldr]; lia. }
  pose proof (todo_pos l1 ltac:(intros q Hq; apply Hall; set_solver)).
  pose proof (todo_pos l2 ltac:(intros q Hq; apply Hall; set_solver)). lia.
Qed.

Lemma rsim_ok_init P0 : table_ok P0 -> in_span P0 0 -> rsim_ok P0 0 0 zero (MkSim P0 [] 0).
Proof.
  intros Ht (_ & _ & Hb). destruct zero_val as [Hz Ez].
  assert (Hr : forall p, p ∈ P0 -> fits (remain p) /\ tval (remain p) = burst p * msec /\ done p = false).
  { intros p Hp. rewrite (to_new _ Ht p Hp). cbn [new_proc remain burst done].
    pose proof (all_bursts_le P0 p Ht Hp). pose proof (to_pos _ Ht p Hp).
    destruct (fits_int (burst p)); [lia|done]. }
  split; cbn [segs procs segcap]; [rewrite Ez; constructor|unfold room_ok; cbn; lia|done|done| |].
  - apply Forall_Forall2_diag, Forall_forall. intros p Hp. destruct (Hr p Hp) as (Hf & Ev & Hd).
    pose proof (to_pos _ Ht p Hp) as (_ & _ & Hpos).
    assert (Hst : started p = false) by (by rewrite (to_new _ Ht p Hp)).
    pose proof err_pos. destruct fits_eps as (_ & He & He').
    split; rewrite ?Hd, ?Hst, ?Ev; try done.
    + unfold cpu_time. cbn. lia.
    + intros _. destruct (decide (burst p = 0)) as [->|]; [left|right]; nia.
  - rewrite Ez. assert (Et : todo P0 = all_bursts P0 * msec).
    { clear Ht Hb. unfold todo, all_bursts. induction P0 as [|p P0 IH]; [done|]. cbn [foldr].
      destruct (Hr p ltac:(by left)) as (_ & -> & ->). rewrite IH; [lia|]. intros q Hq. apply Hr. by right. }
    assert (0 <= last_arrival P0 * msec); [|rewrite Et; lia].
    apply Z.mul_nonneg_nonneg; [|pose proof msec_pos; lia]. unfold last_arrival. clear.
    induction P0; cbn [foldr]; lia.
Qed.

(** Time passes for others. *)
Lemma rproc_ok_wait k k' t t' l l' p0 p :
  rproc_ok k t l p0 p -> k <= k' -> t <= t' -> runs l' (pid p) = runs l (pid p) ->
  rproc_ok k' t' l' p0 p.
Proof.
  intros [Hk Hf Ht Hl Hs Hd Hr] Hkk Hle E. pose proof err_pos. split; rewrite ?E; try done.
  - unfold cpu_time in *. rewrite E. nia.
  - intros H1. destruct (Hs H1) as (? & ? & ?). split_and!; [done|lia|done].
  - intros H1. destruct (Hd H1) as (? & ? & ? & ?). split_and!; [done|done|lia|lia|done].
Qed.

Section table.
Context {P0 : list (Proc T)} (Ht : table_ok P0).

Lemma rsim_ok_slack k b b' now s : rsim_ok P0 k b now s -> b <= b' -> rsim_ok P0 k b' now s.
Proof. intros [H1 H2 H3 H4 H5 H6] Hb. split; try done. lia. Qed.

Context {k b : Z} {now : T} {s : Sim T} (Hs : rsim_ok P0 k b now s).

Lemma rproc_input i p : procs s !! i = Some p ->
  exists p0, P0 !! i = Some p0 /\ rproc_ok k (tval now) (segs s) p0 p /\
    0 <= pid p /\ 0 <= arrival p <= last_arrival P0 /\ 0 <= burst p <= all_bursts P0.
Proof.
  intros Hi. destruct (Forall2_lookup_r _ _ _ _ _ (rs_procs _ _ _ _ _ Hs) Hi) as (p0 & H0 & Hok).
  exists p0. pose proof (list_elem_of_lookup_2 _ _ _ H0) as Hin.
  destruct (rp_key _ _ _ _ _ Hok) as (Ep & Ea & Eb). destruct (to_pos _ Ht p0 Hin) as (? & ? & ?).
  pose proof (last_arrival_le P0 p0 Hin). pose proof (all_bursts_le P0 p0 Ht Hin).
  rewrite Ep, Ea, Eb. by split_and!.
Qed.

Lemma rpid_inj i j p q :
  procs s !! i = Some p -> procs s !! j = Some q -> pid p = pid q -> i = j.
Proof.
  intros Hi Hj E. destruct (rproc_input i p Hi) as (p0 & H0 & Hp & _).
  destruct (rproc_input j q Hj) as (q0 & H1 & Hq & _).
  destruct (rp_key _ _ _ _ _ Hp) as (E1 & _), (rp_key _ _ _ _ _ Hq) as (E2 & _).
  eapply (NoDup_lookup (pid <$> P0)); [apply Ht| |].
  - rewrite list_lookup_fmap, H0. simpl. by rewrite <- E1, E.
  - rewrite list_lookup_fmap, H1. simpl. by rewrite <- E2.
Qed.

Lemma left_pos p : p ∈ procs s -> done p = false -> 0 <= tval (remain p).
Proof.
  intros Hp Hd. apply list_elem_of_lookup in Hp as [i Hi].
  destruct (rproc_input i p Hi) as (p0 & _ & Hok & _). pose proof err_pos.
  destruct fits_eps as (_ & ? & _). destruct (rp_left _ _ _ _ _ Hok Hd) as [(_ & _ & ->)|]; lia.
Qed.

(** The present time and one unserved process are in range. *)
Lemma now_bounds : 0 <= tval now <= (last_arrival P0 + all_bursts P0) * msec + b.
Proof.
  pose proof (rs_bound _ _ _ _ _ Hs). pose proof (todo_pos _ left_pos).
  pose proof (timeline_pos _ _ (rs_line _ _ _ _ _ Hs)). lia.
Qed.

Lemma todo_one p : p ∈ procs s -> done p = false ->
  0 <= tval (remain p) /\
  tval now + tval (remain p) <= (last_arrival P0 + all_bursts P0) * msec + b.
Proof.
  intros Hp Hd. split; [by apply left_pos|]. pose proof (rs_bound _ _ _ _ _ Hs).
  pose proof (todo_elem _ p left_pos Hp Hd). lia.
Qed.

(** A segment that belongs to no process, [d] past the time of all arrivals
    at most. *)
Lemma rsim_gap en id d :
  fits en -> tval now <= tval en -> id < 0 -> 0 <= d ->
  tval en <= Z.max (tval now) (last_arrival P0 * msec) + d ->
  exists s', add_seg now en id s = Ok s' /\ procs s' = procs s /\ rsim_ok P0 k (b + d) en s'.
Proof.
  intros Hf Hle Hid Hd Hen. pose proof Hs as [Hl Hr Hn Hk Hp Hb].
  destruct (add_seg_passed now en id s Hl Hr Hn Hf Hle) as (s' & E & Ep & Hl' & Hr' & Hpass).
  exists s'. split; [done|]. split; [done|]. split; [done|done|done|done| |].
  - rewrite Ep. apply Forall2_same_length_lookup. split; [by eapply Forall2_length|].
    intros i p0 p H0 Hi. destruct (rproc_input i p Hi) as (p1 & H1 & Hok & Hpos & _). simplify_eq.
    eapply rproc_ok_wait; [exact Hok|done|done|]. eapply passed_other; [exact Hpass|lia].
  - rewrite Ep. lia.
Qed.

(** The table entry of a process after a slice that ends at [ne] and leaves
    [rem]. *)
Definition sliced (ne rem : T) (p : Proc T) : Proc T :=
  let p3 := MkProc (pid p) (arrival p) (burst p) rem (first_start p) (finish p) (started p) (done p) in
  if tle rem eps then complete ne p3 else p3.

Lemma sliced_key ne rem p : same_key (sliced ne rem (note_start now p)) p.
Proof. unfold sliced, note_start. by destruct (tle rem eps), (started p). Qed.

Lemma sliced_done ne rem p : done p = false ->
  done (sliced ne rem (note_start now p)) = tle rem eps.
Proof. intros Hd. unfold sliced, note_start. by destruct (tle rem eps), (started p). Qed.

(** A slice of the process at index [i], which had arrived: [ne] and [rem]
    are its end and its remaining time up to rounding. *)
Lemma rsim_slice i p ne rem :
  procs s !! i = Some p -> done p = false ->
  arrival p * msec <= tval now + tval eps + err ->
  fits ne -> fits rem -> tval now <= tval ne ->
  (tval eps < tval (remain p) -> tval now < tval ne) ->
  tval ne <= tval now + tval (remain p) + err ->
  Z.abs (tval rem - (tval (remain p) - (tval ne - tval now))) <= 3 * err ->
  let p' := sliced ne rem (note_start now p) in
  exists s1 s2, add_seg now ne (pid p) s = Ok s1 /\ procs s1 = procs s /\
    pset s1 i p' = Ok s2 /\ procs s2 = <[i := p']> (procs s) /\
    rsim_ok P0 (k + 1) (b + 3 * err) ne s2.
Proof.
  intros Hi Hd Ha Hfn Hfr Hle Hlt Hne Hrem p'. pose proof Hs as [Hl Hr Hn Hk Hp Hb].
  destruct (add_seg_passed now ne (pid p) s Hl Hr Hn Hfn Hle) as (s1 & E & Ep & Hl' & Hr' & Hpass).
  exists s1, (MkSim (<[i := p']> (procs s)) (segs s1) (segcap s1)). unfold pset.
  rewrite Ep, aset_lt by (by eapply lookup_lt_Some). split_and!; try done.
  destruct (rproc_input i p Hi) as (p0 & H0 & Hok & _ & _ & Hbur).
  pose proof err_pos as Herr. destruct fits_eps as (Hfe & He1 & He2). destruct zero_val as [Hz Ez].
  pose proof (tle_val rem eps Hfr Hfe) as Etle.
  pose proof (sliced_key ne rem p) as Hkey. pose proof (sliced_done ne rem p Hd) as Hdone. fold p' in Hkey, Hdone.
  pose proof (passed_time _ _ _ _ _ Hpass) as Htime.
  destruct Hok as [Hk0 Hf0 Ht0 Hl0 Hs0 _ Hr0]. rewrite Hd in Ht0. specialize (Hl0 Hd).
  assert (Hlim : tval rem <= tval (remain p) + 3 * err) by lia.
  assert (Hx : 0 < burst p -> tval now < tval ne).
  { intros Hpos. destruct Hl0 as [(_ & ? & _)|?]; [lia|by apply Hlt]. }
  assert (Hfs : started p' = true /\ arrival p * msec <= tval (first_start p') + tval eps + err /\
    tval (first_start p') <= tval now /\
    (0 < burst p -> start <$> head (runs (segs s1) (pid p)) = Some (first_start p'))).
  { replace (first_start p') with (first_start (note_start now p))
      by (unfold p', sliced; by destruct (tle rem eps)).
    replace (started p') with (started (note_start now p)) by (unfold p', sliced; by destruct (tle rem eps)).
    unfold note_start. destruct (started p) eqn:Est; cbn [started first_start].
    - destruct (Hs0 eq_refl) as (? & ? & ?). split_and!; try done. intros Hpos.
      eapply passed_first; [exact Hpass|auto].
    - destruct (Hr0 eq_refl) as [_ Er]. split_and!; try done. intros Hpos.
      by rewrite (passed_new _ _ _ _ _ Hpass Er (Hx Hpos)). }
  destruct Hfs as (Fst & Fa & Fn & Fh). destruct Hkey as (Kp & Ka & Kb).
  assert (Hrm : fits (remain p') /\ tval (remain p') = (if tle rem eps then 0 else tval rem) /\
    (tle rem eps = true -> finish p' = ne)).
  { unfold p', sliced. by destruct (tle rem eps). }
  destruct Hrm as (Hfr' & Erm & Hfin). split; cbn [segs procs segcap]; [done|done|done|lia| |].
  - apply Forall2_same_length_lookup. split; [rewrite length_insert; by eapply Forall2_length|].
    intros j q0 q Hq0 Hj. apply list_lookup_insert_Some in Hj as [(<- & <- & _)|[Hne' Hj]].
    2: { destruct (rproc_input j q Hj) as (q1 & Hq1 & Hokq & _). simplify_eq.
         eapply rproc_ok_wait; [exact Hokq|lia|done|]. eapply passed_other; [exact Hpass|].
         intros E'. apply Hne'. symmetry. by eapply rpid_inj. }
    simplify_eq. destruct Hk0 as (K1 & K2 & K3). split; rewrite ?Kp, ?Ka, ?Kb, ?Hdone, ?Erm; try done.
    + split_and!; congruence.
    + rewrite Htime. destruct (tle rem eps) eqn:Et; [|lia].
      symmetry in Etle. apply Z.leb_le in Etle. lia.
    + intros Et. rewrite Et in Etle. symmetry in Etle. apply Z.leb_gt in Etle. right. by rewrite Et.
    + intros _. split_and!; [done|lia|done].
    + intros Et. rewrite Et, (Hfin Et). split_and!; try done; [lia|].
      intros Hpos. eapply passed_last; [exact Hpass|auto].
    + intros Et. congruence.
  - rewrite (todo_insert _ _ _ _ Hi), Hd, Hdone, Erm. destruct (tle rem eps); lia.
Qed.

(** ** Waiting and switching *)
Context (Hspan : in_span P0 b).

Lemma soon_val : fits (tadd now eps) /\ tval now <= tval (tadd now eps) <= tval now + tval eps + err.
Proof.
  pose proof now_bounds. pose proof err_pos. pose proof msec_pos. destruct fits_eps as (Hfe & ? & ?).
  destruct Hspan as (Hsp & _ & _). pose proof (rs_fits _ _ _ _ _ Hs) as Hf.
  destruct (fits_add now eps Hf Hfe) as [? ?]; [lia|].
  pose proof (add_above now eps Hf Hfe). split; [done|]. lia.
Qed.

Lemma arrival_val p : p ∈ procs s ->
  fits (of_int (arrival p)) /\ tval (of_int (arrival p)) = arrival p * msec /\
  0 <= arrival p * msec <= last_arrival P0 * msec.
Proof.
  intros Hp. apply list_elem_of_lookup in Hp as [i Hi]. destruct (rproc_input i p Hi) as (_ & _ & _ & _ & Ha & _).
  destruct Hspan as (_ & Hl & _). destruct (fits_int (arrival p)) as [? ?]; [lia|].
  pose proof msec_pos. split_and!; try done; [lia|]. apply Z.mul_le_mono_nonneg_r; lia.
Qed.

Lemma ready_val p : p ∈ procs s ->
  ready now p = true <-> done p = false /\ arrival p * msec <= tval (tadd now eps).
Proof.
  intros Hp. destruct (arrival_val p Hp) as (Hf & E & _). unfold ready.
  rewrite andb_true_iff, negb_true_iff, tle_val, E, Z.leb_le by (done || apply soon_val). done.
Qed.

Lemma later_val p : p ∈ procs s ->
  later now p = true <-> done p = false /\ tval (tadd now eps) < arrival p * msec.
Proof.
  intros Hp. destruct (arrival_val p Hp) as (Hf & E & _). unfold later.
  rewrite andb_true_iff, negb_true_iff, tlt_val, E, Z.ltb_lt by (done || apply soon_val). done.
Qed.

Lemma ridle_until :
  (idle_until now s = Ok None /\ forall q, q ∈ procs s -> later now q = false) \/
  exists q s', idle_until now s = Ok (Some (of_int (arrival q), s')) /\ procs s' = procs s /\
    q ∈ procs s /\ done q = false /\ tval now < arrival q * msec /\
    rsim_ok P0 k b (of_int (arrival q)) s'.
Proof.
  unfold idle_until. destruct (next_arrival_after now (procs s)) as [i|] eqn:En.
  2: { left. split; [done|]. by apply search_None in En as [_ En]. }
  right. apply search_sound in En as (q & Hi & Hl). pose proof (list_elem_of_lookup_2 _ _ _ Hi) as Hq.
  apply later_val in Hl as [Hd Hlt]; [|done]. destruct (arrival_val q Hq) as (Hf & E & Ha).
  pose proof soon_val as (_ & ? & _). unfold pget. rewrite (aget_lookup _ _ _ Hi). cbn [mbind run_bind].
  destruct (rsim_gap (of_int (arrival q)) PID_IDLE 0) as (s' & -> & Ep & Hs'); try done; [lia|lia|].
  cbn [mbind run_bind]. rewrite Z.add_0_r in Hs'. exists q, s'. split_and!; try done. lia.
Qed.

Lemma rwait_ready :
  all_done (procs s) = false ->
  exists now' s', wait_ready now s = Ok (Some (now', s')) /\ procs s' = procs s /\
    rsim_ok P0 k b now' s' /\ tval now <= tval now' /\
    (now' = now \/ exists q, q ∈ procs s /\ done q = false /\ now' = of_int (arrival q)) /\
    (now' = now -> any_ready now (procs s) = true).
Proof.
  intros Hnd. unfold wait_ready. destruct (any_ready now (procs s)) eqn:Ea.
  { exists now, s. split_and!; try done. by left. }
  destruct ridle_until as [[_ Hno]|(q & s' & -> & Ep & Hq & Hd & Hlt & Hs')].
  - exfalso. apply not_all_done in Hnd as (q & Hq & Hd). unfold any_ready in Ea.
    apply not_true_iff_false in Ea. apply Ea, existsb_exists. exists q.
    split; [by apply list_elem_of_In|]. apply (ready_val q Hq). split; [done|].
    specialize (Hno q Hq). apply not_true_iff_false in Hno. rewrite (later_val q Hq) in Hno.
    apply Z.nlt_ge. intros Hlt. by apply Hno.
  - destruct (arrival_val q Hq) as (_ & E & _). exists (of_int (arrival q)), s'. split_and!; try done; [lia|eauto|].
    intros E'. rewrite E' in E. lia.
Qed.

Lemma rcontext_switch :
  exists s', context_switch now s = Ok (tadd now cs_overhead, s') /\ procs s' = procs s /\
    tval now <= tval (tadd now cs_overhead) /\
    rsim_ok P0 k (b + (tval cs_overhead + err)) (tadd now cs_overhead) s'.
Proof.
  unfold context_switch. pose proof now_bounds. pose proof err_pos. destruct fits_cs as (Hfc & ? & ?).
  destruct Hspan as (Hsp & _ & _). pose proof (rs_fits _ _ _ _ _ Hs) as Hf. pose proof msec_pos.
  destruct (fits_add now cs_overhead Hf Hfc) as [? ?]; [lia|].
  pose proof (add_above now cs_overhead Hf Hfc).
  destruct (rsim_gap (tadd now cs_overhead) PID_CS (tval cs_overhead + err)) as (s' & -> & Ep & Hs');
    try done; try lia. cbn [mbind run_bind]. exists s'. split_and!; try done. lia.
Qed.
End table.

(** The processes still to arrive. *)
Definition coming (t : Z) (P : list (Proc T)) : nat :=
  length (filter (fun p => done p = false /\ t < arrival p * msec) P).

Lemma filter_count_mono {A} (P Q : A -> Prop) `{!forall x, Decision (P x), !forall x, Decision (Q x)}
    (l : list A) :
  (forall x, Q x -> P x) -> (length (filter Q l) <= length (filter P l))%nat.
Proof.
  intros Himp. induction l as [|x l IH]; [done|]. rewrite !filter_cons.
  destruct (decide (Q x)) as [HQ|], (decide (P x)) as [|HP]; simpl; try lia. by destruct HP; apply Himp.
Qed.

Lemma coming_mono t t' P : t <= t' -> (coming t' P <= coming t P)%nat.
Proof. intros H. apply filter_count_mono. intros p [? ?]. split; [done|lia]. Qed.

Lemma coming_drop t P p : p ∈ P -> done p = false -> t < arrival p * msec ->
  (coming (arrival p * msec) P < coming t P)%nat.
Proof.
  intros Hp Hd Hlt. apply list_elem_of_split in Hp as (l1 & l2 & ->). unfold coming.
  rewrite !filter_app, !filter_cons, !length_app.
  assert (Hle : t <= arrival p * msec) by lia.
  pose proof (coming_mono t _ l1 Hle). pose proof (coming_mono t _ l2 Hle). unfold coming in *.
  repeat case_decide; cbn [length]; try lia. naive_solver.
Qed.

Lemma coming_insert t P k p p' : P !! k = Some p -> arrival p' = arrival p -> done p = false ->
  (coming t (<[k := p']> P) <= coming t P)%nat.
Proof.
  intros Hk Ea Hd. unfold coming. rewrite insert_take_drop by (by eapply lookup_lt_Some).
  rewrite <- (take_drop_middle P k p Hk) at 3. rewrite !filter_app, !length_app, !filter_cons, Ea, Hd.
  repeat case_decide; simpl; lia.
Qed.

Lemma coming_le t P : (coming t P <= length P)%nat.
Proof. apply length_filter. Qed.
End rounded.
