(* ===== verification/CpuDouble.v ===== *)
(** * SRTF and round robin with the doubles of the code

    The preemptive simulations against the interface [Rounded], and the
    instance of binary64 for times below 2^22 ms.  SRTF ends with a complete
    schedule in which each process gets its burst up to the tolerance of the
    code; round robin reports the first start and the last end of each process;
    beyond the range, where 1e-9 is lost to rounding, SRTF can run for ever. *)

From Stdlib Require Import ZArith Lia SpecFloat QArith_base String.
From stdpp Require Import base numbers list option strings sets.
From S2P Require Import Prelude CText B64Facts CpuSched CpuFacts CpuRound CpuPolicy CpuRR.

Local Open Scope Z_scope.

(** ** Selection *)
Section selection.
Context {T : Type} (ok : Proc T -> bool) (better : Proc T -> Proc T -> bool) (v : Proc T -> Z) (d : Z).

(** A search whose comparison is off by at most [d] at each replacement. *)
Lemma search_near all pre l best :
  all = pre ++ l -> 0 <= d ->
  (forall x y, x ∈ all -> y ∈ all -> ok x = true -> ok y = true ->
    (better x y = true -> v x <= v y + d) /\ (better x y = false -> v y <= v x)) ->
  match best with
  | None => forall q, q ∈ pre -> ok q = false
  | Some (i, p) => all !! i = Some p /\ ok p = true /\
      forall q, q ∈ pre -> ok q = true -> v p <= v q + d * Z.of_nat (length pre)
  end ->
  match search ok better l (length pre) best with
  | None => forall q, q ∈ all -> ok q = false
  | Some i => exists p, all !! i = Some p /\ ok p = true /\
      forall q, q ∈ all -> ok q = true -> v p <= v q + d * Z.of_nat (length all)
  end.
Proof.
  intros Hall Hd Hb. revert pre best Hall. induction l as [|x l IH]; intros pre best Hall Hinv; cbn [search].
  { rewrite app_nil_r in Hall. subst pre. destruct best as [[i p]|]; cbn [fmap option_fmap option_map fst]; eauto. }
  replace (S (length pre)) with (length (pre ++ [x])) by (rewrite length_app; simpl; lia).
  apply IH; [by rewrite <- app_assoc|].
  assert (Hx : x ∈ all) by (rewrite Hall; set_solver).
  assert (Hlx : all !! length pre = Some x) by (rewrite Hall; by rewrite list_lookup_middle).
  assert (Hlen : Z.of_nat (length (pre ++ [x])) = Z.of_nat (length pre) + 1) by (rewrite length_app; simpl; lia).
  destruct (ok x) eqn:Eok; [destruct best as [[i b]|]|].
  - destruct Hinv as (Hi & Hokb & Hmin). pose proof (list_elem_of_lookup_2 _ _ _ Hi) as Hbin.
    destruct (Hb x b Hx Hbin Eok Hokb) as [Ht Hf].
    destruct (better x b); (split_and!; [done|done|]); rewrite Hlen;
      intros q [Hq| ->%list_elem_of_singleton]%elem_of_app Hoq; [|nia| |].
    + specialize (Hmin q Hq Hoq). specialize (Ht eq_refl). lia.
    + specialize (Hmin q Hq Hoq). lia.
    + specialize (Hf eq_refl). nia.
  - split_and!; [done|done|]. intros q [Hq| ->%list_elem_of_singleton]%elem_of_app Hoq; [|nia].
    by rewrite (Hinv q Hq) in Hoq.
  - destruct best as [[i b]|].
    + destruct Hinv as (Hi & Hokb & Hmin). split_and!; [done|done|].
      intros q [Hq| ->%list_elem_of_singleton]%elem_of_app Hoq; [|congruence].
      specialize (Hmin q Hq Hoq). rewrite Hlen. lia.
    + intros q [Hq| ->%list_elem_of_singleton]%elem_of_app; [by apply Hinv|done].
Qed.
End selection.

Section shortest.
Context {T R : Type} {ops : TimeOps T R} {RT : Rounded ops}.

Lemma pick_near (now : T) (P : list (Proc T)) :
  (forall p, p ∈ P -> ready now p = true -> fits (remain p) /\ 0 <= tval (remain p) < span * msec) ->
  match pick_SRTF now P with
  | None => forall q, q ∈ P -> ready now q = false
  | Some i => exists p, P !! i = Some p /\ ready now p = true /\
      forall q, q ∈ P -> ready now q = true ->
        tval (remain p) <= tval (remain q) + (tval eps + err) * Z.of_nat (length P)
  end.
Proof.
  intros Hr. pose proof err_pos. destruct fits_eps as (Hfe & ? & _).
  apply (search_near (ready now) srtf_better (fun p => tval (remain p)) (tval eps + err) P [] P None);
    [done|lia| |by intros q ?%not_elem_of_nil].
  intros x y Hx Hy Hox Hoy. destruct (Hr x Hx Hox) as [Fx Vx], (Hr y Hy Hoy) as [Fy Vy].
  unfold srtf_better. destruct (fits_sub (remain x) (remain y) Fx Fy) as [Fs Vs]; [lia|].
  destruct (fits_abs _ Fs) as [Fa Va]. rewrite !tlt_val, Va by done.
  destruct (Z.ltb_spec (tval (remain x)) (tval (remain y))); cbn [orb]; [split; [lia|done]|].
  destruct (Z.ltb_spec (Z.abs (tval (tsub (remain x) (remain y)))) (tval eps)); cbn [andb]; split; try done; lia.
Qed.
End shortest.

(** ** SRTF *)
Section srtf.
Context {T R : Type} {ops : TimeOps T R} {RT : Rounded ops}.
Context {P0 : list (Proc T)} (Ht : table_ok P0).
Implicit Types (p q : Proc T) (s : Sim T) (now : T).

Lemma in_span_le b b' : in_span P0 b' -> b <= b' -> in_span P0 b.
Proof. unfold in_span. intuition lia. Qed.

(** The running process has been started. *)
Definition running_ok (running : Z) (P : list (Proc T)) : Prop :=
  running <> PID_IDLE -> forall p, p ∈ P -> pid p = running -> started p = true.

(** The switch to the chosen process, where another one ran. *)
Lemma srtf_switch k b now running i p s :
  rsim_ok P0 k b now s -> in_span P0 b -> running_ok running (procs s) -> procs s !! i = Some p ->
  exists now2 s2,
    (if decide (running <> pid p)
     then '(now, s) ← (if decide (running <> PID_IDLE) then context_switch now s else Ok (now, s));
          Ok (now, note_start now p, s)
     else Ok (now, p, s)) = Ok (now2, note_start now2 p, s2) /\
    rsim_ok P0 k (b + (tval cs_overhead + err)) now2 s2 /\ procs s2 = procs s /\ tval now <= tval now2.
Proof.
  intros Hs Hsp Hrun Hi. pose proof err_pos. destruct fits_cs as (_ & ? & _).
  destruct (decide (running <> pid p)) as [Hne|He]; [destruct (decide (running <> PID_IDLE))|].
  - destruct (rcontext_switch Ht Hs Hsp) as (s2 & -> & Ep & Hle & Hs2).
    eexists _, _. split_and!; [reflexivity|done|done|done].
  - eexists _, _. split_and!; [reflexivity| |done|lia]. eapply rsim_ok_slack; [exact Hs|lia].
  - assert (running = pid p) as -> by (destruct (decide (running = pid p)); [done|by destruct He]).
    destruct (rproc_input Ht Hs i p Hi) as (_ & _ & _ & Hpos & _).
    assert (Hst : started p = true).
    { apply Hrun; [unfold PID_IDLE; lia|by eapply list_elem_of_lookup_2|done]. }
    exists now, s. unfold note_start. rewrite Hst. split_and!; [done| |done|lia].
    eapply rsim_ok_slack; [exact Hs|lia].
Qed.

(** The next event: the end of the process, or an arrival before it. *)
Lemma srtf_event k b now s i p :
  rsim_ok P0 k b now s -> in_span P0 b -> procs s !! i = Some p -> done p = false ->
  exists ne, match next_arrival_after now (procs s) with
      | None => Ok (tadd now (remain p))
      | nx => q ← pget s nx; Ok (tmin (tadd now (remain p)) (of_int (arrival q)))
      end = Ok ne /\ fits ne /\ tval now <= tval ne <= tval now + tval (remain p) + err /\
    (tval eps < tval (remain p) -> tval now < tval ne) /\
    (tval now + tval (remain p) - err <= tval ne \/
     exists q, q ∈ procs s /\ done q = false /\ tval now < arrival q * msec /\ tval ne = arrival q * msec).
Proof.
  intros Hs Hsp Hi Hd. pose proof err_pos. destruct fits_eps as (_ & ? & ?).
  destruct (rproc_input Ht Hs i p Hi) as (p0 & _ & Hok & _).
  pose proof (rs_fits _ _ _ _ _ Hs) as Hf. pose proof (rp_fits _ _ _ _ _ Hok) as Hfr.
  destruct (todo_one Ht Hs p (list_elem_of_lookup_2 _ _ _ Hi) Hd) as [Hr Hb].
  pose proof (now_bounds Ht Hs). pose proof msec_pos. pose proof Hsp as (Hsp1 & _ & _).
  destruct (fits_add now (remain p) Hf Hfr) as [Hfa Ha]; [lia|].
  pose proof (add_above now (remain p) Hf Hfr) as Hup.
  destruct (next_arrival_after now (procs s)) as [j|] eqn:En.
  2: { eexists. split; [reflexivity|]. split; [done|]. split; [lia|]. split; [lia|]. left. lia. }
  apply search_sound in En as (q & Hj & Hl). pose proof (list_elem_of_lookup_2 _ _ _ Hj) as Hq.
  apply (later_val Ht Hs Hsp) in Hl as [Hdq Hlt]; [|done].
  destruct (arrival_val Ht Hs Hsp q Hq) as (Hfq & Eq & _). pose proof (soon_val Ht Hs Hsp) as (_ & ? & _).
  unfold pget. rewrite (aget_lookup _ _ _ Hj). cbn [mbind run_bind]. eexists. split; [reflexivity|].
  destruct (tmin_val _ _ Hfa Hfq) as [[-> Hm]|[-> Hm]].
  - split; [done|]. split; [lia|]. split; [lia|]. left. lia.
  - split; [done|]. split; [lia|]. split; [lia|]. right. exists q. split_and!; try done. lia.
Qed.

(** What is left when the process ran until [ne]. *)
Lemma left_val k b now s i p ne :
  rsim_ok P0 k b now s -> in_span P0 b -> procs s !! i = Some p -> done p = false ->
  fits ne -> tval now <= tval ne <= tval now + tval (remain p) + err ->
  fits (tsub (remain p) (tsub ne now)) /\
  Z.abs (tval (tsub (remain p) (tsub ne now)) - (tval (remain p) - (tval ne - tval now))) <= 2 * err.
Proof.
  intros Hs (Hsp & _ & _) Hi Hd Hfn Hne. pose proof err_pos. destruct fits_eps as (_ & ? & ?).
  destruct (rproc_input Ht Hs i p Hi) as (p0 & _ & Hok & _).
  pose proof (rs_fits _ _ _ _ _ Hs) as Hf. pose proof (rp_fits _ _ _ _ _ Hok) as Hfr.
  destruct (todo_one Ht Hs p (list_elem_of_lookup_2 _ _ _ Hi) Hd) as [Hr Hb].
  pose proof (now_bounds Ht Hs). pose proof msec_pos.
  destruct (fits_sub ne now Hfn Hf) as [Hfs Hd']; [lia|].
  destruct (fits_sub (remain p) (tsub ne now) Hfr Hfs) as [? ?]; [lia|]. split; [done|lia].
Qed.

Lemma rsrtf_run k b now running i p s :
  rsim_ok P0 k b now s -> in_span P0 (b + msec) -> running_ok running (procs s) ->
  procs s !! i = Some p -> done p = false -> arrival p * msec <= tval now + tval eps + err ->
  exists now' running' s', srtf_run now running i p s = Ok (now', running', s') /\
    rsim_ok P0 (k + 1) (b + msec) now' s' /\ running_ok running' (procs s') /\
    (undone (procs s') + coming (tval now') (procs s') < undone (procs s) + coming (tval now) (procs s))%nat.
Proof.
  intros Hs Hsp Hrun Hi Hd Ha. unfold srtf_run. pose proof err_pos. destruct fits_cs as (_ & ? & Hcs).
  pose proof msec_pos. destruct fits_eps as (Hfe & ? & ?).
  destruct (srtf_switch k b now running i p s Hs ltac:(eapply in_span_le; [exact Hsp|lia]) Hrun Hi)
    as (now2 & s2 & -> & Hs2 & Ep & Hle). cbn [mbind run_bind].
  assert (Hsp2 : in_span P0 (b + (tval cs_overhead + err))) by (eapply in_span_le; [exact Hsp|lia]).
  rewrite <- Ep in Hi. rewrite <- Ep.
  assert (Hrm : remain (note_start now2 p) = remain p) by (unfold note_start; by destruct (started p)).
  assert (Hpid : pid (note_start now2 p) = pid p) by (unfold note_start; by destruct (started p)).
  rewrite Hrm, Hpid.
  destruct (srtf_event _ _ now2 s2 i p Hs2 Hsp2 Hi Hd) as (ne & -> & Hfn & Hne & Hpos & Hev).
  cbn [mbind run_bind]. destruct (left_val _ _ now2 s2 i p ne Hs2 Hsp2 Hi Hd Hfn Hne) as [Hfl Hleft].
  destruct (rsim_slice Ht Hs2 i p ne (tsub (remain p) (tsub ne now2)) Hi Hd)
    as (s3 & s4 & -> & Ep3 & E4 & Ep4 & Hs4); try done; try lia.
  cbn [mbind run_bind remain]. set (rem := tsub (remain p) (tsub ne now2)) in *.
  pose proof (sliced_key (now := now2) ne rem p) as (Kp & Ka & _).
  pose proof (sliced_done (now := now2) ne rem p Hd) as Kd.
  pose proof (coming_insert (tval ne) _ _ _ _ Hi Ka Hd) as Hci.
  assert (Hnn : tval now <= tval ne) by lia. pose proof (coming_mono _ _ (procs s2) Hnn) as Hcm.
  assert (Hfin : rsim_ok P0 (k + 1) (b + msec) ne s4) by (eapply rsim_ok_slack; [exact Hs4|lia]).
  destruct (tle rem eps) eqn:Et.
  - assert (E4' : pset s3 i (complete ne (MkProc (pid (note_start now2 p)) (arrival (note_start now2 p))
        (burst (note_start now2 p)) rem (first_start (note_start now2 p)) (finish (note_start now2 p))
        (started (note_start now2 p)) (done (note_start now2 p)))) = Ok s4).
    { unfold sliced in E4. by rewrite Et in E4. }
    rewrite Hpid in E4'. rewrite E4'. cbn [mbind run_bind]. eexists _, _, s4. split; [done|].
    split; [done|]. split; [by intros []|]. rewrite Ep4.
    pose proof (undone_finish _ _ _ _ Hi Hd Kd). lia.
  - assert (E4' : pset s3 i (MkProc (pid (note_start now2 p)) (arrival (note_start now2 p))
        (burst (note_start now2 p)) rem (first_start (note_start now2 p)) (finish (note_start now2 p))
        (started (note_start now2 p)) (done (note_start now2 p))) = Ok s4).
    { unfold sliced in E4. by rewrite Et in E4. }
    rewrite Hpid in E4'. rewrite E4'. cbn [mbind run_bind]. eexists _, _, s4. split; [done|].
    split; [done|]. rewrite Ep4. split.
    + intros _ q Hq Eq. apply list_elem_of_lookup in Hq as [j Hq].
      apply list_lookup_insert_Some in Hq as [(<- & <- & _)|[Hne' Hq]].
      * unfold sliced, note_start. rewrite Et. by destruct (started p) eqn:Est; cbn [started]; rewrite ?Est.
      * destruct Hne'. eapply (rpid_inj Ht Hs2); [exact Hi|exact Hq|by rewrite Eq].
    + pose proof (undone_keep _ _ _ _ Hi Hd Kd). rewrite tle_val in Et by done. apply Z.leb_gt in Et.
      destruct Hev as [Hend|(q & Hq & Hdq & Hlt & Eq)]; [lia|].
      pose proof (coming_drop (tval now2) _ q Hq Hdq Hlt) as Hdr. rewrite <- Eq in Hdr.
      pose proof (coming_mono (tval now) (tval now2) (procs s2) Hle). lia.
Qed.

(** One round of the loop. *)
Definition srtf_round (now : T) (running : Z) (s : Sim T) : run (T * Z * Sim T) :=
  w ← wait_ready now s;
  match w with
  | None => Undef
  | Some (now, s) =>
      match pick_SRTF now (procs s) with
      | None => Undef
      | Some i => p ← aget (procs s) i; srtf_run now running i p s
      end
  end.

Lemma srtf_loop_round fuel now running s now' running' s' :
  all_done (procs s) = false -> srtf_round now running s = Ok (now', running', s') ->
  srtf_loop (S fuel) now running s = srtf_loop fuel now' running' s'.
Proof.
  intros Hd. unfold srtf_round. cbn [srtf_loop]. rewrite Hd.
  destruct (wait_ready now s) as [[[now1 s1]|]| |]; cbn [mbind run_bind]; try done.
  destruct (pick_SRTF now1 (procs s1)) as [i|]; [|done].
  destruct (aget (procs s1) i) as [p| |]; cbn [mbind run_bind]; try done. by intros ->.
Qed.

(** The process a round runs has the shortest remaining time of those that are
    ready, up to [tol]. *)
Definition runs_shortest (tol : Z) (now : T) (s : Sim T) : Prop :=
  exists now1 s1 i p, wait_ready now s = Ok (Some (now1, s1)) /\
    pick_SRTF now1 (procs s1) = Some i /\ procs s1 !! i = Some p /\ ready now1 p = true /\
    forall q, q ∈ procs s1 -> ready now1 q = true -> tval (remain p) <= tval (remain q) + tol.

Lemma rsrtf_round k b now running s :
  rsim_ok P0 k b now s -> running_ok running (procs s) -> all_done (procs s) = false ->
  in_span P0 (b + msec) ->
  runs_shortest ((tval eps + err) * Z.of_nat (length P0)) now s /\
  exists now' running' s', srtf_round now running s = Ok (now', running', s') /\
    rsim_ok P0 (k + 1) (b + msec) now' s' /\ running_ok running' (procs s') /\
    (undone (procs s') + coming (tval now') (procs s') < undone (procs s) + coming (tval now) (procs s))%nat.
Proof.
  intros Hs Hrun Ed Hsp. pose proof msec_pos as Hm. unfold srtf_round, runs_shortest.
  assert (Hsp0 : in_span P0 b) by (eapply in_span_le; [exact Hsp|lia]).
  destruct (rwait_ready Ht Hs Hsp0 Ed) as (now1 & s1 & -> & Ep1 & Hs1 & Hle & Hwhich & Hany).
  cbn [mbind run_bind]. rewrite <- Ep1 in Hrun, Hwhich, Hany |- *.
  assert (Hr : exists q, q ∈ procs s1 /\ ready now1 q = true).
  { destruct Hwhich as [->|(q & Hq & Hdq & ->)].
    - specialize (Hany eq_refl). apply existsb_exists in Hany as (q & Hq & Hr). exists q.
      by rewrite list_elem_of_In.
    - exists q. split; [done|]. apply (ready_val Ht Hs1 Hsp0 q Hq). split; [done|].
      destruct (arrival_val Ht Hs1 Hsp0 q Hq) as (_ & E & _). rewrite <- E.
      apply (soon_val Ht Hs1 Hsp0). }
  pose proof (coming_mono (tval now) (tval now1) (procs s1) Hle).
  pose proof (pick_near now1 (procs s1)) as Hpick.
  destruct (pick_SRTF now1 (procs s1)) as [i|] eqn:Ei.
  2: { exfalso. apply search_None in Ei as [_ Hno]. destruct Hr as (q & Hq & Hr). by rewrite Hno in Hr. }
  destruct Hpick as (p & Hi & Hrp & Hmin).
  { intros p Hp Hrp. apply (ready_val Ht Hs1 Hsp0) in Hrp as [Hd _]; [|done].
    pose proof (todo_one Ht Hs1 p Hp Hd) as [? ?]. pose proof (now_bounds Ht Hs1). destruct Hsp0 as (? & _ & _).
    apply list_elem_of_lookup in Hp as [j Hj]. destruct (rproc_input Ht Hs1 j p Hj) as (p0 & _ & Hok & _).
    split; [apply Hok|lia]. }
  rewrite (aget_lookup _ _ _ Hi). cbn [mbind run_bind].
  rewrite <- (Forall2_length _ _ _ (rs_procs _ _ _ _ _ Hs1)) in Hmin.
  split; [exists now1, s1, i, p; by split_and!|].
  apply (ready_val Ht Hs1 Hsp0) in Hrp as [Hd Ha]; [|by eapply list_elem_of_lookup_2].
  pose proof (soon_val Ht Hs1 Hsp0) as (_ & _ & ?).
  destruct (rsrtf_run k b now1 running i p s1 Hs1 Hsp Hrun Hi Hd)
    as (now2 & running2 & s2 & -> & Hs2 & Hrun2 & Hmeas); [lia|].
  exists now2, running2, s2. split_and!; [done|done|done|lia].
Qed.

Lemma rsrtf_loop fuel k b now running s :
  rsim_ok P0 k b now s -> running_ok running (procs s) ->
  (undone (procs s) + coming (tval now) (procs s) < fuel)%nat -> in_span P0 (b + Z.of_nat fuel * msec) ->
  exists now' s' k' b', srtf_loop fuel now running s = Ok (now', s') /\ rsim_ok P0 k' b' now' s' /\
    k' < k + Z.of_nat fuel /\ all_done (procs s') = true.
Proof.
  revert k b now running s. induction fuel as [|fuel IH]; intros k b now running s Hs Hrun Hf Hsp; [lia|].
  pose proof msec_pos as Hm. rewrite Nat2Z.inj_succ in *. destruct (all_done (procs s)) eqn:Ed.
  { eexists _, _, k, b. cbn [srtf_loop]. rewrite Ed. split_and!; [done|done|lia|done]. }
  destruct (rsrtf_round k b now running s Hs Hrun Ed) as (_ & now2 & running2 & s2 & E & Hs2 & Hrun2 & Hmeas);
    [eapply in_span_le; [exact Hsp|nia]|].
  rewrite (srtf_loop_round fuel _ _ _ _ _ _ Ed E).
  destruct (IH (k + 1) (b + msec) now2 running2 s2 Hs2 Hrun2) as (now' & s' & k' & b' & -> & Hs' & Hk & Hd');
    [lia|eapply in_span_le; [exact Hsp|lia]|].
  exists now', s', k', b'. split_and!; [done|done|lia|done].
Qed.

(** The states at the head of the loop. *)
Inductive srtf_state : T -> Z -> Sim T -> Prop :=
| srtf_first : srtf_state zero PID_IDLE (MkSim P0 [] 0)
| srtf_next now running s now' running' s' :
    srtf_state now running s -> all_done (procs s) = false ->
    srtf_round now running s = Ok (now', running', s') -> srtf_state now' running' s'.

Lemma srtf_state_ok now running s :
  in_span P0 (Z.of_nat (S (2 * length P0)) * msec) -> srtf_state now running s ->
  exists k b, rsim_ok P0 k b now s /\ running_ok running (procs s) /\
    b + Z.of_nat (undone (procs s) + coming (tval now) (procs s)) * msec <= Z.of_nat (2 * length P0) * msec.
Proof.
  intros Hsp. pose proof msec_pos as Hm. induction 1 as [|now running s now' running' s' _ IH Hd E].
  - exists 0, 0. split; [apply rsim_ok_init; [done|]; eapply in_span_le; [exact Hsp|lia]|].
    split; [by intros []|]. cbn [procs]. pose proof (undone_le P0). pose proof (coming_le (tval zero) P0).
    rewrite Z.add_0_l. apply Z.mul_le_mono_nonneg_r; lia.
  - destruct IH as (k & b & Hs & Hrun & Hb).
    destruct (rsrtf_round k b now running s Hs Hrun Hd) as (_ & now2 & r2 & s2 & E' & Hs2 & Hrun2 & Hmeas).
    { eapply in_span_le; [exact Hsp|]. nia. }
    rewrite E in E'. injection E' as <- <- <-. exists (k + 1), (b + msec). split_and!; [done|done|nia].
Qed.

Lemma srtf_state_shortest now running s :
  in_span P0 (Z.of_nat (S (2 * length P0)) * msec) -> srtf_state now running s ->
  all_done (procs s) = false -> runs_shortest ((tval eps + err) * Z.of_nat (length P0)) now s.
Proof.
  intros Hsp Hst Hd. pose proof msec_pos. destruct (srtf_state_ok now running s Hsp Hst) as (k & b & Hs & Hrun & Hb).
  eapply (rsrtf_round k b now running s Hs Hrun Hd). eapply in_span_le; [exact Hsp|]. nia.
Qed.
End srtf.

(** ** Round robin *)
Section round_robin.
Context {T R : Type} {ops : TimeOps T R} {RT : Rounded ops}.
Context {P0 : list (Proc T)} (Ht : table_ok P0) (tq : Z) (Htq : 0 < tq <= 2 ^ 31).
Implicit Types (p q : Proc T) (s : Sim T) (now : T).

(** Later, more has arrived. *)
Lemma soon_le k b now now' s :
  rsim_ok P0 k b now' s -> in_span P0 b -> fits now -> 0 <= tval now <= tval now' ->
  tval (tadd now eps) <= tval (tadd now' eps).
Proof.
  intros Hs (Hsp & _ & _) Hf Hle. pose proof (now_bounds Ht Hs). destruct fits_eps as (Hfe & ? & ?).
  pose proof (rs_fits _ _ _ _ _ Hs). pose proof err_pos. apply add_le; try done; lia.
Qed.

(** A round: a switch to [now2] where there is one, a slice of the quantum or
    the rest, then the arrivals, then the process itself unless it is done. *)
Lemma round_run_eq k b now prev i p Q s :
  rsim_ok P0 k b now s -> in_span P0 (b + msec) -> procs s !! i = Some p -> done p = false ->
  arrival p * msec <= tval now + tval eps + err ->
  let d := tmin (of_int tq) (remain p) in
  let r := tsub (remain p) d in
  exists now2 s', fits now2 /\ tval now <= tval now2 <= tval (tadd now2 d) /\
    fits (tadd now2 eps) /\ tval (tadd now eps) <= tval (tadd now2 eps) /\
    rr_run tq now prev i p Q s =
      (Q1 ← enqueue_arrivals Q now2 (tadd now2 d) (procs s);
       if tle r eps then Ok (tadd now2 d, Q1, s') else Q2 ← q_push Q1 i; Ok (tadd now2 d, Q2, s')) /\
    rsim_ok P0 (k + 1) (b + msec) (tadd now2 d) s' /\
    procs s' = <[i := sliced (tadd now2 d) r (note_start now2 p)]> (procs s).
Proof.
  intros Hs Hsp Hi Hd Ha d r. unfold rr_run. pose proof err_pos as Herr.
  destruct fits_cs as (_ & Hc0 & Hcs). pose proof msec_pos as Hm. destruct fits_eps as (Hfe & He1 & He2).
  assert (Hsw : exists now2 s2,
    (if decide (prev <> pid p /\ prev <> PID_IDLE) then context_switch now s else Ok (now, s))
      = Ok (now2, s2) /\ rsim_ok P0 k (b + (tval cs_overhead + err)) now2 s2 /\
    procs s2 = procs s /\ tval now <= tval now2).
  { case_decide.
    - destruct (rcontext_switch Ht Hs) as (s2 & -> & Ep & Hle & Hs2); [eapply in_span_le; [exact Hsp|lia]|].
      eexists _, _. split_and!; [done|done|done|lia].
    - eexists _, _. split_and!; [done| |done|lia]. eapply rsim_ok_slack; [exact Hs|lia]. }
  destruct Hsw as (now2 & s2 & -> & Hs2 & Ep & Hle). cbn [mbind run_bind]. rewrite <- Ep in Hi |- *.
  assert (Hsp2 : in_span P0 (b + (tval cs_overhead + err))) by (eapply in_span_le; [exact Hsp|lia]).
  assert (Hrm : remain (note_start now2 p) = remain p) by (unfold note_start; by destruct (started p)).
  assert (Hpid : pid (note_start now2 p) = pid p) by (unfold note_start; by destruct (started p)).
  rewrite Hrm, Hpid. fold d r.
  destruct (rproc_input Ht Hs2 i p Hi) as (p0 & _ & Hok & _).
  pose proof (rs_fits _ _ _ _ _ Hs2) as Hf. pose proof (rp_fits _ _ _ _ _ Hok) as Hfr.
  destruct (todo_one Ht Hs2 p (list_elem_of_lookup_2 _ _ _ Hi) Hd) as [Hr Hb].
  pose proof (now_bounds Ht Hs2) as Hnb. pose proof Hsp2 as (Hsp1 & _ & _).
  destruct (fits_int tq) as [Hft Et]; [lia|].
  assert (Hmin : fits d /\ 0 <= tval d <= tval (remain p) /\ (tval eps < tval (remain p) -> err < tval d)).
  { unfold d. destruct (tmin_val (of_int tq) (remain p) Hft Hfr) as [[-> Hmin]|[-> Hmin]].
    - rewrite Et in *. split; [done|]. nia.
    - split; [done|]. lia. }
  destruct Hmin as (Hfd & Hd1 & Hd2).
  destruct (fits_add now2 d Hf Hfd) as [Hfn Hn]; [lia|]. pose proof (add_above now2 d Hf Hfd) as Hup.
  destruct (fits_sub (remain p) d Hfr Hfd) as [Hfl Hl]; [lia|].
  destruct (rsim_slice Ht Hs2 i p (tadd now2 d) r Hi Hd)
    as (s3 & s4 & E3 & Ep3 & E4 & Ep4 & Hs4); try done; try (unfold r; lia); try lia.
  rewrite E3. cbn [mbind run_bind]. rewrite Ep3. exists now2, s4.
  split_and!; [done|lia|lia|by apply (soon_val Ht Hs2 Hsp2)| | | |done].
  - pose proof (now_bounds Ht Hs). apply (soon_le _ _ _ _ _ Hs2 Hsp2); [apply Hs|lia].
  - destruct (enqueue_arrivals Q now2 (tadd now2 d) (procs s2)) as [Q1| |]; [|done..]. cbn [mbind run_bind remain].
    unfold sliced in E4. rewrite Hpid in E4. destruct (tle r eps); by rewrite E4.
  - eapply rsim_ok_slack; [exact Hs4|lia].
Qed.

(** ** The queue *)
Definition active (Q : Queue) : list nat := drop (qf Q) (qs Q).

(** The rounds a process still needs, by its remaining milliseconds. *)
Definition need (p : Proc T) : Z :=
  if done p then 0 else Z.max 1 ((tval (remain p) / msec + tq - 1) / tq).
Definition needs (P : list (Proc T)) : Z := foldr Z.add 0 (need <$> P).

Lemma need_pos p : 0 <= need p /\ (done p = false -> 1 <= need p).
Proof. unfold need. destruct (done p); lia. Qed.

Lemma needs_insert P i p p' : P !! i = Some p -> needs (<[i := p']> P) = needs P - need p + need p'.
Proof.
  unfold needs. revert i. induction P as [|q P IH]; intros [|i] Hi; simplify_eq/=; [lia|].
  rewrite (IH i Hi). lia.
Qed.

(** The queue holds processes that have arrived and are not done, each once,
    and its array has room for the rounds to come. *)
Record queue_ok (now : T) (Q : Queue) (P : list (Proc T)) : Prop := {
  qo_front : (qf Q <= length (qs Q))%nat;
  qo_nodup : NoDup (active Q);
  qo_in i : i ∈ active Q -> exists p, P !! i = Some p /\ done p = false /\ arrival p * msec <= tval (tadd now eps);
  qo_whole p : p ∈ P -> done p = false -> exists m, 0 <= m <= 2 ^ 31 /\ tval (remain p) = m * msec;
  qo_room : Z.of_nat (qf Q) + needs P <= MAX_TASKS }.

(** A process that is not done and not in the queue has not been started. *)
Definition outside (Q : Queue) (P : list (Proc T)) : Prop :=
  forall i p, P !! i = Some p -> done p = false -> i ∉ active Q -> started p = false /\ 0 < arrival p.

Lemma needs_count P l : NoDup l -> (forall i, i ∈ l -> exists p, P !! i = Some p /\ done p = false) ->
  Z.of_nat (length l) <= needs P.
Proof.
  intros Hd Hl. apply places_count; [done| |].
  - intros n Hn. apply list_elem_of_fmap in Hn as (p & -> & _). apply need_pos.
  - intros i Hi. destruct (Hl i Hi) as (p & Hp & Hdp). exists (need p). rewrite list_lookup_fmap, Hp.
    split; [done|by apply need_pos].
Qed.

(** What passes a test that lets in only processes outside the queue. *)
Lemma hits_room now Q P test :
  queue_ok now Q P ->
  (forall i p, P !! i = Some p -> test p = true -> done p = false /\ i ∉ active Q) ->
  NoDup (active Q ++ hits test P 0) /\ Z.of_nat (length (qs Q) + length (hits test P 0)) <= MAX_TASKS.
Proof.
  intros [Hf Hd Hin _ Hroom] Htest.
  assert (Hh : forall j, j ∈ hits test P 0 -> exists p, P !! j = Some p /\ done p = false /\ j ∉ active Q).
  { intros j Hj. apply elem_hits in Hj as (n & p & -> & Hn & Hp). exists p. split; [done|by eapply Htest]. }
  assert (Hnd : NoDup (active Q ++ hits test P 0)).
  { apply NoDup_app. split_and!; [done| |apply NoDup_hits]. intros j Hj Hj'. by destruct (Hh j Hj') as (? & _ & _ & ?). }
  split; [done|]. assert (Z.of_nat (length (active Q ++ hits test P 0)) <= needs P).
  { apply needs_count; [done|]. intros j [Hj|Hj]%elem_of_app.
    - destruct (Hin j Hj) as (p & ? & ? & _). eauto.
    - destruct (Hh j Hj) as (p & ? & ? & _). eauto. }
  rewrite length_app in *. unfold active in *. rewrite length_drop in *. lia.
Qed.

Lemma active_app Q l : (qf Q <= length (qs Q))%nat -> active (MkQueue (qs Q ++ l) (qf Q)) = active Q ++ l.
Proof. intros H. unfold active. cbn [qs qf]. by rewrite drop_app_le. Qed.

Lemma queue_push now Q P test :
  queue_ok now Q P ->
  (forall i p, P !! i = Some p -> test p = true ->
    done p = false /\ (i ∉ active Q) /\ arrival p * msec <= tval (tadd now eps)) ->
  push_if test P 0 Q = Ok (MkQueue (qs Q ++ hits test P 0) (qf Q)) /\
  queue_ok now (MkQueue (qs Q ++ hits test P 0) (qf Q)) P.
Proof.
  intros HQ Htest. destruct (hits_room now Q P test HQ) as [Hnd Hroom].
  { intros i p Hi Hp. by destruct (Htest i p Hi Hp) as (? & ? & _). }
  split; [by apply push_if_hits|]. destruct HQ as [Hf Hd Hin Hw Hr]. split; rewrite ?active_app by done; try done.
  - cbn [qs qf]. rewrite length_app. lia.
  - intros i [Hi|Hi]%elem_of_app; [by apply Hin|]. apply elem_hits in Hi as (n & p & -> & Hn & Hp).
    destruct (Htest n p Hn Hp) as (? & _ & ?). by exists p.
Qed.

Lemma queue_later now now' Q P :
  queue_ok now Q P -> tval (tadd now eps) <= tval (tadd now' eps) -> queue_ok now' Q P.
Proof.
  intros [Hf Hd Hin Hw Hr] Hle. split; try done. intros i Hi. destruct (Hin i Hi) as (p & ? & ? & ?).
  exists p. split_and!; [done|done|lia].
Qed.

(** A slice of a whole number of milliseconds. *)
Lemma need_slice now2 ne p m :
  done p = false -> fits (remain p) -> 0 <= m <= 2 ^ 31 -> tval (remain p) = m * msec ->
  tval (remain p) < span * msec ->
  let p' := sliced ne (tsub (remain p) (tmin (of_int tq) (remain p))) (note_start now2 p) in
  need p' <= need p - 1 /\ (done p' = false -> exists m', 0 <= m' <= 2 ^ 31 /\ tval (remain p') = m' * msec) /\
  done p' = tle (tsub (remain p) (tmin (of_int tq) (remain p))) eps.
Proof.
  intros Hd Hf Hm Em Hlim p'. pose proof msec_pos as Hms. destruct fits_eps as (Hfe & He1 & He2). pose proof err_pos.
  destruct (fits_int tq) as [Hft Et]; [lia|].
  set (r := tsub (remain p) (tmin (of_int tq) (remain p))) in *.
  assert (Hdone : done p' = tle r eps) by (by apply sliced_done).
  assert (Hr : exists m', 0 <= m' <= m /\ tval r = m' * msec /\ (m' = 0 \/ m' = m - tq)).
  { destruct (tmin_val (of_int tq) (remain p) Hft Hf) as [[E Hle]|[E Hle]].
    - rewrite Et, Em in Hle. apply Z.mul_le_mono_pos_r in Hle; [|done]. exists (m - tq). split; [lia|].
      split; [|by right]. unfold r. rewrite E. apply sub_whole; try done. lia.
    - exists 0. split; [lia|]. split; [|by left]. unfold r. rewrite E, <- (Z.sub_diag m).
      apply sub_whole; try done. lia. }
  destruct Hr as (m' & Hm' & Er & Hcase).
  assert (Hrem : tle r eps = false -> remain p' = r) by (intros E; unfold p', sliced; by rewrite E).
  assert (Hfr : tle r eps = true \/ (tle r eps = false /\ 0 < m')).
  { destruct (fits_sub (remain p) (tmin (of_int tq) (remain p)) Hf) as [Hfr _].
    - by destruct (tmin_val (of_int tq) (remain p) Hft Hf) as [[-> _]|[-> _]].
    - destruct (tmin_val (of_int tq) (remain p) Hft Hf) as [[-> ?]|[-> ?]]; nia.
    - fold r in Hfr. rewrite tle_val, Er by done. destruct (Z.leb_spec (m' * msec) (tval eps)); [by left|right].
      split; [done|]. nia. }
  split_and!; [|intros E; rewrite Hdone in E; rewrite (Hrem E); exists m'; split; [lia|done]|done].
  unfold need at 1. rewrite Hdone. pose proof (proj2 (need_pos p) Hd) as H1. destruct Hfr as [->|[E Hpos]]; [lia|].
  rewrite E, (Hrem E), Er, Z.div_mul by lia. unfold need. rewrite Hd, Em, Z.div_mul by lia.
  destruct Hcase as [->| ->]; [lia|]. replace (m - tq + tq - 1) with (m + tq - 1 + (-1) * tq) by lia.
  rewrite Z.div_add by lia. assert (2 <= (m + tq - 1) / tq) by (apply Z.div_le_lower_bound; lia). lia.
Qed.

(** ** Rounds *)
Lemma queue_full now Q P : queue_ok now Q P -> Z.of_nat (length (qs Q)) <= MAX_TASKS.
Proof.
  intros HQ. destruct (hits_room now Q P (fun _ => false) HQ) as [_ H]; [done|]. lia.
Qed.

(** The queue after a round: the process [i] at its front has run, the
    processes [l] have arrived, and [i] is back unless it is done. *)
Lemma queue_round now now' Q P i p p' l :
  queue_ok now Q P -> outside Q P -> tval (tadd now eps) <= tval (tadd now' eps) ->
  qs Q !! qf Q = Some i -> P !! i = Some p -> arrival p' = arrival p -> need p' <= need p - 1 ->
  (done p' = false -> exists m, 0 <= m <= 2 ^ 31 /\ tval (remain p') = m * msec) ->
  NoDup (active Q ++ l) ->
  (forall j, j ∈ l -> exists q, P !! j = Some q /\ done q = false /\ arrival q * msec <= tval (tadd now' eps)) ->
  let Q' := MkQueue (qs Q ++ l ++ if done p' then [] else [i]) (S (qf Q)) in
  queue_ok now' Q' (<[i := p']> P) /\ outside Q' (<[i := p']> P).
Proof.
  intros [Hf Hd Hin Hw Hr] Hout Hle Hqi Hi Ea Hneed Hw' Hnd Hl Q'.
  pose proof (lookup_lt_Some _ _ _ Hqi) as Hlt.
  assert (Hact : active Q = i :: drop (S (qf Q)) (qs Q)) by (by apply drop_S).
  set (rest := drop (S (qf Q)) (qs Q)) in *. rewrite Hact in Hnd, Hin.
  assert (Hact' : active Q' = rest ++ l ++ if done p' then [] else [i]).
  { unfold active, Q'. cbn [qs qf]. by rewrite drop_app_le by lia. }
  apply NoDup_cons in Hnd as [Hni Hnd].
  assert (Hother : forall j, j ∈ rest ++ l -> exists q, P !! j = Some q /\ done q = false /\ arrival q * msec <= tval (tadd now' eps)).
  { intros j [Hj|Hj]%elem_of_app; [|by apply Hl]. destruct (Hin j ltac:(by right)) as (q & ? & ? & ?).
    exists q. split_and!; [done|done|lia]. }
  assert (Hii : <[i := p']> P !! i = Some p') by (apply list_lookup_insert_eq; by eapply lookup_lt_Some).
  split; [split|]; rewrite ?Hact'.
  - unfold Q'. cbn [qs qf]. rewrite length_app. lia.
  - rewrite app_assoc. apply NoDup_app. split_and!; [done| |by destruct (done p'); auto using NoDup_nil_2, NoDup_singleton].
    intros j Hj Hj'. destruct (done p'); [by apply not_elem_of_nil in Hj'|].
    apply list_elem_of_singleton in Hj' as ->. done.
  - intros j Hj. rewrite app_assoc in Hj. apply elem_of_app in Hj as [Hj|Hj].
    + rewrite list_lookup_insert_ne by (intros ->; done). by apply Hother.
    + destruct (done p') eqn:Edp; [by apply not_elem_of_nil in Hj|]. apply list_elem_of_singleton in Hj as ->.
      exists p'. split_and!; [done|done|]. destruct (Hin i ltac:(by left)) as (q & ? & _ & ?). simplify_eq. lia.
  - intros q Hq Hdq. apply list_elem_of_lookup in Hq as [j Hj].
    apply list_lookup_insert_Some in Hj as [(_ & <- & _)|[_ Hj]]; [by apply Hw'|]. by eapply Hw; [eapply list_elem_of_lookup_2|].
  - rewrite (needs_insert P i p p' Hi). unfold Q'. cbn [qf]. lia.
  - intros j q Hj Hdq Hnj. rewrite Hact' in Hnj.
    apply list_lookup_insert_Some in Hj as [(<- & <- & _)|[Hne Hj]].
    + exfalso. apply Hnj. rewrite Hdq, !elem_of_app. right; right. by left.
    + apply (Hout j q); [done|done|]. rewrite Hact. intros [->|Hj']%elem_of_cons; [done|].
      apply Hnj, elem_of_app. by left.
Qed.

Lemma round_run k b now prev i p Q s :
  rsim_ok P0 k b now s -> in_span P0 (b + msec) -> queue_ok now Q (procs s) -> outside Q (procs s) ->
  qs Q !! qf Q = Some i -> procs s !! i = Some p -> done p = false -> arrival p * msec <= tval (tadd now eps) ->
  exists now' Q' s', rr_run tq now prev i p (MkQueue (qs Q) (S (qf Q))) s = Ok (now', Q', s') /\
    rsim_ok P0 (k + 1) (b + msec) now' s' /\ queue_ok now' Q' (procs s') /\ outside Q' (procs s') /\
    qf Q' = S (qf Q) /\ (length (qs Q) <= length (qs Q'))%nat.
Proof.
  intros Hs Hsp HQ Hout Hqi Hi Hd Ha. pose proof msec_pos as Hms. pose proof err_pos as Herr.
  assert (Hsp0 : in_span P0 b) by (eapply in_span_le; [exact Hsp|lia]).
  pose proof (soon_val Ht Hs Hsp0) as (_ & _ & Hsoon). pose proof (list_elem_of_lookup_2 _ _ _ Hi) as Hpin.
  destruct (round_run_eq k b now prev i p (MkQueue (qs Q) (S (qf Q))) s Hs Hsp Hi Hd ltac:(lia))
    as (now2 & s' & Hf2 & Hle & Hfs & Hl2 & -> & Hs' & Ep').
  destruct (qo_whole _ _ _ HQ p Hpin Hd) as (m & Hm & Em). destruct (rproc_input Ht Hs i p Hi) as (p0 & _ & Hok & _).
  destruct (todo_one Ht Hs p Hpin Hd) as [_ Hb]. pose proof (now_bounds Ht Hs) as [Hn0 _].
  destruct (need_slice now2 (tadd now2 (tmin (of_int tq) (remain p))) p m Hd (rp_fits _ _ _ _ _ Hok) Hm Em)
    as (Hneed & Hw' & Hdone); [destruct Hsp0 as (? & _ & _); lia|].
  set (r := tsub (remain p) (tmin (of_int tq) (remain p))) in *. set (now' := tadd now2 (tmin (of_int tq) (remain p))) in *.
  set (p' := sliced now' r (note_start now2 p)) in *.
  assert (Hl3 : tval (tadd now2 eps) <= tval (tadd now' eps)) by (eapply (soon_le _ _ now2 now'); [exact Hs'|done|done|lia]).
  unfold enqueue_arrivals.
  match goal with |- context [push_if ?t _ _ _] => set (test := t) end.
  assert (Htest : forall j q, procs s !! j = Some q -> test q = true -> done q = false /\
    tval (tadd now2 eps) < arrival q * msec <= tval (tadd now' eps)).
  { intros j q Hj Hq. destruct (arrival_val Ht Hs Hsp0 q (list_elem_of_lookup_2 _ _ _ Hj)) as (Hfq & Ev & _).
    pose proof (soon_val Ht Hs' Hsp) as (Hfn & _). unfold test in Hq.
    rewrite tlt_val, tle_val, Ev, !andb_true_iff, negb_true_iff, Z.ltb_lt, Z.leb_le in Hq by done. tauto. }
  destruct (hits_room now Q (procs s) test HQ) as [Hnd Hroom].
  { intros j q Hj Hq. destruct (Htest j q Hj Hq) as (? & ? & _). split; [done|]. intros Hja.
    destruct (qo_in _ _ _ HQ j Hja) as (q' & ? & _ & ?). simplify_eq. lia. }
  destruct (queue_round now now' Q (procs s) i p p' (hits test (procs s) 0) HQ Hout ltac:(lia) Hqi Hi) as [HQ' Hout'];
    [by apply sliced_key|done|done|done| |].
  { intros j Hj. apply elem_hits in Hj as (n & q & -> & Hn & Hq). exists q.
    destruct (Htest n q Hn Hq) as (? & _ & ?). done. }
  rewrite push_if_hits by exact Hroom. cbn [mbind run_bind qs qf].
  pose proof (queue_full _ _ _ HQ') as Hfull. rewrite <- Ep' in *. rewrite Hdone in *.
  eexists now', _, s'. split_and!; [|exact Hs'|exact HQ'|exact Hout'|done|cbn [qs]; rewrite length_app; lia].
  destruct (tle r eps); [by rewrite app_nil_r|]. cbn [qs] in Hfull. rewrite !length_app in Hfull. cbn [length] in Hfull.
  unfold q_push. cbn [qs qf]. rewrite decide_True by (rewrite length_app; lia). cbn [mbind run_bind]. by rewrite <- app_assoc.
Qed.

(** At the end a process is done, or it was never started and came late. *)
Definition served_or_lost (P : list (Proc T)) : Prop :=
  forall p, p ∈ P -> done p = true \/ (started p = false /\ 0 < arrival p).

Lemma outside_end Q P : active Q = [] -> outside Q P -> served_or_lost P.
Proof.
  intros E Ho p Hp. apply list_elem_of_lookup in Hp as [i Hi]. destruct (done p) eqn:Ed; [by left|right].
  apply (Ho i p Hi Ed). rewrite E. apply not_elem_of_nil.
Qed.

Lemma outside_push Q l P : (qf Q <= length (qs Q))%nat -> outside Q P -> outside (MkQueue (qs Q ++ l) (qf Q)) P.
Proof.
  intros Hf Ho i p Hi Hd Hn. rewrite active_app in Hn by done. apply (Ho i p Hi Hd). intros Hin. apply Hn, elem_of_app. by left.
Qed.

Lemma round_loop fuel k b now prev Q s :
  rsim_ok P0 k b now s -> queue_ok now Q (procs s) -> outside Q (procs s) ->
  in_span P0 (b + Z.of_nat fuel * msec) -> (2000 < fuel + length (qs Q) + qf Q)%nat ->
  exists now' s' k' b', rr_loop tq fuel now prev Q s = Ok (now', s') /\ rsim_ok P0 k' b' now' s' /\
    k' <= k + Z.of_nat fuel /\ served_or_lost (procs s').
Proof.
  revert k b now prev Q s. induction fuel as [|fuel IH]; intros k b now prev Q s Hs HQ Ho Hsp Hfuel.
  all: pose proof (queue_full _ _ _ HQ) as Hfull; pose proof (qo_front _ _ _ HQ) as Hfront.
  { unfold MAX_TASKS in Hfull. lia. }
  cbn [rr_loop]. pose proof msec_pos as Hm. rewrite Nat2Z.inj_succ in *.
  assert (Hsp0 : in_span P0 b) by (eapply in_span_le; [exact Hsp|nia]).
  destruct (all_done (procs s)) eqn:Ead.
  { exists now, s, k, b. split_and!; [done|done|lia|]. intros p Hp. left. by apply (all_done_spec (procs s)). }
  unfold q_empty. case_bool_decide as Ee.
  - assert (Hnil : active Q = []) by (unfold active; rewrite Ee; apply drop_all).
    destruct (ridle_until Ht Hs Hsp0) as [[-> _]|(q & s1 & -> & Ep & Hqin & Hd & Hlt & Hs1)]; cbn [mbind run_bind].
    { exists now, s, k, b. split_and!; [done|done|lia|by eapply outside_end]. }
    destruct (arrival_val Ht Hs Hsp0 q Hqin) as (_ & Ev & _). pose proof (now_bounds Ht Hs).
    pose proof (soon_val Ht Hs1 Hsp0) as (_ & Hup & _). rewrite <- Ep in *.
    destruct (queue_push (of_int (arrival q)) Q (procs s1) (ready (of_int (arrival q)))) as [E HQ1].
    { eapply queue_later; [exact HQ|]. apply (soon_le _ _ _ _ _ Hs1 Hsp0); [apply Hs|lia]. }
    { intros j p Hj Hr. rewrite (ready_val Ht Hs1 Hsp0) in Hr by (by eapply list_elem_of_lookup_2).
      rewrite Hnil. destruct Hr. split_and!; [done|apply not_elem_of_nil|done]. }
    rewrite E. cbn [mbind run_bind].
    assert (Hhit : hits (ready (of_int (arrival q))) (procs s1) 0 <> []).
    { apply list_elem_of_lookup in Hqin as [j Hj]. intros E'. apply (not_elem_of_nil j). rewrite <- E'.
      apply elem_hits. exists j, q. split_and!; [done|done|]. apply (ready_val Ht Hs1 Hsp0); [by eapply list_elem_of_lookup_2|].
      split; [done|lia]. }
    destruct (IH k b (of_int (arrival q)) PID_IDLE _ s1 Hs1 HQ1) as (now' & s' & k' & b' & -> & Hs' & Hk' & Hl').
    + by apply outside_push.
    + eapply in_span_le; [exact Hsp|nia].
    + cbn [qs qf]. rewrite length_app. destruct (hits _ _ _); [done|]. cbn [length]. lia.
    + exists now', s', k', b'. split_and!; [done|done|lia|done].
  - unfold q_pop. destruct (aget_lt (qs Q) (qf Q)) as (i & Hqi & ->); [lia|]. cbn [mbind run_bind].
    destruct (qo_in _ _ _ HQ i) as (p & Hi & Hd & Ha); [unfold active; rewrite (drop_S _ _ _ Hqi); by left|].
    rewrite (aget_lookup _ _ _ Hi). cbn [mbind run_bind]. rewrite Hd.
    destruct (round_run k b now prev i p Q s) as (now1 & Q1 & s1 & -> & Hs1 & HQ1 & Ho1 & Ef & El); try done;
      [eapply in_span_le; [exact Hsp|nia]|]. cbn [mbind run_bind].
    destruct (IH (k + 1) (b + msec) now1 (pid p) Q1 s1 Hs1 HQ1 Ho1) as (now' & s' & k' & b' & -> & Hs' & Hk' & Hl').
    + eapply in_span_le; [exact Hsp|lia].
    + lia.
    + exists now', s', k', b'. split_and!; [done|done|lia|done].
Qed.
End round_robin.

(** ** Results *)
Section results.
Context {T R : Type} {ops : TimeOps T R} {RT : Rounded ops}.
Implicit Types (p q : Proc T) (s : Sim T) (now : T).

(** What the table says of a process at the end is what the segments show, up
    to [tol]: the time it received and the time that remains make its burst;
    its start is the start of its first segment, not before its arrival; its
    finish is the end of its last segment. *)
Record outcome (tol : Z) (now : T) (l : list (Segment T)) (p0 p : Proc T) : Prop := {
  oc_key : same_key p p0;
  oc_time : Z.abs (cpu_time l (pid p) + tval (remain p) - burst p * msec) <= tol;
  oc_start : started p = true ->
    arrival p * msec <= tval (first_start p) + tval eps + err /\ tval (first_start p) <= tval now /\
    (0 < burst p -> start <$> head (runs l (pid p)) = Some (first_start p));
  oc_done : done p = true -> started p = true /\ tval (remain p) = 0 /\
    tval (first_start p) <= tval (finish p) <= tval now /\
    (0 < burst p -> end_ <$> last (runs l (pid p)) = Some (finish p));
  oc_idle : started p = false -> done p = false /\ runs l (pid p) = [] }.

Definition reports (tol : Z) (P0 : list (Proc T)) (now : T) (s : Sim T) : Prop :=
  timeline (segs s) (tval now) /\ Forall2 (outcome tol now (segs s)) P0 (procs s).

Lemma rsim_reports P0 k b now s n tol :
  rsim_ok P0 k b now s -> k <= n -> 3 * err * n + tval eps <= tol -> reports tol P0 now s.
Proof.
  intros Hs Hk Htol. split; [apply Hs|]. eapply Forall2_impl; [apply Hs|].
  intros p0 p [Hkey Hf Htime _ Hst Hd Hfr]. pose proof err_pos. destruct fits_eps as (_ & ? & _).
  pose proof (rs_slices _ _ _ _ _ Hs).
  split; try done. assert (3 * err * k <= 3 * err * n) by (apply Z.mul_le_mono_nonneg_l; lia).
  destruct (done p); lia.
Qed.

Lemma srtf_reports P0 : table_ok P0 -> in_span P0 (Z.of_nat (S (2 * length P0)) * msec) ->
  exists now s, simulate_SRTF (MkSim P0 [] 0) = Ok (now, s) /\ all_done (procs s) = true /\
    reports (6 * Z.of_nat (length P0) * err + tval eps) P0 now s.
Proof.
  intros Ht Hsp. pose proof msec_pos.
  assert (Hs : rsim_ok P0 0 0 zero (MkSim P0 [] 0)).
  { apply rsim_ok_init; [done|]. eapply in_span_le; [exact Hsp|lia]. }
  destruct (rsrtf_loop Ht (S (2 * length P0)) 0 0 zero PID_IDLE (MkSim P0 [] 0) Hs)
    as (now & s & k & b & E & Hs' & Hk & Hd); [by intros []| |done|].
  - cbn [procs]. pose proof (undone_le P0). pose proof (coming_le (tval zero) P0). lia.
  - exists now, s. split_and!; [done|done|]. eapply (rsim_reports P0 k b now s (2 * Z.of_nat (length P0))); [done|lia|lia].
Qed.

Lemma rr_begin P0 tq : table_ok P0 -> in_span P0 0 ->
  exists now1 s1, rsim_ok P0 0 0 now1 s1 /\ procs s1 = P0 /\
    simulate_RR tq (MkSim P0 [] 0) =
      (Q ← push_if (fun p => tle (of_int (arrival p)) (tadd now1 eps)) P0 0 q_init;
       rr_loop tq 2001 now1 PID_IDLE Q s1).
Proof.
  intros Ht Hsp. pose proof (rsim_ok_init P0 Ht Hsp) as Hs. unfold simulate_RR. cbn [procs].
  change (S (2 * Z.to_nat MAX_TASKS)) with 2001%nat. destruct zero_val as [Hz Ez].
  destruct (next_arrival_after (of_int (-1)) P0) as [i|] eqn:En.
  2: { cbn [mbind run_bind]. by exists zero, (MkSim P0 [] 0). }
  apply search_sound in En as (q & Hi & _). unfold pget. cbn [procs]. rewrite (aget_lookup _ _ _ Hi).
  cbn [mbind run_bind]. case_decide as Hpos; [|cbn [mbind run_bind]; by exists zero, (MkSim P0 [] 0)].
  destruct (arrival_val Ht Hs Hsp q ltac:(by eapply list_elem_of_lookup_2)) as (Hf & Ev & Ha).
  destruct (rsim_gap Ht Hs (of_int (arrival q)) PID_IDLE 0) as (s1 & -> & Ep & Hs1); try done; [lia|lia|].
  cbn [mbind run_bind]. exists (of_int (arrival q)), s1. rewrite Z.add_0_r in Hs1.
  cbn [procs] in Ep. by rewrite Ep.
Qed.

Lemma total_needs P0 tq : table_ok P0 -> in_span P0 0 -> needs tq P0 = total_quanta tq P0.
Proof.
  intros Ht Hsp. pose proof msec_pos. destruct Hsp as (_ & _ & Hb).
  assert (Hn : forall p, p ∈ P0 -> need tq p = quanta tq p).
  { intros p Hp. pose proof (to_pos _ Ht p Hp). pose proof (all_bursts_le P0 p Ht Hp).
    unfold need, quanta. rewrite (to_new _ Ht p Hp). cbn [done remain burst new_proc].
    destruct (fits_int (burst p)) as [_ ->]; [lia|]. by rewrite Z.div_mul by lia. }
  clear Ht Hb. unfold needs. induction P0 as [|p P0 IH]; [done|]. cbn [fmap list_fmap foldr total_quanta].
  rewrite (Hn p) by (by left). rewrite IH; [done|]. intros q Hq. apply Hn. by right.
Qed.

(** The queue before the first round. *)
Lemma rr_queue P0 tq now1 s1 : table_ok P0 -> in_span P0 0 -> 0 < tq -> total_quanta tq P0 <= MAX_TASKS ->
  rsim_ok P0 0 0 now1 s1 -> procs s1 = P0 ->
  exists Q, push_if (fun p => tle (of_int (arrival p)) (tadd now1 eps)) P0 0 q_init = Ok Q /\
    queue_ok tq now1 Q P0 /\ outside Q P0.
Proof.
  intros Ht Hsp Htq Hroom Hs Ep. set (test := fun p => tle (of_int (arrival p)) (tadd now1 eps)).
  pose proof (total_needs P0 tq Ht Hsp) as Hneeds. pose proof (soon_val Ht Hs Hsp) as (Hf & Hup & _).
  pose proof (now_bounds Ht Hs) as [Hn0 _].
  assert (Hnew : forall i p, P0 !! i = Some p -> done p = false /\ started p = false).
  { intros i p Hi. by rewrite (to_new _ Ht p (list_elem_of_lookup_2 _ _ _ Hi)). }
  assert (Htest : forall i p, P0 !! i = Some p -> test p = (arrival p * msec <=? tval (tadd now1 eps))).
  { intros i p Hi. destruct (arrival_val Ht Hs Hsp p) as (Hfp & Ev & _).
    { rewrite Ep. by eapply list_elem_of_lookup_2. } unfold test. by rewrite tle_val, Ev by done. }
  destruct (queue_push tq now1 q_init P0 test) as [E HQ].
  - split; cbn [qs qf q_init active]; [done|apply NoDup_nil_2|by intros i ?%not_elem_of_nil| |lia].
    intros p Hp _. exists (burst p). pose proof (to_pos _ Ht p Hp). pose proof (all_bursts_le P0 p Ht Hp).
    destruct Hsp as (_ & _ & ?). split; [lia|]. rewrite (to_new _ Ht p Hp). cbn [remain burst new_proc]. by apply fits_int; lia.
  - intros i p Hi Hp. rewrite (Htest i p Hi) in Hp. apply Z.leb_le in Hp.
    split_and!; [by apply (Hnew i)|apply not_elem_of_nil|done].
  - rewrite E. eexists. split_and!; [done|exact HQ|]. intros i p Hi _ Hni. split; [by apply (Hnew i)|].
    assert (Hp : test p = false).
    { apply not_true_iff_false. intros Hp. apply Hni. change (i ∈ hits test P0 0). apply elem_hits. by exists i, p. }
    rewrite (Htest i p Hi) in Hp. apply Z.leb_gt in Hp. pose proof msec_pos. nia.
Qed.

Lemma rr_reports P0 tq : table_ok P0 -> 0 < tq <= 2 ^ 31 -> in_span P0 (2001 * msec) ->
  total_quanta tq P0 <= MAX_TASKS ->
  exists now s, simulate_RR tq (MkSim P0 [] 0) = Ok (now, s) /\
    reports (6003 * err + tval eps) P0 now s /\ served_or_lost (procs s).
Proof.
  intros Ht Htq Hsp Hroom. pose proof msec_pos.
  assert (Hsp0 : in_span P0 0) by (eapply in_span_le; [exact Hsp|lia]).
  destruct (rr_begin P0 tq Ht Hsp0) as (now1 & s1 & Hs1 & Ep & ->).
  destruct (rr_queue P0 tq now1 s1) as (Q & -> & HQ & Ho); try done; [lia|]. cbn [mbind run_bind].
  rewrite <- Ep in HQ, Ho.
  destruct (round_loop Ht tq Htq 2001 0 0 now1 PID_IDLE Q s1 Hs1 HQ Ho) as (now & s & k & b & -> & Hs' & Hk & Hl);
    [exact Hsp|lia|].
  exists now, s. split_and!; [done| |done]. eapply (rsim_reports P0 k b now s 2001); [done|lia|lia].
Qed.
End results.

(** ** The doubles *)

(** Below 2^22 ms a sum is off by at most 2^-32 ms, and 1e-9 ms is more than
    four times that. *)
#[export, refine] Instance binary64_rounded : Rounded binary64 := {
  fits := fin;
  tval := B64Facts.val;
  msec := 2 ^ 1074;
  err := 2 ^ 1042;
  span := 2 ^ 22 }.
Proof.
  - by apply Z.pow_nonneg.
  - intros z Hz. assert (H : rounds_to (z * 2 ^ lsb) (B64.of_Z z)).
    { apply of_Z_rounds. apply (Z.le_lt_trans _ (2 ^ 31)); [done|]. by apply Z.pow_lt_mono_r. }
    split; [apply H|]. apply (rounds_exact _ _ lsb H); [done|by exists z|].
    rewrite abs_scale by done. rewrite Z.pow_add_r by done.
    apply Z.mul_lt_mono_pos_r; [by apply pow2_pos|].
    apply (Z.le_lt_trans _ (2 ^ 31)); [done|]. by apply Z.pow_lt_mono_r.
  - intros a b Ha Hb H. rewrite <- Z.pow_add_r in H by done.
    assert (Hr : rounds_to (B64Facts.val a + B64Facts.val b) (B64.add a b)).
    { apply add_rounds; [done|done|]. apply (Z.lt_le_trans _ _ _ H). by apply Z.pow_le_mono_r. }
    split; [apply Hr|]. by apply (rounds_error _ _ (22 + 1074) Hr).
  - intros a b Ha Hb Ha0 Hb0 H. rewrite <- Z.pow_add_r in H by done.
    assert (Hr : rounds_to (B64Facts.val a + B64Facts.val b) (B64.add a b)).
    { apply add_rounds; [done|done|]. rewrite Z.abs_eq by lia.
      apply (Z.lt_le_trans _ _ _ H). by apply Z.pow_le_mono_r. }
    apply (rounds_above _ _ a Hr); [lia|done|lia].
  - intros a b c Ha Hb Hc H0 Hle H. rewrite <- Z.pow_add_r in H by done. apply add_mono; try done.
    apply (Z.lt_le_trans _ _ _ H). by apply Z.pow_le_mono_r.
  - intros a b Ha Hb H. rewrite <- Z.pow_add_r in H by done.
    assert (Hr : rounds_to (B64Facts.val a - B64Facts.val b) (B64.sub a b)).
    { apply sub_rounds; [done|done|]. apply (Z.lt_le_trans _ _ _ H). by apply Z.pow_le_mono_r. }
    split; [apply Hr|]. by apply (rounds_error _ _ (22 + 1074) Hr).
  - intros a b i j Ha Hb Ea Eb Hij.
    assert (Hlim : Z.abs ((i - j) * 2 ^ lsb) <= 2 ^ 31 * 2 ^ lsb).
    { rewrite abs_scale by done. apply Z.mul_le_mono_nonneg_r; [by apply Z.pow_nonneg|lia]. }
    assert (E : B64Facts.val a - B64Facts.val b = (i - j) * 2 ^ lsb) by (rewrite Ea, Eb; unfold lsb; lia).
    rewrite <- Z.pow_add_r in Hlim by done.
    assert (Hr : rounds_to (B64Facts.val a - B64Facts.val b) (B64.sub a b)).
    { apply sub_rounds; [done|done|]. rewrite E. apply (Z.le_lt_trans _ _ _ Hlim). by apply Z.pow_lt_mono_r. }
    rewrite E in Hr. apply (rounds_exact _ _ lsb Hr); [done|by exists (i - j)|].
    apply (Z.le_lt_trans _ _ _ Hlim). by apply Z.pow_lt_mono_r.
  - apply abs_val.
  - apply ltb_val.
  - apply leb_val.
  - intros a b Ha Hb. cbn [tmin binary64]. rewrite ltb_val by done.
    destruct (Z.ltb_spec (B64Facts.val b) (B64Facts.val a)); [right|left]; (split; [done|lia]).
  - split; [|split]; [|apply Z.ltb_lt; vm_compute; reflexivity|apply Z.leb_le; vm_compute; reflexivity].
    vm_compute. split; [reflexivity|]. split; [discriminate|right; discriminate].
  - split; [|split]; [|apply Z.leb_le; vm_compute; reflexivity|apply Z.leb_le; vm_compute; reflexivity].
    vm_compute. split; [reflexivity|]. split; [discriminate|right; discriminate].
Defined.

Lemma foldr_pos {A} (f : A -> Z) (l : list A) :
  (forall x, x ∈ l -> 0 <= f x) -> 0 <= foldr (fun x n => f x + n) 0 l.
Proof.
  induction l as [|x l IH]; intros H; cbn [foldr]; [done|].
  pose proof (H x ltac:(by left)). pose proof (IH ltac:(intros y Hy; apply H; by right)). lia.
Qed.

Lemma double_span (P0 : list (Proc spec_float)) n :
  table_ok (ops := binary64) P0 -> 0 <= n ->
  last_arrival P0 + all_bursts P0 + n + 2 <= 2 ^ 22 -> in_span P0 (n * msec).
Proof.
  intros Ht Hn H. assert (0 <= last_arrival P0) by (unfold last_arrival; clear; induction P0; cbn [foldr]; lia).
  assert (0 <= all_bursts P0) by (apply foldr_pos; intros p Hp; by apply Ht).
  split; [|lia]. rewrite <- Z.mul_add_distr_r. apply Z.mul_le_mono_nonneg_r; [by apply Z.pow_nonneg|].
  cbn [span binary64_rounded]. lia.
Qed.

Lemma eps_small : tval (ops := binary64) eps <= 5 * err.
Proof. apply Z.leb_le. vm_compute. reflexivity. Qed.

(** C12. SRTF in the doubles of the code, for times below 2^22 ms: with distinct
    process numbers and arrivals and bursts that are not negative
    [simulate_SRTF] ends within two rounds for each process; every process is
    done and has received its burst up to (6N + 5) 2^-32 ms; the segments leave
    no gap; [first_start] is the start of the first segment of the process, not
    before its arrival by more than the tolerance of the code, and [finish] is
    the end of its last segment.  Every round runs a process whose remaining
    time is the shortest of the ready ones, up to N times (1e-9 + 2^-32) ms, the
    drift of the ties that are broken by arrival. *)
Theorem srtf_serves (P0 : list (Proc spec_float)) (Ht : table_ok (ops := binary64) P0)
    (Hrange : last_arrival P0 + all_bursts P0 + 2 * Z.of_nat (length P0) + 3 <= 2 ^ 22) :
  exists now s, simulate_SRTF (ops := binary64) (MkSim P0 [] 0) = Ok (now, s) /\
    (forall p, p ∈ procs s -> done p = true) /\
    reports (ops := binary64) ((6 * Z.of_nat (length P0) + 5) * err) P0 now s /\
    forall now' running' s', srtf_state (ops := binary64) (P0 := P0) now' running' s' ->
      all_done (procs s') = false ->
      runs_shortest (ops := binary64) ((tval eps + err) * Z.of_nat (length P0)) now' s'.
Proof.
  assert (Hsp : in_span (ops := binary64) P0 (Z.of_nat (S (2 * length P0)) * msec)).
  { apply double_span; [done|lia|]. lia. }
  destruct (srtf_reports (ops := binary64) P0 Ht Hsp) as (now & s & E & Hd & [Hl Hr]).
  exists now, s. split; [done|]. split; [|split; [|intros; by eapply srtf_state_shortest]]; [by apply all_done_spec|]. split; [done|].
  eapply Forall2_impl; [exact Hr|]. intros p0 p [H1 H2 H3 H4 H5]. split; try done.
  pose proof eps_small. lia.
Qed.

(** Three processes, as doubles. *)
Definition three_doubles : list (Proc spec_float) :=
  [new_proc (ops := binary64) 1 0 5; new_proc (ops := binary64) 2 1 3; new_proc (ops := binary64) 3 2 1].

Lemma three_doubles_ok : table_ok (ops := binary64) three_doubles.
Proof.
  split.
  - apply (bool_decide_eq_true_1 _). vm_compute. reflexivity.
  - intros p Hp. unfold three_doubles in Hp. rewrite !elem_of_cons in Hp.
    destruct Hp as [->|[->|[->|Hp]]]; cbn [new_proc pid arrival burst]; [lia..|by apply not_elem_of_nil in Hp].
  - intros p Hp. unfold three_doubles in Hp. rewrite !elem_of_cons in Hp.
    destruct Hp as [->|[->|[->|Hp]]]; [done..|by apply not_elem_of_nil in Hp].
Qed.

Lemma srtf_serves_witness :
  exists now s, simulate_SRTF (ops := binary64) (MkSim three_doubles [] 0) = Ok (now, s) /\
    (forall p, p ∈ procs s -> done p = true) /\
    reports (ops := binary64) (23 * err) three_doubles now s /\
    forall now' running' s', srtf_state (ops := binary64) (P0 := three_doubles) now' running' s' ->
      all_done (procs s') = false ->
      runs_shortest (ops := binary64) ((tval eps + err) * 3) now' s'.
Proof.
  apply (srtf_serves three_doubles); [apply three_doubles_ok|].
  apply Z.leb_le. vm_compute. reflexivity.
Defined.

(** C13. Round robin in the doubles of the code, for times below 2^22 ms: if the
    quanta that the processes need fit the array of the queue, [simulate_RR]
    ends, and what it reports is what its segments show.  They leave no gap; the
    time a process received and the time that remains make its burst up to
    6008 2^-32 ms; [first_start] of a process that ran is the start of its
    first segment, not before its arrival by more than the tolerance of the
    code; [finish] of a process that is done is the end of its last segment;
    a process that was not started has no segment.  Every process is done, or
    was never started and did not arrive at time 0 (see [rr_loses_process]). *)
Theorem rr_reported (P0 : list (Proc spec_float)) (tq : Z)
    (Ht : table_ok (ops := binary64) P0) (Htq : 0 < tq /\ int_range tq)
    (Hrange : last_arrival P0 + all_bursts P0 + 2003 <= 2 ^ 22) (Hroom : total_quanta tq P0 <= MAX_TASKS) :
  exists now s, simulate_RR (ops := binary64) tq (MkSim P0 [] 0) = Ok (now, s) /\
    reports (ops := binary64) (6008 * err) P0 now s /\ served_or_lost (procs s).
Proof.
  destruct (rr_reports (ops := binary64) P0 tq Ht) as (now & s & E & [Hl Hr] & Hd); [| |done|].
  { unfold int_range, INT_MIN, INT_MAX in Htq. lia. }
  { apply double_span; [done|lia|lia]. }
  exists now, s. split_and!; [done| |done]. split; [done|]. eapply Forall2_impl; [exact Hr|].
  intros p0 p [H1 H2 H3 H4 H5]. split; try done. pose proof eps_small. lia.
Qed.

Lemma rr_reported_witness :
  exists now s, simulate_RR (ops := binary64) 2 (MkSim three_doubles [] 0) = Ok (now, s) /\
    reports (ops := binary64) (6008 * err) three_doubles now s /\ served_or_lost (procs s).
Proof.
  apply (rr_reported three_doubles 2).
  - apply three_doubles_ok.
  - unfold int_range, INT_MIN, INT_MAX. lia.
  - apply Z.leb_le. vm_compute. reflexivity.
  - apply Z.leb_le. vm_compute. reflexivity.
Defined.

(** ** Where SRTF fails *)

(** Two tasks around 2^26 ms, where the doubles are 2^-26 ms apart. *)
Definition late_pair : list (Proc spec_float) :=
  [new_proc (ops := binary64) 1 67108862 4; new_proc (ops := binary64) 2 67108863 1].


(** A round that changes nothing is repeated for ever. *)
Lemma srtf_loop_stuck fuel now running s :
  all_done (procs s) = false -> srtf_round (ops := binary64) now running s = Ok (now, running, s) ->
  srtf_loop (ops := binary64) fuel now running s = NoFuel.
Proof.
  intros Hd Hr. induction fuel as [|fuel IH]; [done|]. by rewrite (srtf_loop_round _ _ _ _ _ _ _ Hd Hr).
Qed.

(** Two rounds to a state that is repeated. *)
Definition stuck_soon (x : spec_float * Z * Sim spec_float) : Prop :=
  all_done (procs x.2) = false /\
  match srtf_round (ops := binary64) x.1.1 x.1.2 x.2 with
  | Ok x1 =>
      all_done (procs x1.2) = false /\
      match srtf_round (ops := binary64) x1.1.1 x1.1.2 x1.2 with
      | Ok x2 => all_done (procs x2.2) = false /\ srtf_round (ops := binary64) x2.1.1 x2.1.2 x2.2 = Ok x2
      | _ => False
      end
  | _ => False
  end.

Lemma stuck_soon_loop fuel now running s :
  stuck_soon (now, running, s) -> srtf_loop (ops := binary64) fuel now running s = NoFuel.
Proof.
  intros [Hd H]. cbn [fst snd] in *.
  destruct (srtf_round now running s) as [[[now1 r1] s1]| |] eqn:E1; [|done..].
  destruct H as [Hd1 H]. cbn [fst snd] in *. destruct (srtf_round now1 r1 s1) as [[[now2 r2] s2]| |] eqn:E2; [|done..].
  destruct H as [Hd2 E3]. cbn [fst snd] in *. destruct fuel as [|[|fuel]]; [done| |].
  - by rewrite (srtf_loop_round 0 _ _ _ _ _ _ Hd E1).
  - rewrite (srtf_loop_round _ _ _ _ _ _ _ Hd E1), (srtf_loop_round _ _ _ _ _ _ _ Hd1 E2).
    by apply srtf_loop_stuck.
Qed.

(** C33. Beyond that range SRTF can run for ever: of two tasks, (67108862, 4) and
    (67108863, 1), the second is left with 2^-27 ms after its first slice.
    That is more than 1e-9 ms, so it is not complete, but at 2^26 ms the time
    plus 2^-27 ms rounds to the time, and each further round changes nothing. *)
Theorem srtf_diverges (fuel : nat) :
  srtf_loop (ops := binary64) fuel zero PID_IDLE (MkSim late_pair [] 0) = NoFuel.
Proof.
  apply stuck_soon_loop. vm_compute. split; [reflexivity|]. split; [reflexivity|]. split; reflexivity.
Qed.
