(* ===== verification/Workers.v ===== *)
(** * Summing with processes and with threads

    [src/Assignment2/Assignment2-2]: [numgen.c] writes the numbers 1 .. 2N to
    [temp.txt]; [fork.c] and [thread.c] read them, give each of N workers two
    numbers and add up the results, which children pass in their exit status
    and threads through memory.

    A program run is a step relation: the parent creates workers, the workers
    finish in any order, the parent collects them in order of creation.  What
    a worker computes is an interface, [Worker], so that the two programs
    share the theorems about interleavings. *)

From Stdlib Require Import ZArith Lia Ascii String.
From stdpp Require Import base numbers list option strings relations sets.
From S2P Require Import Prelude CText.

Local Open Scope Z_scope.

(** The macro, when the compiler is given no other value. *)
Definition MAX_PROCESSES : nat := 8.

(** ** [numgen.c] *)

(** The exit code and the file it writes; [can_open] is the result of
    [fopen]. *)
Definition numgen_main (n : nat) (can_open : bool) : Z * option string :=
  if can_open then (0, Some (print_lines (Z.of_nat <$> seq 1 (2 * n)))) else (1, None).

(** ** [read_input] *)
Fixpoint read_nums (k : nat) (txt : string) : run (option (list Z)) :=
  match k with
  | O => Ok (Some [])
  | S k' =>
      r ← scan_d txt;
      match r with
      | None => Ok None
      | Some (x, txt') => rest ← read_nums k' txt'; Ok (option_map (cons x) rest)
      end
  end.

(** [None] is the failure -1; [file] is [None] when [fopen] fails. *)
Definition read_input (n : nat) (file : option string) : run (option (list Z)) :=
  match file with None => Ok None | Some txt => read_nums (2 * n) txt end.

(** ** Workers *)

(** What worker [i] computes from the numbers, and whether it can end
    abnormally without ending the whole program. *)
Class Worker := {
  result : list Z -> nat -> run Z;
  can_die : bool }.

(** The sum of the two numbers of worker [i], an [int] addition. *)
Definition part_sum (nums : list Z) (i : nat) : run Z :=
  a ← aget nums (2 * i); b ← aget nums (2 * i + 1); int_add a b.

(** A child of [fork.c]: [_exit (part_sum & 0xFF)], read by [WEXITSTATUS]. *)
Definition fork_worker : Worker := {|
  result nums i := s ← part_sum nums i; Ok (Z.land s 255);
  can_die := true |}.

(** A thread of [thread.c]: [*ret = t->a + t->b]. *)
Definition thread_worker : Worker := {| result := part_sum; can_die := false |}.

(** The accumulation of the results in order of creation. *)
Definition add_result `{Worker} (nums : list Z) (i : nat) (total : Z) : run Z :=
  r ← result nums i; int_add total r.

Definition total_of `{Worker} (nums : list Z) (n : nat) : run Z :=
  for_range (add_result nums) 0 n 0.

(** Nanoseconds of a [struct timespec], a 64-bit sum. *)
Definition ns (tv_sec tv_nsec : Z) : Z := tv_sec * 1000000000 + tv_nsec.

(** [main] without failing system calls: exit code and the first line printed
    (the second is the elapsed time). *)
Definition worker_main `{Worker} (label : string) (n : nat) (file : option string)
  : run (Z * string) :=
  r ← read_input n file;
  match r with
  | None => Ok (1, "")
  | Some nums => t ← total_of nums n; Ok (0, "value of " +:+ label +:+ " : " +:+ print_d t +:+ String "010" "")
  end.

Definition fork_main : nat -> option string -> run (Z * string) :=
  worker_main (H := fork_worker) "fork".
Definition thread_main : nat -> option string -> run (Z * string) :=
  worker_main (H := thread_worker) "thread".

(** ** Interleavings *)
Inductive wstat := Running | Done (r : Z) | Abnormal | Collected.

(** The workers created so far, the number collected and the sum; or the
    parent has returned 1. *)
Inductive sys := Sys (ws : list wstat) (collected : nat) (total : Z) | Failed.

Section steps.
Context `{Worker} (nums : list Z) (n : nat).

Inductive step : sys -> sys -> Prop :=
(* the first loop: fork or pthread_create *)
| step_create ws :
    (length ws < n)%nat -> step (Sys ws 0 0) (Sys (ws ++ [Running]) 0 0)
| step_create_fails ws :
    (length ws < n)%nat -> step (Sys ws 0 0) Failed
(* a worker ends *)
| step_done ws c t i r :
    ws !! i = Some Running -> result nums i = Ok r -> step (Sys ws c t) (Sys (<[i := Done r]> ws) c t)
| step_dies ws c t i :
    can_die = true -> ws !! i = Some Running -> step (Sys ws c t) (Sys (<[i := Abnormal]> ws) c t)
(* the second loop: waitpid or pthread_join of worker c *)
| step_collect ws c t r t' :
    length ws = n -> ws !! c = Some (Done r) -> int_add t r = Ok t' ->
    step (Sys ws c t) (Sys (<[c := Collected]> ws) (S c) t')
| step_abnormal ws c t :
    length ws = n -> ws !! c = Some Abnormal -> step (Sys ws c t) Failed
| step_wait_fails ws c t :
    length ws = n -> (c < n)%nat -> step (Sys ws c t) Failed.

(** All workers collected: the parent prints the sum. *)
Definition finished (s : sys) (t : Z) : Prop := exists ws, length ws = n /\ s = Sys ws n t.

(** The invariant: what is collected is a prefix, its sum is the sequential
    one, and a worker that is done holds its result. *)
Definition sys_ok (s : sys) : Prop :=
  match s with
  | Failed => True
  | Sys ws c t =>
      (length ws <= n)%nat /\ (c <= length ws)%nat /\ (c = 0%nat \/ length ws = n) /\
      for_range (add_result nums) 0 c 0 = Ok t /\
      forall i w, ws !! i = Some w ->
        match w with
        | Collected => (i < c)%nat
        | Done r => (c <= i)%nat /\ result nums i = Ok r
        | _ => (c <= i)%nat
        end
  end.

Lemma sys_ok_init : sys_ok (Sys [] 0 0).
Proof.
  cbn. split_and!; first [lia|done].
Qed.

Lemma sys_ok_step s s' : step s s' -> sys_ok s -> sys_ok s'.
Proof.
  destruct 1 as [ws Hlt|ws Hlt|ws c t i r Hi Hr|ws c t i Hd Hi|ws c t r t' Hl Hc Ht|ws c t Hl Hc|ws c t Hl Hc];
    cbn [sys_ok]; try done.
  - intros (_ & _ & _ & Hf & Hw). rewrite length_app. cbn [length]. split_and!; try lia; [done|].
    intros j w Hj. apply lookup_app_Some in Hj as [Hj|[_ Hj]]; [by apply Hw|].
    destruct (j - length ws)%nat; [|done]. injection Hj as <-. lia.
  - intros (H1 & H2 & H3 & Hf & Hw). rewrite length_insert. split_and!; try done.
    intros j w Hj. apply list_lookup_insert_Some in Hj as [(<- & <- & _)|[_ Hj]]; [|by apply Hw].
    split; [exact (Hw _ _ Hi)|done].
  - intros (H1 & H2 & H3 & Hf & Hw). rewrite length_insert. split_and!; try done.
    intros j w Hj. apply list_lookup_insert_Some in Hj as [(<- & <- & _)|[_ Hj]]; [|by apply Hw].
    exact (Hw _ _ Hi).
  - intros (H1 & H2 & H3 & Hf & Hw). rewrite length_insert.
    pose proof (lookup_lt_Some _ _ _ Hc). destruct (Hw _ _ Hc) as [_ Hr].
    split_and!; try lia.
    + replace (S c) with (c + 1)%nat by lia. rewrite for_range_S, Hf. cbn [mbind run_bind Nat.add]. unfold add_result.
      by rewrite Hr.
    + intros j w Hj. apply list_lookup_insert_Some in Hj as [(<- & <- & _)|[Hne Hj]]; [lia|].
      specialize (Hw _ _ Hj). destruct w; [lia|split; [|apply Hw]; destruct Hw; lia|lia|lia].
Qed.

Lemma sys_ok_reach s : rtc step (Sys [] 0 0) s -> sys_ok s.
Proof.
  intros Hr. pose proof sys_ok_init as Hi. induction Hr as [|x y z Hs _ IH]; [done|].
  apply IH. by eapply sys_ok_step.
Qed.

(** Steps left to a state, at most. *)
Definition weight (w : wstat) : nat := match w with Running => 2 | Done _ => 1 | _ => 0 end.
Fixpoint weights (ws : list wstat) : nat :=
  match ws with [] => 0 | w :: ws' => weight w + weights ws' end.
Definition steps_left (s : sys) : nat :=
  match s with
  | Failed => 0
  | Sys ws c _ => 1 + (n - c) + 3 * (n - length ws) + weights ws
  end%nat.

Lemma weights_app ws w : weights (ws ++ [w]) = (weights ws + weight w)%nat.
Proof. induction ws as [|x ws IH]; cbn [weights app]; lia. Qed.

Lemma weights_insert ws i w w' :
  ws !! i = Some w -> (weights (<[i := w']> ws) + weight w = weights ws + weight w')%nat.
Proof.
  revert i. induction ws as [|x ws IH]; intros [|i] Hi; simplify_eq/=; [lia|].
  specialize (IH i Hi). lia.
Qed.

Lemma step_decreases s s' : step s s' -> sys_ok s -> (steps_left s' < steps_left s)%nat.
Proof.
  destruct 1 as [ws Hlt|ws Hlt|ws c t i r Hi Hr|ws c t i Hd Hi|ws c t r t' Hl Hc Ht|ws c t Hl Hc|ws c t Hl Hc];
    cbn [sys_ok steps_left]; intros Hok.
  - rewrite weights_app, length_app. cbn. lia.
  - lia.
  - pose proof (weights_insert ws i _ (Done r) Hi). rewrite length_insert. cbn in *. lia.
  - pose proof (weights_insert ws i _ Abnormal Hi). rewrite length_insert. cbn in *. lia.
  - pose proof (weights_insert ws c _ Collected Hc). rewrite length_insert.
    pose proof (lookup_lt_Some _ _ _ Hc). cbn in *. lia.
  - lia.
  - lia.
Qed.

(** The rounds of a loop that ends normally. *)
Lemma for_range_prefix {A} (body : nat -> A -> run A) k s t i :
  for_range body 0 k s = Ok t -> (i < k)%nat ->
  exists si si', for_range body 0 i s = Ok si /\ body i si = Ok si'.
Proof.
  revert t. induction k as [|k IH]; intros t Hk Hi; [lia|].
  replace (S k) with (k + 1)%nat in Hk by lia. rewrite for_range_S in Hk. apply run_bind_Ok in Hk as (sk & Hk & Hb).
  destruct (decide (i = k)) as [->|Hne]; [eauto|]. apply (IH sk); [done|lia].
Qed.

(** No worker has ended abnormally. *)
Definition healthy (s : sys) : Prop :=
  match s with Failed => False | Sys ws _ _ => forall i, ws !! i <> Some Abnormal end.

Lemma progress s t :
  total_of nums n = Ok t -> sys_ok s -> healthy s ->
  finished s t \/ exists s', step s s' /\ healthy s'.
Proof.
  intros Ht Hok Hh. destruct s as [ws c t0|]; [|done]. destruct Hok as (H1 & H2 & H3 & Hf & Hw).
  destruct (decide (length ws < n)%nat) as [Hlt|Hge].
  { right. destruct H3 as [->|?]; [|lia]. injection Hf as <-.
    exists (Sys (ws ++ [Running]) 0 0). split; [by constructor|].
    intros i Hi. apply lookup_app_Some in Hi as [Hi|[_ Hi]]; [by apply (Hh i)|].
    by destruct (i - length ws)%nat. }
  assert (Hl : length ws = n) by lia. destruct (decide (c = n)) as [->|Hne].
  { left. exists ws. split; [done|]. unfold total_of in Ht. congruence. }
  right. destruct (lookup_lt_is_Some_2 ws c ltac:(lia)) as [w Hc].
  destruct (for_range_prefix _ _ _ _ c Ht ltac:(lia)) as (si & si' & Hsi & Hb).
  rewrite Hf in Hsi. injection Hsi as <-. apply run_bind_Ok in Hb as (r & Hr & Hadd).
  specialize (Hw _ _ Hc) as Hwc. destruct w as [|r'| |].
  - exists (Sys (<[c := Done r]> ws) c t0). split; [by constructor|].
    intros i Hi. apply list_lookup_insert_Some in Hi as [(_ & ? & _)|[_ Hi]]; [done|by apply (Hh i)].
  - destruct Hwc as [_ Hr']. rewrite Hr in Hr'. injection Hr' as <-.
    exists (Sys (<[c := Collected]> ws) (S c) si'). split; [by econstructor|].
    intros i Hi. apply list_lookup_insert_Some in Hi as [(_ & ? & _)|[_ Hi]]; [done|by apply (Hh i)].
  - by destruct (Hh c).
  - lia.
Qed.

Lemma finishes s t :
  total_of nums n = Ok t -> sys_ok s -> healthy s -> exists s', rtc step s s' /\ finished s' t.
Proof.
  intros Ht. remember (steps_left s) as k eqn:Ek. revert s Ek.
  induction k as [k IH] using lt_wf_ind. intros s Ek Hok Hh.
  destruct (progress s t Ht Hok Hh) as [Hf|(s1 & Hs & Hh1)]; [exists s; by split|].
  destruct (IH (steps_left s1)) with (s := s1) as (s2 & Hr & Hf); [|done|by eapply sys_ok_step|done|].
  - rewrite Ek. by apply step_decreases.
  - exists s2. split; [by eapply rtc_l|done].
Qed.
End steps.

(** C15. The sum does not depend on the order in which workers finish: in every
    run of either program in which the parent collects all of them, it holds
    the sum of the results in order of creation. *)
Theorem workers_deterministic `{Worker} (nums : list Z) (n : nat) (s : sys) (t : Z)
    (Hr : rtc (step nums n) (Sys [] 0 0) s) (Hf : finished n s t) :
  total_of nums n = Ok t.
Proof.
  pose proof (sys_ok_reach nums n s Hr) as Hok. destruct Hf as (ws & _ & ->). apply Hok.
Qed.

Lemma workers_deterministic_witness : total_of (H := fork_worker) [200; 100] 1 = Ok 44.
Proof.
  apply (workers_deterministic (H := fork_worker) [200; 100] 1 (Sys [Collected] 1 44) 44).
  - eapply rtc_l; [apply (step_create (H := fork_worker)); simpl; lia|].
    eapply rtc_l; [apply (step_done (H := fork_worker) _ _ _ _ _ 0 44); reflexivity|].
    eapply rtc_l; [apply (step_collect (H := fork_worker) _ _ _ _ _ 44 44); reflexivity|].
    apply rtc_refl.
  - exists [Collected]. split; reflexivity.
Defined.

(** C16. Neither program can deadlock or run on forever: when the additions do
    not overflow, every reachable state without an abnormally ended worker or
    a failed call leads to the final state with the sum, and every step
    decreases a measure. *)
Theorem workers_finish `{Worker} (nums : list Z) (n : nat) (t : Z) (s : sys)
    (Ht : total_of nums n = Ok t) (Hr : rtc (step nums n) (Sys [] 0 0) s) (Hh : healthy s) :
  (exists s', rtc (step nums n) s s' /\ finished n s' t) /\
  forall s', step nums n s s' -> (steps_left n s' < steps_left n s)%nat.
Proof.
  pose proof (sys_ok_reach nums n s Hr) as Hok. split; [by apply finishes|].
  intros s' Hs. by apply step_decreases with (nums := nums).
Qed.

Lemma workers_finish_witness :
  (exists s', rtc (step (H := thread_worker) [200; 100] 1) (Sys [] 0 0) s' /\ finished 1 s' 300) /\
  forall s', step (H := thread_worker) [200; 100] 1 (Sys [] 0 0) s' ->
    (steps_left 1 s' < steps_left 1 (Sys [] 0 0))%nat.
Proof.
  apply (workers_finish (H := thread_worker) [200; 100] 1 300 (Sys [] 0 0)).
  - reflexivity.
  - apply rtc_refl.
  - intros i Hi. discriminate Hi.
Defined.

(** ** The numbers of [numgen] *)
Lemma read_nums_lines l :
  Forall int_range l ->
  read_nums (length l) (print_lines l) = Ok (Some l) /\
  read_nums (length l) (String "010" (print_lines l)) = Ok (Some l).
Proof.
  induction 1 as [|x l Hx Hl [_ IH]]; [done|]. cbn [length read_nums].
  destruct (scan_d_lines x l Hx) as [-> ->]. cbn [mbind run_bind]. by rewrite IH.
Qed.

Definition up_to (n : nat) : list Z := Z.of_nat <$> seq 1 (2 * n).

Lemma up_to_lookup n i : (i < 2 * n)%nat -> up_to n !! i = Some (Z.of_nat i + 1).
Proof.
  intros Hi. unfold up_to. rewrite list_lookup_fmap, lookup_seq_lt by lia. simpl. f_equal. lia.
Qed.

Lemma read_numgen n :
  Z.of_nat (2 * n) <= INT_MAX -> read_input n (numgen_main n true).2 = Ok (Some (up_to n)).
Proof.
  intros Hn. unfold numgen_main, read_input. cbn [snd]. fold (up_to n).
  replace (2 * n)%nat with (length (up_to n)) by (unfold up_to; by rewrite length_fmap, length_seq).
  apply read_nums_lines. apply Forall_lookup_2. intros i x Hi.
  assert (i < 2 * n)%nat.
  { apply lookup_lt_Some in Hi. unfold up_to in Hi. by rewrite length_fmap, length_seq in Hi. }
  rewrite up_to_lookup in Hi by done. injection Hi as <-.
  unfold int_range, INT_MIN, INT_MAX in *. lia.
Qed.

Lemma part_sum_up_to n i :
  (i < n)%nat -> Z.of_nat (4 * n) <= INT_MAX -> part_sum (up_to n) i = Ok (4 * Z.of_nat i + 3).
Proof.
  intros Hi Hn. unfold part_sum.
  rewrite (aget_lookup _ _ _ (up_to_lookup n (2 * i) ltac:(lia))). cbn [mbind run_bind].
  rewrite (aget_lookup _ _ _ (up_to_lookup n (2 * i + 1) ltac:(lia))). cbn [mbind run_bind].
  unfold int_add. rewrite decide_True; [f_equal; lia|].
  unfold int_range, INT_MIN, INT_MAX in *. lia.
Qed.

(** The sums the two programs compute on them, with and without truncation. *)
Fixpoint full_sum (k : nat) : Z :=
  match k with O => 0 | S k' => full_sum k' + (4 * Z.of_nat k' + 3) end.
Fixpoint byte_sum (k : nat) : Z :=
  match k with O => 0 | S k' => byte_sum k' + (4 * Z.of_nat k' + 3) mod 256 end.

Lemma full_sum_closed k : full_sum k = Z.of_nat k * (2 * Z.of_nat k + 1).
Proof. induction k as [|k IH]; cbn [full_sum]; [done|]. rewrite IH. lia. Qed.

Lemma byte_sum_bounds k : 0 <= byte_sum k <= full_sum k.
Proof.
  induction k as [|k IH]; cbn [byte_sum full_sum]; [lia|].
  pose proof (Z.mod_pos_bound (4 * Z.of_nat k + 3) 256 ltac:(lia)).
  pose proof (Z.mod_le (4 * Z.of_nat k + 3) 256 ltac:(lia) ltac:(lia)). lia.
Qed.

Lemma byte_sum_small k : (k <= 64)%nat -> byte_sum k = full_sum k.
Proof.
  induction k as [|k IH]; intros Hk; cbn [byte_sum full_sum]; [done|].
  rewrite IH by lia. rewrite Z.mod_small by lia. done.
Qed.

Lemma byte_sum_large k : (65 <= k)%nat -> byte_sum k < full_sum k.
Proof.
  induction 1 as [|k Hk IH]; cbn [byte_sum full_sum]; [vm_compute; reflexivity|].
  pose proof (Z.mod_le (4 * Z.of_nat k + 3) 256 ltac:(lia) ltac:(lia)). lia.
Qed.

Lemma total_up_to (w : Worker) (f : nat -> Z) (S_ : nat -> Z) n :
  (forall i, (i < n)%nat -> result (up_to n) i = Ok (f i)) ->
  S_ 0%nat = 0 -> (forall k, S_ (S k) = S_ k + f k) ->
  (forall k, (k <= n)%nat -> 0 <= S_ k <= INT_MAX) ->
  total_of (up_to n) n = Ok (S_ n).
Proof.
  intros Hf H0 HS Hb. unfold total_of.
  assert (Hk : forall k, (k <= n)%nat -> for_range (add_result (up_to n)) 0 k 0 = Ok (S_ k));
    [|by apply Hk].
  induction k as [|k IH]; intros Hle; [by rewrite H0|].
  replace (S k) with (k + 1)%nat by lia. rewrite for_range_S, IH by lia.
  cbn [mbind run_bind Nat.add]. unfold add_result. rewrite Hf by lia. cbn [mbind run_bind].
  unfold int_add. rewrite Nat.add_1_r, HS, decide_True; [done|].
  rewrite <- HS. specialize (Hb (S k) Hle). unfold int_range, INT_MIN, INT_MAX in *. lia.
Qed.

Lemma full_sum_le k n : (k <= n)%nat -> full_sum k <= full_sum n.
Proof. rewrite !full_sum_closed. intros H. nia. Qed.

Lemma programs_total n :
  full_sum n <= INT_MAX ->
  total_of (H := fork_worker) (up_to n) n = Ok (byte_sum n) /\
  total_of (H := thread_worker) (up_to n) n = Ok (full_sum n).
Proof.
  intros Hn. assert (Hb : forall k, (k <= n)%nat -> 0 <= byte_sum k <= full_sum k /\ full_sum k <= INT_MAX).
  { intros k Hk. pose proof (byte_sum_bounds k). pose proof (full_sum_le k n Hk). lia. }
  assert (H4 : n = 0%nat \/ Z.of_nat (4 * n) <= INT_MAX).
  { destruct n as [|[|n]]; [by left|right; unfold INT_MAX; lia|right].
    rewrite full_sum_closed in Hn. nia. }
  destruct H4 as [->|H4]; [done|]. split.
  - apply (total_up_to fork_worker (fun i => (4 * Z.of_nat i + 3) mod 256) byte_sum); try done.
    + intros i Hi. cbn [result fork_worker]. rewrite part_sum_up_to by done. cbn [mbind run_bind].
      f_equal. apply (Z.land_ones _ 8). lia.
    + intros k Hk. specialize (Hb k Hk). lia.
  - apply (total_up_to thread_worker (fun i => 4 * Z.of_nat i + 3) full_sum); try done.
    + intros i Hi. by apply part_sum_up_to.
    + intros k Hk. specialize (Hb k Hk). lia.
Qed.

Definition value_line (label : string) (t : Z) : string :=
  "value of " +:+ label +:+ " : " +:+ print_d t +:+ String "010" "".

Lemma programs_main n :
  full_sum n <= INT_MAX ->
  fork_main n (numgen_main n true).2 = Ok (0, value_line "fork" (byte_sum n)) /\
  thread_main n (numgen_main n true).2 = Ok (0, value_line "thread" (full_sum n)).
Proof.
  intros Hn. assert (Hr : Z.of_nat (2 * n) <= INT_MAX).
  { destruct n as [|n]; [done|]. rewrite full_sum_closed in Hn. nia. }
  destruct (programs_total n Hn) as [E1 E2]. unfold fork_main, thread_main, worker_main.
  rewrite read_numgen by done. cbn [mbind run_bind]. by rewrite E1, E2.
Qed.

(** C17. On the file that [numgen] writes for [n] workers, with [n] at most 64,
    [fork.c] and [thread.c] print the same value, n (2 n + 1). *)
Theorem fork_thread_agree (n : nat) (Hn : (n <= 64)%nat) :
  fork_main n (numgen_main n true).2 =
    Ok (0, value_line "fork" (Z.of_nat n * (2 * Z.of_nat n + 1))) /\
  thread_main n (numgen_main n true).2 =
    Ok (0, value_line "thread" (Z.of_nat n * (2 * Z.of_nat n + 1))).
Proof.
  rewrite <- full_sum_closed. rewrite <- (byte_sum_small n Hn) at 1.
  apply programs_main. pose proof (full_sum_le n 64 Hn) as H. cbn in H. unfold INT_MAX. lia.
Qed.

Lemma fork_thread_agree_witness :
  fork_main MAX_PROCESSES (numgen_main MAX_PROCESSES true).2 = Ok (0, value_line "fork" 136) /\
  thread_main MAX_PROCESSES (numgen_main MAX_PROCESSES true).2 = Ok (0, value_line "thread" 136).
Proof. apply (fork_thread_agree MAX_PROCESSES). unfold MAX_PROCESSES. lia. Defined.

(** From 65 workers on the exit status truncates: [fork.c] prints less
    than [thread.c], for every number of workers for which the sum is an
    [int]. *)
Theorem fork_truncates (n : nat) (Hn : (65 <= n)%nat)
    (Hmax : Z.of_nat n * (2 * Z.of_nat n + 1) <= INT_MAX) :
  exists t1 t2, fork_main n (numgen_main n true).2 = Ok (0, value_line "fork" t1) /\
    thread_main n (numgen_main n true).2 = Ok (0, value_line "thread" t2) /\ t1 < t2.
Proof.
  rewrite <- full_sum_closed in Hmax. exists (byte_sum n), (full_sum n).
  destruct (programs_main n Hmax) as [E1 E2]. split_and!; try done. by apply byte_sum_large.
Qed.

Lemma fork_truncates_witness :
  exists t1 t2, fork_main 65 (numgen_main 65 true).2 = Ok (0, value_line "fork" t1) /\
    thread_main 65 (numgen_main 65 true).2 = Ok (0, value_line "thread" t2) /\ t1 < t2.
Proof. apply (fork_truncates 65); [lia|]. vm_compute. discriminate. Defined.
