(* ===== verification/Hook.v ===== *)
(** * Hooking the system call table

    [src/Assignment1]: the system call [os_ftrace], a module that replaces it
    ([os_ftracehooking.c]), and the pair of modules [ftracehooking.c] and
    [iotracehooking.c] that count the file operations of a process.

    The kernel is the table of handlers and the page table entries that
    protect it; a module is its global variables.  Functions are names of
    code, [fn], that a call interprets.  What the modules use of the kernel
    is a parameter: whether a symbol or an address is found, which entry
    protects a slot of the table, and what the original handlers return. *)

From Stdlib Require Import ZArith Lia Ascii String.
From stdpp Require Import base numbers list option strings.
From S2P Require Import Prelude CText.

Local Open Scope Z_scope.

Definition EINVAL : Z := 22.
Definition ENOENT : Z := 2.

(** System call numbers of x86-64. *)
Definition NR_read : nat := 0.
Definition NR_write : nat := 1.
Definition NR_close : nat := 3.
Definition NR_lseek : nat := 8.
Definition NR_openat : nat := 257.

(** [__NR_os_ftrace] of the two assignments. *)
Definition NR_os_ftrace_2 : nat := 548.
Definition NR_os_ftrace_3 : nat := 336.

(** ** The kernel *)
Inductive io_call := Openat | Read | Write | Lseek | Close.

(** Handlers of the modules of later assignments: [os_ftrace_trampoline] of
    assignment 2-1 and [file_varea] of assignment 3-1. *)
Inductive later_fn := Trampoline | FileVarea.

(** Code a slot of the table may point to. *)
Inductive fn :=
| Null                  (** no function *)
| Orig (n : nat)        (** the kernel's handler of call [n] *)
| OsFtrace              (** [os_ftrace] of assignment 1-1 *)
| MyFtrace2             (** [my_ftrace] of assignment 1-2 *)
| MyFtrace3             (** [my_ftrace] of assignment 1-3 *)
| Hooked (c : io_call)  (** [ftrace_openat], [ftrace_read], ... *)
| Later (f : later_fn).

#[export] Instance io_call_eq : EqDecision io_call.
Proof. solve_decision. Defined.
#[export] Instance later_fn_eq : EqDecision later_fn.
Proof. solve_decision. Defined.
#[export] Instance fn_eq : EqDecision fn.
Proof. solve_decision. Defined.

Record kernel := Kernel { table : list fn; ptes : list Z }.

(** The parts of the kernel the modules call: [kallsyms_lookup_name] finds the
    table, [lookup_address] finds the page table entry of its address, and
    [pte_of i] is the entry that covers slot [i]. *)
Class Env := {
  found : bool;
  mapped : bool;
  pte_of : nat -> nat }.

Definition PAGE_RW : Z := 2.
Definition writable (pte : Z) : bool := negb (bool_decide (Z.land pte PAGE_RW = 0)).

Section kernel.
Context `{Env}.

(** [make_rw (sys_call_table)] and [make_ro (sys_call_table)] of
    [os_ftracehooking.c] and [ftracehooking.c]. *)
Definition make_rw (k : kernel) : run kernel :=
  if mapped then
    v ← aget (ptes k) (pte_of 0);
    if writable v then Ok k
    else p ← aset (ptes k) (pte_of 0) (Z.lor v PAGE_RW); Ok (Kernel (table k) p)
  else Ok k.

Definition make_ro (k : kernel) : run kernel :=
  if mapped then
    v ← aget (ptes k) (pte_of 0);
    p ← aset (ptes k) (pte_of 0) (Z.ldiff v PAGE_RW); Ok (Kernel (table k) p)
  else Ok k.

(** Those of [iotracehooking.c]: no test of the pointer, and the bits other
    than [_PAGE_RW] decide. *)
Definition io_make_rw (k : kernel) : run kernel :=
  if mapped then
    v ← aget (ptes k) (pte_of 0);
    if decide (Z.ldiff v PAGE_RW <> 0)
    then p ← aset (ptes k) (pte_of 0) (Z.lor v PAGE_RW); Ok (Kernel (table k) p)
    else Ok k
  else Undef.

Definition io_make_ro (k : kernel) : run kernel := if mapped then make_ro k else Undef.

(** An assignment to a slot: a write to a protected page is a fault. *)
Definition write_slot (i : nat) (f : fn) (k : kernel) : run kernel :=
  v ← aget (ptes k) (pte_of i);
  if writable v then t ← aset (table k) i f; Ok (Kernel t (ptes k)) else Undef.

(** ** [os_ftracehooking.c] and the module part of [ftracehooking.c] *)

(** The globals [sys_call_table] (null or not) and [real_os_ftrace]. *)
Record hookmod := HookMod { have_table : bool; real_os_ftrace : fn }.
Definition hookmod0 : hookmod := HookMod false Null.

(** [hook_init], which the two files share up to the number of the call and
    the new handler: the value returned, the globals and the kernel.  The
    messages the modules log when they are loaded and unloaded are left out. *)
Definition hook_init (nr : nat) (hook : fn) (m : hookmod) (k : kernel)
  : run (Z * hookmod * kernel) :=
  if found then
    old ← aget (table k) nr;
    k1 ← make_rw k;
    k2 ← write_slot nr hook k1;
    k3 ← make_ro k2;
    Ok (0, HookMod true old, k3)
  else Ok (- EINVAL, HookMod false (real_os_ftrace m), k).

Definition hook_exit (nr : nat) (m : hookmod) (k : kernel) : run kernel :=
  if decide (have_table m = false \/ real_os_ftrace m = Null) then Ok k
  else
    k1 ← make_rw k;
    k2 ← write_slot nr (real_os_ftrace m) k1;
    make_ro k2.

Definition hook_init_2 := hook_init NR_os_ftrace_2 MyFtrace2.
Definition hook_exit_2 := hook_exit NR_os_ftrace_2.
Definition hook_init_3 := hook_init NR_os_ftrace_3 MyFtrace3.
Definition hook_exit_3 := hook_exit NR_os_ftrace_3.

(** ** [iotracehooking.c] *)
Record io_trace_stats := Stats {
  open_count : Z; close_count : Z; read_count : Z; write_count : Z; lseek_count : Z;
  read_bytes : Z; write_bytes : Z;
  filename : list ascii }.

Definition stats0 : io_trace_stats := Stats 0 0 0 0 0 0 0 (replicate 256 "000"%char).

(** The globals of the module: [traced_pid], [stats], [syscall_table] and the
    five saved handlers. *)
Record iomod := IoMod {
  traced_pid : Z;
  stats : io_trace_stats;
  io_have_table : bool;
  real_openat : fn; real_read : fn; real_write : fn; real_lseek : fn; real_close : fn }.

Definition iomod0 : iomod := IoMod 0 stats0 false Null Null Null Null Null.

Definition set_stats (st : io_trace_stats) (m : iomod) : iomod :=
  IoMod (traced_pid m) st (io_have_table m) (real_openat m) (real_read m) (real_write m)
    (real_lseek m) (real_close m).

Definition slot (c : io_call) : nat :=
  match c with
  | Openat => NR_openat | Read => NR_read | Write => NR_write | Lseek => NR_lseek | Close => NR_close
  end.

Definition real (m : iomod) (c : io_call) : fn :=
  match c with
  | Openat => real_openat m | Read => real_read m | Write => real_write m
  | Lseek => real_lseek m | Close => real_close m
  end.

(** The five assignments [syscall_table[__NR_x] = f] in their order. *)
Definition io_order : list io_call := [Openat; Read; Write; Lseek; Close].

Fixpoint write_all (f : io_call -> fn) (cs : list io_call) (k : kernel) : run kernel :=
  match cs with
  | [] => Ok k
  | c :: cs' => k' ← write_slot (slot c) (f c) k; write_all f cs' k'
  end.

(** The guarded assignments of [stop_io_trace]: a null handler is skipped. *)
Fixpoint restore_all (m : iomod) (cs : list io_call) (k : kernel) : run kernel :=
  match cs with
  | [] => Ok k
  | c :: cs' =>
      k' ← (if decide (real m c = Null) then Ok k else write_slot (slot c) (real m c) k);
      restore_all m cs' k'
  end.

(** Reading or writing through a null table is a fault.  The lines the two
    functions log are [start_line] and [stop_report] below. *)
Definition start_io_trace (pid : Z) (m : iomod) (k : kernel) : run (iomod * kernel) :=
  if found then
    k1 ← io_make_rw k;
    o ← aget (table k1) NR_openat;
    r ← aget (table k1) NR_read;
    w ← aget (table k1) NR_write;
    l ← aget (table k1) NR_lseek;
    c ← aget (table k1) NR_close;
    k2 ← write_all Hooked io_order k1;
    k3 ← io_make_ro k2;
    Ok (IoMod pid (stats m) true o r w l c, k3)
  else Undef.

Definition stop_io_trace (m : iomod) (k : kernel) : run kernel :=
  if io_have_table m then
    k1 ← io_make_rw k;
    k2 ← restore_all m io_order k1;
    io_make_ro k2
  else Ok k.

(** [iotrace_init] clears the statistics, [iotrace_exit] stops the trace. *)
Definition iotrace_init (m : iomod) : iomod := set_stats stats0 m.
Definition iotrace_exit (m : iomod) (k : kernel) : run kernel := stop_io_trace m k.
End kernel.

(** ** Calls *)

(** The registers a call reads: [di] as a pid, [si] as the file name it points
    to, [dx] as a count. *)
Record pt_regs := Regs { di : Z; si : string; dx : Z }.

(** What runs outside these modules: the kernel's handlers, those of later
    modules (modelled in [Tracer]), and [strncpy_from_user (dst, src, n)], the
    destination afterwards and the value returned; and the name and the pid of
    the calling process, [current]. *)
Class Calls := {
  current_comm : string;
  current_pid : Z;
  original : nat -> pt_regs -> Z;
  later_call : later_fn -> pt_regs -> Z;
  strncpy_from_user : list ascii -> string -> nat -> list ascii * Z }.

(** [os_ftrace] of assignment 1-1. *)
Definition os_ftrace (pid : Z) : Z * string :=
  (0, "ORIGINAL ftrace() called! PID is [" +:+ print_d pid +:+ "]" +:+ nl).

(** The counters are [int]s and [size_t]s of the kernel, which wrap. *)
Definition inc (z : Z) : Z := wraps 32 (z + 1).
Definition add_bytes (b n : Z) : Z := wrapu 64 (b + wrapu 64 n).

Section calls.
Context `{Env} `{Calls}.

(** What the five handlers do to the statistics before they forward. *)
Definition note_call (c : io_call) (r : pt_regs) (s : io_trace_stats) : run io_trace_stats :=
  let '(Stats o cl rd wr ls rb wb f) := s in
  match c with
  | Openat =>
      first ← aget f 0;
      f' ← (if decide (first = "000"%char) then
              let '(f1, n) := strncpy_from_user f (si r) 255 in
              if decide (0 < n) then zset f1 n "000"%char else Ok f1
            else Ok f);
      Ok (Stats (inc o) cl rd wr ls rb wb f')
  | Read => Ok (Stats o cl (inc rd) wr ls (add_bytes rb (dx r)) wb f)
  | Write => Ok (Stats o cl rd (inc wr) ls rb (add_bytes wb (dx r)) f)
  | Lseek => Ok (Stats o cl rd wr (inc ls) rb wb f)
  | Close => Ok (Stats o (inc cl) rd wr ls rb wb f)
  end.

(** A machine with the modules of assignment 1-3 (or 1-2) loaded. *)
Record machine := Machine { kern : kernel; hmod : hookmod; imod : iomod; klog : list string }.

(** The lines [start_io_trace] and [stop_io_trace] log. *)
Definition start_line (pid : Z) : string := "[iotrace] pid" +:+ print_d pid +:+ " tracing start" +:+ nl.

Definition stop_lines (s : io_trace_stats) : list string :=
  ["[2021202089] " +:+ current_comm +:+ " file[" +:+ c_str (filename s) +:+ "] stats [x] read - "
     +:+ print_d (wraps 64 (read_bytes s)) +:+ " / written - " +:+ print_d (wraps 64 (write_bytes s));
   "open[" +:+ print_d (open_count s) +:+ "] close[" +:+ print_d (close_count s) +:+ "] read["
     +:+ print_d (read_count s) +:+ "] write[" +:+ print_d (write_count s) +:+ "] lseek["
     +:+ print_d (lseek_count s) +:+ "]";
   "OS Assignment2 ftrace [" +:+ print_d current_pid +:+ "] End" +:+ nl].

Definition stop_report (m : iomod) : list string :=
  if io_have_table m then stop_lines (stats m) else [].

(** [my_ftrace] of assignment 1-3. *)
Definition my_ftrace_3 (pid : Z) (x : machine) : run (Z * machine) :=
  if decide (traced_pid (imod x) <> 0 /\ pid = traced_pid (imod x)) then
    k ← stop_io_trace (imod x) (kern x);
    let i := imod x in
    Ok (0, Machine k (hmod x) (IoMod 0 (stats i) (io_have_table i) (real_openat i) (real_read i)
              (real_write i) (real_lseek i) (real_close i)) (klog x ++ stop_report i))
  else if decide (0 < pid) then
    '(i, k) ← start_io_trace pid (imod x) (kern x);
    Ok (0, Machine k (hmod x) i (klog x ++ [start_line pid]))
  else Ok (0, x).

(** Running the code [f]; a saved handler may be any code, so the number of
    nested calls is bounded by [fuel]. *)
Fixpoint call (fuel : nat) (f : fn) (r : pt_regs) (x : machine) : run (Z * machine) :=
  match fuel with
  | O => NoFuel
  | S fuel' =>
      match f with
      | Null => Undef
      | Orig n => Ok (original n r, x)
      | Later g => Ok (later_call g r, x)
      | OsFtrace =>
          let '(ret, line) := os_ftrace (di r) in
          Ok (ret, Machine (kern x) (hmod x) (imod x) (klog x ++ [line]))
      | MyFtrace2 =>
          call fuel' (real_os_ftrace (hmod x)) r
            (Machine (kern x) (hmod x) (imod x)
               (klog x ++ ["os_ftrace() hooked! os_ftrace -> my_ftrace"]))
      | MyFtrace3 => my_ftrace_3 (di r) x
      | Hooked c =>
          s ← note_call c r (stats (imod x));
          let x' := Machine (kern x) (hmod x) (set_stats s (imod x)) (klog x) in
          if decide (real (imod x) c = Null) then Ok (- ENOENT, x')
          else call fuel' (real (imod x) c) r x'
      end
  end.

(** A system call: the handler in slot [nr] runs. *)
Definition syscall (fuel : nat) (nr : nat) (r : pt_regs) (x : machine) : run (Z * machine) :=
  f ← aget (table (kern x)) nr; call fuel f r x.
End calls.
