(* ===== verification/HookFacts.v ===== *)
(** * Theorems about the hooking modules

    Installing a hook changes one slot and leaves the page protected, removing
    it restores the kernel; a hooked call returns what the original returns
    and is counted; tracing twice without stopping makes the hooks call
    themselves. *)

From Stdlib Require Import ZArith Lia Ascii String.
From stdpp Require Import base numbers list option strings sets.
From S2P Require Import Prelude CText Hook.

Local Open Scope Z_scope.

(** ** Protection bits *)
Lemma rw_bit i : 0 <= i -> i <> 1 -> Z.testbit PAGE_RW i = false.
Proof. intros Hi Hne. change PAGE_RW with (2 ^ 1). apply Z.pow2_bits_false. lia. Qed.

Lemma writable_spec v : writable v = Z.testbit v 1.
Proof.
  unfold writable. destruct (Z.testbit v 1) eqn:E.
  - apply negb_true_iff, bool_decide_eq_false. intros H.
    assert (Hb : Z.testbit (Z.land v PAGE_RW) 1 = false) by (by rewrite H).
    rewrite Z.land_spec, E in Hb. done.
  - apply negb_false_iff, bool_decide_eq_true. apply Z.bits_inj'. intros i Hi.
    rewrite Z.land_spec, Z.bits_0. destruct (decide (i = 1)) as [->|Hne]; [by rewrite E|].
    rewrite rw_bit by done. by rewrite andb_false_r.
Qed.

Lemma writable_set v : writable (Z.lor v PAGE_RW) = true.
Proof. rewrite writable_spec, Z.lor_spec. by rewrite orb_true_r. Qed.

Lemma writable_clear v : writable (Z.ldiff v PAGE_RW) = false.
Proof. rewrite writable_spec, Z.ldiff_spec. by rewrite andb_false_r. Qed.

Lemma clear_protected v : writable v = false -> Z.ldiff v PAGE_RW = v.
Proof.
  rewrite writable_spec. intros Hv. apply Z.bits_inj'. intros i Hi. rewrite Z.ldiff_spec.
  destruct (decide (i = 1)) as [->|Hne]; [by rewrite Hv|].
  rewrite rw_bit by done. by rewrite andb_true_r.
Qed.

Lemma clear_set v : Z.ldiff (Z.lor v PAGE_RW) PAGE_RW = Z.ldiff v PAGE_RW.
Proof.
  apply Z.bits_inj'. intros i Hi. rewrite !Z.ldiff_spec, Z.lor_spec.
  destruct (Z.testbit v i), (Z.testbit PAGE_RW i); done.
Qed.

(** ** Patching the table *)

(** The table is found and its page is present and protected; it has the slots
    the modules use, all on the page of slot 0. *)
Record table_ok `{Env} (k : kernel) (v : Z) : Prop := {
  tk_found : found = true;
  tk_mapped : mapped = true;
  tk_pte : ptes k !! pte_of 0 = Some v;
  tk_ro : writable v = false;
  tk_present : Z.ldiff v PAGE_RW <> 0;
  tk_len : (549 <= length (table k))%nat;
  tk_page i : (i <= 548)%nat -> pte_of i = pte_of 0 }.

Definition set_table (t : list fn) (k : kernel) : kernel := Kernel t (ptes k).

(** The page open for writing. *)
Definition opened `{Env} (v : Z) (k : kernel) : kernel :=
  Kernel (table k) (<[pte_of 0 := Z.lor v PAGE_RW]> (ptes k)).

Section patch.
Context `{Env} {k : kernel} {v : Z} (Hk : table_ok k v).

Lemma pte_lt : (pte_of 0 < length (ptes k))%nat.
Proof. by eapply lookup_lt_Some, tk_pte. Qed.

Lemma make_rw_ok : make_rw k = Ok (opened v k).
Proof.
  unfold make_rw. rewrite (tk_mapped _ _ Hk), (aget_lookup _ _ _ (tk_pte _ _ Hk)).
  cbn [mbind run_bind]. rewrite (tk_ro _ _ Hk), aset_lt by apply pte_lt. done.
Qed.

Lemma io_make_rw_ok : io_make_rw k = Ok (opened v k).
Proof.
  unfold io_make_rw. rewrite (tk_mapped _ _ Hk), (aget_lookup _ _ _ (tk_pte _ _ Hk)).
  cbn [mbind run_bind]. rewrite decide_True by apply (tk_present _ _ Hk).
  rewrite aset_lt by apply pte_lt. done.
Qed.

Lemma write_slot_ok t i f :
  length t = length (table k) -> (i <= 548)%nat ->
  write_slot i f (opened v (set_table t k)) = Ok (opened v (set_table (<[i := f]> t) k)).
Proof.
  intros Hl Hi. unfold write_slot, opened, set_table. cbn [ptes table].
  rewrite (tk_page _ _ Hk i Hi).
  rewrite (aget_lookup _ _ (Z.lor v PAGE_RW)) by (apply list_lookup_insert_eq, pte_lt).
  cbn [mbind run_bind]. rewrite writable_set, aset_lt; [done|]. pose proof (tk_len _ _ Hk). lia.
Qed.

Lemma make_ro_ok t : make_ro (opened v (set_table t k)) = Ok (set_table t k).
Proof.
  unfold make_ro, opened, set_table. cbn [ptes table]. rewrite (tk_mapped _ _ Hk).
  rewrite (aget_lookup _ _ (Z.lor v PAGE_RW)) by (apply list_lookup_insert_eq, pte_lt).
  cbn [mbind run_bind]. rewrite aset_lt by (rewrite length_insert; apply pte_lt).
  cbn [mbind run_bind]. rewrite list_insert_insert_eq, clear_set, clear_protected by apply (tk_ro _ _ Hk).
  rewrite list_insert_id by apply (tk_pte _ _ Hk). done.
Qed.

Lemma io_make_ro_ok t : io_make_ro (opened v (set_table t k)) = Ok (set_table t k).
Proof. unfold io_make_ro. rewrite (tk_mapped _ _ Hk). apply make_ro_ok. Qed.

Lemma table_ok_set t : length t = length (table k) -> table_ok (set_table t k) v.
Proof. intros Hl. destruct Hk. split; try done. cbn [table set_table]. by rewrite Hl. Qed.

(** Opening, writing one slot and closing. *)
Lemma patch_slot i f :
  (i <= 548)%nat ->
  (k1 ← make_rw k; k2 ← write_slot i f k1; make_ro k2) = Ok (set_table (<[i := f]> (table k)) k).
Proof.
  intros Hi. rewrite make_rw_ok. cbn [mbind run_bind].
  change (opened v k) with (opened v (set_table (table k) k)).
  rewrite write_slot_ok by done. cbn [mbind run_bind]. apply make_ro_ok.
Qed.

Lemma hook_init_ok nr hook m old :
  (nr <= 548)%nat -> table k !! nr = Some old ->
  hook_init nr hook m k = Ok (0, HookMod true old, set_table (<[nr := hook]> (table k)) k).
Proof.
  intros Hnr Hold. unfold hook_init. rewrite (tk_found _ _ Hk), (aget_lookup _ _ _ Hold).
  cbn [mbind run_bind]. pose proof (patch_slot nr hook Hnr) as E.
  destruct (make_rw k) as [k1| |]; try done. cbn [mbind run_bind] in *.
  destruct (write_slot nr hook k1) as [k2| |]; try done. cbn [mbind run_bind] in *. by rewrite E.
Qed.
End patch.

(** C18. Loading and unloading a hooking module: on a kernel whose table is
    found, present and protected, [hook_init] returns 0, replaces exactly the
    slot of the call and leaves the page protected; [hook_exit] then restores
    the kernel completely.  This holds for the modules of assignments 1-2 and
    1-3, which differ in the slot and the handler. *)
Theorem hook_roundtrip `{Env} (k : kernel) (v : Z) (nr : nat) (hook old : fn) (m : hookmod)
    (Hk : table_ok k v) (Hnr : (nr <= 548)%nat) (Hold : table k !! nr = Some old) (Hne : old <> Null) :
  exists m' k', hook_init nr hook m k = Ok (0, m', k') /\ ptes k' = ptes k /\
    table k' = <[nr := hook]> (table k) /\ hook_exit nr m' k' = Ok k.
Proof.
  rewrite (hook_init_ok Hk nr hook m old Hnr Hold). eexists _, _. split_and!; [done..|].
  unfold hook_exit. cbn [have_table real_os_ftrace]. rewrite decide_False by naive_solver.
  pose proof (table_ok_set Hk (<[nr := hook]> (table k)) (length_insert _ _ _)) as Hk'.
  rewrite (patch_slot Hk' nr old Hnr). cbn [set_table table]. f_equal.
  rewrite list_insert_insert_eq, list_insert_id by done. by destruct k.
Qed.

(** A kernel with 600 slots on one protected page. *)
#[export] Instance one_page : Env := {| found := true; mapped := true; pte_of := fun _ => 0%nat |}.
Definition kernel1 : kernel := Kernel (<[548%nat := OsFtrace]> (Orig <$> seq 0 600)) [1].

Lemma kernel1_ok : table_ok kernel1 1.
Proof. split; try done. unfold kernel1. cbn [table]. rewrite length_insert, length_fmap, length_seq. lia. Qed.

Lemma hook_roundtrip_witness :
  exists m' k', hook_init_2 hookmod0 kernel1 = Ok (0, m', k') /\ ptes k' = [1] /\
    table k' = <[548%nat := MyFtrace2]> (table kernel1) /\ hook_exit_2 m' k' = Ok kernel1.
Proof.
  apply (hook_roundtrip kernel1 1 NR_os_ftrace_2 MyFtrace2 OsFtrace hookmod0 kernel1_ok);
    [unfold NR_os_ftrace_2; lia|reflexivity|discriminate].
Defined.

(** The hook of assignment 1-2 forwards: a call of [os_ftrace] after
    [hook_init] logs the line of the hook and then that of the original
    system call, returns what the original returns and changes nothing
    else. *)
Theorem hook_forwards `{Env} `{Calls} (x : machine) (v : Z) (r : pt_regs)
    (Hk : table_ok (kern x) v) (Hold : table (kern x) !! NR_os_ftrace_2 = Some OsFtrace) :
  exists m' k', hook_init_2 (hmod x) (kern x) = Ok (0, m', k') /\
    syscall 2 NR_os_ftrace_2 r (Machine k' m' (imod x) (klog x)) =
      Ok ((os_ftrace (di r)).1, Machine k' m' (imod x)
            (klog x ++ ["os_ftrace() hooked! os_ftrace -> my_ftrace"] ++ [(os_ftrace (di r)).2])).
Proof.
  unfold hook_init_2. rewrite (hook_init_ok Hk NR_os_ftrace_2 MyFtrace2 _ OsFtrace) by (unfold NR_os_ftrace_2; done || lia).
  eexists _, _. split; [done|]. unfold syscall. cbn [kern set_table table].
  rewrite (aget_lookup _ _ MyFtrace2).
  - cbn. by rewrite <- app_assoc.
  - apply list_lookup_insert_eq. pose proof (tk_len _ _ Hk). unfold NR_os_ftrace_2. lia.
Qed.

(** A copy from user memory that never faults, and handlers that return their
    number. *)
#[export] Instance calls1 : Calls := {|
  current_comm := "sh";
  current_pid := 7;
  original n r := Z.of_nat n;
  later_call _ _ := 0;
  strncpy_from_user dst src n :=
    let l := take n (list_ascii_of_string src) in
    (splice dst 0 (if decide (String.length src < n)%nat then l ++ ["000"%char] else l),
     Z.of_nat (length l)) |}.

Lemma hook_forwards_witness :
  exists m' k', hook_init_2 hookmod0 kernel1 = Ok (0, m', k') /\
    syscall 2 NR_os_ftrace_2 (Regs 7 "" 0) (Machine k' m' iomod0 []) =
      Ok (0, Machine k' m' iomod0
        ["os_ftrace() hooked! os_ftrace -> my_ftrace"; (os_ftrace 7).2]).
Proof.
  apply (hook_forwards (Machine kernel1 hookmod0 iomod0 []) 1 (Regs 7 "" 0) kernel1_ok).
  reflexivity.
Defined.

(** Opening the page of slot 0 is not enough for slot 548: if that slot is
    covered by another page table entry, which is protected, [hook_init] of
    assignment 1-2 faults on the assignment.  With pages of 4 KiB and an
    aligned table this is the case, since 548 slots take 4384 bytes. *)
Theorem hook_other_page `{Env} (k : kernel) (m : hookmod) (v v' : Z) (old : fn)
    (Hf : found = true) (Hm : mapped = true) (Hold : table k !! NR_os_ftrace_2 = Some old)
    (Hv : ptes k !! pte_of 0 = Some v) (Hv' : ptes k !! pte_of NR_os_ftrace_2 = Some v')
    (Hne : pte_of NR_os_ftrace_2 <> pte_of 0) (Hro : writable v' = false) :
  hook_init_2 m k = Undef.
Proof.
  unfold hook_init_2, hook_init, make_rw. rewrite Hf, Hm, (aget_lookup _ _ _ Hold), (aget_lookup _ _ _ Hv).
  cbn [mbind run_bind].
  assert (Hw : forall p, ptes p !! pte_of NR_os_ftrace_2 = Some v' ->
    write_slot NR_os_ftrace_2 MyFtrace2 p = Undef).
  { intros p Hp. unfold write_slot. rewrite (aget_lookup _ _ _ Hp). cbn [mbind run_bind]. by rewrite Hro. }
  destruct (writable v); cbn [mbind run_bind]; [by rewrite Hw|].
  rewrite aset_lt by (by eapply lookup_lt_Some). cbn [mbind run_bind]. rewrite Hw; [done|].
  cbn [ptes]. by rewrite list_lookup_insert_ne by done.
Qed.

(** Slots of 8 bytes on pages of 4 KiB. *)
Definition small_pages : Env :=
  {| found := true; mapped := true; pte_of := fun i => (i * 8 / 4096)%nat |}.

Lemma hook_other_page_witness :
  hook_init_2 (H := small_pages) hookmod0 (Kernel (table kernel1) [1; 1]) = Undef.
Proof.
  apply (hook_other_page (H := small_pages) (Kernel (table kernel1) [1; 1]) hookmod0 1 1 OsFtrace);
    try reflexivity. vm_compute. discriminate.
Defined.

(** ** Tracing *)

(** The slots of the five calls after tracing has started. *)
Definition hooked_table (t : list fn) : list fn :=
  foldl (fun t c => <[slot c := Hooked c]> t) t io_order.

Lemma slot_bound c : (slot c <= 548)%nat.
Proof. destruct c; cbn; unfold NR_openat, NR_read, NR_write, NR_lseek, NR_close; lia. Qed.

Section tracing.
Context `{Env} {k : kernel} {v : Z} (Hk : table_ok k v).

Lemma write_all_ok f cs t :
  length t = length (table k) ->
  write_all f cs (opened v (set_table t k)) =
    Ok (opened v (set_table (foldl (fun t c => <[slot c := f c]> t) t cs) k)).
Proof.
  revert t. induction cs as [|c cs IH]; intros t Hl; cbn [write_all foldl]; [done|].
  rewrite (write_slot_ok Hk) by (first [done|apply slot_bound]). cbn [mbind run_bind].
  apply IH. by rewrite length_insert.
Qed.

Lemma restore_all_ok m cs t :
  (forall c, real m c <> Null) -> length t = length (table k) ->
  restore_all m cs (opened v (set_table t k)) =
    Ok (opened v (set_table (foldl (fun t c => <[slot c := real m c]> t) t cs) k)).
Proof.
  intros Hr. revert t. induction cs as [|c cs IH]; intros t Hl; cbn [restore_all foldl]; [done|].
  rewrite decide_False by apply Hr.
  rewrite (write_slot_ok Hk) by (first [done|apply slot_bound]). cbn [mbind run_bind].
  apply IH. by rewrite length_insert.
Qed.

Lemma start_ok pid m (old : io_call -> fn) :
  (forall c, table k !! slot c = Some (old c)) ->
  start_io_trace pid m k =
    Ok (IoMod pid (stats m) true (old Openat) (old Read) (old Write) (old Lseek) (old Close),
        set_table (hooked_table (table k)) k).
Proof.
  intros Hold. unfold start_io_trace. rewrite (tk_found _ _ Hk), (io_make_rw_ok Hk).
  cbn [mbind run_bind]. change (table (opened v k)) with (table k).
  rewrite (aget_lookup _ _ _ (Hold Openat) : aget _ NR_openat = _). cbn [mbind run_bind].
  rewrite (aget_lookup _ _ _ (Hold Read) : aget _ NR_read = _). cbn [mbind run_bind].
  rewrite (aget_lookup _ _ _ (Hold Write) : aget _ NR_write = _). cbn [mbind run_bind].
  rewrite (aget_lookup _ _ _ (Hold Lseek) : aget _ NR_lseek = _). cbn [mbind run_bind].
  rewrite (aget_lookup _ _ _ (Hold Close) : aget _ NR_close = _). cbn [mbind run_bind].
  change (opened v k) with (opened v (set_table (table k) k)).
  rewrite write_all_ok by done. cbn [mbind run_bind]. rewrite (io_make_ro_ok Hk). done.
Qed.

Lemma stop_ok m t :
  io_have_table m = true -> (forall c, real m c <> Null) -> length t = length (table k) ->
  stop_io_trace m (set_table t k) =
    Ok (set_table (foldl (fun t c => <[slot c := real m c]> t) t io_order) k).
Proof.
  intros Hm Hr Hl. unfold stop_io_trace. rewrite Hm, (io_make_rw_ok (table_ok_set Hk t Hl)).
  cbn [mbind run_bind].
  rewrite restore_all_ok by done. cbn [mbind run_bind]. apply (io_make_ro_ok Hk).
Qed.
End tracing.

(** The five slots do not overlap, so restoring them gives the old table. *)
Lemma slot_inj c c' : slot c = slot c' -> c = c'.
Proof. destruct c, c'; cbn; unfold NR_openat, NR_read, NR_write, NR_lseek, NR_close; congruence. Qed.

Lemma foldl_slots_lookup (f : io_call -> fn) cs t i :
  (forall c, (slot c < length t)%nat) ->
  foldl (fun t c => <[slot c := f c]> t) t cs !! i =
    match list_find (fun c => slot c = i) cs with Some (_, c) => Some (f c) | None => t !! i end.
Proof.
  revert t. induction cs as [|c cs IH]; intros t Hl; cbn [foldl list_find]; [done|].
  rewrite IH by (intros c'; rewrite length_insert; apply Hl).
  destruct (decide (slot c = i)) as [<-|Hne].
  - destruct (list_find (fun c0 => slot c0 = slot c) cs) as [[j c']|] eqn:E.
    + apply list_find_Some in E as (_ & E & _). by apply slot_inj in E as ->.
    + by rewrite list_lookup_insert_eq by apply Hl.
  - destruct (list_find (fun c0 => slot c0 = i) cs) as [[j c']|]; cbn; [done|].
    by rewrite list_lookup_insert_ne by done.
Qed.

Lemma hooked_lookup t c :
  (549 <= length t)%nat -> hooked_table t !! slot c = Some (Hooked c).
Proof.
  intros Hl. unfold hooked_table.
  rewrite (foldl_slots_lookup Hooked) by (intros c'; pose proof (slot_bound c'); lia).
  destruct c; reflexivity.
Qed.

Lemma hooked_length t : length (hooked_table t) = length t.
Proof. unfold hooked_table, io_order. cbn [foldl]. by rewrite !length_insert. Qed.

Lemma hooked_idem t : (549 <= length t)%nat -> hooked_table (hooked_table t) = hooked_table t.
Proof.
  intros Hl. assert (Hs : forall c, (slot c < length t)%nat) by (intros c; pose proof (slot_bound c); lia).
  apply list_eq. intros i. unfold hooked_table at 1.
  rewrite (foldl_slots_lookup Hooked) by (intros c; rewrite hooked_length; apply Hs).
  destruct (list_find (fun c => slot c = i) io_order) as [[j c]|] eqn:E; [|done].
  apply list_find_Some in E as (_ & <- & _). symmetry. by apply hooked_lookup.
Qed.

Lemma restore_table t (old : io_call -> fn) :
  (549 <= length t)%nat -> (forall c, t !! slot c = Some (old c)) ->
  foldl (fun t c => <[slot c := old c]> t) (hooked_table t) io_order = t.
Proof.
  intros Hl Hold. assert (Hs : forall c, (slot c < length t)%nat) by (intros c; pose proof (slot_bound c); lia).
  apply list_eq. intros i.
  rewrite foldl_slots_lookup by (intros c; rewrite hooked_length; apply Hs).
  unfold hooked_table. rewrite (foldl_slots_lookup Hooked) by apply Hs.
  destruct (list_find (fun c => slot c = i) io_order) as [[j c]|] eqn:E; [|done].
  apply list_find_Some in E as (_ & <- & _). by rewrite Hold.
Qed.

(** ** Counting *)
Lemma wraps_mod w a b : a mod 2 ^ w = b mod 2 ^ w -> wraps w a = wraps w b.
Proof. unfold wraps, wrapu. by intros ->. Qed.

Lemma wraps_congr w a : 0 <= w -> wraps w a mod 2 ^ w = a mod 2 ^ w.
Proof.
  intros Hw. unfold wraps, wrapu. pose proof (Z.pow_pos_nonneg 2 w ltac:(lia) Hw).
  case_decide; [apply Z.mod_mod; lia|].
  replace (a mod 2 ^ w - 2 ^ w) with (a mod 2 ^ w + (-1) * 2 ^ w) by lia.
  rewrite Z.mod_add by lia. apply Z.mod_mod. lia.
Qed.

Lemma inc_wraps n : inc (wraps 32 n) = wraps 32 (n + 1).
Proof.
  unfold inc. apply wraps_mod. rewrite Z.add_mod, wraps_congr by lia.
  by rewrite <- Z.add_mod by lia.
Qed.

Lemma add_bytes_wrapu b n : add_bytes (wrapu 64 b) n = wrapu 64 (b + n).
Proof. unfold add_bytes, wrapu. by rewrite <- Z.add_mod by lia. Qed.

(** The calls of kind [c] in a trace, and the bytes they ask for. *)
Definition calls_of (c : io_call) (l : list (io_call * pt_regs)) : list pt_regs :=
  snd <$> filter (fun x => x.1 = c) l.
Definition count_of (c : io_call) (l : list (io_call * pt_regs)) : Z :=
  Z.of_nat (length (calls_of c l)).
Definition bytes_of (c : io_call) (l : list (io_call * pt_regs)) : Z :=
  foldr Z.add 0 (dx <$> calls_of c l).

(** The statistics of the trace [l]. *)
Record stats_of (l : list (io_call * pt_regs)) (s : io_trace_stats) : Prop := {
  st_open : open_count s = wraps 32 (count_of Openat l);
  st_close : close_count s = wraps 32 (count_of Close l);
  st_read : read_count s = wraps 32 (count_of Read l);
  st_write : write_count s = wraps 32 (count_of Write l);
  st_lseek : lseek_count s = wraps 32 (count_of Lseek l);
  st_rbytes : read_bytes s = wrapu 64 (bytes_of Read l);
  st_wbytes : write_bytes s = wrapu 64 (bytes_of Write l);
  st_name : length (filename s) = 256%nat }.

Lemma calls_of_snoc c l c' r :
  calls_of c (l ++ [(c', r)]) = calls_of c l ++ (if decide (c' = c) then [r] else []).
Proof.
  unfold calls_of. rewrite filter_app, fmap_app. f_equal. rewrite filter_cons, filter_nil.
  cbn [fst]. by case_decide.
Qed.

Lemma count_snoc c l c' r :
  count_of c (l ++ [(c', r)]) = count_of c l + (if decide (c' = c) then 1 else 0).
Proof. unfold count_of. rewrite calls_of_snoc, length_app. case_decide; cbn [length]; lia. Qed.

Lemma foldr_add_snoc l z : foldr Z.add 0 (l ++ [z]) = foldr Z.add 0 l + z.
Proof. induction l as [|x l IH]; cbn [app foldr]; lia. Qed.

Lemma bytes_snoc c l c' r :
  bytes_of c (l ++ [(c', r)]) = bytes_of c l + (if decide (c' = c) then dx r else 0).
Proof.
  unfold bytes_of. rewrite calls_of_snoc, fmap_app. case_decide; cbn [fmap list_fmap].
  - apply foldr_add_snoc.
  - rewrite app_nil_r. lia.
Qed.

Section counting.
Context `{Calls}.
(** [strncpy_from_user] stays within the buffer and returns at most its
    bound. *)
Context (Hcopy : forall f src, length f = 256%nat ->
  length (strncpy_from_user f src 255).1 = 256%nat /\ (strncpy_from_user f src 255).2 <= 255).

Lemma note_name_ok r f :
  length f = 256%nat ->
  exists f', (first ← aget f 0;
    (if decide (first = "000"%char) then
       let '(f1, n) := strncpy_from_user f (si r) 255 in
       if decide (0 < n) then zset f1 n "000"%char else Ok f1
     else Ok f)) = Ok f' /\ length f' = 256%nat.
Proof.
  intros Hf. destruct (aget_lt f 0) as (a & _ & ->); [lia|]. cbn [mbind run_bind].
  case_decide; [|eauto]. destruct (Hcopy f (si r) Hf) as [Hl Hn].
  destruct (strncpy_from_user f (si r) 255) as [f1 n]. cbn [fst snd] in *.
  case_decide; [|eauto]. rewrite <- (Z2Nat.id n) by lia. rewrite zset_nat by lia.
  eexists. split; [done|]. by rewrite length_insert.
Qed.

Lemma note_call_ok c r l s :
  stats_of l s -> exists s', note_call c r s = Ok s' /\ stats_of (l ++ [(c, r)]) s'.
Proof.
  intros [H1 H2 H3 H4 H5 H6 H7 H8]. destruct s as [o cl rd wr ls rb wb f]. cbn in *. subst.
  assert (Hst : forall f', length f' = 256%nat ->
    stats_of (l ++ [(c, r)]) (Stats
      (if decide (c = Openat) then inc (wraps 32 (count_of Openat l)) else wraps 32 (count_of Openat l))
      (if decide (c = Close) then inc (wraps 32 (count_of Close l)) else wraps 32 (count_of Close l))
      (if decide (c = Read) then inc (wraps 32 (count_of Read l)) else wraps 32 (count_of Read l))
      (if decide (c = Write) then inc (wraps 32 (count_of Write l)) else wraps 32 (count_of Write l))
      (if decide (c = Lseek) then inc (wraps 32 (count_of Lseek l)) else wraps 32 (count_of Lseek l))
      (if decide (c = Read) then add_bytes (wrapu 64 (bytes_of Read l)) (dx r) else wrapu 64 (bytes_of Read l))
      (if decide (c = Write) then add_bytes (wrapu 64 (bytes_of Write l)) (dx r) else wrapu 64 (bytes_of Write l))
      f')).
  { intros f' Hf'. split; cbn; rewrite ?count_snoc, ?bytes_snoc, ?inc_wraps, ?add_bytes_wrapu;
      try (case_decide; rewrite ?Z.add_0_r); done. }
  destruct c; cbn [note_call]; try (eexists; split; [reflexivity|]; exact (Hst f H8)).
  destruct (note_name_ok r f H8) as (f' & E & Hf').
  destruct (aget f 0) as [a| |]; try done. cbn [mbind run_bind] in *. rewrite E. cbn [mbind run_bind].
  eexists. split; [done|]. exact (Hst f' Hf').
Qed.
End counting.

(** ** Traced calls *)

(** A sequence of file operations through the table. *)
Fixpoint run_io `{Env} `{Calls} (l : list (io_call * pt_regs)) (x : machine)
  : run (list Z * machine) :=
  match l with
  | [] => Ok ([], x)
  | (c, r) :: l' =>
      '(ret, x1) ← syscall 2 (slot c) r x;
      '(rets, x2) ← run_io l' x1;
      Ok (ret :: rets, x2)
  end.

Section traced.
Context `{Env} `{Calls}.
Context (Hcopy : forall f src, length f = 256%nat ->
  length (strncpy_from_user f src 255).1 = 256%nat /\ (strncpy_from_user f src 255).2 <= 255).

(** Tracing is on and the saved handlers are the kernel's. *)
Definition tracing (x : machine) : Prop :=
  forall c, table (kern x) !! slot c = Some (Hooked c) /\ real (imod x) c = Orig (slot c).

Lemma traced_call c r x l :
  tracing x -> stats_of l (stats (imod x)) ->
  exists x', syscall 2 (slot c) r x = Ok (original (slot c) r, x') /\ tracing x' /\
    stats_of (l ++ [(c, r)]) (stats (imod x')) /\ kern x' = kern x /\ hmod x' = hmod x /\
    (exists s, imod x' = set_stats s (imod x)) /\ klog x' = klog x.
Proof.
  intros Ht Hs. destruct (Ht c) as [Htab Hreal]. unfold syscall.
  rewrite (aget_lookup _ _ _ Htab). cbn [mbind run_bind call].
  destruct (note_call_ok Hcopy c r l _ Hs) as (s' & -> & Hs'). cbn [mbind run_bind].
  rewrite Hreal. rewrite decide_False by done. cbn [call].
  eexists. split; [done|]. cbn [kern hmod imod klog]. split_and!; try done; try (by eexists).
Qed.

Lemma run_io_ok l x pre :
  tracing x -> stats_of pre (stats (imod x)) ->
  exists x', run_io l x = Ok ((fun cr => original (slot cr.1) cr.2) <$> l, x') /\
    stats_of (pre ++ l) (stats (imod x')) /\ kern x' = kern x /\ hmod x' = hmod x /\
    (exists s, imod x' = set_stats s (imod x)) /\ klog x' = klog x.
Proof.
  revert x pre. induction l as [|[c r] l IH]; intros x pre Ht Hs; cbn [run_io].
  - exists x. rewrite app_nil_r. split_and!; try done. exists (stats (imod x)). by destruct (imod x).
  - destruct (traced_call c r x pre Ht Hs) as (x1 & -> & Ht1 & Hs1 & E1 & E2 & [s1 E3] & E4).
    cbn [mbind run_bind]. destruct (IH x1 _ Ht1 Hs1) as (x2 & -> & Hs2 & F1 & F2 & [s2 F3] & F4).
    cbn [mbind run_bind]. exists x2. rewrite <- app_assoc in Hs2.
    split_and!; [done|done|congruence|congruence| |congruence].
    exists s2. by rewrite F3, E3.
Qed.
End traced.

(** A file operation of the process [caller]. *)
Record io_event := Event { caller : Z; op : io_call; args : pt_regs }.

Definition calls (l : list io_event) : list (io_call * pt_regs) := (fun e => (op e, args e)) <$> l.

(** The operations of the process that is traced, and those of all others. *)
Definition own (pid : Z) (l : list io_event) : list io_event := filter (fun e => caller e = pid) l.
Definition others (pid : Z) (l : list io_event) : list io_event := filter (fun e => caller e <> pid) l.

(** The counter of a kind of call. *)
Definition counter (c : io_call) (s : io_trace_stats) : Z :=
  match c with
  | Openat => open_count s
  | Close => close_count s
  | Read => read_count s
  | Write => write_count s
  | Lseek => lseek_count s
  end.

Lemma calls_cons e l : calls (e :: l) = (op e, args e) :: calls l.
Proof. done. Qed.

Lemma count_cons c c' r l : count_of c ((c', r) :: l) = (if decide (c' = c) then 1 else 0) + count_of c l.
Proof.
  unfold count_of, calls_of. rewrite filter_cons. cbn [fst]. case_decide; cbn [fmap list_fmap length]; lia.
Qed.

Lemma bytes_cons c c' r l : bytes_of c ((c', r) :: l) = (if decide (c' = c) then dx r else 0) + bytes_of c l.
Proof.
  unfold bytes_of, calls_of. rewrite filter_cons. cbn [fst]. case_decide; cbn [fmap list_fmap foldr snd]; lia.
Qed.

(** Every call is by the process traced or by another one. *)
Lemma split_callers c pid l :
  count_of c (calls l) = count_of c (calls (own pid l)) + count_of c (calls (others pid l)) /\
  bytes_of c (calls l) = bytes_of c (calls (own pid l)) + bytes_of c (calls (others pid l)).
Proof.
  unfold own, others. induction l as [|e l [IH1 IH2]]; [done|].
  rewrite calls_cons, !filter_cons, count_cons, bytes_cons, IH1, IH2.
  destruct (decide (caller e = pid)), (decide (caller e <> pid)); try done;
    rewrite calls_cons, count_cons, bytes_cons; split; lia.
Qed.

(** C19. A trace from start to stop: on a machine that is not tracing and whose
    file calls are the kernel's, [os_ftrace (pid)] starts the trace; each of
    the following file operations, of any process, returns what the kernel's
    handler returns; the second [os_ftrace (pid)] restores the kernel exactly
    and logs the statistics.  These are not filtered by [traced_pid], which the
    header promises: each counter is the number of calls of that kind by the
    process traced plus the number by all other processes (at 32 bits), and
    [read_bytes] and [write_bytes] sum the bytes that all these calls asked
    for (at 64 bits), whatever the calls returned. *)
Theorem io_trace_session `{Env} `{Calls} (x : machine) (v pid : Z) (l : list io_event)
    (Hcopy : forall f src, length f = 256%nat ->
      length (strncpy_from_user f src 255).1 = 256%nat /\ (strncpy_from_user f src 255).2 <= 255)
    (Hk : table_ok (kern x) v) (Hold : forall c, table (kern x) !! slot c = Some (Orig (slot c)))
    (Hpid : 0 < pid) (Hidle : traced_pid (imod x) = 0) (Hst : stats (imod x) = stats0) :
  exists x1 x2 x3,
    my_ftrace_3 pid x = Ok (0, x1) /\ traced_pid (imod x1) = pid /\
    run_io (calls l) x1 = Ok ((fun e => original (slot (op e)) (args e)) <$> l, x2) /\
    my_ftrace_3 pid x2 = Ok (0, x3) /\
    kern x3 = kern x /\ traced_pid (imod x3) = 0 /\
    (forall c, counter c (stats (imod x3)) =
       wraps 32 (count_of c (calls (own pid l)) + count_of c (calls (others pid l)))) /\
    read_bytes (stats (imod x3)) =
      wrapu 64 (bytes_of Read (calls (own pid l)) + bytes_of Read (calls (others pid l))) /\
    write_bytes (stats (imod x3)) =
      wrapu 64 (bytes_of Write (calls (own pid l)) + bytes_of Write (calls (others pid l))) /\
    klog x3 = klog x ++ start_line pid :: stop_lines (stats (imod x3)).
Proof.
  pose proof (start_ok Hk pid (imod x) (fun c => Orig (slot c)) Hold) as Es.
  pose proof (tk_len _ _ Hk) as Hlen.
  set (x1 := Machine (set_table (hooked_table (table (kern x))) (kern x)) (hmod x)
    (IoMod pid (stats (imod x)) true (Orig (slot Openat)) (Orig (slot Read)) (Orig (slot Write))
       (Orig (slot Lseek)) (Orig (slot Close))) (klog x ++ [start_line pid])).
  assert (E1 : my_ftrace_3 pid x = Ok (0, x1)).
  { unfold my_ftrace_3. rewrite decide_False by lia. rewrite decide_True by done. rewrite Es. reflexivity. }
  assert (Ht : tracing x1).
  { intros c. split; [|by destruct c]. by apply hooked_lookup. }
  assert (Hs0 : stats_of [] (stats (imod x1))).
  { cbn. rewrite Hst. split; reflexivity. }
  destruct (run_io_ok Hcopy (calls l) x1 [] Ht Hs0) as (x2 & E2 & Hs2 & F1 & F2 & [s F3] & F4).
  unfold calls in E2 at 2. rewrite <- list_fmap_compose in E2.
  assert (Estop : stop_io_trace (imod x2) (kern x2) = Ok (kern x)).
  { rewrite F1. cbn [kern x1]. rewrite (stop_ok Hk).
    - f_equal. transitivity (set_table (table (kern x)) (kern x)); [|by destruct (kern x)]. f_equal.
      rewrite <- (restore_table (table (kern x)) (fun c => Orig (slot c))) at 2 by done.
      rewrite F3. reflexivity.
    - by rewrite F3.
    - intros c. rewrite F3. by destruct c.
    - apply hooked_length. }
  assert (E3 : exists x3, my_ftrace_3 pid x2 = Ok (0, x3) /\ kern x3 = kern x /\
    traced_pid (imod x3) = 0 /\ stats (imod x3) = stats (imod x2) /\
    klog x3 = klog x ++ start_line pid :: stop_lines (stats (imod x2))).
  { unfold my_ftrace_3. rewrite decide_True by (rewrite F3; cbn; lia).
    rewrite Estop. cbn [mbind run_bind]. eexists. split; [done|]. split_and!; try done.
    cbn [klog]. rewrite F4. cbn [klog x1]. unfold stop_report. rewrite F3. cbn [io_have_table set_stats imod x1].
    by rewrite <- app_assoc. }
  destruct E3 as (x3 & E3 & G1 & G2 & G3 & G4). exists x1, x2, x3.
  destruct Hs2 as [S1 S2 S3 S4 S5 S6 S7 _]. rewrite G3. cbn [app] in *. split_and!; try done.
  - intros c. destruct (split_callers c pid l) as [<- _]. by destruct c.
  - destruct (split_callers Read pid l) as [_ <-]. done.
  - destruct (split_callers Write pid l) as [_ <-]. done.
Qed.

Lemma calls1_copy f src :
  length f = 256%nat ->
  length (strncpy_from_user f src 255).1 = 256%nat /\ (strncpy_from_user f src 255).2 <= 255.
Proof.
  intros Hf. cbn [strncpy_from_user calls1 fst snd].
  assert (Ht : (length (take 255 (list_ascii_of_string src)) <= 255)%nat) by (rewrite length_take; lia).
  split; [|lia]. rewrite length_splice; [done|]. case_decide; [rewrite length_app; cbn [length]|]; lia.
Qed.

Definition kernel3 : kernel := Kernel (Orig <$> seq 0 600) [1].

Lemma kernel3_ok : table_ok kernel3 1.
Proof. split; try done. unfold kernel3. cbn [table]. rewrite length_fmap, length_seq. lia. Qed.

(** Process 7 is traced and closes a file; process 8 reads. *)
Definition two_callers : list io_event := [Event 8 Read (Regs 0 "" 100); Event 7 Close (Regs 0 "" 0)].

Lemma io_trace_session_witness :
  exists x1 x2 x3,
    my_ftrace_3 7 (Machine kernel3 hookmod0 iomod0 []) = Ok (0, x1) /\ traced_pid (imod x1) = 7 /\
    run_io (calls two_callers) x1 = Ok ([original (slot Read) (Regs 0 "" 100); original (slot Close) (Regs 0 "" 0)], x2) /\
    my_ftrace_3 7 x2 = Ok (0, x3) /\ kern x3 = kernel3 /\
    read_count (stats (imod x3)) = 1 /\ close_count (stats (imod x3)) = 1 /\ read_bytes (stats (imod x3)) = 100 /\
    klog x3 = start_line 7 :: stop_lines (stats (imod x3)).
Proof.
  destruct (io_trace_session (Machine kernel3 hookmod0 iomod0 []) 1 7 two_callers)
    as (x1 & x2 & x3 & E1 & T1 & E2 & E3 & Ek & _ & Hc & Hr & _ & El).
  - exact calls1_copy.
  - exact kernel3_ok.
  - intros []; reflexivity.
  - lia.
  - reflexivity.
  - reflexivity.
  - exists x1, x2, x3. split_and!; [exact E1|exact T1|exact E2|exact E3|exact Ek|exact (Hc Read)|exact (Hc Close)|exact Hr|exact El].
Defined.

(** A hook that was saved as the original calls itself. *)
Lemma self_call_diverges `{Env} `{Calls} fuel c r x l :
  (forall f src, length f = 256%nat ->
    length (strncpy_from_user f src 255).1 = 256%nat /\ (strncpy_from_user f src 255).2 <= 255) ->
  real (imod x) c = Hooked c -> stats_of l (stats (imod x)) -> call fuel (Hooked c) r x = NoFuel.
Proof.
  intros Hcopy. revert x l. induction fuel as [|fuel IH]; intros x l Hr Hs; [done|]. cbn [call].
  destruct (note_call_ok Hcopy c r l _ Hs) as (s' & -> & Hs'). cbn [mbind run_bind].
  rewrite Hr, decide_False by done. apply (IH _ (l ++ [(c, r)])); [|done]. by destruct c.
Qed.

(** Starting a trace for a second process while the first is traced saves
    the hooks as the original handlers: from then on no traced call ever
    returns (it exhausts every bound on nested calls), and stopping the trace
    leaves the hooks in the table. *)
Theorem io_restart_diverges `{Env} `{Calls} (x : machine) (v pid pid' : Z)
    (Hcopy : forall f src, length f = 256%nat ->
      length (strncpy_from_user f src 255).1 = 256%nat /\ (strncpy_from_user f src 255).2 <= 255)
    (Hk : table_ok (kern x) v) (Hold : forall c, table (kern x) !! slot c = Some (Orig (slot c)))
    (Hpid : 0 < pid) (Hpid' : 0 < pid') (Hne : pid' <> pid)
    (Hidle : traced_pid (imod x) = 0) (Hst : stats (imod x) = stats0) :
  exists x1 x2 x3, my_ftrace_3 pid x = Ok (0, x1) /\ my_ftrace_3 pid' x1 = Ok (0, x2) /\
    (forall fuel c r, syscall fuel (slot c) r x2 = NoFuel) /\
    my_ftrace_3 pid' x2 = Ok (0, x3) /\ forall c, table (kern x3) !! slot c = Some (Hooked c).
Proof.
  pose proof (start_ok Hk pid (imod x) (fun c => Orig (slot c)) Hold) as Es1.
  pose proof (tk_len _ _ Hk) as Hlen. set (t1 := hooked_table (table (kern x))) in *.
  assert (Hl1 : length t1 = length (table (kern x))) by apply hooked_length.
  pose proof (table_ok_set Hk t1 Hl1) as Hk1.
  assert (Hh1 : forall c, table (set_table t1 (kern x)) !! slot c = Some (Hooked c))
    by (intros c; by apply hooked_lookup).
  set (x1 := Machine (set_table t1 (kern x)) (hmod x)
    (IoMod pid (stats (imod x)) true (Orig (slot Openat)) (Orig (slot Read)) (Orig (slot Write))
       (Orig (slot Lseek)) (Orig (slot Close))) (klog x ++ [start_line pid])).
  pose proof (start_ok Hk1 pid' (imod x1) Hooked Hh1) as Es2.
  set (x2 := Machine (set_table (hooked_table t1) (kern x)) (hmod x)
    (IoMod pid' (stats (imod x)) true (Hooked Openat) (Hooked Read) (Hooked Write)
       (Hooked Lseek) (Hooked Close)) ((klog x ++ [start_line pid]) ++ [start_line pid'])).
  assert (Hh2 : forall c, hooked_table t1 !! slot c = Some (Hooked c))
    by (intros c; apply hooked_lookup; lia).
  assert (Estop : stop_io_trace (imod x2) (kern x2) = Ok (kern x2)).
  { cbn [kern x2]. rewrite (stop_ok Hk) by (first [done|by intros []|rewrite hooked_length; done]).
    do 2 f_equal. exact (hooked_idem t1 ltac:(lia)). }
  exists x1, x2. eexists. split_and!.
  - unfold my_ftrace_3. rewrite decide_False by lia. rewrite decide_True by done. by rewrite Es1.
  - unfold my_ftrace_3. rewrite decide_False by (cbn; lia). rewrite decide_True by done.
    cbn [kern x1 hmod klog] in *. rewrite Es2. reflexivity.
  - intros fuel c r. unfold syscall. cbn [kern x2 table set_table].
    rewrite (aget_lookup _ _ _ (Hh2 c)). cbn [mbind run_bind].
    apply (self_call_diverges fuel c r x2 []); [done|by destruct c|]. cbn. rewrite Hst. split; reflexivity.
  - unfold my_ftrace_3. rewrite decide_True by (cbn; lia). rewrite Estop. reflexivity.
  - exact Hh2.
Qed.

Lemma io_restart_diverges_witness :
  exists x1 x2 x3, my_ftrace_3 7 (Machine kernel3 hookmod0 iomod0 []) = Ok (0, x1) /\
    my_ftrace_3 8 x1 = Ok (0, x2) /\
    (forall fuel c r, syscall fuel (slot c) r x2 = NoFuel) /\
    my_ftrace_3 8 x2 = Ok (0, x3) /\ forall c, table (kern x3) !! slot c = Some (Hooked c).
Proof.
  apply (io_restart_diverges (Machine kernel3 hookmod0 iomod0 []) 1 7 8);
    [exact calls1_copy|exact kernel3_ok|intros []; reflexivity|lia|lia|lia|reflexivity|reflexivity].
Defined.
