(* ===== verification/Sched.v ===== *)
(** * Tasks

    The parts of [src/Assignment2/Assignment2-1/sched.h] (the kernel's header,
    with the field [fork_count] the assignment adds) that the modules and
    [fork.c] use: the task states, the letters that report them, the flags and
    the fields of [task_struct].  Tasks refer to each other by their pid. *)

From Stdlib Require Import ZArith Lia Ascii String.
From stdpp Require Import base numbers list option strings gmap.
From S2P Require Import Prelude CText.

Local Open Scope Z_scope.

(** ** States *)
Definition TASK_RUNNING : Z := 0x0000.
Definition TASK_INTERRUPTIBLE : Z := 0x0001.
Definition TASK_UNINTERRUPTIBLE : Z := 0x0002.
Definition TASK_STOPPED_bit : Z := 0x0004.    (* __TASK_STOPPED *)
Definition TASK_TRACED_bit : Z := 0x0008.     (* __TASK_TRACED *)
Definition EXIT_DEAD : Z := 0x0010.
Definition EXIT_ZOMBIE : Z := 0x0020.
Definition EXIT_TRACE : Z := Z.lor EXIT_ZOMBIE EXIT_DEAD.
Definition TASK_PARKED : Z := 0x0040.
Definition TASK_DEAD : Z := 0x0080.
Definition TASK_WAKEKILL : Z := 0x0100.
Definition TASK_WAKING : Z := 0x0200.
Definition TASK_NOLOAD : Z := 0x0400.
Definition TASK_NEW : Z := 0x0800.
Definition TASK_STATE_MAX : Z := 0x1000.

Definition TASK_KILLABLE : Z := Z.lor TASK_WAKEKILL TASK_UNINTERRUPTIBLE.
Definition TASK_STOPPED : Z := Z.lor TASK_WAKEKILL TASK_STOPPED_bit.
Definition TASK_TRACED : Z := Z.lor TASK_WAKEKILL TASK_TRACED_bit.
Definition TASK_IDLE : Z := Z.lor TASK_UNINTERRUPTIBLE TASK_NOLOAD.
Definition TASK_NORMAL : Z := Z.lor TASK_INTERRUPTIBLE TASK_UNINTERRUPTIBLE.

Definition TASK_REPORT : Z :=
  Z.lor TASK_RUNNING (Z.lor TASK_INTERRUPTIBLE (Z.lor TASK_UNINTERRUPTIBLE
    (Z.lor TASK_STOPPED_bit (Z.lor TASK_TRACED_bit (Z.lor EXIT_DEAD
      (Z.lor EXIT_ZOMBIE TASK_PARKED)))))).

Definition TASK_REPORT_IDLE : Z := TASK_REPORT + 1.
Definition TASK_REPORT_MAX : Z := Z.shiftl TASK_REPORT_IDLE 1.

(** ** Flags *)
Definition PF_IDLE : Z := 0x2.
Definition PF_EXITING : Z := 0x4.
Definition PF_WQ_WORKER : Z := 0x20.
Definition PF_FORKNOEXEC : Z := 0x40.
Definition PF_SUPERPRIV : Z := 0x100.
Definition PF_NPROC_EXCEEDED : Z := 0x1000.
Definition PF_USED_MATH : Z := 0x2000.
Definition PF_FROZEN : Z := 0x10000.
Definition PF_KTHREAD : Z := 0x200000.
Definition PF_NO_SETAFFINITY : Z := 0x4000000.

(** ** [task_struct] *)
Record task_struct := Task {
  state : Z;
  exit_state : Z;
  flags : Z;
  pid : Z;
  tgid : Z;
  comm : string;
  real_parent : Z;
  parent : Z;
  children : list Z;
  group_leader : Z;
  nvcsw : Z;
  nivcsw : Z;
  fork_count : Z;
  uid : Z;
  gid : Z;
  utime : Z;
  stime : Z }.

(** The tasks of the machine, in the order of the global list. *)
Record tasks := Tasks { by_pid : gmap Z task_struct; order : list Z }.

(** The predicates of the header. *)
Definition task_is_traced (t : task_struct) : bool := negb (bool_decide (Z.land (state t) TASK_TRACED_bit = 0)).
Definition task_is_stopped (t : task_struct) : bool := negb (bool_decide (Z.land (state t) TASK_STOPPED_bit = 0)).
Definition task_is_stopped_or_traced (t : task_struct) : bool :=
  negb (bool_decide (Z.land (state t) (Z.lor TASK_STOPPED_bit TASK_TRACED_bit) = 0)).
Definition task_contributes_to_load (t : task_struct) : bool :=
  negb (bool_decide (Z.land (state t) TASK_UNINTERRUPTIBLE = 0)) &&
  bool_decide (Z.land (flags t) PF_FROZEN = 0) &&
  bool_decide (Z.land (state t) TASK_NOLOAD = 0).
Definition is_global_init (t : task_struct) : bool := bool_decide (tgid t = 1).
Definition is_idle_task (t : task_struct) : bool := negb (bool_decide (Z.land (flags t) PF_IDLE = 0)).

(** ** The letter of a task *)

(** [fls]: the position of the highest bit set, from 1; 0 for 0. *)
Definition fls (x : Z) : Z := if decide (x = 0) then 0 else Z.log2 x + 1.

Definition task_state_index (t : task_struct) : Z :=
  if decide (state t = TASK_IDLE) then fls TASK_REPORT_IDLE
  else fls (Z.land (Z.lor (state t) (exit_state t)) TASK_REPORT).

Definition state_char : list ascii := list_ascii_of_string "RSDTtXZPI".

Definition task_index_to_char (i : Z) : run ascii := zget state_char i.
Definition task_state_to_char (t : task_struct) : run ascii := task_index_to_char (task_state_index t).

(** [init_task] of [init_task.c], with the fields above: it is its own parent
    and group leader, and the fields the initialiser leaves out are 0.  The
    name [INIT_TASK_COMM] is defined elsewhere. *)
Definition init_task (INIT_TASK_COMM : string) : task_struct :=
  Task 0 0 PF_KTHREAD 0 0 INIT_TASK_COMM 0 0 [] 0 0 0 0 0 0 0 0.

(** The index stays within the letters, whatever the two state words. *)
Lemma task_state_index_bound t :
  0 <= state t -> 0 <= exit_state t -> 0 <= task_state_index t < 9.
Proof.
  intros Hs He. unfold task_state_index. case_decide; [vm_compute; split; [discriminate|reflexivity]|].
  unfold fls. set (x := Z.land _ TASK_REPORT).
  assert (Hx : 0 <= x).
  { apply Z.land_nonneg. left. by apply Z.lor_nonneg. }
  case_decide; [lia|]. assert (x <= 127).
  { unfold x. change TASK_REPORT with (Z.ones 7). rewrite Z.land_ones by lia.
    pose proof (Z.mod_pos_bound (Z.lor (state t) (exit_state t)) (2 ^ 7) ltac:(lia)). lia. }
  pose proof (Z.log2_nonneg x). assert (Z.log2 x <= Z.log2 127) by (by apply Z.log2_le_mono).
  change (Z.log2 127) with 6 in *. lia.
Qed.

Lemma task_state_to_char_ok t :
  0 <= state t -> 0 <= exit_state t -> exists c, task_state_to_char t = Ok c /\ c ∈ state_char.
Proof.
  intros Hs He. pose proof (task_state_index_bound t Hs He) as Hb.
  unfold task_state_to_char, task_index_to_char.
  destruct (lookup_lt_is_Some_2 state_char (Z.to_nat (task_state_index t))) as [c Hc]; [cbn; lia|].
  exists c. split; [|by eapply list_elem_of_lookup_2].
  rewrite <- (Z2Nat.id (task_state_index t)) by lia. by apply zget_nat.
Qed.
