(* ===== verification/Tracer.v ===== *)
(** * The process tracer and the file area module

    [src/Assignment2/Assignment2-1/Process_tracer.c] replaces system call 336
    by one that reports a task and its relatives;
    [src/Assignment3/Assignment3-1/file_varea.c] replaces it by one that lists
    the files mapped into a task.  Both patch the table like the modules of
    [Hook], with their own page helpers. *)

From Stdlib Require Import ZArith Lia Ascii String.
From stdpp Require Import base numbers list option strings gmap.
From S2P Require Import Prelude CText Hook Sched.

Local Open Scope Z_scope.

Definition ESRCH : Z := 3.

(** ** Patching the table *)
Section modules.
Context `{Env}.

(** [make_rw] of both files: the pointer is not tested. *)
Definition t_make_rw (k : kernel) : run kernel := if mapped then make_rw k else Undef.

(** [make_ro] of [Process_tracer.c] writes only when the bit is set; that of
    [file_varea.c] always writes. *)
Definition t_make_ro (k : kernel) : run kernel :=
  if mapped then
    v ← aget (ptes k) (pte_of 0);
    if writable v
    then p ← aset (ptes k) (pte_of 0) (Z.ldiff v PAGE_RW); Ok (Kernel (table k) p)
    else Ok k
  else Undef.
Definition v_make_ro (k : kernel) : run kernel := if mapped then make_ro k else Undef.

(** [hook_init] and [hook_exit] of [Process_tracer.c]. *)
Definition t_hook_init (m : hookmod) (k : kernel) : run (Z * hookmod * kernel) :=
  if found then
    old ← aget (table k) NR_os_ftrace_3;
    k1 ← t_make_rw k;
    k2 ← write_slot NR_os_ftrace_3 (Later Trampoline) k1;
    k3 ← t_make_ro k2;
    Ok (0, HookMod true old, k3)
  else Ok (-1, HookMod false (real_os_ftrace m), k).

Definition t_hook_exit (m : hookmod) (k : kernel) : run kernel :=
  if decide (have_table m = true /\ real_os_ftrace m <> Null) then
    k1 ← t_make_rw k;
    k2 ← write_slot NR_os_ftrace_3 (real_os_ftrace m) k1;
    t_make_ro k2
  else Ok k.

(** [info_init] and [info_exit] of [file_varea.c], which use the table without
    testing the pointer. *)
Definition info_init (k : kernel) : run (Z * hookmod * kernel) :=
  if found then
    k1 ← t_make_rw k;
    old ← aget (table k1) NR_os_ftrace_3;
    k2 ← write_slot NR_os_ftrace_3 (Later FileVarea) k1;
    k3 ← v_make_ro k2;
    Ok (0, HookMod true old, k3)
  else Undef.

Definition info_exit (m : hookmod) (k : kernel) : run kernel :=
  if have_table m then
    k1 ← t_make_rw k;
    k2 ← write_slot NR_os_ftrace_3 (real_os_ftrace m) k1;
    v_make_ro k2
  else Undef.
End modules.

(** ** [process_tracer] *)
Definition state_to_string (st : Z) : string :=
  if decide (st = TASK_RUNNING) then "Running or ready"
  else if decide (st = TASK_INTERRUPTIBLE) then "Wait"
  else if decide (st = TASK_UNINTERRUPTIBLE) then "Wait with ignoring all signals"
  else if decide (st = TASK_STOPPED) then "Stopped"
  else if decide (st = EXIT_ZOMBIE) then "Zombie process"
  else if decide (st = EXIT_DEAD) then "DEAD"
  else "etc".

Definition lab (s : string) : string := "[OSLab.] " +:+ s +:+ nl.

(** A task a pointer refers to. *)
Definition deref (ts : tasks) (p : Z) : run task_struct :=
  match by_pid ts !! p with Some t => Ok t | None => Undef end.

Definition entry (t : task_struct) : string :=
  lab ("   > [" +:+ print_d (pid t) +:+ "] " +:+ comm t).

(** [list_for_each (pos, head)] over a list of children: the lines of those
    that pass the test, and their number. *)
Fixpoint list_tasks (ts : tasks) (skip : Z -> bool) (l : list Z) (cnt : Z)
  : run (list string * Z) :=
  match l with
  | [] => Ok ([], cnt)
  | p :: l' =>
      t ← deref ts p;
      if skip (pid t) then list_tasks ts skip l' cnt
      else '(lines, n) ← list_tasks ts skip l' (cnt + 1); Ok (entry t :: lines, n)
  end.

Definition count_line (none : string) (what : string) (n : Z) : string :=
  if decide (n = 0) then lab ("   > It has no " +:+ none +:+ ".")
  else lab ("   > This process has " +:+ print_d n +:+ " " +:+ what +:+ " process(es)").

(** The value returned and the lines logged. *)
Definition process_tracer (ts : tasks) (trace_task : Z) : run (Z * list string) :=
  match by_pid ts !! trace_task with
  | None => Ok (- ESRCH, [])
  | Some t =>
      g ← deref ts (group_leader t);
      p ← deref ts (parent t);
      let head :=
        [lab ("##### TASK INFORMATION of ''[" +:+ print_d trace_task +:+ "] " +:+ comm t +:+ "'' #####");
         lab ("- task state : " +:+ state_to_string (state t));
         lab ("- Process Group Leader : [" +:+ print_d (pid g) +:+ "] " +:+ comm g);
         lab ("- # of context-switch(es) : " +:+ print_u (wrapu 64 (nvcsw t + nivcsw t)));
         lab ("- Number of calling fork() : " +:+ print_d (fork_count t));
         lab ("- its parent process : [" +:+ print_d (pid p) +:+ "] " +:+ comm p);
         lab "- its sibling process(es) : "] in
      '(sib, sibling_cnt) ← list_tasks ts (fun q => bool_decide (q = pid t)) (children p) 0;
      '(chi, child_cnt) ← list_tasks ts (fun _ => false) (children t) 0;
      Ok (trace_task,
          head ++ sib ++ [count_line "sibling" "sibling" sibling_cnt;
                          lab "- its child process(es) : "]
          ++ chi ++ [count_line "child" "child" child_cnt;
                     lab "##### END OF INFORMATION #####"])
  end.

(** [os_ftrace_trampoline]: the saved handler, if there is one, is called for
    its effect only; [run_real] gives the lines it logs. *)
Definition os_ftrace_trampoline (ts : tasks) (run_real : fn -> pt_regs -> run (list string))
    (real : fn) (r : pt_regs) : run (Z * list string) :=
  let p := wraps 32 (di r) in
  before ← (if decide (real = Null) then Ok [] else run_real real r);
  '(ret, lines) ← process_tracer ts p;
  Ok (ret, before ++ lines).

(** ** [file_varea] *)

(** A mapped area; for one backed by a file, what [d_path] returns ([None] is
    an error pointer). *)
Record vm_area := Vma { vm_start : Z; vm_end : Z; vm_file : option (option string) }.

Record mm_struct := Mm {
  mmap : list vm_area;
  start_code : Z; end_code : Z; start_data : Z; end_data : Z; start_brk : Z; brk : Z }.

(** What the call must leave as it was: users of the [mm], readers of its
    lock, buffers allocated; and the log. *)
Record held := Held { mm_users : Z; readers : Z; buffers : Z; vlog : list string }.

Definition hex_digit (d : Z) : ascii :=
  if decide (d < 10) then ascii_of_nat (48 + Z.to_nat d) else ascii_of_nat (87 + Z.to_nat d).

Fixpoint print_hex_to (fuel : nat) (n : Z) (acc : string) : string :=
  match fuel with
  | O => acc
  | S fuel' =>
      let acc' := String (hex_digit (n mod 16)) acc in
      if decide (n / 16 = 0) then acc' else print_hex_to fuel' (n / 16) acc'
  end.

(** [%lx] of an unsigned 64-bit number. *)
Definition print_hex (n : Z) : string := print_hex_to 16 n "".

Definition range (name : string) (a b : Z) : string :=
  name +:+ "(" +:+ print_hex a +:+ "~" +:+ print_hex b +:+ ") ".

Definition area_line (mm : mm_struct) (v : vm_area) (path : string) : string :=
  range "mem" (vm_start v) (vm_end v) +:+ range "code" (start_code mm) (end_code mm) +:+
  range "data" (start_data mm) (end_data mm) +:+ range "heap" (start_brk mm) (brk mm) +:+
  path +:+ nl.

Definition say (s : string) (h : held) : held :=
  Held (mm_users h) (readers h) (buffers h) (vlog h ++ [s]).
Definition take_buffer (n : Z) (h : held) : held :=
  Held (mm_users h) (readers h) (buffers h + n) (vlog h).

(** The loop over the areas; [kmalloc i] says whether the [i]-th allocation
    succeeds. *)
Fixpoint areas (mm : mm_struct) (kmalloc : nat -> bool) (i : nat) (l : list vm_area) (h : held)
  : held :=
  match l with
  | [] => h
  | v :: l' =>
      match vm_file v with
      | None => areas mm kmalloc i l' h
      | Some path =>
          if kmalloc i then
            let h1 := take_buffer 1 h in
            let h2 := match path with Some p => say (area_line mm v p) h1 | None => h1 end in
            areas mm kmalloc (S i) l' (take_buffer (-1) h2)
          else say ("file_varea : kmalloc PATH_MAX failed" +:+ nl) h
      end
  end.

(** [get_task_mm] returns no [mm] for a kernel thread. *)
Definition file_varea (ts : tasks) (get_task_mm : task_struct -> option mm_struct)
    (kmalloc : nat -> bool) (r : pt_regs) (h : held) : Z * held :=
  let target := wraps 32 (di r) in
  match by_pid ts !! target with
  | None => (- ESRCH, h)
  | Some t =>
      match get_task_mm t with
      | None => (- EINVAL, h)
      | Some mm =>
          let h1 := Held (mm_users h + 1) (readers h) (buffers h) (vlog h) in
          let h2 := say ("######## Loaded files of a process' " +:+ comm t +:+ "("
                         +:+ print_d target +:+ ")' in VM ########" +:+ nl) h1 in
          let h3 := Held (mm_users h2) (readers h2 + 1) (buffers h2) (vlog h2) in
          let h4 := areas mm kmalloc 0 (mmap mm) h3 in
          let h5 := Held (mm_users h4) (readers h4 - 1) (buffers h4) (vlog h4) in
          let h6 := Held (mm_users h5 - 1) (readers h5) (buffers h5) (vlog h5) in
          (target, h6)
      end
  end.
