(* ===== verification/TracerFacts.v ===== *)
(** * Theorems on the process tracer and the file area module

    What [process_tracer] reports for every task of a well-formed task table,
    that the file area call gives back what it takes on every path and lists
    the mapped files in order, and that both modules leave the table as they
    found it. *)

From Stdlib Require Import ZArith Lia Ascii String.
From stdpp Require Import base numbers list option strings gmap.
From S2P Require Import Prelude CText Hook HookFacts Sched Tracer.

Local Open Scope Z_scope.

(** ** [process_tracer] *)

(** The task table: a task is filed under its pid, and the tasks it points to
    exist. *)
Record tasks_ok (ts : tasks) : Prop := {
  to_pid p t : by_pid ts !! p = Some t -> pid t = p;
  to_parent p t : by_pid ts !! p = Some t -> is_Some (by_pid ts !! parent t);
  to_leader p t : by_pid ts !! p = Some t -> is_Some (by_pid ts !! group_leader t);
  to_children p t : by_pid ts !! p = Some t -> Forall (fun c => is_Some (by_pid ts !! c)) (children t);
  to_nodup p t : by_pid ts !! p = Some t -> NoDup (children t) }.

(** The line of a task of the table. *)
Definition line_of (ts : tasks) (p : Z) : option string := entry <$> by_pid ts !! p.

Lemma deref_ok ts p t : by_pid ts !! p = Some t -> deref ts p = Ok t.
Proof. unfold deref. by intros ->. Qed.

Lemma list_tasks_ok ts skip l n :
  (forall p t, by_pid ts !! p = Some t -> pid t = p) ->
  Forall (fun c => is_Some (by_pid ts !! c)) l ->
  list_tasks ts skip l n =
    Ok (omap (line_of ts) (filter (fun p => skip p = false) l),
        n + Z.of_nat (length (filter (fun p => skip p = false) l))).
Proof.
  intros Hp Hl. revert n. induction Hl as [|c l [t Ht] Hl IH]; intros n; cbn [list_tasks].
  - f_equal. f_equal. cbn. lia.
  - rewrite (deref_ok _ _ _ Ht). cbn [mbind run_bind]. rewrite (Hp _ _ Ht), filter_cons.
    destruct (skip c) eqn:Es.
    + rewrite decide_False by done. apply IH.
    + rewrite decide_True by done. rewrite IH. cbn [mbind run_bind omap list_omap length].
      unfold line_of at 2. rewrite Ht. cbn [fmap option_fmap option_map]. do 2 f_equal. lia.
Qed.

Lemma filter_self (l : list Z) p :
  NoDup l -> p ∈ l -> length (filter (fun q => q <> p) l) = (length l - 1)%nat.
Proof.
  intros Hnd Hin. apply list_elem_of_split in Hin as (l1 & l2 & ->).
  apply NoDup_app in Hnd as (_ & Hd & Hnd). apply NoDup_cons in Hnd as (Hn & _).
  rewrite filter_app, filter_cons, decide_False by (intros E; by destruct E).
  assert (Hid : forall l : list Z, p ∉ l -> filter (fun q => q <> p) l = l).
  { intros l Hl. apply filter_all. intros q Hq ->. done. }
  rewrite !Hid; [len|done|]. intros Hp. apply (Hd p Hp). left.
Qed.

(** The siblings of a task: the children of its parent but itself. *)
Definition siblings (par t : task_struct) : list Z := filter (fun q => q <> pid t) (children par).

Lemma siblings_skip par t :
  filter (fun p => bool_decide (p = pid t) = false) (children par) = siblings par t.
Proof. apply list_filter_iff. intros q. apply bool_decide_eq_false. Qed.

Lemma filter_no_skip (l : list Z) : filter (fun _ => false = false) l = l.
Proof. by apply filter_all. Qed.

Lemma omap_lines ts l :
  Forall (fun c => is_Some (by_pid ts !! c)) l -> length (omap (line_of ts) l) = length l.
Proof.
  induction 1 as [|c l [t Ht] Hl IH]; [done|]. cbn [omap list_omap]. unfold line_of at 1. rewrite Ht. cbn. by rewrite IH.
Qed.

(** The words for the values of [state], in the order of sched.h. *)
Definition state_words : list (Z * string) :=
  [(0, "Running or ready"); (1, "Wait"); (2, "Wait with ignoring all signals"); (260, "Stopped");
   (32, "Zombie process"); (16, "DEAD")].

Definition state_text (st : Z) : string :=
  default "etc" (snd <$> find (fun x => bool_decide (x.1 = st)) state_words).

Lemma state_to_string_text st : state_to_string st = state_text st.
Proof.
  unfold state_to_string, state_text, state_words. cbn [find fst].
  change TASK_STOPPED with 260. change EXIT_ZOMBIE with 32. change EXIT_DEAD with 16.
  unfold TASK_RUNNING, TASK_INTERRUPTIBLE, TASK_UNINTERRUPTIBLE.
  repeat (case_decide; [subst; reflexivity|rewrite bool_decide_eq_false_2 by lia]). done.
Qed.

(** The name of a task as the lines show it. *)
Definition named (t : task_struct) : string := "[" +:+ print_d (pid t) +:+ "] " +:+ comm t.

(** The first seven lines on task [t], whose group leader is [g] and whose
    parent is [par]. *)
Definition report_head (t g par : task_struct) : list string :=
  [lab ("##### TASK INFORMATION of ''" +:+ named t +:+ "'' #####");
   lab ("- task state : " +:+ state_text (state t));
   lab ("- Process Group Leader : " +:+ named g);
   lab ("- # of context-switch(es) : " +:+ print_u ((nvcsw t + nivcsw t) mod 2 ^ 64));
   lab ("- Number of calling fork() : " +:+ print_d (fork_count t));
   lab ("- its parent process : " +:+ named par);
   lab "- its sibling process(es) : "].

(** C20. The report of a task: in a well-formed table [process_tracer] is
    defined for every pid.  For an unknown pid it logs nothing and returns
    [-ESRCH], that is -3 and not the -1 of the comment above it.  For a task it
    returns its pid and logs exactly: seven lines on the task (its name, the
    word for its state, its group leader, its context switches as a 64-bit
    sum, its forks, its parent), one line for each child of its parent but
    itself, their number, one line for each child in the order of the list,
    and their number. *)
Theorem process_tracer_report (ts : tasks) (p : Z) (Hok : tasks_ok ts) :
  (by_pid ts !! p = None -> process_tracer ts p = Ok (- ESRCH, []) /\ - ESRCH <> -1) /\
  (forall t, by_pid ts !! p = Some t -> exists g par,
    by_pid ts !! group_leader t = Some g /\ by_pid ts !! parent t = Some par /\
    process_tracer ts p = Ok (p,
      report_head t g par
      ++ omap (line_of ts) (siblings par t)
      ++ [count_line "sibling" "sibling" (Z.of_nat (length (siblings par t)));
          lab "- its child process(es) : "]
      ++ omap (line_of ts) (children t)
      ++ [count_line "child" "child" (Z.of_nat (length (children t)));
          lab "##### END OF INFORMATION #####"]) /\
    (forall q, q ∈ siblings par t <-> q ∈ children par /\ q <> p) /\
    (p ∈ children par -> S (length (siblings par t)) = length (children par)) /\
    length (omap (line_of ts) (siblings par t)) = length (siblings par t) /\
    length (omap (line_of ts) (children t)) = length (children t)).
Proof.
  split; [intros Hn; unfold process_tracer; by rewrite Hn|]. intros t Ht.
  destruct (to_parent _ Hok _ _ Ht) as [par Hpar], (to_leader _ Hok _ _ Ht) as [g Hg].
  pose proof (to_pid _ Hok _ _ Ht) as Hpid.
  assert (Hs : Forall (fun c => is_Some (by_pid ts !! c)) (siblings par t)).
  { apply Forall_forall. intros q [_ Hq]%list_elem_of_filter.
    pose proof (to_children _ Hok _ _ Hpar) as Hf. rewrite Forall_forall in Hf. auto. }
  exists g, par. split_and!; [done|done| | | | |].
  - unfold process_tracer. rewrite Ht, (deref_ok _ _ _ Hg), (deref_ok _ _ _ Hpar). cbn [mbind run_bind].
    rewrite !list_tasks_ok by (apply Hok || by eapply to_children). cbn [mbind run_bind].
    rewrite siblings_skip, filter_no_skip, !Z.add_0_l, state_to_string_text.
    unfold report_head, named. rewrite Hpid, <- !str_app_assoc. reflexivity.
  - intros q. unfold siblings. rewrite list_elem_of_filter, Hpid. tauto.
  - intros Hin. unfold siblings. rewrite Hpid, (filter_self _ _ (to_nodup _ Hok _ _ Hpar) Hin).
    destruct (children par); [by apply elem_of_nil in Hin|]. cbn. lia.
  - by apply omap_lines.
  - apply omap_lines. by eapply to_children.
Qed.

(** Two tasks: the first is the parent of both. *)
Definition two_tasks : tasks :=
  let t p c := Task 0 0 0 p p "t" 1 1 c p 3 4 0 0 0 0 0 in
  Tasks {[ 1 := t 1 [1; 2]; 2 := t 2 [] ]} [1; 2].

Lemma two_tasks_cases p t :
  by_pid two_tasks !! p = Some t -> p = 1 /\ t = Task 0 0 0 1 1 "t" 1 1 [1; 2] 1 3 4 0 0 0 0 0 \/
    p = 2 /\ t = Task 0 0 0 2 2 "t" 1 1 [] 2 3 4 0 0 0 0 0.
Proof.
  unfold two_tasks. cbn [by_pid]. rewrite lookup_insert_Some, lookup_singleton_Some.
  intros [[<- <-]|(_ & [<- <-])]; auto.
Qed.

Lemma two_tasks_ok : tasks_ok two_tasks.
Proof.
  split; intros p t Ht; apply two_tasks_cases in Ht as [[-> ->]|[-> ->]]; cbn;
    try done; try (by eexists); try (repeat constructor; by eexists); try apply NoDup_nil_2.
  repeat constructor; set_solver.
Qed.

Lemma process_tracer_report_witness :
  exists par g, by_pid two_tasks !! 1 = Some par /\
    process_tracer two_tasks 2 = Ok (2, report_head (Task 0 0 0 2 2 "t" 1 1 [] 2 3 4 0 0 0 0 0) g par ++ [entry par]
      ++ [count_line "sibling" "sibling" 1; lab "- its child process(es) : "]
      ++ [count_line "child" "child" 0; lab "##### END OF INFORMATION #####"]).
Proof.
  destruct (process_tracer_report two_tasks 2 two_tasks_ok) as [_ H].
  destruct (H _ eq_refl) as (g & par & Hg & Hp & Hr & _).
  exists par, g. cbn in Hp. injection Hp as <-. split; [done|]. exact Hr.
Defined.

(** The state of a terminated task: [EXIT_ZOMBIE] and [EXIT_DEAD] are
    values of [exit_state], while [process_tracer] passes [state], so for a
    task whose [state] holds none of these bits it never reports a zombie or
    a dead task; a zombie, whose letter in [/proc] is [Z], is reported as
    [etc]. *)
Theorem zombie_unreported (t : task_struct) (Hst : Z.land (state t) EXIT_TRACE = 0) :
  state_to_string (state t) <> "Zombie process" /\ state_to_string (state t) <> "DEAD" /\
  (state t = TASK_DEAD -> exit_state t = EXIT_ZOMBIE ->
   task_state_to_char t = Ok "Z"%char /\ state_to_string (state t) = "etc").
Proof.
  assert (state t <> EXIT_ZOMBIE /\ state t <> EXIT_DEAD) as [Hz Hd].
  { split; intros E; rewrite E in Hst; done. }
  split_and!.
  1,2: unfold state_to_string; repeat case_decide; done.
  intros E1 E2. unfold task_state_to_char, task_state_index. rewrite E1, E2. split; reflexivity.
Qed.

Lemma zombie_unreported_witness :
  let t := Task TASK_DEAD EXIT_ZOMBIE 0 5 5 "z" 1 1 [] 5 0 0 0 0 0 0 0 in
  task_state_to_char t = Ok "Z"%char /\ state_to_string (state t) = "etc".
Proof. intros t. apply (zombie_unreported t); reflexivity. Defined.

(** ** [file_varea] *)

(** The file-backed areas with the result of [d_path]. *)
Definition backed (l : list vm_area) : list (vm_area * option string) :=
  omap (fun v => (fun p => (v, p)) <$> vm_file v) l.

Definition backed_line (mm : mm_struct) (vp : vm_area * option string) : option string :=
  area_line mm vp.1 <$> vp.2.

(** How many of [n] allocations succeed, from the [i]-th on, before one fails. *)
Fixpoint granted (kmalloc : nat -> bool) (i n : nat) : nat :=
  match n with
  | O => O
  | S n' => if kmalloc i then S (granted kmalloc (S i) n') else O
  end.

Lemma granted_le kmalloc i n : (granted kmalloc i n <= n)%nat.
Proof. revert i. induction n as [|n IH]; intros i; cbn; [lia|]. case_match; [specialize (IH (S i))|]; lia. Qed.

Definition no_memory : string := "file_varea : kmalloc PATH_MAX failed" +:+ nl.

(** What the loop logs. *)
Definition listing (mm : mm_struct) (kmalloc : nat -> bool) (i : nat) (l : list vm_area) : list string :=
  let n := granted kmalloc i (length (backed l)) in
  omap (backed_line mm) (take n (backed l)) ++ (if decide (n = length (backed l)) then [] else [no_memory]).

Definition log_more (ls : list string) (h : held) : held :=
  Held (mm_users h) (readers h) (buffers h) (vlog h ++ ls).

Lemma log_more_app l1 l2 h : log_more l2 (log_more l1 h) = log_more (l1 ++ l2) h.
Proof. unfold log_more. cbn. by rewrite app_assoc. Qed.

Lemma areas_listing mm kmalloc i l h : areas mm kmalloc i l h = log_more (listing mm kmalloc i l) h.
Proof.
  revert i h. induction l as [|v l IH]; intros i h.
  - unfold log_more. cbn. rewrite app_nil_r. by destruct h.
  - cbn [areas]. unfold listing, backed. cbn [omap list_omap]. fold (backed l).
    destruct (vm_file v) as [path|]; cbn [fmap option_fmap option_map]; [|apply IH].
    cbn [length granted]. destruct (kmalloc i); [|done].
    cbn [take]. rewrite IH.
    transitivity (log_more (from_option (fun s => [s]) [] (backed_line mm (v, path)) ++
                            listing mm kmalloc (S i) l) h).
    + rewrite <- log_more_app. f_equal. unfold take_buffer, say, log_more.
      destruct path; destruct h; cbn; rewrite ?app_nil_r; f_equal; lia.
    + f_equal. unfold listing. rewrite app_assoc. f_equal.
      * unfold backed_line. destruct path; done.
      * by repeat case_decide; try lia.
Qed.

(** C21. The file area call returns the pid and logs the header and then, in
    the order of the address space, one line for each area backed by a file
    whose path resolves; it stops with a message at the first failed
    allocation.  On every path, the errors included, the users of the [mm],
    the readers of its lock and the buffers are those before the call. *)
Theorem file_varea_balanced (ts : tasks) (get_task_mm : task_struct -> option mm_struct)
    (kmalloc : nat -> bool) (r : pt_regs) (h : held) :
  exists ls, (file_varea ts get_task_mm kmalloc r h).2 = log_more ls h /\
    match by_pid ts !! wraps 32 (di r) with
    | None => (file_varea ts get_task_mm kmalloc r h).1 = - ESRCH /\ ls = []
    | Some t =>
        match get_task_mm t with
        | None => (file_varea ts get_task_mm kmalloc r h).1 = - EINVAL /\ ls = []
        | Some mm =>
            (file_varea ts get_task_mm kmalloc r h).1 = wraps 32 (di r) /\
            exists header, ls = header :: listing mm kmalloc 0 (mmap mm) /\
              ((forall i, kmalloc i = true) ->
               ls = header :: omap (backed_line mm) (backed (mmap mm)))
        end
    end.
Proof.
  unfold file_varea. destruct (by_pid ts !! _) as [t|]; [|exists []; split; [unfold log_more; cbn; rewrite app_nil_r; by destruct h|done]].
  destruct (get_task_mm t) as [mm|]; [|exists []; split; [unfold log_more; cbn; rewrite app_nil_r; by destruct h|done]].
  rewrite areas_listing. cbn [fst snd]. eexists. split; [|split; [done|eexists; split; [done|]]].
  - unfold say, log_more. cbn [mm_users readers buffers vlog]. rewrite <- app_assoc. cbn [app]. f_equal; lia.
  - intros Hk. f_equal. unfold listing.
    assert (Hg : forall n i, granted kmalloc i n = n).
    { intros n. induction n as [|n IH]; intros i; cbn; [done|]. by rewrite Hk, IH. }
    rewrite Hg, firstn_all, decide_True, app_nil_r by done. done.
Qed.

(** ** Loading and unloading *)
Section modules.
Context `{Env} {k : kernel} {v : Z} (Hk : table_ok k v).

Lemma t_make_rw_ok t : length t = length (table k) -> t_make_rw (set_table t k) = Ok (opened v (set_table t k)).
Proof.
  intros Hl. unfold t_make_rw. rewrite (tk_mapped _ _ Hk). exact (make_rw_ok (table_ok_set Hk t Hl)).
Qed.

Lemma t_make_rw_ok0 : t_make_rw k = Ok (opened v (set_table (table k) k)).
Proof. rewrite <- t_make_rw_ok by done. by destruct k. Qed.

Lemma v_make_ro_ok t : v_make_ro (opened v (set_table t k)) = Ok (set_table t k).
Proof. unfold v_make_ro. rewrite (tk_mapped _ _ Hk). apply (make_ro_ok Hk). Qed.

Lemma t_make_ro_ok t : t_make_ro (opened v (set_table t k)) = Ok (set_table t k).
Proof.
  unfold t_make_ro. rewrite (tk_mapped _ _ Hk). pose proof (make_ro_ok Hk t) as E.
  unfold make_ro in E. rewrite (tk_mapped _ _ Hk) in E. cbn [ptes opened set_table] in *.
  rewrite (aget_lookup _ _ (Z.lor v PAGE_RW)) in * by (apply list_lookup_insert_eq, (pte_lt Hk)).
  cbn [mbind run_bind] in *. by rewrite writable_set.
Qed.
End modules.

Lemma NR_3_bound : (NR_os_ftrace_3 <= 548)%nat.
Proof. unfold NR_os_ftrace_3. lia. Qed.

(** Both modules replace slot 336 only, keep the page protected, and their
    exit functions restore the kernel; without the table the tracer refuses
    to load, and the file area module uses a null pointer. *)
Lemma later_roundtrip `{Env} (k : kernel) (v : Z) (old : fn) (m : hookmod) :
  table_ok k v -> table k !! NR_os_ftrace_3 = Some old -> old <> Null ->
  (exists m' k', t_hook_init m k = Ok (0, m', k') /\
     k' = set_table (<[NR_os_ftrace_3 := Later Trampoline]> (table k)) k /\ t_hook_exit m' k' = Ok k) /\
  (exists m' k', info_init k = Ok (0, m', k') /\
     k' = set_table (<[NR_os_ftrace_3 := Later FileVarea]> (table k)) k /\ info_exit m' k' = Ok k).
Proof.
  intros Hk Hold Hne.
  assert (Hback : forall f, set_table (<[NR_os_ftrace_3 := old]> (<[NR_os_ftrace_3 := f]> (table k))) k = k).
  { intros f. rewrite list_insert_insert_eq, list_insert_id by done. by destruct k. }
  assert (Hlen : forall f, length (<[NR_os_ftrace_3 := f]> (table k)) = length (table k))
    by (intros f; apply length_insert).
  pose proof NR_3_bound as Hnr. split.
  - unfold t_hook_init. rewrite (tk_found _ _ Hk), (aget_lookup _ _ _ Hold). cbn [mbind run_bind].
    rewrite (t_make_rw_ok0 Hk). cbn [mbind run_bind].
    rewrite (write_slot_ok Hk) by done. cbn [mbind run_bind]. rewrite (t_make_ro_ok Hk). cbn [mbind run_bind].
    eexists _, _. split_and!; [done..|]. unfold t_hook_exit. rewrite decide_True by done.
    rewrite (t_make_rw_ok Hk) by done. cbn [mbind run_bind]. rewrite (write_slot_ok Hk) by done.
    cbn [mbind run_bind real_os_ftrace]. by rewrite (t_make_ro_ok Hk), Hback.
  - unfold info_init. rewrite (tk_found _ _ Hk). rewrite (t_make_rw_ok0 Hk).
    cbn [mbind run_bind table opened set_table]. rewrite (aget_lookup _ _ _ Hold). cbn [mbind run_bind].
    change (Kernel (table k) _) with (opened v (set_table (table k) k)).
    rewrite (write_slot_ok Hk) by done. cbn [mbind run_bind]. rewrite (v_make_ro_ok Hk). cbn [mbind run_bind].
    eexists _, _. split_and!; [done..|]. unfold info_exit. cbn [have_table].
    rewrite (t_make_rw_ok Hk) by done. cbn [mbind run_bind]. rewrite (write_slot_ok Hk) by done.
    cbn [mbind run_bind real_os_ftrace]. by rewrite (v_make_ro_ok Hk), Hback.
Qed.
