(* ===== verification/ProcInfo.v ===== *)
(** * The process table in [/proc]

    [src/Assignment4/Assignment4-1/proc_info.c]: a file of [/proc] that lists
    the tasks when it is read, and of which a write selects one task.  The
    state is the module's global variables, the entries of [/proc] and the
    number of buffers that are allocated. *)

From Stdlib Require Import ZArith Lia Ascii String.
From stdpp Require Import base numbers list option strings gmap.
From S2P Require Import Prelude CText Sched Tracer.

Local Open Scope Z_scope.

Definition ENOMEM : Z := 12.
Definition EFAULT : Z := 14.

(** ** Formatted text *)
Definition zlen (s : string) : Z := Z.of_nat (String.length s).

Fixpoint spaces (n : nat) : string :=
  match n with O => "" | S n' => String " " (spaces n') end.

(** The conversions with a minus flag and a width. *)
Definition pad (w : nat) (s : string) : string := s +:+ spaces (w - String.length s).

(** [scnprintf (buf, room, ...)] of the text [s]: what ends up in the buffer
    before the terminating byte. *)
Definition scnprintf (room : Z) (s : string) : string :=
  if decide (room <= 0) then "" else String.substring 0 (Z.to_nat (room - 1)) s.

(** ** The module *)
Record pmod := Pmod {
  oslab_is_processed : Z;
  filter_pid : Z;
  write_flag : Z;
  oslab_fp_dir : option string;
  entries : gset string;
  bufs : Z }.

(** The kernel functions the module calls: [task_cputime] in nanoseconds,
    [nsecs_to_jiffies], and [kstrtoint] in base 10. *)
Class ProcEnv := {
  task_cputime : task_struct -> Z * Z;
  nsecs_to_jiffies : Z -> Z;
  kstrtoint : string -> option Z }.

Definition oslab_open (m : pmod) : Z * pmod :=
  (0, Pmod 0 (filter_pid m) (write_flag m) (oslab_fp_dir m) (entries m) (bufs m)).

(** The two proc entries; [proc_mkdir] may fail, and then the file is created
    in the root of [/proc]. *)
Definition dir_name : string := "proc_2021202089".
Definition info_path (d : option string) : string :=
  match d with Some d => d +:+ "/processInfo" | None => "processInfo" end.

Definition oslab_init (mkdir_ok create_ok : bool) (m : pmod) : Z * pmod :=
  let d := if mkdir_ok then Some dir_name else None in
  let e1 := if mkdir_ok then entries m ∪ {[dir_name]} else entries m in
  let e2 := if create_ok then e1 ∪ {[info_path d]} else e1 in
  (0, Pmod (oslab_is_processed m) (filter_pid m) (write_flag m) d e2 (bufs m)).

Definition oslab_exit (m : pmod) : pmod :=
  Pmod (oslab_is_processed m) (filter_pid m) (write_flag m) (oslab_fp_dir m)
    (entries m ∖ {[info_path (oslab_fp_dir m)]} ∖ {[dir_name]}) (bufs m).

(** The module as it is loaded. *)
Definition pmod0 (e : gset string) : pmod := Pmod 0 (-1) 0 None e 0.

(** ** Reading *)
Definition buf_size : Z := 4096 * 50.

Definition state_str (c : ascii) : string :=
  if decide (c = "R"%char) then "(running)"
  else if decide (c = "S"%char) then "(sleeping)"
  else if decide (c = "D"%char) then "(disk sleep)"
  else if decide (c = "T"%char) then "(stopped)"
  else if decide (c = "t"%char) then "(tracing stop)"
  else if decide (c = "X"%char) then "(dead)"
  else if decide (c = "Z"%char) then "(zombie)"
  else if decide (c = "P"%char) then "(parked)"
  else if decide (c = "I"%char) then "(idle)"
  else "".

Section reading.
Context `{ProcEnv} (ts : tasks).

(** The text of one task.  A [real_parent] that is no task of the table is
    the null pointer; [uid] and [gid] are unsigned and printed as [int]s. *)
Definition info_line (p : task_struct) : run string :=
  let '(utime_ns, stime_ns) := task_cputime p in
  let ppid := match by_pid ts !! real_parent p with Some q => pid q | None => 0 end in
  st ← task_state_to_char p;
  Ok (pad 7 (print_d (pid p)) +:+ " " +:+ pad 7 (print_d ppid) +:+ " " +:+
      pad 7 (print_d (wraps 32 (uid p))) +:+ " " +:+ pad 7 (print_d (wraps 32 (gid p))) +:+ " " +:+
      pad 10 (print_u (wrapu 64 (nsecs_to_jiffies utime_ns))) +:+ " " +:+
      pad 10 (print_u (wrapu 64 (nsecs_to_jiffies stime_ns))) +:+ " " +:+
      pad 1 (String st "") +:+ " " +:+ pad 15 (state_str st) +:+ " " +:+ comm p +:+ nl).

(** [append_info]; the buffer holds [out], whose length is the offset. *)
Definition append_info (out : string) (p : task_struct) : run string :=
  line ← info_line p; Ok (out +:+ scnprintf (buf_size - zlen out) line).

Definition head1 : string :=
  pad 7 "Pid" +:+ " " +:+ pad 7 "PPid" +:+ " " +:+ pad 7 "Uid" +:+ " " +:+ pad 7 "Gid" +:+ " " +:+
  pad 10 "utime" +:+ " " +:+ pad 10 "stime" +:+ " " +:+ pad 17 "State" +:+ " " +:+ "Name" +:+ nl.
Definition head2 : string :=
  "---------------------------------------------------------------------------------------------"
  +:+ nl.

(** The two loops [for_each_process]. *)
Fixpoint each_process (l : list Z) (out : string) : run string :=
  match l with
  | [] => Ok out
  | q :: l' =>
      p ← deref ts q;
      out' ← append_info out p;
      if decide (buf_size - 200 <= zlen out') then Ok out' else each_process l' out'
  end.

Fixpoint find_process (target : Z) (l : list Z) (out : string) : run string :=
  match l with
  | [] => Ok out
  | q :: l' =>
      p ← deref ts q;
      if decide (pid p = target) then append_info out p else find_process target l' out
  end.

(** [oslab_read]: the value returned, the bytes the user receives, and the
    state.  [kzalloc] and [copy_ok] say whether the calls succeed. *)
Definition oslab_read (kzalloc copy_ok : bool) (len : Z) (m : pmod) : run (Z * string * pmod) :=
  if decide (oslab_is_processed m <> 0) then Ok (0, "", m)
  else if kzalloc then
    let out0 := scnprintf buf_size head1 in
    let out1 := out0 +:+ scnprintf (buf_size - zlen out0) head2 in
    out ← (if decide (write_flag m = 0 \/ filter_pid m = -1)
           then each_process (order ts) out1
           else find_process (filter_pid m) (order ts) out1);
    let offset := if decide (len < zlen out) then len else zlen out in
    if copy_ok then
      Ok (offset, String.substring 0 (Z.to_nat offset) out,
          Pmod 1 (filter_pid m) (write_flag m) (oslab_fp_dir m) (entries m) (bufs m))
    else
      Ok (- EFAULT, "",
          Pmod (oslab_is_processed m) (filter_pid m) (write_flag m) (oslab_fp_dir m) (entries m)
            (bufs m + 1))
  else Ok (- ENOMEM, "", m).
End reading.

(** ** Writing *)

(** [oslab_write (data, length data)]; [left] is the number of bytes
    [copy_from_user] could not copy.  The array has 32 bytes. *)
Definition oslab_write `{ProcEnv} (left : nat) (data : list ascii) (m : pmod) : run (Z * pmod) :=
  let buf := replicate 32 "000"%char in
  buf1 ← acopy buf 0 (take (length data - left) data);
  if decide (left <> 0%nat) then Ok (- EFAULT, m)
  else
    buf2 ← zset buf1 (Z.of_nat (length data)) "000"%char;
    let f := match kstrtoint (c_str buf2) with None => -1 | Some pid_val => pid_val end in
    Ok (Z.of_nat (length data),
        Pmod (oslab_is_processed m) f 1 (oslab_fp_dir m) (entries m) (bufs m)).
