(* ===== verification/ProcInfoFacts.v ===== *)
(** * Theorems on the process table in [/proc]

    No line is ever cut: with names of at most 15 bytes a line has at most 124,
    so the margin of 200 bytes that ends the loop is enough.  From this follow
    what a read returns with and without a filter, and the protocol of opening,
    writing and reading. *)

From Stdlib Require Import ZArith Lia Ascii String.
From stdpp Require Import base numbers list option strings gmap.
From S2P Require Import Prelude CText Sched Tracer ProcInfo.

Local Open Scope Z_scope.

(** ** Lengths *)
Lemma spaces_length n : String.length (spaces n) = n.
Proof. induction n; cbn; congruence. Qed.

Lemma pad_length w s : String.length (pad w s) = Nat.max w (String.length s).
Proof. unfold pad. rewrite str_length_app, spaces_length. lia. Qed.

Lemma zlen_app a b : zlen (a +:+ b) = zlen a + zlen b.
Proof. unfold zlen. rewrite str_length_app. lia. Qed.

Lemma substring_all n s : (String.length s <= n)%nat -> String.substring 0 n s = s.
Proof.
  revert n. induction s as [|c s IH]; intros [|n] Hn; cbn in *; try done; try lia.
  f_equal. apply IH. lia.
Qed.

Lemma print_nat_to_len k fuel n acc :
  0 <= n < 10 ^ Z.of_nat (S k) ->
  (String.length (print_nat_to fuel n acc) <= S k + String.length acc)%nat.
Proof.
  revert k n acc. induction fuel as [|fuel IH]; intros k n acc Hn; cbn [print_nat_to]; [lia|].
  case_decide as E; [cbn; lia|].
  pose proof (Z.div_mod n 10 ltac:(lia)). pose proof (Z.mod_pos_bound n 10 ltac:(lia)).
  destruct k as [|k].
  - change (10 ^ Z.of_nat 1) with 10 in Hn. exfalso. apply E. apply Z.div_small. lia.
  - rewrite (Nat2Z.inj_succ (S k)), Z.pow_succ_r in Hn by lia.
    etrans; [apply (IH k)|cbn; lia].
    split; [apply Z.div_pos; lia|]. apply Z.div_lt_upper_bound; lia.
Qed.

Lemma print_d_len z : int_range z -> (String.length (print_d z) <= 11)%nat.
Proof.
  unfold int_range, INT_MIN, INT_MAX. intros Hz. unfold print_d, print_u. case_decide; cbn [String.length].
  - pose proof (print_nat_to_len 9 20 (- z) "" ltac:(cbn; lia)) as Hl. cbn in Hl |- *. lia.
  - pose proof (print_nat_to_len 9 20 z "" ltac:(cbn; lia)) as Hl. cbn in Hl |- *. lia.
Qed.

Lemma print_u_len z : (String.length (print_u (wrapu 64 z)) <= 20)%nat.
Proof.
  unfold print_u, wrapu. pose proof (Z.mod_pos_bound z (2 ^ 64) ltac:(lia)).
  pose proof (print_nat_to_len 19 20 (z mod 2 ^ 64) "") as Hl. cbn [String.length] in Hl.
  specialize (Hl ltac:(change (10 ^ Z.of_nat 20) with 100000000000000000000; lia)). lia.
Qed.

Lemma wraps32_range z : int_range (wraps 32 z).
Proof.
  unfold int_range, INT_MIN, INT_MAX, wraps, wrapu. pose proof (Z.mod_pos_bound z (2 ^ 32) ltac:(lia)).
  case_decide; change (2 ^ (32 - 1)) with 2147483648 in *; change (2 ^ 32) with 4294967296 in *; lia.
Qed.

Lemma state_str_len c : (String.length (state_str c) <= 15)%nat.
Proof. unfold state_str. repeat case_decide; cbn; lia. Qed.

(** ** The line of a task *)

(** A task as the kernel keeps it: its name fits the array of 16 bytes and its
    numbers fit their types. *)
Record listed (ts : tasks) (q : Z) (p : task_struct) : Prop := {
  li_find : by_pid ts !! q = Some p;
  li_pid : pid p = q;
  li_range : int_range q;
  li_state : 0 <= state p;
  li_exit : 0 <= exit_state p;
  li_comm : (String.length (comm p) <= 15)%nat }.

(** All tasks of the list are such, and so are the pids of their parents. *)
Record table_listed (ts : tasks) : Prop := {
  tl_order q : q ∈ order ts -> exists p, listed ts q p;
  tl_pids q p : by_pid ts !! q = Some p -> int_range (pid p);
  tl_nodup : NoDup (order ts) }.

Section facts.
Context `{ProcEnv} (ts : tasks) (Hts : table_listed ts).

Lemma info_line_ok q p :
  listed ts q p -> exists line, info_line ts p = Ok line /\ (String.length line <= 124)%nat.
Proof.
  intros Hl. unfold info_line. destruct (task_cputime p) as [u s].
  destruct (task_state_to_char_ok p (li_state _ _ _ Hl) (li_exit _ _ _ Hl)) as (c & -> & _).
  cbn [mbind run_bind]. eexists. split; [done|].
  set (ppid := match by_pid ts !! real_parent p with Some _ => _ | None => _ end).
  assert (Hpp : int_range ppid).
  { unfold ppid. destruct (by_pid ts !! real_parent p) eqn:E; [by eapply tl_pids|done]. }
  pose proof (print_d_len _ Hpp). pose proof (print_d_len _ (wraps32_range (uid p))).
  pose proof (print_d_len _ (wraps32_range (gid p))). pose proof (print_u_len (nsecs_to_jiffies u)).
  pose proof (print_u_len (nsecs_to_jiffies s)). pose proof (state_str_len c).
  pose proof (li_comm _ _ _ Hl). pose proof (print_d_len (pid p)) as Hp.
  rewrite (li_pid _ _ _ Hl) in *. specialize (Hp (li_range _ _ _ Hl)).
  rewrite !str_length_app, !pad_length. change (String.length " ") with 1%nat.
  change (String.length nl) with 1%nat. change (String.length (String c "")) with 1%nat. lia.
Qed.

(** The lines of a list of tasks. *)
Definition lines_of (l : list Z) (ls : list string) : Prop :=
  Forall2 (fun q line => exists p, listed ts q p /\ info_line ts p = Ok line) l ls.

Definition concat_s (ls : list string) : string := foldr (fun a b => a +:+ b) "" ls.

Lemma append_info_ok out q p :
  listed ts q p -> zlen out < buf_size - 200 ->
  exists line, info_line ts p = Ok line /\ append_info ts out p = Ok (out +:+ line) /\
    zlen (out +:+ line) < buf_size.
Proof.
  intros Hl Ho. destruct (info_line_ok _ _ Hl) as (line & E & Hlen). exists line. split; [done|].
  unfold append_info. rewrite E. cbn [mbind run_bind]. rewrite zlen_app.
  unfold scnprintf. unfold zlen in *. unfold buf_size in *. rewrite decide_False by lia.
  rewrite substring_all by lia. split; [done|lia].
Qed.

Lemma each_process_ok l out :
  (forall q, q ∈ l -> exists p, listed ts q p) -> zlen out < buf_size - 200 ->
  exists k ls, (k <= length l)%nat /\ each_process ts l out = Ok (out +:+ concat_s ls) /\
    lines_of (take k l) ls /\ zlen (out +:+ concat_s ls) < buf_size /\
    (k = length l \/ buf_size - 200 <= zlen (out +:+ concat_s ls)).
Proof.
  revert out. induction l as [|q l IH]; intros out Hl Ho; cbn [each_process].
  - exists 0%nat, []. cbn [concat_s foldr take length]. rewrite str_app_nil_r.
    split_and!; [done|done|constructor| |by left]. lia.
  - destruct (Hl q ltac:(left)) as [p Hp]. unfold deref. rewrite (li_find _ _ _ Hp). cbn [mbind run_bind].
    destruct (append_info_ok out q p Hp Ho) as (line & El & -> & Hb). cbn [mbind run_bind].
    case_decide as Hfull.
    + exists 1%nat, [line]. cbn [concat_s foldr take length]. rewrite str_app_nil_r.
      split_and!; [lia|done| |done|by right]. repeat constructor. eauto.
    + destruct (IH (out +:+ line)) as (k & ls & Hk & E & Hls & Hb' & Hend);
        [intros q' Hq'; apply Hl; by right|lia|].
      exists (S k), (line :: ls). cbn [concat_s foldr take length]. fold (concat_s ls).
      rewrite str_app_assoc in *. split_and!; [lia|done| |done|destruct Hend; [left; lia|by right]].
      constructor; eauto.
Qed.

Lemma find_process_ok target l out :
  (forall q, q ∈ l -> exists p, listed ts q p) -> zlen out < buf_size - 200 ->
  (target ∈ l -> exists p line, listed ts target p /\ info_line ts p = Ok line /\
     find_process ts target l out = Ok (out +:+ line)) /\
  (target ∉ l -> find_process ts target l out = Ok out).
Proof.
  intros Hl Ho. induction l as [|q l IH]; [split; [intros E; by apply elem_of_nil in E|done]|].
  cbn [find_process]. destruct (Hl q ltac:(left)) as [p Hp]. unfold deref.
  rewrite (li_find _ _ _ Hp). cbn [mbind run_bind]. rewrite (li_pid _ _ _ Hp).
  destruct IH as [IH1 IH2]; [intros q' Hq'; apply Hl; by right|]. rewrite not_elem_of_cons, elem_of_cons.
  case_decide as E.
  - subst q. destruct (append_info_ok out target p Hp Ho) as (line & El & Ea & _).
    split; [intros _; eauto|naive_solver].
  - split; [intros [->|Hin]; [done|by apply IH1]|intros [_ Hn]; by apply IH2].
Qed.
End facts.

(** ** The header *)
Definition header : string := head1 +:+ head2.

Lemma header_ok :
  scnprintf buf_size head1 +:+ scnprintf (buf_size - zlen (scnprintf buf_size head1)) head2 = header.
Proof. vm_compute. reflexivity. Qed.

Lemma header_len : zlen header < buf_size - 200.
Proof. vm_compute. reflexivity. Qed.

(** A read of a text by a user who asks for [len] bytes. *)
Lemma oslab_read_text `{ProcEnv} ts m len text :
  oslab_is_processed m = 0 -> 0 <= len ->
  (if decide (write_flag m = 0 \/ filter_pid m = -1) then each_process ts (order ts) header
   else find_process ts (filter_pid m) (order ts) header) = Ok text ->
  oslab_read ts true true len m =
    Ok (Z.min len (zlen text), String.substring 0 (Z.to_nat (Z.min len (zlen text))) text,
        Pmod 1 (filter_pid m) (write_flag m) (oslab_fp_dir m) (entries m) (bufs m)).
Proof.
  intros Hp Hlen Ht. unfold oslab_read. rewrite decide_False by lia. rewrite header_ok, Ht.
  cbn [mbind run_bind].
  replace (if decide (len < zlen text) then len else zlen text) with (Z.min len (zlen text));
    [done|].
  destruct (decide (len < zlen text)) as [E|E]; [by apply Z.min_l, Z.lt_le_incl|by apply Z.min_r, Z.nlt_ge].
Qed.

(** C22. A read of a freshly opened file without a filter: the user receives
    the header and the complete lines of the first tasks of the list, in
    order, cut at the length asked for; no line is cut in the kernel's
    buffer, and either all tasks are listed or the buffer is full up to its
    margin of 200 bytes.  The buffer is freed, and every further read returns
    0 until the file is opened again. *)
Theorem proc_read_all `{ProcEnv} (ts : tasks) (m : pmod) (len : Z) (Hts : table_listed ts)
    (Hp : oslab_is_processed m = 0) (Hf : write_flag m = 0 \/ filter_pid m = -1) (Hlen : 0 <= len) :
  exists k ls text m', (k <= length (order ts))%nat /\
    text = header +:+ concat_s ls /\ lines_of ts (take k (order ts)) ls /\
    (k = length (order ts) \/ buf_size - 200 <= zlen text < buf_size) /\
    oslab_read ts true true len m =
      Ok (Z.min len (zlen text), String.substring 0 (Z.to_nat (Z.min len (zlen text))) text, m') /\
    bufs m' = bufs m /\
    (forall a b len', oslab_read ts a b len' m' = Ok (0, "", m')).
Proof.
  destruct (each_process_ok ts Hts (order ts) header (tl_order _ Hts) header_len)
    as (k & ls & Hk & E & Hls & Hb & Hend).
  eexists k, ls, (header +:+ concat_s ls), _. split; [done|]. split; [done|]. split; [done|].
  split; [destruct Hend; [by left|by right]|]. split_and!.
  - apply (oslab_read_text ts m len); [done..|]. by rewrite decide_True.
  - done.
  - intros a b len'. unfold oslab_read. by rewrite decide_True.
Qed.

(** ** Writing *)
Lemma c_str_text data rest :
  "000"%char ∉ data -> c_str (data ++ "000"%char :: rest) = string_of_list_ascii data.
Proof.
  induction data as [|c data IH]; cbn; [done|]. rewrite not_elem_of_cons. intros [Hc Hd].
  rewrite decide_False by done. by rewrite IH.
Qed.

Lemma oslab_write_ok `{ProcEnv} data m :
  (length data < 32)%nat -> "000"%char ∉ data ->
  oslab_write 0 data m =
    Ok (Z.of_nat (length data),
        Pmod (oslab_is_processed m)
          (match kstrtoint (string_of_list_ascii data) with None => -1 | Some z => z end)
          1 (oslab_fp_dir m) (entries m) (bufs m)).
Proof.
  intros Hl Hn. unfold oslab_write. rewrite Nat.sub_0_r, firstn_all. unfold acopy.
  rewrite decide_True by (split; [lia|]; rewrite length_replicate; lia). cbn [mbind run_bind].
  rewrite decide_False by (intros E; by apply E). unfold zset, aset, splice.
  rewrite decide_True by lia. change (Z.to_nat 0) with 0%nat. cbn [take]. rewrite app_nil_l, Nat2Z.id, Nat.add_0_l.
  rewrite drop_replicate, decide_True by (rewrite length_app, length_replicate; lia).
  cbn [mbind run_bind]. replace (32 - length data)%nat with (S (31 - length data)) by lia. cbn [replicate].
  rewrite insert_app_r_alt, Nat.sub_diag by lia. cbn [insert list_insert].
  by rewrite c_str_text.
Qed.

(** A write of 32 bytes or more that is copied runs past the array of 32
    bytes: the length is never compared with it. *)
Theorem proc_write_overrun `{ProcEnv} (data : list ascii) (m : pmod) (Hlen : (32 <= length data)%nat) :
  oslab_write 0 data m = Undef.
Proof.
  unfold oslab_write, acopy. rewrite Nat.sub_0_r, firstn_all. destruct (decide (0 <= 0 /\ _)) as [E|E]; [|done].
  cbn [mbind run_bind]. rewrite decide_False by (intros E'; by apply E').
  unfold zset. rewrite decide_True, Nat2Z.id by lia. unfold aset. rewrite decide_False; [done|].
  unfold splice. destruct E as [_ E]. cbn [Z.to_nat] in *.
  rewrite !length_app, length_take, length_drop, length_replicate in *. lia.
Qed.

(** Printed numbers have no zero byte. *)
Lemma print_nat_to_no_nul fuel n acc :
  0 <= n -> "000"%char ∉ list_ascii_of_string acc ->
  "000"%char ∉ list_ascii_of_string (print_nat_to fuel n acc).
Proof.
  revert n acc. induction fuel as [|fuel IH]; intros n acc Hn Ha; cbn [print_nat_to]; [done|].
  assert (Hd : "000"%char <> digit_char (n mod 10)).
  { pose proof (Z.mod_pos_bound n 10 ltac:(lia)). unfold digit_char. intros E.
    apply (f_equal nat_of_ascii) in E. rewrite nat_ascii_embedding in E by lia.
    change (nat_of_ascii "000") with 0%nat in E. lia. }
  assert (Ha' : "000"%char ∉ list_ascii_of_string (String (digit_char (n mod 10)) acc)).
  { cbn [list_ascii_of_string]. apply not_elem_of_cons. done. }
  case_decide; [done|]. apply IH; [apply Z.div_pos; lia|done].
Qed.

Lemma print_d_no_nul z : "000"%char ∉ list_ascii_of_string (print_d z).
Proof.
  unfold print_d, print_u. case_decide.
  - cbn [list_ascii_of_string]. apply not_elem_of_cons. split; [done|].
    apply print_nat_to_no_nul; [lia|apply not_elem_of_nil].
  - apply print_nat_to_no_nul; [lia|apply not_elem_of_nil].
Qed.

Lemma list_ascii_len s : length (list_ascii_of_string s) = String.length s.
Proof. induction s; cbn; congruence. Qed.

(** C23. Selecting a task: writing the decimal pid and opening the file makes
    the next read return the header and the line of that task only, or the
    header alone if no task of the list has the pid; the filter stays until
    the next write.  [kstrtoint] is assumed to read back a decimal [int]. *)
Theorem proc_select `{ProcEnv} (ts : tasks) (m : pmod) (z len : Z) (Hts : table_listed ts)
    (Hk : forall z, int_range z -> kstrtoint (print_d z) = Some z)
    (Hz : int_range z) (Hne : z <> -1) (Hlen : 0 <= len) :
  exists n m1 m2 text, oslab_write 0 (list_ascii_of_string (print_d z)) m = Ok (n, m1) /\
    oslab_open m1 = (0, m2) /\
    (z ∈ order ts -> exists p line, listed ts z p /\ info_line ts p = Ok line /\
       text = header +:+ line) /\
    (z ∉ order ts -> text = header) /\
    exists m3, oslab_read ts true true len m2 =
        Ok (Z.min len (zlen text), String.substring 0 (Z.to_nat (Z.min len (zlen text))) text, m3) /\
      filter_pid m3 = z /\ write_flag m3 = 1.
Proof.
  destruct (find_process_ok ts Hts z (order ts) header (tl_order _ Hts) header_len) as [Hin Hout].
  rewrite oslab_write_ok by (apply print_d_no_nul || (rewrite list_ascii_len; pose proof (print_d_len z Hz); lia)).
  rewrite string_of_list_ascii_of_string, Hk by done.
  assert (exists text, find_process ts z (order ts) header = Ok text /\
    (z ∈ order ts -> exists p line, listed ts z p /\ info_line ts p = Ok line /\ text = header +:+ line) /\
    (z ∉ order ts -> text = header)) as (text & Et & H1 & H2).
  { destruct (decide (z ∈ order ts)) as [Hi|Hi].
    - destruct (Hin Hi) as (p & line & Hp & El & Ef). exists (header +:+ line). split; [done|].
      split; [by eauto|done].
    - exists header. split; [by apply Hout|done]. }
  eexists _, _, _, text. split; [done|]. split; [done|]. split; [done|]. split; [done|].
  eexists. split; [apply (oslab_read_text ts _ len text); [done..|]|done].
  cbn [write_flag filter_pid]. by rewrite decide_False by lia.
Qed.

(** ** Further behaviour *)

(** A failed copy leaks the buffer and leaves the file readable. *)
Lemma proc_read_fault_leaks `{ProcEnv} ts m len text :
  oslab_is_processed m = 0 ->
  (if decide (write_flag m = 0 \/ filter_pid m = -1) then each_process ts (order ts) header
   else find_process ts (filter_pid m) (order ts) header) = Ok text ->
  exists m', oslab_read ts true false len m = Ok (- EFAULT, "", m') /\ bufs m' = bufs m + 1 /\
    oslab_is_processed m' = 0.
Proof.
  intros Hp Ht. unfold oslab_read. rewrite decide_False by lia. rewrite header_ok, Ht.
  cbn [mbind run_bind]. eauto.
Qed.

(** Removing the module removes what loading it created. *)
Lemma proc_entries_roundtrip mk cr m :
  dir_name ∉ entries m -> info_path None ∉ entries m -> info_path (Some dir_name) ∉ entries m ->
  (oslab_init mk cr m).1 = 0 /\ entries (oslab_exit (oslab_init mk cr m).2) = entries m.
Proof.
  intros H1 H2 H3. split; [done|]. unfold oslab_init, oslab_exit. cbn [snd entries oslab_fp_dir].
  destruct mk, cr; set_solver.
Qed.

(** ** Concrete inputs *)
#[local] Instance penv : ProcEnv :=
  {| task_cputime := fun p => (utime p, stime p);
     nsecs_to_jiffies := fun n => n / 4000000;
     kstrtoint := fun s => match scan_d s with Ok (Some (z, EmptyString)) => Some z | _ => None end |}.

Definition shell : tasks :=
  let t p nm := Task 1 0 0 p p nm 1 1 [] p 3 4 0 1000 1000 8000000 4000000 in
  Tasks {[ 1 := t 1 "init"; 2 := t 2 "sh" ]} [1; 2].

Lemma shell_listed : table_listed shell.
Proof.
  assert (Hc : forall q p, by_pid shell !! q = Some p ->
    (q = 1 \/ q = 2) /\ pid p = q /\ state p = 1 /\ exit_state p = 0 /\ (String.length (comm p) <= 15)%nat).
  { unfold shell. cbn [by_pid]. intros q p. rewrite lookup_insert_Some, lookup_singleton_Some.
    intros [[<- <-]|(_ & <- & <-)]; cbn; split_and!; auto; lia. }
  assert (Hl : forall q p, by_pid shell !! q = Some p -> listed shell q p).
  { intros q p Hq. destruct (Hc q p Hq) as (Hq12 & Hp & Hs & He & Hl). split; [done|done| |lia|lia|done].
    unfold int_range, INT_MIN, INT_MAX. lia. }
  split.
  - intros q Hq. cbn in Hq. assert (is_Some (by_pid shell !! q)) as [p Hp]; [|eauto].
    rewrite !elem_of_cons in Hq. destruct Hq as [->|[->|Hq]]; [by eexists..|by apply elem_of_nil in Hq].
  - intros q p Hq. rewrite (li_pid _ _ _ (Hl _ _ Hq)). apply (li_range _ _ _ (Hl _ _ Hq)).
  - repeat constructor; set_solver.
Qed.

Lemma proc_read_all_witness :
  exists k ls m', (k <= 2)%nat /\ lines_of shell (take k [1; 2]) ls /\
    oslab_read shell true true 100 (pmod0 ∅) =
      Ok (100, String.substring 0 100 (header +:+ concat_s ls), m') /\
    oslab_read shell true true 100 m' = Ok (0, "", m').
Proof.
  destruct (proc_read_all shell (pmod0 ∅) 100 shell_listed eq_refl (or_introl eq_refl) ltac:(lia))
    as (k & ls & text & m' & Hk & -> & Hls & _ & E & _ & E').
  exists k, ls, m'. split_and!; [exact Hk|exact Hls| |apply E'].
  assert (Hmin : Z.min 100 (zlen (header +:+ concat_s ls)) = 100).
  { assert (Hh : 100 <= zlen header) by (vm_compute; discriminate).
    rewrite zlen_app. assert (0 <= zlen (concat_s ls)) by (unfold zlen; lia). lia. }
  rewrite Hmin in E. exact E.
Defined.

Lemma proc_select_witness :
  exists n m1 m2 text, oslab_write 0 (list_ascii_of_string "2") (pmod0 ∅) = Ok (n, m1) /\
    oslab_open m1 = (0, m2) /\
    (exists p line, listed shell 2 p /\ info_line shell p = Ok line /\ text = header +:+ line) /\
    exists m3, oslab_read shell true true 4096 m2 =
        Ok (Z.min 4096 (zlen text), String.substring 0 (Z.to_nat (Z.min 4096 (zlen text))) text, m3) /\
      filter_pid m3 = 2 /\ write_flag m3 = 1.
Proof.
  destruct (proc_select shell (pmod0 ∅) 2 4096 shell_listed) as (n & m1 & m2 & text & E1 & E2 & Hin & _ & E3).
  - intros z Hz. cbn [kstrtoint penv]. rewrite <- (str_app_nil_r (print_d z)).
    by rewrite (scan_d_print_d z "" Hz I).
  - done.
  - done.
  - lia.
  - exists n, m1, m2, text. split_and!; [done|done| |done]. apply Hin. right. left.
Defined.

Lemma proc_write_overrun_witness : oslab_write 0 (replicate 32 "7"%char) (pmod0 ∅) = Undef.
Proof. apply proc_write_overrun. rewrite length_replicate. lia. Defined.
