(* ===== verification/KFork.v ===== *)
(** * Creating tasks

    [src/Assignment2/Assignment2-1/fork.c], the kernel's [fork.c] with the
    counter [fork_count] of the assignment: [copy_process] with its ladder of
    error labels, [_do_fork], the system calls that end in it, and the checks
    of [unshare].

    A task under construction holds two kinds of things: references to counted
    objects (open files, file system information, signal handlers, signals,
    address space, I/O context), and one token [res] for each other thing a
    kernel function allocated for it.  Dropping a reference or freeing a token
    that is not there is undefined, so a proof that an error path is defined
    shows that nothing is freed twice.  What the functions outside the file
    return is the argument [kenv]. *)

From Stdlib Require Import ZArith Lia String.
From stdpp Require Import base numbers list option strings gmap.
From S2P Require Import Prelude CText Hook Sched Tracer ProcInfo.

Local Open Scope Z_scope.

Definition EINTR : Z := 4.
Definition E2BIG : Z := 7.
Definition EAGAIN : Z := 11.
Definition ERESTARTNOINTR : Z := 513.
Definition SIGCHLD : Z := 17.

(** ** Flags of [clone] *)
Definition CSIGNAL : Z := 0xff.
Definition CLONE_VM : Z := 0x100.
Definition CLONE_FS : Z := 0x200.
Definition CLONE_FILES : Z := 0x400.
Definition CLONE_SIGHAND : Z := 0x800.
Definition CLONE_PIDFD : Z := 0x1000.
Definition CLONE_PTRACE : Z := 0x2000.
Definition CLONE_VFORK : Z := 0x4000.
Definition CLONE_PARENT : Z := 0x8000.
Definition CLONE_THREAD : Z := 0x10000.
Definition CLONE_NEWNS : Z := 0x20000.
Definition CLONE_SYSVSEM : Z := 0x40000.
Definition CLONE_PARENT_SETTID : Z := 0x100000.
Definition CLONE_DETACHED : Z := 0x400000.
Definition CLONE_UNTRACED : Z := 0x800000.
Definition CLONE_NEWCGROUP : Z := 0x2000000.
Definition CLONE_NEWUTS : Z := 0x4000000.
Definition CLONE_NEWIPC : Z := 0x8000000.
Definition CLONE_NEWUSER : Z := 0x10000000.
Definition CLONE_NEWPID : Z := 0x20000000.
Definition CLONE_NEWNET : Z := 0x40000000.
Definition CLONE_IO : Z := 0x80000000.
Definition CLONE_LEGACY_FLAGS : Z := 0xffffffff.

(** [f & m], as a condition. *)
Definition has (f m : Z) : bool := negb (bool_decide (Z.land f m = 0)).
(** [(f & m) == m] *)
Definition has_all (f m : Z) : bool := bool_decide (Z.land f m = m).

(** [struct kernel_clone_args], the fields that matter here. *)
Record kernel_clone_args := Args {
  a_flags : Z; a_pidfd : Z; a_parent_tid : Z; a_exit_signal : Z; a_stack : Z; a_stack_size : Z }.

(** ** What a task holds *)
Inductive kind := KFiles | KFs | KSighand | KSignal | KMm | KIoc.
#[export] Instance kind_eq : EqDecision kind.
Proof. solve_decision. Defined.
#[export] Instance kind_countable : Countable kind.
Proof.
  refine (inj_countable'
    (fun k => match k with KFiles => 0 | KFs => 1 | KSighand => 2 | KSignal => 3 | KMm => 4 | KIoc => 5 end)%nat
    (fun n => match n with 0 => KFiles | 1 => KFs | 2 => KSighand | 3 => KSignal | 4 => KMm | _ => KIoc end)%nat _).
  by intros [].
Defined.

Inductive token :=
| RTask | RStack | RDelayed | RCreds | RDelayacct | RMpol | RPerf | RAudit | RSecurity | RSem
| RNamespaces | RThread | RPid | RFd | RPidfile | RThreadgroup | RCgroup.
#[export] Instance token_eq : EqDecision token.
Proof. solve_decision. Defined.

(** The pointers of a task; [None] is the null pointer. *)
Record ctx := Ctx {
  c_files : option Z; c_fs : Z; c_sighand : Z; c_signal : Z; c_mm : option Z; c_io : option Z;
  c_seccomp : bool }.

(** The part of the kernel that an error path has to restore: reference
    counts (those of the caller's seccomp filter apart), the processes of the
    user, the two locks, and the tokens. *)
Record core := Core {
  refs : gmap (kind * Z) Z; filter_refs : Z; processes : Z; siglock : bool; tasklist : bool;
  res : list token }.

Definition set_refs r k := Core r (filter_refs k) (processes k) (siglock k) (tasklist k) (res k).
Definition set_filter f k := Core (refs k) f (processes k) (siglock k) (tasklist k) (res k).
Definition set_procs n k := Core (refs k) (filter_refs k) n (siglock k) (tasklist k) (res k).
Definition set_siglock b k := Core (refs k) (filter_refs k) (processes k) b (tasklist k) (res k).
Definition set_tasklist b k := Core (refs k) (filter_refs k) (processes k) (siglock k) b (res k).
Definition set_res l k := Core (refs k) (filter_refs k) (processes k) (siglock k) (tasklist k) l.

Definition acquire (t : token) (k : core) : core := set_res (t :: res k) k.
Fixpoint remove_token (t : token) (l : list token) : option (list token) :=
  match l with
  | [] => None
  | t' :: l' => if decide (t = t') then Some l' else (cons t') <$> remove_token t l'
  end.
Definition release (t : token) (k : core) : run core :=
  match remove_token t (res k) with Some l => Ok (set_res l k) | None => Undef end.

Definition get (o : kind * Z) (k : core) : run core :=
  match refs k !! o with Some n => Ok (set_refs (<[o := n + 1]> (refs k)) k) | None => Undef end.
Definition put (o : kind * Z) (k : core) : run core :=
  match refs k !! o with
  | Some n => Ok (set_refs (if decide (n = 1) then delete o (refs k) else <[o := n - 1]> (refs k)) k)
  | None => Undef
  end.
Definition new_obj (o : kind * Z) (k : core) : core := set_refs (<[o := 1]> (refs k)) k.

(** Taking a lock that is held is a deadlock. *)
Definition lock_sig (k : core) : run core := if siglock k then Undef else Ok (set_siglock true k).
Definition unlock_sig (k : core) : run core := if siglock k then Ok (set_siglock false k) else Undef.
Definition lock_tasks (k : core) : run core := if tasklist k then Undef else Ok (set_tasklist true k).
Definition unlock_tasks (k : core) : run core := if tasklist k then Ok (set_tasklist false k) else Undef.

(** ** The surroundings of one call *)
Inductive ext_call :=
| CopyCreds | MpolDup | SchedFork | PerfInit | AuditAlloc | SecurityAlloc | CopySemundo
| CopyNamespaces | CopyThread | AnonInode | PutUser | CgroupCanFork | DupFd | MemcgCharge | ArchDup | DupMmap.

Record kenv := KEnv {
  unkillable : bool;              (** [current->signal->flags & SIGNAL_UNKILLABLE] *)
  ns_differs : bool;              (** the pid namespace of the children is another one *)
  signal_pending : bool;
  rlimit_nproc : Z;
  privileged : bool;              (** [INIT_USER], or one of the two capabilities *)
  ext : ext_call -> Z;            (** 0, or a negative error *)
  alloc_ok : bool * bool;         (** the task structure and its stack *)
  new_ok : kind -> bool;          (** allocations of counted objects *)
  mm_init_ok : bool;
  module_ok : bool;               (** no binary format, or its module is taken *)
  fs_in_exec : bool;
  ioprio_valid : bool;
  alloc_pid : Z;                  (** a pid, or a negative error *)
  unused_fd : Z;                  (** a descriptor, or a negative error *)
  pidns_adding : bool;
  fatal_signal : bool;
  child_state : Z;                (** the state [sched_fork] sets *)
  woken_state : Z;                (** the state [wake_up_new_task] sets *)
  leader_exit_signal : Z;         (** [current->group_leader->exit_signal] *)
  tracer : option Z;              (** the task that traces [current] *)
  event_enabled : Z -> bool;      (** [ptrace_event_enabled (current, event)] *)
  access_ok : Z -> Z -> bool }.

(** ** Flags that do not go together *)
Definition clone_flags_valid (e : kenv) (f : Z) : bool :=
  if has_all f (Z.lor CLONE_NEWNS CLONE_FS) then false
  else if has_all f (Z.lor CLONE_NEWUSER CLONE_FS) then false
  else if has f CLONE_THREAD && negb (has f CLONE_SIGHAND) then false
  else if has f CLONE_SIGHAND && negb (has f CLONE_VM) then false
  else if has f CLONE_PARENT && unkillable e then false
  else if has f CLONE_THREAD && (has f (Z.lor CLONE_NEWUSER CLONE_NEWPID) || ns_differs e) then false
  else if has f CLONE_PIDFD && has f (Z.lor CLONE_DETACHED CLONE_THREAD) then false
  else true.

(** ** The error labels of [copy_process], in their order *)
Inductive label :=
| cancel_cgroup | threadgroup_change_end | put_pidfd | free_pid | cleanup_thread | cleanup_io
| cleanup_namespaces | cleanup_mm | cleanup_signal | cleanup_sighand | cleanup_fs | cleanup_files
| cleanup_semundo | cleanup_security | cleanup_audit | cleanup_perf | cleanup_policy
| cleanup_threadgroup_lock | cleanup_count | bad_fork_free | fork_out.
#[export] Instance label_eq : EqDecision label.
Proof. solve_decision. Defined.

(** The label control falls through to. *)
Definition next_label (l : label) : option label :=
  match l with
  | cancel_cgroup => Some threadgroup_change_end
  | threadgroup_change_end => Some put_pidfd
  | put_pidfd => Some free_pid
  | free_pid => Some cleanup_thread
  | cleanup_thread => Some cleanup_io
  | cleanup_io => Some cleanup_namespaces
  | cleanup_namespaces => Some cleanup_mm
  | cleanup_mm => Some cleanup_signal
  | cleanup_signal => Some cleanup_sighand
  | cleanup_sighand => Some cleanup_fs
  | cleanup_fs => Some cleanup_files
  | cleanup_files => Some cleanup_semundo
  | cleanup_semundo => Some cleanup_security
  | cleanup_security => Some cleanup_audit
  | cleanup_audit => Some cleanup_perf
  | cleanup_perf => Some cleanup_policy
  | cleanup_policy => Some cleanup_threadgroup_lock
  | cleanup_threadgroup_lock => Some cleanup_count
  | cleanup_count => Some bad_fork_free
  | bad_fork_free => Some fork_out
  | fork_out => None
  end.

(** The statements at a label. *)
Definition act (idle : bool) (f : Z) (c : ctx) (l : label) (k : core) : run core :=
  match l with
  | cancel_cgroup => k ← unlock_sig k; k ← unlock_tasks k; release RCgroup k
  | threadgroup_change_end => release RThreadgroup k
  | put_pidfd => if has f CLONE_PIDFD then k ← release RPidfile k; release RFd k else Ok k
  | free_pid => if idle then Ok k else release RPid k
  | cleanup_thread => release RThread k
  | cleanup_io => match c_io c with Some i => put (KIoc, i) k | None => Ok k end
  | cleanup_namespaces => release RNamespaces k
  | cleanup_mm => match c_mm c with Some i => put (KMm, i) k | None => Ok k end
  | cleanup_signal => if has f CLONE_THREAD then Ok k else put (KSignal, c_signal c) k
  | cleanup_sighand => put (KSighand, c_sighand c) k
  | cleanup_fs => put (KFs, c_fs c) k
  | cleanup_files => match c_files c with Some i => put (KFiles, i) k | None => Ok k end
  | cleanup_semundo => release RSem k
  | cleanup_security => release RSecurity k
  | cleanup_audit => release RAudit k
  | cleanup_perf => release RPerf k
  | cleanup_policy => release RMpol k
  | cleanup_threadgroup_lock => release RDelayacct k
  | cleanup_count => release RCreds (set_procs (processes k - 1) k)
  | bad_fork_free =>
      k ← release RStack k;
      release RTask (if c_seccomp c then set_filter (filter_refs k - 1) k else k)
  | fork_out =>
      k ← lock_sig k;
      k ← (if has f CLONE_THREAD then Ok k else release RDelayed k);
      unlock_sig k
  end.

(** From a label to the end of the function: 21 labels. *)
Fixpoint unwind_to (n : nat) (idle : bool) (f : Z) (c : ctx) (l : label) (k : core) : run core :=
  match n with
  | O => NoFuel
  | S n' =>
      k' ← act idle f c l k;
      match next_label l with Some l' => unwind_to n' idle f c l' k' | None => Ok k' end
  end.

Definition place (l : label) : nat :=
  match l with
  | cancel_cgroup => 21 | threadgroup_change_end => 20 | put_pidfd => 19 | free_pid => 18
  | cleanup_thread => 17 | cleanup_io => 16 | cleanup_namespaces => 15 | cleanup_mm => 14
  | cleanup_signal => 13 | cleanup_sighand => 12 | cleanup_fs => 11 | cleanup_files => 10
  | cleanup_semundo => 9 | cleanup_security => 8 | cleanup_audit => 7 | cleanup_perf => 6
  | cleanup_policy => 5 | cleanup_threadgroup_lock => 4 | cleanup_count => 3 | bad_fork_free => 2
  | fork_out => 1
  end%nat.

Definition unwind (idle : bool) (f : Z) (c : ctx) (l : label) (k : core) : run core :=
  unwind_to (place l) idle f c l k.

(** ** A task under construction *)
Record st := St {
  s_p : task_struct;              (** the new task *)
  s_c : ctx;                      (** and its pointers *)
  s_cur : task_struct;            (** [current] *)
  s_k : core;
  s_fresh : Z;                    (** the next address *)
  s_uw : list (Z * Z) }.          (** writes to user memory *)

Definition with_p p s := St p (s_c s) (s_cur s) (s_k s) (s_fresh s) (s_uw s).
Definition with_c c s := St (s_p s) c (s_cur s) (s_k s) (s_fresh s) (s_uw s).
Definition with_cur t s := St (s_p s) (s_c s) t (s_k s) (s_fresh s) (s_uw s).
Definition with_k k s := St (s_p s) (s_c s) (s_cur s) k (s_fresh s) (s_uw s).
Definition with_uw u s := St (s_p s) (s_c s) (s_cur s) (s_k s) (s_fresh s) u.

(** A step goes on, or jumps to a label with an error. *)
Inductive out := Next (s : st) | Goto (l : label) (retval : Z) (s : st).

Definition andthen (m : st -> run out) (m' : st -> run out) (s : st) : run out :=
  o ← m s; match o with Next s' => m' s' | Goto l r s' => Ok (Goto l r s') end.
Infix ";;;" := andthen (at level 60, right associativity).

(** A call that takes a token, or fails with a jump. *)
Definition step_ext (r : Z) (l : label) (t : token) (s : st) : run out :=
  if decide (r <> 0) then Ok (Goto l r s) else Ok (Next (with_k (acquire t (s_k s)) s)).

(** ** Pieces of [task_struct] *)
Definition set_flags fl t := Task (state t) (exit_state t) fl (pid t) (tgid t) (comm t) (real_parent t)
  (parent t) (children t) (group_leader t) (nvcsw t) (nivcsw t) (fork_count t) (uid t) (gid t) (utime t) (stime t).
Definition set_state st t := Task st (exit_state t) (flags t) (pid t) (tgid t) (comm t) (real_parent t)
  (parent t) (children t) (group_leader t) (nvcsw t) (nivcsw t) (fork_count t) (uid t) (gid t) (utime t) (stime t).
Definition set_children l t := Task (state t) (exit_state t) (flags t) (pid t) (tgid t) (comm t) (real_parent t)
  (parent t) l (group_leader t) (nvcsw t) (nivcsw t) (fork_count t) (uid t) (gid t) (utime t) (stime t).
Definition set_times u s t := Task (state t) (exit_state t) (flags t) (pid t) (tgid t) (comm t) (real_parent t)
  (parent t) (children t) (group_leader t) (nvcsw t) (nivcsw t) (fork_count t) (uid t) (gid t) u s.
Definition set_switches v n t := Task (state t) (exit_state t) (flags t) (pid t) (tgid t) (comm t) (real_parent t)
  (parent t) (children t) (group_leader t) v n (fork_count t) (uid t) (gid t) (utime t) (stime t).
Definition set_ids p tg gl t := Task (state t) (exit_state t) (flags t) p tg (comm t) (real_parent t)
  (parent t) (children t) gl (nvcsw t) (nivcsw t) (fork_count t) (uid t) (gid t) (utime t) (stime t).
Definition set_parents rp pa t := Task (state t) (exit_state t) (flags t) (pid t) (tgid t) (comm t) rp
  pa (children t) (group_leader t) (nvcsw t) (nivcsw t) (fork_count t) (uid t) (gid t) (utime t) (stime t).
Definition set_fork_count n t := Task (state t) (exit_state t) (flags t) (pid t) (tgid t) (comm t) (real_parent t)
  (parent t) (children t) (group_leader t) (nvcsw t) (nivcsw t) n (uid t) (gid t) (utime t) (stime t).

(** ** The steps of [copy_process] *)
Section steps.
Context (e : kenv) (idle : bool) (a : kernel_clone_args).
Context (curc : ctx).             (** the pointers of [current] *)
Let f := a_flags a.

(** Signals are collected during the fork; one that is pending stops it. *)
Definition s_signals (s : st) : run out :=
  k ← lock_sig (s_k s);
  k ← unlock_sig (if has f CLONE_THREAD then k else acquire RDelayed k);
  if signal_pending e then Ok (Goto fork_out (- ERESTARTNOINTR) (with_k k s)) else Ok (Next (with_k k s)).

(** [dup_task_struct]: the structure, the stack, the charge and the copy, with
    its own error labels. *)
Definition dup_task_struct (k : core) : option core :=
  if (alloc_ok e).1 then
    if (alloc_ok e).2 then
      if decide (ext e MemcgCharge <> 0) then None
      else if decide (ext e ArchDup <> 0) then None
      else Some (acquire RStack (acquire RTask k))
    else None
  else None.

Definition s_dup (s : st) : run out :=
  match dup_task_struct (s_k s) with
  | None => Ok (Goto fork_out (- ENOMEM) s)
  | Some k =>
      let c := Ctx (c_files curc) (c_fs curc) (c_sighand curc) (c_signal curc) (c_mm curc) (c_io curc) false in
      Ok (Next (with_c c (with_p (s_cur s) (with_k k s))))
  end.

(** The limit on processes, the credentials and the limit on threads. *)
Definition s_limit (s : st) : run out :=
  if bool_decide (rlimit_nproc e <= processes (s_k s)) && negb (privileged e)
  then Ok (Goto bad_fork_free (- EAGAIN) s)
  else Ok (Next (with_cur (set_flags (Z.ldiff (flags (s_cur s)) PF_NPROC_EXCEEDED) (s_cur s)) s)).

Definition s_creds (s : st) : run out :=
  if decide (ext e CopyCreds < 0) then Ok (Goto bad_fork_free (ext e CopyCreds) s)
  else Ok (Next (with_k (acquire RCreds (set_procs (processes (s_k s) + 1) (s_k s))) s)).

Definition s_threads (nr_threads max_threads : Z) (s : st) : run out :=
  if decide (max_threads <= nr_threads) then Ok (Goto cleanup_count (- EAGAIN) s)
  else
    let p := s_p s in
    let fl := Z.lor (Z.ldiff (flags p) (Z.lor PF_SUPERPRIV (Z.lor PF_WQ_WORKER PF_IDLE))) PF_FORKNOEXEC in
    let p' := set_times 0 0 (set_children [] (set_flags fl p)) in
    let c := s_c s in
    let c' := Ctx (c_files c) (c_fs c) (c_sighand c) (c_signal c) (c_mm c) None (c_seccomp c) in
    Ok (Next (with_p p' (with_c c' (with_k (acquire RDelayacct (s_k s)) s)))).

Definition s_sched (s : st) : run out :=
  if decide (ext e SchedFork <> 0) then Ok (Goto cleanup_policy (ext e SchedFork) s)
  else Ok (Next (with_p (set_state (child_state e) (s_p s)) s)).

(** The counted objects are shared or copied. *)
Definition fresh_obj (o : kind) (s : st) : st :=
  St (s_p s) (s_c s) (s_cur s) (new_obj (o, s_fresh s) (s_k s)) (s_fresh s + 1) (s_uw s).

Definition copy_files (s : st) : run out :=
  match c_files curc with
  | None => Ok (Next s)
  | Some i =>
      if has f CLONE_FILES then k ← get (KFiles, i) (s_k s); Ok (Next (with_k k s))
      else if new_ok e KFiles then
        let c := s_c s in
        Ok (Next (with_c (Ctx (Some (s_fresh s)) (c_fs c) (c_sighand c) (c_signal c) (c_mm c) (c_io c) (c_seccomp c))
                    (fresh_obj KFiles s)))
      else if decide (ext e DupFd <> 0) then Ok (Goto cleanup_semundo (ext e DupFd) s)
      else Ok (Next s)
  end.

Definition copy_fs (s : st) : run out :=
  if has f CLONE_FS then
    if fs_in_exec e then Ok (Goto cleanup_files (- EAGAIN) s)
    else k ← get (KFs, c_fs curc) (s_k s); Ok (Next (with_k k s))
  else if new_ok e KFs then
    let c := s_c s in
    Ok (Next (with_c (Ctx (c_files c) (s_fresh s) (c_sighand c) (c_signal c) (c_mm c) (c_io c) (c_seccomp c))
                (fresh_obj KFs s)))
  else Ok (Goto cleanup_files (- ENOMEM) s).

Definition copy_sighand (s : st) : run out :=
  if has f CLONE_SIGHAND then k ← get (KSighand, c_sighand curc) (s_k s); Ok (Next (with_k k s))
  else if new_ok e KSighand then
    let c := s_c s in
    Ok (Next (with_c (Ctx (c_files c) (c_fs c) (s_fresh s) (c_signal c) (c_mm c) (c_io c) (c_seccomp c))
                (fresh_obj KSighand s)))
  else Ok (Goto cleanup_fs (- ENOMEM) s).

Definition copy_signal (s : st) : run out :=
  if has f CLONE_THREAD then Ok (Next s)
  else if new_ok e KSignal then
    let c := s_c s in
    Ok (Next (with_c (Ctx (c_files c) (c_fs c) (c_sighand c) (s_fresh s) (c_mm c) (c_io c) (c_seccomp c))
                (fresh_obj KSignal s)))
  else Ok (Goto cleanup_sighand (- ENOMEM) s).

(** [dup_mm] frees what it took when a later part fails. *)
Definition dup_mm : bool :=
  if new_ok e KMm then
    if mm_init_ok e then
      if decide (ext e DupMmap <> 0) then false else module_ok e
    else false
  else false.

Definition copy_mm (s0 : st) : run out :=
  let s := with_p (set_switches 0 0 (s_p s0)) s0 in
  let c := s_c s in
  let set m := Ctx (c_files c) (c_fs c) (c_sighand c) (c_signal c) m (c_io c) (c_seccomp c) in
  match c_mm curc with
  | None => Ok (Next (with_c (set None) s))
  | Some i =>
      if has f CLONE_VM then k ← get (KMm, i) (s_k s); Ok (Next (with_c (set (Some i)) (with_k k s)))
      else if dup_mm then Ok (Next (with_c (set (Some (s_fresh s))) (fresh_obj KMm s)))
      else Ok (Goto cleanup_signal (- ENOMEM) (with_c (set None) s))
  end.

Definition copy_io (s : st) : run out :=
  let c := s_c s in
  let set i := Ctx (c_files c) (c_fs c) (c_sighand c) (c_signal c) (c_mm c) i (c_seccomp c) in
  match c_io curc with
  | None => Ok (Next s)
  | Some i =>
      if has f CLONE_IO then k ← get (KIoc, i) (s_k s); Ok (Next (with_c (set (Some i)) (with_k k s)))
      else if ioprio_valid e then
        if new_ok e KIoc then Ok (Next (with_c (set (Some (s_fresh s))) (fresh_obj KIoc s)))
        else Ok (Goto cleanup_namespaces (- ENOMEM) s)
      else Ok (Next s)
  end.

(** The pid and the descriptor that refers to it. *)
Definition s_pid (s : st) : run out :=
  if idle then Ok (Next s)
  else if decide (alloc_pid e < 0) then Ok (Goto cleanup_thread (alloc_pid e) s)
  else Ok (Next (with_k (acquire RPid (s_k s)) s)).

Definition s_pidfd (s : st) : run out :=
  if has f CLONE_PIDFD then
    if decide (unused_fd e < 0) then Ok (Goto free_pid (unused_fd e) s)
    else
      let s1 := with_k (acquire RFd (s_k s)) s in
      if decide (ext e AnonInode <> 0) then
        k ← release RFd (s_k s1); Ok (Goto free_pid (ext e AnonInode) (with_k k s1))
      else
        let s2 := with_k (acquire RPidfile (s_k s1)) s1 in
        if decide (ext e PutUser <> 0) then Ok (Goto put_pidfd (ext e PutUser) s2)
        else Ok (Next (with_uw (s_uw s2 ++ [(a_pidfd a, unused_fd e)]) s2))
  else Ok (Next s).

Definition pid_nr : Z := if idle then 0 else alloc_pid e.

Definition s_ids (s : st) : run out :=
  let cur := s_cur s in
  let p := if has f CLONE_THREAD then set_ids pid_nr (tgid cur) (group_leader cur) (s_p s)
           else set_ids pid_nr pid_nr pid_nr (s_p s) in
  Ok (Next (with_p p (with_k (acquire RThreadgroup (s_k s)) s))).

(** Under the two locks: the parent, the seccomp filter, and the last checks. *)
Definition s_visible (s : st) : run out :=
  k ← lock_tasks (s_k s);
  let cur := s_cur s in
  let rp := if has f (Z.lor CLONE_PARENT CLONE_THREAD) then real_parent cur else pid cur in
  let p := set_parents rp (parent (s_p s)) (s_p s) in
  k ← lock_sig k;
  let k := if c_seccomp curc then set_filter (filter_refs k + 1) k else k in
  let c := s_c s in
  let c' := Ctx (c_files c) (c_fs c) (c_sighand c) (c_signal c) (c_mm c) (c_io c) (c_seccomp curc) in
  let s' := with_p p (with_c c' (with_k k s)) in
  if pidns_adding e then
    if fatal_signal e then Ok (Goto cancel_cgroup (- EINTR) s') else Ok (Next s')
  else Ok (Goto cancel_cgroup (- ENOMEM) s').

Definition steps (nr_threads max_threads : Z) : st -> run out :=
  s_signals ;;; s_dup ;;; s_limit ;;; s_creds ;;; s_threads nr_threads max_threads ;;;
  step_ext (ext e MpolDup) cleanup_threadgroup_lock RMpol ;;; s_sched ;;;
  step_ext (ext e PerfInit) cleanup_policy RPerf ;;;
  step_ext (ext e AuditAlloc) cleanup_perf RAudit ;;;
  step_ext (ext e SecurityAlloc) cleanup_audit RSecurity ;;;
  step_ext (ext e CopySemundo) cleanup_security RSem ;;;
  copy_files ;;; copy_fs ;;; copy_sighand ;;; copy_signal ;;; copy_mm ;;;
  step_ext (ext e CopyNamespaces) cleanup_mm RNamespaces ;;; copy_io ;;;
  step_ext (ext e CopyThread) cleanup_io RThread ;;;
  s_pid ;;; s_pidfd ;;; s_ids ;;;
  step_ext (ext e CgroupCanFork) threadgroup_change_end RCgroup ;;; s_visible.
End steps.

(** ** The machine *)
Record world := World {
  w_tasks : tasks;
  ctxs : gmap Z ctx;
  w_core : core;
  fresh : Z;
  nr_threads : Z; max_threads : Z; total_forks : Z; process_counts : Z;
  user_writes : list (Z * Z) }.

Definition upd_task (q : Z) (g : task_struct -> task_struct) (ts : tasks) : tasks :=
  Tasks (alter g q (by_pid ts)) (order ts).

(** [p->exit_signal]; a task with a negative one is no group leader. *)
Definition exit_signal_of (e : kenv) (a : kernel_clone_args) : Z :=
  if has (a_flags a) (Z.lor CLONE_PARENT CLONE_THREAD) then
    if has (a_flags a) CLONE_THREAD then -1 else leader_exit_signal e
  else a_exit_signal a.
Definition thread_group_leader (e : kenv) (a : kernel_clone_args) : bool :=
  bool_decide (0 <= exit_signal_of e a).

(** The lists: a group leader becomes a child of its parent and joins the global
    list; every task is found by its pid. *)
Definition join_tasks (lead : bool) (p : task_struct) (ts : tasks) : tasks :=
  let ts1 := if lead then
               let u := upd_task (real_parent p) (fun t => set_children (children t ++ [pid p]) t) ts in
               Tasks (by_pid u) (order u ++ [pid p])
             else ts in
  Tasks (<[pid p := p]> (by_pid ts1)) (order ts1).

(** The new task joins the lists; the locks are dropped.  A task with pid 0 (an
    idle task) joins none. *)
Definition link (e : kenv) (a : kernel_clone_args) (trace : Z) (cur : Z) (s : st) (w : world)
  : run (task_struct * world) :=
  let f := a_flags a in
  let lead := thread_group_leader e a in
  let p0 := s_p s in
  k ← (if negb (bool_decide (pid p0 = 0)) && negb lead then get (KSignal, c_signal (s_c s)) (s_k s)
       else Ok (s_k s));
  k ← (if has f CLONE_THREAD then Ok k else release RDelayed k);
  k ← unlock_sig k;
  k ← unlock_tasks k;
  k ← release RThreadgroup k;
  let ts0 := upd_task cur (fun _ => s_cur s) (w_tasks w) in
  if decide (pid p0 = 0) then
    Ok (p0, World ts0 (ctxs w) k (s_fresh s) (nr_threads w) (max_threads w) (total_forks w + 1)
              (process_counts w) (s_uw s))
  else
    let traced := has f CLONE_PTRACE || negb (bool_decide (trace = 0)) in
    let pa := match tracer e with Some t => if traced then t else real_parent p0 | None => real_parent p0 end in
    let p := set_parents (real_parent p0) pa p0 in
    Ok (p, World (join_tasks lead p ts0) (<[pid p := s_c s]> (ctxs w)) k (s_fresh s) (nr_threads w + 1) (max_threads w)
             (total_forks w + 1) (if lead then process_counts w + 1 else process_counts w) (s_uw s)).

(** [copy_process (pid, trace, node, args)], [idle] for [pid == &init_struct_pid]:
    an error, or the new task. *)
Definition copy_process (e : kenv) (idle : bool) (trace : Z) (a : kernel_clone_args) (cur : Z) (w : world)
  : run ((Z + task_struct) * world) :=
  if clone_flags_valid e (a_flags a) then
    match by_pid (w_tasks w) !! cur, ctxs w !! cur with
    | Some t, Some curc =>
        o ← steps e idle a curc (nr_threads w) (max_threads w)
              (St t curc t (w_core w) (fresh w) (user_writes w));
        match o with
        | Next s => '(p, w') ← link e a trace cur s w; Ok (inr p, w')
        | Goto l r s =>
            k ← unwind idle (a_flags a) (s_c s) l (s_k s);
            Ok (inl r, World (upd_task cur (fun _ => s_cur s) (w_tasks w)) (ctxs w) k (s_fresh s)
                         (nr_threads w) (max_threads w) (total_forks w) (process_counts w) (s_uw s))
        end
    | _, _ => Undef
    end
  else Ok (inl (- EINVAL), w).

Definition set_tasks (ts : tasks) (w : world) : world :=
  World ts (ctxs w) (w_core w) (fresh w) (nr_threads w) (max_threads w) (total_forks w)
    (process_counts w) (user_writes w).
Definition write_user (ad v : Z) (w : world) : world :=
  World (w_tasks w) (ctxs w) (w_core w) (fresh w) (nr_threads w) (max_threads w) (total_forks w)
    (process_counts w) (user_writes w ++ [(ad, v)]).

Definition PTRACE_EVENT_FORK : Z := 1.
Definition PTRACE_EVENT_VFORK : Z := 2.
Definition PTRACE_EVENT_CLONE : Z := 3.

Definition fork_event (e : kenv) (a : kernel_clone_args) : Z :=
  if has (a_flags a) CLONE_UNTRACED then 0
  else
    let ev := if has (a_flags a) CLONE_VFORK then PTRACE_EVENT_VFORK
              else if decide (a_exit_signal a <> SIGCHLD) then PTRACE_EVENT_CLONE
              else PTRACE_EVENT_FORK in
    if event_enabled e ev then ev else 0.

(** [_do_fork]: the two assignments to [fork_count] are those of the
    assignment; the counter wraps.  The events for the tracer and the wait of
    [vfork] for the child are left out. *)
Definition do_fork_ (e : kenv) (a : kernel_clone_args) (cur : Z) (w : world) : run (Z * world) :=
  '(r, w1) ← copy_process e false (fork_event e a) a cur w;
  match r with
  | inl err => Ok (err, w1)
  | inr p =>
      let ts1 := upd_task (pid p) (set_fork_count 0) (w_tasks w1) in
      let ts2 := upd_task cur (fun t => set_fork_count (wraps 32 (fork_count t + 1)) t) ts1 in
      let w2 := set_tasks ts2 w1 in
      let w3 := if has (a_flags a) CLONE_PARENT_SETTID then write_user (a_parent_tid a) (pid p) w2 else w2 in
      let w4 := set_tasks (upd_task (pid p) (set_state (woken_state e)) (w_tasks w3)) w3 in
      Ok (pid p, w4)
  end.

(** [fork_idle]: the pid links and the run queue of the idle task are left
    out. *)
Definition fork_idle (e : kenv) (cur : Z) (w : world) : run ((Z + task_struct) * world) :=
  copy_process e true 0 (Args CLONE_VM 0 0 0 0 0) cur w.

(** ** System calls *)
Definition legacy_clone_args_valid (a : kernel_clone_args) : bool :=
  if has (a_flags a) CLONE_PIDFD && has (a_flags a) CLONE_PARENT_SETTID then false else true.

Definition lower_32_bits (z : Z) : Z := wrapu 32 z.

Definition kernel_thread (e : kenv) (fn arg flags cur : Z) (w : world) : run (Z * world) :=
  do_fork_ e (Args (Z.ldiff (Z.lor (lower_32_bits flags) (Z.lor CLONE_VM CLONE_UNTRACED)) CSIGNAL) 0 0
                (Z.land (lower_32_bits flags) CSIGNAL) fn arg) cur w.

Definition sys_fork (e : kenv) (cur : Z) (w : world) : run (Z * world) :=
  do_fork_ e (Args 0 0 0 SIGCHLD 0 0) cur w.

Definition sys_vfork (e : kenv) (cur : Z) (w : world) : run (Z * world) :=
  do_fork_ e (Args (Z.lor CLONE_VFORK CLONE_VM) 0 0 SIGCHLD 0 0) cur w.

Definition legacy_args (clone_flags stack stack_size parent_tidptr : Z) : kernel_clone_args :=
  Args (Z.ldiff (lower_32_bits clone_flags) CSIGNAL) parent_tidptr parent_tidptr
    (Z.land (lower_32_bits clone_flags) CSIGNAL) stack stack_size.

Definition sys_clone (e : kenv) (clone_flags newsp parent_tidptr cur : Z) (w : world) : run (Z * world) :=
  let a := legacy_args clone_flags newsp 0 parent_tidptr in
  if legacy_clone_args_valid a then do_fork_ e a cur w else Ok (- EINVAL, w).

Definition do_fork (e : kenv) (clone_flags stack_start stack_size parent_tidptr cur : Z) (w : world)
  : run (Z * world) :=
  let a := legacy_args clone_flags stack_start stack_size parent_tidptr in
  if legacy_clone_args_valid a then do_fork_ e a cur w else Ok (- EINVAL, w).

(** [clone3]: the structure is read with [copy_struct_from_user], whose error
    or result is [copied]. *)
Definition PAGE_SIZE : Z := 4096.
Definition CLONE_ARGS_SIZE_VER0 : Z := 64.
Definition NSIG : Z := 64.

Definition copy_clone_args_from_user (copied : Z + kernel_clone_args) (usize : Z) : Z + kernel_clone_args :=
  if decide (PAGE_SIZE < usize) then inl (- E2BIG)
  else if decide (usize < CLONE_ARGS_SIZE_VER0) then inl (- EINVAL)
  else match copied with
       | inl err => inl err
       | inr a =>
           if decide (Z.ldiff (a_exit_signal a) CSIGNAL <> 0 \/ NSIG < a_exit_signal a)
           then inl (- EINVAL) else inr a
       end.

Definition clone3_stack_valid (e : kenv) (a : kernel_clone_args) : option kernel_clone_args :=
  if decide (a_stack a = 0) then if decide (0 < a_stack_size a) then None else Some a
  else if decide (a_stack_size a = 0) then None
  else if access_ok e (a_stack a) (a_stack_size a)
  then Some (Args (a_flags a) (a_pidfd a) (a_parent_tid a) (a_exit_signal a)
               (wrapu 64 (a_stack a + a_stack_size a)) (a_stack_size a))
  else None.

Definition clone3_args_valid (e : kenv) (a : kernel_clone_args) : option kernel_clone_args :=
  if decide (Z.ldiff (a_flags a) CLONE_LEGACY_FLAGS <> 0) then None
  else if has (a_flags a) (Z.lor CLONE_DETACHED CSIGNAL) then None
  else if has (a_flags a) (Z.lor CLONE_THREAD CLONE_PARENT) && negb (bool_decide (a_exit_signal a = 0)) then None
  else clone3_stack_valid e a.

Definition sys_clone3 (e : kenv) (copied : Z + kernel_clone_args) (size cur : Z) (w : world)
  : run (Z * world) :=
  match copy_clone_args_from_user copied size with
  | inl err => Ok (err, w)
  | inr a =>
      match clone3_args_valid e a with
      | None => Ok (- EINVAL, w)
      | Some a' => do_fork_ e a' cur w
      end
  end.

(** ** [unshare] *)
Definition unshare_implied (fl : Z) : Z :=
  let f1 := if has fl CLONE_NEWUSER then Z.lor fl (Z.lor CLONE_THREAD CLONE_FS) else fl in
  let f2 := if has f1 CLONE_VM then Z.lor f1 CLONE_SIGHAND else f1 in
  let f3 := if has f2 CLONE_SIGHAND then Z.lor f2 CLONE_THREAD else f2 in
  if has f3 CLONE_NEWNS then Z.lor f3 CLONE_FS else f3.

Definition UNSHARE_FLAGS : Z :=
  Z.lor CLONE_THREAD (Z.lor CLONE_FS (Z.lor CLONE_NEWNS (Z.lor CLONE_SIGHAND (Z.lor CLONE_VM
  (Z.lor CLONE_FILES (Z.lor CLONE_SYSVSEM (Z.lor CLONE_NEWUTS (Z.lor CLONE_NEWIPC (Z.lor CLONE_NEWNET
  (Z.lor CLONE_NEWUSER (Z.lor CLONE_NEWPID CLONE_NEWCGROUP))))))))))).

(** The arguments are [thread_group_empty], the count of the signal handlers
    and [current_is_single_threaded]. *)
Definition check_unshare_flags (fl : Z) (group_empty : bool) (sighand_count : Z) (single : bool) : Z :=
  if decide (Z.ldiff fl UNSHARE_FLAGS <> 0) then - EINVAL
  else if has fl (Z.lor CLONE_THREAD (Z.lor CLONE_SIGHAND CLONE_VM)) && negb group_empty then - EINVAL
  else if has fl (Z.lor CLONE_SIGHAND CLONE_VM) && bool_decide (1 < sighand_count) then - EINVAL
  else if has fl CLONE_VM && negb single then - EINVAL
  else 0.

(** ** The limit on threads *)
Definition MIN_THREADS : Z := 20.

(** [set_max_threads (suggested)] with [totalram_pages], [THREAD_SIZE] and
    [MAX_THREADS] as arguments; the products are of type [u64]. *)
Definition fls64 (z : Z) : Z := fls z.
Definition set_max_threads (nr_pages thread_size MAX_THREADS suggested : Z) : Z :=
  let threads :=
    if decide (64 < fls64 nr_pages + fls64 PAGE_SIZE) then MAX_THREADS
    else wrapu 64 (wrapu 64 nr_pages * wrapu 64 PAGE_SIZE) / wrapu 64 (wrapu 64 thread_size * 8) in
  let threads := if decide (suggested < threads) then suggested else threads in
  Z.min (Z.max threads MIN_THREADS) MAX_THREADS.

(** [sysctl_max_threads]: [parsed] is what [proc_dointvec_minmax] returns and
    stores, between its limits 1 and [MAX_THREADS]. *)
Definition sysctl_max_threads (write : bool) (parsed : Z * Z) (max : Z) : Z * Z :=
  if decide (parsed.1 <> 0) then (parsed.1, max)
  else if write then (0, parsed.2) else (0, max).
