(* ===== verification/KForkLadder.v ===== *)
(** * The error labels of [copy_process]

    A predicate [inv l] for each label: a jump to [l] from here restores the
    kernel.  Each step of [copy_process] leads from one to the next or jumps
    to a label whose predicate holds ([moves]); their composition is
    [steps_moves]. *)

From Stdlib Require Import ZArith Lia String.
From stdpp Require Import base numbers list option strings gmap.
From S2P Require Import Prelude CText Hook Sched Tracer ProcInfo KFork.

Local Open Scope Z_scope.

(** ** Tokens and references *)
Lemma release_acquire t k : release t (acquire t k) = Ok k.
Proof. unfold release, acquire. destruct k. cbn. by rewrite decide_True. Qed.

Lemma remove_token_elem t l : t ∈ l -> exists l', remove_token t l = Some l'.
Proof.
  induction l as [|t' l IH]; intros Hin; [by apply elem_of_nil in Hin|]. cbn.
  case_decide; [eauto|]. apply elem_of_cons in Hin as [->|Hin]; [done|].
  destruct (IH Hin) as [l' ->]. by eexists.
Qed.

Lemma remove_token_keep t u l l' : remove_token t l = Some l' -> u ∈ l -> u <> t -> u ∈ l'.
Proof.
  revert l'. induction l as [|t' l IH]; intros l' E Hu Hne; [done|]. cbn in E. case_decide.
  - simplify_eq. apply elem_of_cons in Hu as [->|Hu]; done.
  - destruct (remove_token t l) as [l2|] eqn:E2; [|done]. cbn in E. simplify_eq.
    apply elem_of_cons in Hu as [->|Hu]; [left|right; eauto].
Qed.

Definition live (o : kind * Z) (k : core) : Prop := exists n, 1 <= n /\ refs k !! o = Some n.

Lemma get_put o k : live o k -> exists k', get o k = Ok k' /\ put o k' = Ok k /\
  k' = set_refs (refs k') k /\ (forall o', live o' k -> live o' k') /\
  (forall o' n', refs k' !! o' = Some n' -> exists n, refs k !! o' = Some n /\ n <= n').
Proof.
  intros (n & Hn & E). unfold get. rewrite E. eexists. split; [done|]. split_and!.
  - unfold put. cbn [refs set_refs]. rewrite lookup_insert_eq, decide_False by lia. f_equal.
    rewrite insert_insert_eq. replace (n + 1 - 1) with n by lia. rewrite insert_id by done. by destruct k.
  - done.
  - intros o' (n' & Hn' & E'). unfold live. cbn [refs set_refs]. destruct (decide (o = o')) as [->|Hne].
    + rewrite lookup_insert_eq. exists (n + 1). split; [lia|done].
    + rewrite lookup_insert_ne by done. eauto.
  - intros o' n'. cbn [refs set_refs]. destruct (decide (o = o')) as [->|Hne].
    + rewrite lookup_insert_eq. intros [= <-]. exists n. split; [done|lia].
    + rewrite lookup_insert_ne by done. intros E'. exists n'. split; [done|lia].
Qed.

Lemma put_new o k : refs k !! o = None -> put o (new_obj o k) = Ok k.
Proof.
  intros E. unfold put, new_obj. cbn [refs set_refs]. rewrite lookup_insert_eq, decide_True by done.
  f_equal. rewrite delete_insert_eq, delete_id by done. by destruct k.
Qed.

Lemma live_new o o' k : live o' k -> live o' (new_obj o k).
Proof.
  intros (n & Hn & E). unfold live, new_obj. cbn [refs set_refs]. destruct (decide (o = o')) as [->|Hne].
  - rewrite lookup_insert_eq. exists 1. done.
  - rewrite lookup_insert_ne by done. eauto.
Qed.

(** ** Falling through the labels *)
Lemma unwind_next idle f c l k :
  unwind idle f c l k =
    (k' ← act idle f c l k;
     match next_label l with Some l' => unwind idle f c l' k' | None => Ok k' end).
Proof. by destruct l. Qed.

Section ladder.
Context (e : kenv) (idle : bool) (a : kernel_clone_args) (curc : ctx) (k0 : core).
Let f := a_flags a.
(** Errors are negative. *)
Context (Hext : forall x, ext e x <= 0) (Hdupfd : new_ok e KFiles = false -> ext e DupFd < 0).

(** The objects of the caller. *)
Definition caller_live (k : core) : Prop :=
  (forall i, c_files curc = Some i -> live (KFiles, i) k) /\ live (KFs, c_fs curc) k /\
  live (KSighand, c_sighand curc) k /\ live (KSignal, c_signal curc) k /\
  (forall i, c_mm curc = Some i -> live (KMm, i) k) /\
  (forall i, c_io curc = Some i -> live (KIoc, i) k).

(** The pointers of the new task when [j] of them have been copied: the others
    are those of the caller, and so are the shared ones. *)
Record copied (j : nat) (c : ctx) : Prop := {
  cp_files : (j <= 0)%nat \/ has f CLONE_FILES = true -> c_files c = c_files curc;
  cp_fs : (j <= 1)%nat \/ has f CLONE_FS = true -> c_fs c = c_fs curc;
  cp_sighand : (j <= 2)%nat \/ has f CLONE_SIGHAND = true -> c_sighand c = c_sighand curc;
  cp_signal : (j <= 3)%nat \/ has f CLONE_THREAD = true -> c_signal c = c_signal curc;
  cp_mm : (j <= 4)%nat \/ has f CLONE_VM = true -> c_mm c = c_mm curc }.

(** A state from which a jump to [l] restores [k0]. *)
Record inv (l : label) (j : nat) (p t : task_struct) (s : st) : Prop := {
  i_unwind : unwind idle f (s_c s) l (s_k s) = Ok k0;
  i_live : caller_live (s_k s);
  i_fresh o n : refs (s_k s) !! o = Some n -> o.2 < s_fresh s /\ 1 <= n;
  i_sig : siglock (s_k s) = false;
  i_tasks : tasklist (s_k s) = false;
  i_delayed : has f CLONE_THREAD = false -> RDelayed ∈ res (s_k s);
  i_copied : copied j (s_c s);
  i_io : (3 < place l)%nat -> (j <= 5)%nat -> c_io (s_c s) = None;
  i_filter : c_seccomp (s_c s) = false;
  i_p : s_p s = p;
  i_cur : s_cur s = t;
  i_all o : live o k0 -> live o (s_k s) }.

(** A step from [l] to [l']: it is defined, and a jump restores [k0]. *)
Definition failed (l : label) (r : Z) (s : st) : Prop :=
  r < 0 /\ unwind idle f (s_c s) l (s_k s) = Ok k0.
Definition moves (P : st -> Prop) (m : st -> run out) (Q : st -> Prop) : Prop :=
  forall s, P s -> exists o, m s = Ok o /\ match o with Next s' => Q s' | Goto l r s' => failed l r s' end.

Lemma moves_then P Q R m m' : moves P m Q -> moves Q m' R -> moves P (m ;;; m') R.
Proof.
  intros H1 H2 s Hs. destruct (H1 s Hs) as (o & E & Ho). unfold andthen. rewrite E. cbn [mbind run_bind].
  destruct o as [s'|l r s']; [by apply H2|]. eexists. split; [done|]. done.
Qed.

Lemma caller_live_refs k k' : refs k' = refs k -> caller_live k -> caller_live k'.
Proof. unfold caller_live, live. by intros ->. Qed.

Lemma caller_live_mono k k' : (forall o, live o k -> live o k') -> caller_live k -> caller_live k'.
Proof. unfold caller_live. intros H (H1 & H2 & H3 & H4 & H5 & H6). split_and!; eauto. Qed.

(** *** Steps that take a token *)
Lemma unwind_acquire c l l' t k :
  next_label l' = Some l -> act idle f c l' (acquire t k) = release t (acquire t k) ->
  unwind idle f c l' (acquire t k) = unwind idle f c l k.
Proof. intros Hn Ha. by rewrite unwind_next, Ha, release_acquire, Hn. Qed.

Lemma inv_acquire l l' t j p cu s :
  next_label l' = Some l -> (forall c k, act idle f c l' k = release t k) ->
  ((3 < place l)%nat \/ (place l' <= 3)%nat) ->
  inv l j p cu s -> inv l' j p cu (with_k (acquire t (s_k s)) s).
Proof.
  intros Hn Ha Hio [H1 H2 H3 H4 H5 H6 H7 H8 H9 H10 H11 H12]. split; try done.
  - cbn [s_c s_k with_k]. by rewrite (unwind_acquire _ l l').
  - intros Ht. right. by apply H6.
  - intros Hl. apply H8. lia.
Qed.

Lemma step_ext_moves l l' t j p cu x :
  next_label l' = Some l -> (forall c k, act idle f c l' k = release t k) ->
  ((3 < place l)%nat \/ (place l' <= 3)%nat) ->
  moves (inv l j p cu) (step_ext (ext e x) l t) (inv l' j p cu).
Proof.
  intros Hn Ha Hio s Hs. unfold step_ext. pose proof (Hext x). case_decide; eexists; (split; [done|]).
  - split; [lia|apply Hs].
  - by eapply inv_acquire.
Qed.

(** *** The first steps *)
Definition start (t : task_struct) (s : st) : Prop :=
  s_k s = k0 /\ caller_live k0 /\ (forall o n, refs k0 !! o = Some n -> o.2 < s_fresh s /\ 1 <= n) /\
  siglock k0 = false /\ tasklist k0 = false /\ s_cur s = t.

(** After the signals: only a jump to the last label. *)
Definition inv_out (t : task_struct) (s : st) : Prop :=
  (forall c, unwind idle f c fork_out (s_k s) = Ok k0) /\ caller_live (s_k s) /\
  (forall o n, refs (s_k s) !! o = Some n -> o.2 < s_fresh s /\ 1 <= n) /\
  siglock (s_k s) = false /\ tasklist (s_k s) = false /\
  (has f CLONE_THREAD = false -> RDelayed ∈ res (s_k s)) /\ s_cur s = t /\
  (forall o, live o k0 -> live o (s_k s)).

Lemma s_signals_moves t : moves (start t) (s_signals e a) (inv_out t).
Proof.
  intros s (E & Hl & Hf & Hs & Ht & Hc). unfold s_signals. rewrite E. unfold lock_sig at 1. rewrite Hs.
  fold f. cbn [mbind run_bind].
  set (k := set_siglock false (if has f CLONE_THREAD then set_siglock true k0
                               else acquire RDelayed (set_siglock true k0))).
  assert (Hk : unlock_sig (if has f CLONE_THREAD then set_siglock true k0
                            else acquire RDelayed (set_siglock true k0)) = Ok k).
  { unfold unlock_sig, k. by destruct (has f CLONE_THREAD). }
  rewrite Hk. cbn [mbind run_bind].
  assert (Hu : forall c, unwind idle f c fork_out k = Ok k0).
  { intros c. rewrite unwind_next. cbn [act next_label]. unfold k, lock_sig. cbn [siglock set_siglock].
    destruct (has f CLONE_THREAD); cbn [mbind run_bind].
    - unfold unlock_sig. cbn. destruct k0; cbn in *; by subst.
    - change (set_siglock true (set_siglock false (acquire RDelayed (set_siglock true k0))))
        with (acquire RDelayed (set_siglock true k0)).
      rewrite release_acquire. cbn. destruct k0; cbn in *; by subst. }
  assert (Hrefs : refs k = refs k0) by (unfold k; by destruct (has f CLONE_THREAD)).
  destruct (signal_pending e); eexists; (split; [done|]).
  - split; [done|]. apply Hu.
  - unfold inv_out. cbn [s_k s_c s_cur s_fresh with_k]. split_and!; try done.
    + by apply (caller_live_refs k0).
    + by rewrite Hrefs.
    + unfold k. destruct (has f CLONE_THREAD); done.
    + unfold k. intros ->. cbn. left.
    + unfold live. by rewrite Hrefs.
Qed.

Lemma s_dup_moves t : moves (inv_out t) (s_dup e curc) (inv bad_fork_free 0 t t).
Proof.
  intros s (Hu & Hl & Hf & Hs & Ht & Hd & Hc & Ha). unfold s_dup, dup_task_struct.
  assert (Hfail : exists o, Ok (Goto fork_out (- ENOMEM) s) = Ok o /\
    match o with Next s' => inv bad_fork_free 0 t t s' | Goto l r s' => failed l r s' end).
  { eexists. split; [done|]. split; [done|]. apply Hu. }
  destruct (alloc_ok e) as [[] []]; cbn [fst snd]; try exact Hfail.
  repeat case_decide; try exact Hfail. eexists. split; [done|].
  split; cbn [s_c s_k s_p s_cur s_fresh with_c with_p with_k c_io c_seccomp]; try done.
  - rewrite unwind_next. cbn [act next_label]. rewrite release_acquire. cbn [mbind run_bind c_seccomp].
    rewrite release_acquire. cbn [mbind run_bind]. apply Hu.
  - intros Hn. cbn. do 2 right. by apply Hd.
  - cbn [place]. lia.
Qed.

Lemma s_limit_moves p t :
  moves (inv bad_fork_free 0 p t) (s_limit e)
    (inv bad_fork_free 0 p (set_flags (Z.ldiff (flags t) PF_NPROC_EXCEEDED) t)).
Proof.
  intros s Hs. unfold s_limit. destruct (_ && _); eexists; (split; [done|]).
  - split; [done|apply Hs].
  - destruct Hs as [H1 H2 H3 H4 H5 H6 H7 H8 H9 H10 H11 H12]. split; try done. cbn. by rewrite H11.
Qed.

Lemma s_creds_moves p t : moves (inv bad_fork_free 0 p t) (s_creds e) (inv cleanup_count 0 p t).
Proof.
  intros s Hs. unfold s_creds. case_decide; eexists; (split; [done|]).
  - split; [done|apply Hs].
  - destruct Hs as [H1 H2 H3 H4 H5 H6 H7 H8 H9 H10 H11 H12]. split; try done.
    + cbn [s_c s_k with_k]. rewrite unwind_next. cbn [act next_label].
      set (k1 := set_procs (processes (s_k s) + 1) (s_k s)).
      change (set_procs (processes (acquire RCreds k1) - 1) (acquire RCreds k1))
        with (acquire RCreds (set_procs (processes k1 - 1) k1)).
      rewrite release_acquire. cbn [mbind run_bind].
      replace (set_procs (processes k1 - 1) k1) with (s_k s); [done|].
      unfold k1. cbn. replace (processes (s_k s) + 1 - 1) with (processes (s_k s)) by lia. by destruct (s_k s).
    + intros Hn. cbn. right. by apply H6.
    + cbn [place]. lia.
Qed.

Definition fresh_task (p : task_struct) : task_struct :=
  set_times 0 0 (set_children []
    (set_flags (Z.lor (Z.ldiff (flags p) (Z.lor PF_SUPERPRIV (Z.lor PF_WQ_WORKER PF_IDLE))) PF_FORKNOEXEC) p)).

Lemma s_threads_moves p t n m :
  moves (inv cleanup_count 0 p t) (s_threads n m) (inv cleanup_threadgroup_lock 0 (fresh_task p) t).
Proof.
  intros s Hs. unfold s_threads. case_decide; eexists; (split; [done|]).
  - split; [done|apply Hs].
  - destruct Hs as [H1 H2 H3 H4 H5 H6 H7 H8 H9 H10 H11 H12].
    split; cbn [s_c s_k s_p s_cur s_fresh with_c with_p with_k c_io c_seccomp]; try done.
    + intros Hn. cbn. right. by apply H6.
    + destruct H7. split; done.
    + by rewrite H10.
Qed.

Lemma s_sched_moves p t :
  moves (inv cleanup_policy 0 p t) (s_sched e) (inv cleanup_policy 0 (set_state (child_state e) p) t).
Proof.
  intros s Hs. unfold s_sched. pose proof (Hext SchedFork). case_decide; eexists; (split; [done|]).
  - split; [lia|apply Hs].
  - destruct Hs as [H1 H2 H3 H4 H5 H6 H7 H8 H9 H10 H11 H12]. split; try done. cbn. by rewrite H10.
Qed.

(** *** Counted objects *)
Lemma inv_obj l l' j p p' t s s' :
  inv l j p t s -> next_label l' = Some l ->
  (forall k, unwind idle f (s_c s') l k = unwind idle f (s_c s) l k) ->
  act idle f (s_c s') l' (s_k s') = Ok (s_k s) ->
  s_k s' = set_refs (refs (s_k s')) (s_k s) ->
  (forall o, live o (s_k s) -> live o (s_k s')) ->
  (forall o n, refs (s_k s') !! o = Some n -> o.2 < s_fresh s' /\ 1 <= n) ->
  copied (S j) (s_c s') -> c_seccomp (s_c s') = false ->
  ((S j <= 5)%nat -> c_io (s_c s') = None) -> s_p s' = p' -> s_cur s' = s_cur s ->
  inv l' (S j) p' t s'.
Proof.
  intros [H1 H2 H3 H4 H5 H6 H7 H8 H9 H10 H11 H12] Hn Hu Ha Hk Hl Hf Hc Hse Hio Hp Ht. split; try done.
  - rewrite unwind_next, Ha, Hn. cbn [mbind run_bind]. by rewrite Hu.
  - by eapply caller_live_mono.
  - by rewrite Hk.
  - by rewrite Hk.
  - rewrite Hk. exact H6.
  - by rewrite Ht.
  - intros o Ho. by apply Hl, H12.
Qed.

(** The step shares the object [o] of the caller. *)
Lemma inv_get l l' j p p' t s o c' :
  inv l j p t s -> live o (s_k s) -> next_label l' = Some l ->
  (forall k, unwind idle f c' l k = unwind idle f (s_c s) l k) ->
  (forall k, act idle f c' l' k = put o k) ->
  copied (S j) c' -> c_seccomp c' = false -> ((S j <= 5)%nat -> c_io c' = None) ->
  exists k', get o (s_k s) = Ok k' /\
    inv l' (S j) p' t (St p' c' (s_cur s) k' (s_fresh s) (s_uw s)).
Proof.
  intros Hi Ho Hn Hu Ha Hc Hse Hio. destruct (get_put o (s_k s) Ho) as (k' & Eg & Ep & Hk & Hl & Hd).
  exists k'. split; [done|]. eapply (inv_obj l l' j p p' t s); try done; cbn [s_c s_k s_fresh].
  - by rewrite Ha.
  - intros o' n E. destruct (Hd _ _ E) as (n' & E' & Hle).
    destruct (i_fresh _ _ _ _ _ Hi _ _ E'). lia.
Qed.

(** The step makes a new object. *)
Lemma inv_new l l' j p p' t s kd c' :
  inv l j p t s -> next_label l' = Some l ->
  (forall k, unwind idle f c' l k = unwind idle f (s_c s) l k) ->
  (forall k, act idle f c' l' k = put (kd, s_fresh s) k) ->
  copied (S j) c' -> c_seccomp c' = false -> ((S j <= 5)%nat -> c_io c' = None) -> s_p s = p' ->
  inv l' (S j) p' t (with_c c' (fresh_obj kd s)).
Proof.
  intros Hi Hn Hu Ha Hc Hse Hio Hp.
  assert (Hfree : refs (s_k s) !! (kd, s_fresh s) = None).
  { destruct (refs (s_k s) !! (kd, s_fresh s)) as [n|] eqn:E; [|done].
    pose proof (i_fresh _ _ _ _ _ Hi _ _ E). cbn in *. lia. }
  eapply (inv_obj l l' j p p' t s); try done; cbn [s_c s_k s_fresh with_c fresh_obj].
  - rewrite Ha. by apply put_new.
  - intros o Ho. by apply live_new.
  - intros o n. unfold new_obj. cbn [refs set_refs]. destruct (decide ((kd, s_fresh s) = o)) as [<-|Hne].
    + rewrite lookup_insert_eq. intros [= <-]. cbn. lia.
    + rewrite lookup_insert_ne by done. intros E. pose proof (i_fresh _ _ _ _ _ Hi _ _ E). lia.
Qed.

(** The step has nothing to copy. *)
Lemma inv_none l l' j p p' t s s' :
  inv l j p t s -> next_label l' = Some l -> s_k s' = s_k s -> s_fresh s' = s_fresh s -> s_cur s' = s_cur s ->
  (forall k, unwind idle f (s_c s') l k = unwind idle f (s_c s) l k) ->
  (forall k, act idle f (s_c s') l' k = Ok k) ->
  copied (S j) (s_c s') -> c_seccomp (s_c s') = false -> ((S j <= 5)%nat -> c_io (s_c s') = None) ->
  s_p s' = p' -> inv l' (S j) p' t s'.
Proof.
  intros Hi Hn Hk Hf Ht Hu Ha Hc Hse Hio Hp. eapply (inv_obj l l' j p p' t s); try done; rewrite Hk.
  - apply Ha.
  - by destruct (s_k s).
  - done.
  - intros o n. rewrite Hf. apply (i_fresh _ _ _ _ _ Hi).
Qed.

(** What is left of [copied] when one more pointer has been dealt with. *)
Ltac copied_next H := destruct H as [Hc1 Hc2 Hc3 Hc4 Hc5]; split; cbn [c_files c_fs c_sighand c_signal c_mm];
  intros [Hj|Hj]; try lia; auto; try congruence; try (apply Hc1; lia); try (apply Hc2; lia);
  try (apply Hc3; lia); try (apply Hc4; lia); try (apply Hc5; lia).

(** The side conditions of the three lemmas above. *)
Ltac side Hs :=
  first [ done | exact (i_filter _ _ _ _ _ Hs) | exact (i_p _ _ _ _ _ Hs)
        | (intros ?; lia) | (intros ?; apply (i_io _ _ _ _ _ Hs); cbn [place]; lia)
        | (let H := fresh in pose proof (i_copied _ _ _ _ _ Hs) as H; copied_next H) ].
(** A step that ends with a jump that keeps the state, or goes on. *)
Ltac jump Hs := eexists; split; [done|]; split; [done|apply Hs].
Ltac go_on := eexists; split; [done|]; cbn beta iota.
(** A step that shared [o], from [Hs]: the conclusion of [inv_get]. *)
Ltac shared Hs Hi := cbn [mbind run_bind]; go_on; unfold with_k, with_c; cbn [s_p s_c s_cur s_k s_fresh s_uw];
  rewrite ?(i_p _ _ _ _ _ Hs); exact Hi.

Lemma copy_files_moves p t :
  moves (inv cleanup_semundo 0 p t) (copy_files e a curc) (inv cleanup_files 1 p t).
Proof.
  intros s Hs. pose proof (cp_files _ _ (i_copied _ _ _ _ _ Hs) ltac:(left; lia)) as Ec.
  unfold copy_files. fold f. destruct (c_files curc) as [i|] eqn:E.
  - destruct (has f CLONE_FILES) eqn:Ef.
    + destruct (inv_get cleanup_semundo cleanup_files 0 p p t s (KFiles, i) (s_c s)) as (k' & -> & Hi);
        try side Hs; [by apply (i_live _ _ _ _ _ Hs)|intros k; cbn [act]; by rewrite Ec|shared Hs Hi].
    + destruct (new_ok e KFiles) eqn:En.
      * go_on. eapply (inv_new cleanup_semundo cleanup_files 0 p p t s KFiles); side Hs.
      * pose proof (Hdupfd eq_refl). rewrite decide_True by lia. jump Hs.
  - go_on. eapply (inv_none cleanup_semundo cleanup_files 0 p p t s s); try side Hs.
    intros k. cbn [act]. by rewrite Ec.
Qed.

Lemma copy_fs_moves p t :
  moves (inv cleanup_files 1 p t) (copy_fs e a curc) (inv cleanup_fs 2 p t).
Proof.
  intros s Hs. pose proof (cp_fs _ _ (i_copied _ _ _ _ _ Hs) ltac:(left; lia)) as Ec.
  unfold copy_fs. fold f. destruct (has f CLONE_FS) eqn:Ef.
  - destruct (fs_in_exec e); [jump Hs|].
    destruct (inv_get cleanup_files cleanup_fs 1 p p t s (KFs, c_fs curc) (s_c s)) as (k' & -> & Hi);
      try side Hs; [by apply (i_live _ _ _ _ _ Hs)|intros k; cbn [act]; by rewrite Ec|shared Hs Hi].
  - destruct (new_ok e KFs); [|jump Hs].
    go_on. eapply (inv_new cleanup_files cleanup_fs 1 p p t s KFs); side Hs.
Qed.

Lemma copy_sighand_moves p t :
  moves (inv cleanup_fs 2 p t) (copy_sighand e a curc) (inv cleanup_sighand 3 p t).
Proof.
  intros s Hs. pose proof (cp_sighand _ _ (i_copied _ _ _ _ _ Hs) ltac:(left; lia)) as Ec.
  unfold copy_sighand. fold f. destruct (has f CLONE_SIGHAND) eqn:Ef.
  - destruct (inv_get cleanup_fs cleanup_sighand 2 p p t s (KSighand, c_sighand curc) (s_c s)) as (k' & -> & Hi);
      try side Hs; [by apply (i_live _ _ _ _ _ Hs)|intros k; cbn [act]; by rewrite Ec|shared Hs Hi].
  - destruct (new_ok e KSighand); [|jump Hs].
    go_on. eapply (inv_new cleanup_fs cleanup_sighand 2 p p t s KSighand); side Hs.
Qed.

Lemma copy_signal_moves p t :
  moves (inv cleanup_sighand 3 p t) (copy_signal e a) (inv cleanup_signal 4 p t).
Proof.
  intros s Hs. unfold copy_signal. fold f. destruct (has f CLONE_THREAD) eqn:Ef.
  - go_on. eapply (inv_none cleanup_sighand cleanup_signal 3 p p t s s); try side Hs.
    intros k. cbn [act]. by rewrite Ef.
  - destruct (new_ok e KSignal); [|jump Hs].
    go_on. eapply (inv_new cleanup_sighand cleanup_signal 3 p p t s KSignal); try side Hs.
    intros k. cbn [act]. by rewrite Ef.
Qed.

Lemma copy_mm_moves p t :
  moves (inv cleanup_signal 4 p t) (copy_mm e a curc) (inv cleanup_mm 5 (set_switches 0 0 p) t).
Proof.
  intros s Hs. pose proof (cp_mm _ _ (i_copied _ _ _ _ _ Hs) ltac:(left; lia)) as Ec.
  unfold copy_mm. fold f. destruct (c_mm curc) as [i|] eqn:E.
  - destruct (has f CLONE_VM) eqn:Ef.
    + destruct (inv_get cleanup_signal cleanup_mm 4 p (set_switches 0 0 p) t s (KMm, i)
        (Ctx (c_files (s_c s)) (c_fs (s_c s)) (c_sighand (s_c s)) (c_signal (s_c s)) (Some i) (c_io (s_c s))
           (c_seccomp (s_c s)))) as (k' & Eg & Hi); try side Hs; [by apply (i_live _ _ _ _ _ Hs)|].
      unfold with_p. cbn [s_k s_p s_c s_cur s_fresh s_uw]. rewrite Eg. shared Hs Hi.
    + destruct (dup_mm e).
      * go_on. eapply (inv_new cleanup_signal cleanup_mm 4 _ _ t (with_p (set_switches 0 0 (s_p s)) s) KMm);
          try side Hs.
        -- destruct Hs as [H1 H2 H3 H4 H5 H6 H7 H8 H9 H10 H11 H12]. by split.
        -- cbn [with_p s_p]. by rewrite (i_p _ _ _ _ _ Hs).
      * eexists. split; [done|]. split; [done|]. exact (i_unwind _ _ _ _ _ Hs).
  - go_on. eapply (inv_none cleanup_signal cleanup_mm 4 p _ t s); try side Hs.
    cbn [with_p with_c s_p]. by rewrite (i_p _ _ _ _ _ Hs).
Qed.

Lemma copy_io_moves p t :
  moves (inv cleanup_namespaces 5 p t) (copy_io e a curc) (inv cleanup_io 6 p t).
Proof.
  intros s Hs. pose proof (i_io _ _ _ _ _ Hs ltac:(cbn; lia) ltac:(lia)) as Ec.
  unfold copy_io. fold f. destruct (c_io curc) as [i|] eqn:E.
  - destruct (has f CLONE_IO) eqn:Ef.
    + destruct (inv_get cleanup_namespaces cleanup_io 5 p p t s (KIoc, i)
        (Ctx (c_files (s_c s)) (c_fs (s_c s)) (c_sighand (s_c s)) (c_signal (s_c s)) (c_mm (s_c s)) (Some i)
           (c_seccomp (s_c s)))) as (k' & -> & Hi); try side Hs; [by apply (i_live _ _ _ _ _ Hs)|].
      shared Hs Hi.
    + destruct (ioprio_valid e).
      * destruct (new_ok e KIoc); [|jump Hs].
        go_on. eapply (inv_new cleanup_namespaces cleanup_io 5 p p t s KIoc); side Hs.
      * go_on. eapply (inv_none cleanup_namespaces cleanup_io 5 p p t s s); try side Hs.
        intros k. cbn [act]. by rewrite Ec.
  - go_on. eapply (inv_none cleanup_namespaces cleanup_io 5 p p t s s); try side Hs.
    intros k. cbn [act]. by rewrite Ec.
Qed.

(** *** The last steps *)
Lemma inv_label l l' j p p' t s s' :
  inv l j p t s -> next_label l' = Some l -> (3 < place l)%nat -> s_c s' = s_c s ->
  act idle f (s_c s) l' (s_k s') = Ok (s_k s) -> refs (s_k s') = refs (s_k s) ->
  siglock (s_k s') = siglock (s_k s) -> tasklist (s_k s') = tasklist (s_k s) ->
  (forall u, u ∈ res (s_k s) -> u ∈ res (s_k s')) -> s_fresh s' = s_fresh s -> s_p s' = p' ->
  s_cur s' = s_cur s -> inv l' j p' t s'.
Proof.
  intros [H1 H2 H3 H4 H5 H6 H7 H8 H9 H10 H11 H12] Hn Hpl Hc Ha Hr Hs Ht Hres Hf Hp Hcur. split.
  - rewrite unwind_next, Hc, Ha, Hn. done.
  - by eapply caller_live_refs.
  - intros o n. rewrite Hr, Hf. apply H3.
  - by rewrite Hs.
  - by rewrite Ht.
  - intros E. by apply Hres, H6.
  - by rewrite Hc.
  - rewrite Hc. intros _. by apply H8.
  - by rewrite Hc.
  - done.
  - by rewrite Hcur.
  - intros o Ho. unfold live. rewrite Hr. by apply H12.
Qed.

Lemma acquire_elem t u k : u ∈ res k -> u ∈ res (acquire t k).
Proof. intros H. by right. Qed.

Lemma s_pid_moves p t : moves (inv cleanup_thread 6 p t) (s_pid e idle) (inv free_pid 6 p t).
Proof.
  intros s Hs. unfold s_pid. destruct idle eqn:Ei.
  - go_on. eapply (inv_label cleanup_thread free_pid 6 p p t s s); try done; try apply Hs.
    + cbn [place]. lia.
    + cbn [act]. by rewrite Ei.
  - case_decide; [eexists; split; [done|]; split; [done|apply Hs]|].
    go_on. eapply (inv_label cleanup_thread free_pid 6 p p t s); try done; try apply Hs.
    + cbn [place]. lia.
    + cbn [act s_k with_k]. rewrite Ei. apply release_acquire.
    + intros u. apply acquire_elem.
Qed.

Lemma s_pidfd_moves p t : moves (inv free_pid 6 p t) (s_pidfd e a) (inv put_pidfd 6 p t).
Proof.
  intros s Hs. unfold s_pidfd. fold f. pose proof (Hext AnonInode). pose proof (Hext PutUser).
  destruct (has f CLONE_PIDFD) eqn:Ef.
  - case_decide; [jump Hs|]. cbn [s_k with_k]. case_decide.
    + rewrite release_acquire. cbn [mbind run_bind]. eexists. split; [done|]. split; [lia|].
      exact (i_unwind _ _ _ _ _ Hs).
    + assert (Hact : act idle f (s_c s) put_pidfd (acquire RPidfile (acquire RFd (s_k s))) = Ok (s_k s)).
      { cbn [act]. rewrite Ef, release_acquire. cbn [mbind run_bind]. apply release_acquire. }
      case_decide.
      * eexists. split; [done|]. split; [lia|]. cbn [s_c s_k with_k].
        rewrite unwind_next, Hact. cbn [mbind run_bind next_label]. exact (i_unwind _ _ _ _ _ Hs).
      * go_on. eapply (inv_label free_pid put_pidfd 6 p p t s); try done; try apply Hs.
        -- cbn [place]. lia.
        -- intros u Hu. by do 2 apply acquire_elem.
  - go_on. eapply (inv_label free_pid put_pidfd 6 p p t s s); try done; try apply Hs.
    + cbn [place]. lia.
    + cbn [act]. by rewrite Ef.
Qed.

(** The new task with its numbers. *)
Definition numbered (p t : task_struct) : task_struct :=
  if has f CLONE_THREAD then set_ids (pid_nr e idle) (tgid t) (group_leader t) p
  else set_ids (pid_nr e idle) (pid_nr e idle) (pid_nr e idle) p.

Definition grouped (p t : task_struct) (s : st) : Prop :=
  inv threadgroup_change_end 6 p t s /\ RThreadgroup ∈ res (s_k s).

Lemma s_ids_moves p t : moves (inv put_pidfd 6 p t) (s_ids e idle a) (grouped (numbered p t) t).
Proof.
  intros s Hs. unfold s_ids. fold f. go_on. split; [|left].
  eapply (inv_label put_pidfd threadgroup_change_end 6 p _ t s); try done.
  - cbn [place]. lia.
  - cbn [act s_k with_p with_k]. apply release_acquire.
  - intros u. apply acquire_elem.
  - cbn [s_p with_p with_k]. unfold numbered. by rewrite (i_p _ _ _ _ _ Hs), (i_cur _ _ _ _ _ Hs).
Qed.

Definition accounted (p t : task_struct) (s : st) : Prop :=
  exists s1, grouped p t s1 /\ s = with_k (acquire RCgroup (s_k s1)) s1.

Lemma cgroup_moves p t :
  moves (grouped p t) (step_ext (ext e CgroupCanFork) threadgroup_change_end RCgroup) (accounted p t).
Proof.
  intros s [Hs Hg]. unfold step_ext. pose proof (Hext CgroupCanFork). case_decide.
  - eexists. split; [done|]. split; [lia|apply Hs].
  - go_on. exists s. done.
Qed.
End ladder.

(** ** The reference to the seccomp filter

    It is taken late and dropped with the task structure, near the end of the
    ladder. *)
Definition bump (k : core) : core := set_filter (filter_refs k + 1) k.
Definition filtered (c : ctx) : ctx :=
  Ctx (c_files c) (c_fs c) (c_sighand c) (c_signal c) (c_mm c) (c_io c) true.

Definition rmap (g : core -> core) (m : run core) : run core := k ← m; Ok (g k).

Lemma release_bump t k : release t (bump k) = rmap bump (release t k).
Proof. unfold release. cbn. by destruct (remove_token t (res k)). Qed.
Lemma put_bump o k : put o (bump k) = rmap bump (put o k).
Proof. unfold put. cbn. by destruct (refs k !! o). Qed.

Lemma act_filter idle f c l k :
  l <> fork_out -> l <> bad_fork_free ->
  act idle f (filtered c) l (bump k) = rmap bump (act idle f c l k).
Proof.
  intros H1 H2.
  destruct l; try done; cbn [act]; rewrite ?release_bump, ?put_bump; try done.
  - unfold unlock_sig. cbn. destruct (siglock k); [|done]. cbn. unfold unlock_tasks. cbn.
    destruct (tasklist k); [|done]. cbn. apply (release_bump RCgroup (set_tasklist false (set_siglock false k))).
  - destruct (has f CLONE_PIDFD); [|done]. destruct (release RPidfile k); cbn [rmap mbind run_bind]; try done.
    apply release_bump.
  - by destruct idle.
  - cbn [filtered c_io]. destruct (c_io c); [apply put_bump|done].
  - cbn [filtered c_mm]. destruct (c_mm c); [apply put_bump|done].
  - by destruct (has f CLONE_THREAD).
  - cbn [filtered c_files]. destruct (c_files c); [apply put_bump|done].
  - change (set_procs (processes (bump k) - 1) (bump k)) with (bump (set_procs (processes k - 1) k)).
    apply release_bump.
Qed.

Lemma act_free_filter idle f c k :
  c_seccomp c = false -> act idle f (filtered c) bad_fork_free (bump k) = act idle f c bad_fork_free k.
Proof.
  intros Hc. cbn [act filtered c_seccomp]. rewrite release_bump, Hc.
  destruct (release RStack k) as [k'| |]; cbn [rmap mbind run_bind]; try done.
  f_equal. unfold bump. cbn. replace (filter_refs k' + 1 - 1) with (filter_refs k') by lia. by destruct k'.
Qed.

Lemma unwind_filter n idle f c l k :
  c_seccomp c = false -> l <> fork_out ->
  unwind_to n idle f (filtered c) l (bump k) = unwind_to n idle f c l k.
Proof.
  intros Hc. revert l k. induction n as [|n IH]; intros l k Hl; cbn [unwind_to]; [done|].
  destruct (decide (l = bad_fork_free)) as [->|Hne].
  - rewrite act_free_filter by done. destruct (act idle f c bad_fork_free k); cbn [mbind run_bind next_label]; try done.
    destruct n; [done|]. done.
  - rewrite act_filter by done. destruct (act idle f c l k) as [k'| |]; cbn [rmap mbind run_bind]; try done.
    destruct (next_label l) as [l'|] eqn:En; [|by destruct l].
    apply IH. intros ->. by destruct l.
Qed.

(** ** The whole of the steps *)
Section whole.
Context (e : kenv) (idle : bool) (a : kernel_clone_args) (curc : ctx) (k0 : core).
Let f := a_flags a.
Context (Hext : forall x, ext e x <= 0) (Hdupfd : new_ok e KFiles = false -> ext e DupFd < 0).

Definition adopted (p t : task_struct) : task_struct :=
  set_parents (if has f (Z.lor CLONE_PARENT CLONE_THREAD) then real_parent t else pid t) (parent p) p.

(** The new task is complete and both locks are held. *)
Record ready (p t : task_struct) (s : st) : Prop := {
  r_sig : siglock (s_k s) = true;
  r_tasks : tasklist (s_k s) = true;
  r_delayed : has f CLONE_THREAD = false -> RDelayed ∈ res (s_k s);
  r_group : RThreadgroup ∈ res (s_k s);
  r_live : caller_live curc (s_k s);
  r_copied : copied a curc 6 (s_c s);
  r_fresh o n : refs (s_k s) !! o = Some n -> o.2 < s_fresh s /\ 1 <= n;
  r_all o : live o k0 -> live o (s_k s);
  r_unwind : unwind idle f (s_c s) cancel_cgroup (s_k s) = Ok k0;
  r_p : s_p s = p;
  r_cur : s_cur s = t }.

Lemma s_visible_moves p t :
  moves idle a k0 (accounted idle a curc k0 p t) (s_visible e a curc) (ready (adopted p t) t).
Proof.
  intros s (s1 & [Hs Hg] & ->). destruct Hs as [H1 H2 H3 H4 H5 H6 H7 H8 H9 H10 H11 H12].
  unfold s_visible, lock_tasks. cbn [s_k s_c s_p s_cur s_fresh s_uw with_k tasklist acquire set_res].
  rewrite H5. cbn [mbind run_bind]. unfold lock_sig. cbn [siglock set_tasklist acquire set_res]. rewrite H4.
  cbn [mbind run_bind].
  set (kl := set_siglock true (set_tasklist true (acquire RCgroup (s_k s1)))).
  set (k := if c_seccomp curc then set_filter (filter_refs kl + 1) kl else kl).
  set (c := Ctx (c_files (s_c s1)) (c_fs (s_c s1)) (c_sighand (s_c s1)) (c_signal (s_c s1)) (c_mm (s_c s1))
              (c_io (s_c s1)) (c_seccomp curc)).
  assert (Hu : unwind idle f c cancel_cgroup k = Ok k0).
  { assert (Hact : act idle f (s_c s1) cancel_cgroup kl = Ok (s_k s1)).
    { cbn [act]. unfold unlock_sig, unlock_tasks, kl. cbn [siglock tasklist set_siglock set_tasklist mbind run_bind].
      etrans; [|apply (release_acquire RCgroup)]. f_equal. destruct (s_k s1); cbn in *; by subst. }
    assert (Hsame : unwind idle f (s_c s1) cancel_cgroup kl = Ok k0).
    { rewrite unwind_next, Hact. cbn [mbind run_bind next_label]. exact H1. }
    unfold k, c. destruct (c_seccomp curc).
    - rewrite <- Hsame. apply (unwind_filter (place cancel_cgroup) idle f (s_c s1)); done.
    - assert (Ec : Ctx (c_files (s_c s1)) (c_fs (s_c s1)) (c_sighand (s_c s1)) (c_signal (s_c s1))
        (c_mm (s_c s1)) (c_io (s_c s1)) false = s_c s1) by (clear -H9; destruct (s_c s1); cbn in *; by subst).
      rewrite Ec. exact Hsame. }
  assert (Hk : forall u, u ∈ res (s_k s1) -> u ∈ res k).
  { intros u Hin. unfold k. destruct (c_seccomp curc); by right. }
  assert (Hr : refs k = refs (s_k s1)) by (unfold k; by destruct (c_seccomp curc)).
  assert (Hfin : forall uw, ready (adopted p t) t (St (set_parents
      (if has (a_flags a) (Z.lor CLONE_PARENT CLONE_THREAD) then real_parent (s_cur s1) else pid (s_cur s1))
      (parent (s_p s1)) (s_p s1)) c (s_cur s1) k (s_fresh s1) uw)).
  { intros uw. split; cbn [s_k s_c s_p s_cur s_fresh]; try done.
    - unfold k. by destruct (c_seccomp curc).
    - unfold k. by destruct (c_seccomp curc).
    - intros Hn. by apply Hk, H6.
    - by apply Hk.
    - by apply (caller_live_refs curc (s_k s1)).
    - destruct H7. by split.
    - rewrite Hr. apply H3.
    - unfold live. rewrite Hr. apply H12.
    - unfold adopted. by rewrite H10, H11. }
  destruct (pidns_adding e); [destruct (fatal_signal e)|]; eexists; (split; [reflexivity|]).
  - split; [done|exact Hu].
  - apply Hfin.
  - split; [done|exact Hu].
Qed.

(** The new task, as a function of [current]. *)
Definition caller_after (t : task_struct) : task_struct :=
  set_flags (Z.ldiff (flags t) PF_NPROC_EXCEEDED) t.
Definition child_of (t : task_struct) : task_struct :=
  adopted (numbered e idle a (set_switches 0 0 (set_state (child_state e) (fresh_task t))) (caller_after t))
    (caller_after t).

Lemma steps_moves t n m :
  moves idle a k0 (start curc k0 t) (steps e idle a curc n m) (ready (child_of t) (caller_after t)).
Proof.
  unfold steps.
  eapply moves_then; [by apply s_signals_moves|]. eapply moves_then; [by apply s_dup_moves|].
  eapply moves_then; [by apply s_limit_moves|]. eapply moves_then; [by apply s_creds_moves|].
  eapply moves_then; [by apply s_threads_moves|].
  eapply moves_then; [apply (step_ext_moves e idle a curc k0 Hext _ cleanup_policy); try done; left; cbn; lia|].
  eapply moves_then; [by apply s_sched_moves|].
  eapply moves_then; [apply (step_ext_moves e idle a curc k0 Hext _ cleanup_perf); try done; left; cbn; lia|].
  eapply moves_then; [apply (step_ext_moves e idle a curc k0 Hext _ cleanup_audit); try done; left; cbn; lia|].
  eapply moves_then; [apply (step_ext_moves e idle a curc k0 Hext _ cleanup_security); try done; left; cbn; lia|].
  eapply moves_then; [apply (step_ext_moves e idle a curc k0 Hext _ cleanup_semundo); try done; left; cbn; lia|].
  eapply moves_then; [by apply copy_files_moves|]. eapply moves_then; [by apply copy_fs_moves|].
  eapply moves_then; [by apply copy_sighand_moves|]. eapply moves_then; [by apply copy_signal_moves|].
  eapply moves_then; [by apply copy_mm_moves|].
  eapply moves_then; [apply (step_ext_moves e idle a curc k0 Hext _ cleanup_namespaces); try done; left; cbn; lia|].
  eapply moves_then; [by apply copy_io_moves|].
  eapply moves_then; [apply (step_ext_moves e idle a curc k0 Hext _ cleanup_thread); try done; left; cbn; lia|].
  eapply moves_then; [by apply s_pid_moves|]. eapply moves_then; [by apply s_pidfd_moves|].
  eapply moves_then; [by apply s_ids_moves|]. eapply moves_then; [by apply cgroup_moves|].
  apply s_visible_moves.
Qed.
End whole.
