(* ===== verification/KDrops.v ===== *)
(** * What the error ladder drops

    The references the labels of [copy_process] drop are those of the pointers
    of the new task, one for each. *)

From Stdlib Require Import ZArith Lia String.
From stdpp Require Import base numbers list option strings gmap.
From S2P Require Import Prelude CText Hook Sched Tracer ProcInfo KFork KForkLadder.

Local Open Scope Z_scope.

(** ** Who points to an object *)
Definition points (o : kind * Z) (c : ctx) : bool :=
  match o with
  | (KFiles, i) => bool_decide (c_files c = Some i)
  | (KFs, i) => bool_decide (c_fs c = i)
  | (KSighand, i) => bool_decide (c_sighand c = i)
  | (KSignal, i) => bool_decide (c_signal c = i)
  | (KMm, i) => bool_decide (c_mm c = Some i)
  | (KIoc, i) => bool_decide (c_io c = Some i)
  end.

Definition b2z (b : bool) : Z := if b then 1 else 0.

(** A count of 0 is no entry. *)
Definition cnt (r : gmap (kind * Z) Z) (o : kind * Z) : Z := default 0 (r !! o).

(** ** What the ladder drops *)
Definition drops (f : Z) (c : ctx) (l : label) (o : kind * Z) : Z :=
  match l with
  | cleanup_io => b2z (bool_decide (o.1 = KIoc) && points o c)
  | cleanup_mm => b2z (bool_decide (o.1 = KMm) && points o c)
  | cleanup_signal => if has f CLONE_THREAD then 0 else b2z (bool_decide (o.1 = KSignal) && points o c)
  | cleanup_sighand => b2z (bool_decide (o.1 = KSighand) && points o c)
  | cleanup_fs => b2z (bool_decide (o.1 = KFs) && points o c)
  | cleanup_files => b2z (bool_decide (o.1 = KFiles) && points o c)
  | _ => 0
  end.

Lemma cnt_put o k k' o' :
  put o k = Ok k' -> cnt (refs k') o' = cnt (refs k) o' - b2z (bool_decide (o = o')).
Proof.
  unfold put, cnt. destruct (refs k !! o) as [n|] eqn:E; [|done]. intros [= <-]. cbn [refs set_refs].
  case_decide as Hn.
  - destruct (decide (o = o')) as [->|Hne].
    + rewrite lookup_delete_eq, E, bool_decide_eq_true_2 by done. cbn. lia.
    + rewrite lookup_delete_ne, bool_decide_eq_false_2 by done. cbn. lia.
  - destruct (decide (o = o')) as [->|Hne].
    + rewrite lookup_insert_eq, E, bool_decide_eq_true_2 by done. cbn. lia.
    + rewrite lookup_insert_ne, bool_decide_eq_false_2 by done. cbn. lia.
Qed.

Lemma cnt_release t k k' o : release t k = Ok k' -> cnt (refs k') o = cnt (refs k) o.
Proof. unfold release. case_match; [|done]. by intros [= <-]. Qed.

(** The pointer of kind [kd]. *)
Lemma points_kind (kd : kind) (i : Z) (o : kind * Z) :
  b2z (bool_decide ((kd, i) = o)) = b2z (bool_decide (o.1 = kd) && bool_decide (i = o.2)).
Proof.
  destruct o as [kd' i']. cbn. f_equal. destruct (decide (kd' = kd)) as [->|Hne].
  - rewrite (bool_decide_eq_true_2 (kd = kd)) by done. cbn. apply bool_decide_ext. naive_solver.
  - rewrite (bool_decide_eq_false_2 (kd' = kd)) by done. apply bool_decide_eq_false. naive_solver.
Qed.

Ltac decide_kinds := repeat case_bool_decide; simplify_eq; cbn [andb b2z]; first [done|lia|naive_solver].

Lemma act_cnt idle f c l k k' o :
  act idle f c l k = Ok k' -> cnt (refs k') o = cnt (refs k) o - drops f c l o.
Proof.
  intros E. destruct o as [kd i].
  assert (Hput : forall kd' j, put (kd', j) k = Ok k' -> forall z,
    z = b2z (bool_decide (kd = kd') && bool_decide (j = i)) -> cnt (refs k') (kd, i) = cnt (refs k) (kd, i) - z).
  { intros kd' j Ep z ->. rewrite (cnt_put _ _ _ (kd, i) Ep), points_kind. done. }
  destruct l; cbn [act drops] in E |- *; rewrite ?Z.sub_0_r.
  all: try (by eapply cnt_release).
  - unfold unlock_sig, unlock_tasks in E. destruct (siglock k); [|done]. cbn in E.
    destruct (tasklist k); [|done]. cbn in E. by rewrite (cnt_release _ _ _ _ E).
  - destruct (has f CLONE_PIDFD); [|by simplify_eq]. run_inv.
    rewrite (cnt_release _ _ _ _ E). by eapply cnt_release.
  - destruct idle; [by simplify_eq|by eapply cnt_release].
  - destruct (c_io c) as [j|] eqn:Ec.
    + eapply Hput; [done|]. destruct kd; cbn [points fst]; rewrite ?Ec; decide_kinds.
    + simplify_eq. destruct kd; cbn [points fst]; rewrite ?Ec; decide_kinds.
  - destruct (c_mm c) as [j|] eqn:Ec.
    + eapply Hput; [done|]. destruct kd; cbn [points fst]; rewrite ?Ec; decide_kinds.
    + simplify_eq. destruct kd; cbn [points fst]; rewrite ?Ec; decide_kinds.
  - destruct (has f CLONE_THREAD); [simplify_eq; lia|]. eapply Hput; [done|]. destruct kd; cbn [points fst]; decide_kinds.
  - eapply Hput; [done|]. destruct kd; cbn [points fst]; decide_kinds.
  - eapply Hput; [done|]. destruct kd; cbn [points fst]; decide_kinds.
  - destruct (c_files c) as [j|] eqn:Ec.
    + eapply Hput; [done|]. destruct kd; cbn [points fst]; rewrite ?Ec; decide_kinds.
    + simplify_eq. destruct kd; cbn [points fst]; rewrite ?Ec; decide_kinds.
  - by rewrite (cnt_release _ _ _ _ E).
  - run_inv. rewrite (cnt_release _ _ _ _ E). destruct (c_seccomp c); cbn; by eapply cnt_release.
  - unfold lock_sig in E. destruct (siglock k); [done|]. cbn in E. run_inv.
    assert (Hx : cnt (refs x) (kd, i) = cnt (refs k) (kd, i)).
    { match goal with H : (if has f CLONE_THREAD then _ else _) = Ok _ |- _ => destruct (has f CLONE_THREAD) in H end;
        [by simplify_eq|]. match goal with H : release _ _ = Ok _ |- _ => by rewrite (cnt_release _ _ _ _ H) end. }
    unfold unlock_sig in E. destruct (siglock x); [|done]. by simplify_eq.
Qed.

Fixpoint drops_to (n : nat) (f : Z) (c : ctx) (l : label) (o : kind * Z) : Z :=
  match n with
  | O => 0
  | S n' => drops f c l o + match next_label l with Some l' => drops_to n' f c l' o | None => 0 end
  end.

Lemma unwind_cnt n idle f c l k k0 o :
  unwind_to n idle f c l k = Ok k0 -> cnt (refs k0) o = cnt (refs k) o - drops_to n f c l o.
Proof.
  revert l k. induction n as [|n IH]; intros l k E; cbn [unwind_to drops_to] in *; [done|]. run_inv.
  match goal with H : act _ _ _ _ _ = Ok _ |- _ => pose proof (act_cnt _ _ _ _ _ _ o H) as Ha end.
  destruct (next_label l) as [l'|].
  - rewrite (IH _ _ E). lia.
  - simplify_eq. lia.
Qed.

(** The whole ladder drops every pointer but the signals of a thread. *)
Lemma drops_all f c o :
  drops_to (place cancel_cgroup) f c cancel_cgroup o =
    b2z (points o c) - (if has f CLONE_THREAD then b2z (bool_decide (o.1 = KSignal) && points o c) else 0).
Proof.
  destruct o as [kd i]. cbn [place drops_to next_label drops].
  destruct (has f CLONE_THREAD), kd; cbn [points fst]; repeat case_bool_decide; simplify_eq; cbn [andb b2z]; lia.
Qed.
