(* ===== verification/KForkFacts.v ===== *)
(** * Theorems on creating tasks

    [copy_process] is defined for all flags and all failures of what it calls;
    on every error path the kernel is left as it was.  A successful fork
    extends the task table the process tracer relies on, and [fork_count]
    counts the successful forks of each task. *)

From Stdlib Require Import ZArith Lia String.
From stdpp Require Import base numbers list option strings gmap.
From S2P Require Import Prelude CText Hook HookFacts Sched Tracer TracerFacts ProcInfo ProcInfoFacts KFork KForkLadder KDrops.

Local Open Scope Z_scope.

(** The kernel between two calls: every pointer of a task is counted, new
    addresses are free, and no lock is held. *)
Record world_ok (w : world) : Prop := {
  wo_ctx q t : by_pid (w_tasks w) !! q = Some t -> is_Some (ctxs w !! q);
  wo_live q c : ctxs w !! q = Some c -> caller_live c (w_core w);
  wo_fresh o n : refs (w_core w) !! o = Some n -> o.2 < fresh w /\ 1 <= n;
  wo_sig : siglock (w_core w) = false;
  wo_tasks : tasklist (w_core w) = false }.

(** The functions outside the file keep to their conventions: errors are
    negative, exit signals are not, and pids are positive. *)
Record kenv_ok (e : kenv) : Prop := {
  ke_ext x : ext e x <= 0;
  ke_dupfd : new_ok e KFiles = false -> ext e DupFd < 0;
  ke_pid : alloc_pid e <> 0;
  ke_leader : 0 <= leader_exit_signal e }.

(** Everything but the caller's flag [PF_NPROC_EXCEEDED], the next free address
    and user memory is as before. *)
Definition unchanged (cur : Z) (w w' : world) : Prop :=
  (w_tasks w' = w_tasks w \/ w_tasks w' = upd_task cur caller_after (w_tasks w)) /\
  ctxs w' = ctxs w /\ w_core w' = w_core w /\ nr_threads w' = nr_threads w /\
  max_threads w' = max_threads w /\ total_forks w' = total_forks w /\ process_counts w' = process_counts w.

(** ** The caller *)
Definition out_cur (o : out) : task_struct := match o with Next s | Goto _ _ s => s_cur s end.
Definition out_fresh (o : out) : Z := match o with Next s | Goto _ _ s => s_fresh s end.
Definition within (m : st -> run out) : Prop :=
  forall s o, m s = Ok o -> out_cur o = s_cur s /\ s_fresh s <= out_fresh o.

Lemma within_elim m s o : within m -> m s = Ok o -> out_cur o = s_cur s /\ s_fresh s <= out_fresh o.
Proof. intros H. apply H. Qed.

Lemma within_then m m' : within m -> within m' -> within (m ;;; m').
Proof.
  intros H1 H2 s o E. unfold andthen in E. apply run_bind_Ok in E as (o1 & E1 & E2).
  pose proof (H1 _ _ E1) as H. destruct o1 as [s1|l r s1]; cbn in H; [|by simplify_eq].
  destruct (H2 _ _ E2) as [-> H3]. split; [tauto|lia].
Qed.

Ltac within := intros s o E; repeat (run_inv; simplify_eq; try done; case_match); run_inv; simplify_eq;
  (split; [done|cbn; lia]).

Lemma within_ext r l t : within (step_ext r l t).
Proof. unfold step_ext. within. Qed.

Section within.
Context (e : kenv) (idle : bool) (a : kernel_clone_args) (curc : ctx).
Lemma within_signals : within (s_signals e a). Proof. unfold s_signals. within. Qed.
Lemma within_dup : within (s_dup e curc). Proof. unfold s_dup. within. Qed.
Lemma within_creds : within (s_creds e). Proof. unfold s_creds. within. Qed.
Lemma within_threads n m : within (s_threads n m). Proof. unfold s_threads. within. Qed.
Lemma within_sched : within (s_sched e). Proof. unfold s_sched. within. Qed.
Lemma within_files : within (copy_files e a curc). Proof. unfold copy_files. within. Qed.
Lemma within_fs : within (copy_fs e a curc). Proof. unfold copy_fs. within. Qed.
Lemma within_sighand : within (copy_sighand e a curc). Proof. unfold copy_sighand. within. Qed.
Lemma within_signal : within (copy_signal e a). Proof. unfold copy_signal. within. Qed.
Lemma within_mm : within (copy_mm e a curc). Proof. unfold copy_mm. within. Qed.
Lemma within_io : within (copy_io e a curc). Proof. unfold copy_io. within. Qed.
Lemma within_pid : within (s_pid e idle). Proof. unfold s_pid. within. Qed.
Lemma within_pidfd : within (s_pidfd e a). Proof. unfold s_pidfd. within. Qed.
Lemma within_ids : within (s_ids e idle a). Proof. unfold s_ids. within. Qed.
Lemma within_visible : within (s_visible e a curc). Proof. unfold s_visible. within. Qed.
End within.
#[local] Hint Resolve within_ext within_signals within_dup within_creds within_threads
  within_sched within_files within_fs within_sighand within_signal within_mm within_io within_pid
  within_pidfd within_ids within_visible : ospj.

Lemma then_inv m m' s o :
  (m ;;; m') s = Ok o -> (exists s1, m s = Ok (Next s1) /\ m' s1 = Ok o) \/ (m s = Ok o /\ exists l r s1, o = Goto l r s1).
Proof.
  unfold andthen. intros E. apply run_bind_Ok in E as (o1 & E1 & E2).
  destruct o1 as [s1|l r s1]; [left; eauto|right]. simplify_eq. eauto 6.
Qed.

(** A fork changes at most one flag of the caller before it succeeds. *)
Lemma steps_cur e idle a curc n m s o :
  steps e idle a curc n m s = Ok o ->
  (out_cur o = s_cur s \/ out_cur o = caller_after (s_cur s)) /\ s_fresh s <= out_fresh o.
Proof.
  unfold steps. intros E.
  apply then_inv in E as [(s1 & E1 & E)|[E1 _]]; [|apply within_signals in E1; tauto].
  apply within_signals in E1 as [<- Hf1]. cbn [out_cur out_fresh] in *.
  apply then_inv in E as [(s2 & E1 & E)|[E1 _]]; [|apply within_dup in E1; intuition lia].
  apply within_dup in E1 as [<- Hf2]. cbn [out_cur out_fresh] in *.
  apply then_inv in E as [(s3 & E1 & E)|[E1 _]].
  - assert (H1 : s_cur s3 = caller_after (s_cur s2) /\ s_fresh s3 = s_fresh s2).
    { unfold s_limit in E1. case_match; simplify_eq. done. }
    destruct H1 as [<- Hf3].
    apply within_elim in E as [-> Hf]; [split; [by right|lia]|].
    repeat (apply within_then; [by auto with ospj|]). apply within_visible.
  - unfold s_limit in E1. case_match; simplify_eq; cbn; split; auto; lia.
Qed.

(** ** Joining the lists *)
Definition parent_of (e : kenv) (a : kernel_clone_args) (trace : Z) (p : task_struct) : Z :=
  match tracer e with
  | Some t => if has (a_flags a) CLONE_PTRACE || negb (bool_decide (trace = 0)) then t else real_parent p
  | None => real_parent p
  end.

Lemma release_elem t k : t ∈ res k -> exists k', release t k = Ok k' /\ refs k' = refs k /\
  siglock k' = siglock k /\ tasklist k' = tasklist k /\ forall u, u ∈ res k -> u <> t -> u ∈ res k'.
Proof.
  intros Hin. unfold release. destruct (remove_token_elem _ _ Hin) as [l E]. rewrite E.
  eexists. split; [done|]. cbn. split_and!; try done. intros u. by apply remove_token_keep.
Qed.

Lemma exit_signal_leader e a :
  kenv_ok e -> 0 <= a_exit_signal a -> thread_group_leader e a = negb (has (a_flags a) CLONE_THREAD).
Proof.
  intros He Ha. unfold thread_group_leader, exit_signal_of. pose proof (ke_leader _ He).
  destruct (has (a_flags a) (Z.lor CLONE_PARENT CLONE_THREAD)) eqn:E1, (has (a_flags a) CLONE_THREAD) eqn:E2;
    cbn [negb]; try (apply bool_decide_eq_true; lia); try (apply bool_decide_eq_false; lia).
  exfalso. unfold has in *. apply negb_false_iff, bool_decide_eq_true in E1.
  apply negb_true_iff, bool_decide_eq_false in E2. apply E2. apply Z.bits_inj'. intros i Hi.
  apply (f_equal (fun z => Z.testbit z i)) in E1. rewrite Z.land_spec, Z.lor_spec, Z.bits_0 in *.
  destruct (Z.testbit (a_flags a) i), (Z.testbit CLONE_THREAD i); try done.
  by rewrite orb_true_r in E1.
Qed.

(** ** The objects of a complete task are counted

    The ladder would drop each of them. *)
Definition smaller (k' k : core) : Prop := forall o, is_Some (refs k' !! o) -> is_Some (refs k !! o).

Lemma release_smaller t k k' : release t k = Ok k' -> smaller k' k.
Proof. unfold release. case_match; [|done]. intros [= <-]. by intros o. Qed.

Lemma put_smaller o k k' : put o k = Ok k' -> smaller k' k /\ is_Some (refs k !! o).
Proof.
  unfold put. destruct (refs k !! o) as [n|] eqn:E; [|done]. intros [= <-]. split; [|eauto].
  intros o'. cbn. case_decide.
  - rewrite lookup_delete_is_Some. naive_solver.
  - destruct (decide (o = o')) as [->|Hne]; [rewrite E; eauto|by rewrite lookup_insert_ne].
Qed.

Lemma act_smaller idle f c l k k' : act idle f c l k = Ok k' -> smaller k' k.
Proof.
  unfold act, unlock_sig, unlock_tasks, lock_sig. intros E.
  destruct l; repeat (case_match || (run_inv; simplify_eq));
  repeat match goal with
  | H : release _ _ = Ok _ |- _ => apply release_smaller in H
  | H : put _ _ = Ok _ |- _ => apply put_smaller in H as [H _]
  end; unfold smaller in *; cbn in *; eauto.
Qed.

Lemma unwind_reaches n idle f c l l' k k0 :
  unwind_to n idle f c l k = Ok k0 -> n = place l -> (place l' <= place l)%nat ->
  exists k1 k2, act idle f c l' k1 = Ok k2 /\ smaller k1 k.
Proof.
  revert l k. induction n as [|n IH]; intros l k E Hn Hp; [done|]. cbn [unwind_to] in E. run_inv.
  destruct (decide (l = l')) as [->|Hne]; [eexists _, _; split; [done|by intros o]|].
  destruct (next_label l) as [l2|] eqn:En.
  - destruct (IH l2 _ E) as (k1 & k2 & E1 & E2).
    + clear -Hn En. destruct l; cbn in *; simplify_eq; cbn; lia.
    + clear -Hp En Hne. destruct l, l'; cbn in *; simplify_eq; cbn in *; try done; lia.
    + exists k1, k2. split; [done|]. intros o Ho. eapply act_smaller; [done|]. by apply E2.
  - clear -Hp En Hne. destruct l, l'; cbn in *; try done; lia.
Qed.

Lemma ready_child_live idle a curc k0 p t s :
  ready idle a curc k0 p t s -> caller_live (s_c s) (s_k s).
Proof.
  intros Hr. assert (Hsome : forall o, is_Some (refs (s_k s) !! o) -> live o (s_k s)).
  { intros o [n Hn]. exists n. split; [|done]. by destruct (r_fresh _ _ _ _ _ _ _ Hr _ _ Hn). }
  assert (Hreach : forall l', exists k1 k2,
    act idle (a_flags a) (s_c s) l' k1 = Ok k2 /\ smaller k1 (s_k s)).
  { intros l'. eapply unwind_reaches; [apply (r_unwind _ _ _ _ _ _ _ Hr)|done|]. destruct l'; cbn; lia. }
  unfold caller_live. split_and!.
  - intros i Hi. destruct (Hreach cleanup_files) as (k1 & k2 & E & Hs). cbn [act] in E. rewrite Hi in E.
    apply Hsome, Hs. by apply put_smaller in E as [_ E].
  - destruct (Hreach cleanup_fs) as (k1 & k2 & E & Hs). apply Hsome, Hs. by apply put_smaller in E as [_ E].
  - destruct (Hreach cleanup_sighand) as (k1 & k2 & E & Hs). apply Hsome, Hs. by apply put_smaller in E as [_ E].
  - destruct (has (a_flags a) CLONE_THREAD) eqn:Et.
    + rewrite (cp_signal _ _ _ _ (r_copied _ _ _ _ _ _ _ Hr) (or_intror Et)). apply (r_live _ _ _ _ _ _ _ Hr).
    + destruct (Hreach cleanup_signal) as (k1 & k2 & E & Hs). cbn [act] in E. rewrite Et in E.
      apply Hsome, Hs. by apply put_smaller in E as [_ E].
  - intros i Hi. destruct (Hreach cleanup_mm) as (k1 & k2 & E & Hs). cbn [act] in E. rewrite Hi in E.
    apply Hsome, Hs. by apply put_smaller in E as [_ E].
  - intros i Hi. destruct (Hreach cleanup_io) as (k1 & k2 & E & Hs). cbn [act] in E. rewrite Hi in E.
    apply Hsome, Hs. by apply put_smaller in E as [_ E].
Qed.

(** The counts of a complete task: its pointers, but for the signals of a
    thread, have been added. *)
Lemma ready_cnt idle a curc k0 p t s o :
  ready idle a curc k0 p t s ->
  cnt (refs (s_k s)) o = cnt (refs k0) o + b2z (points o (s_c s))
    - (if has (a_flags a) CLONE_THREAD then b2z (bool_decide (o.1 = KSignal) && points o (s_c s)) else 0).
Proof.
  intros Hr. pose proof (unwind_cnt _ _ _ _ _ _ _ o (r_unwind _ _ _ _ _ _ _ Hr)) as E.
  rewrite drops_all in E. lia.
Qed.

Lemma get_cnt o k k' o' : get o k = Ok k' -> cnt (refs k') o' = cnt (refs k) o' + b2z (bool_decide (o = o')).
Proof.
  unfold get, cnt. destruct (refs k !! o) as [n|] eqn:E; [|done]. intros [= <-]. cbn [refs set_refs].
  destruct (decide (o = o')) as [->|Hne].
  - rewrite lookup_insert_eq, E, bool_decide_eq_true_2 by done. done.
  - rewrite lookup_insert_ne, bool_decide_eq_false_2 by done. cbn. lia.
Qed.

Lemma link_ok e idle a curc k0 p t s trace cur w :
  ready idle a curc k0 p t s -> kenv_ok e -> 0 <= a_exit_signal a -> pid p <> 0 ->
  let lead := negb (has (a_flags a) CLONE_THREAD) in
  let p' := set_parents (real_parent p) (parent_of e a trace p) p in
  exists k, link e a trace cur s w =
      Ok (p', World (join_tasks lead p' (upd_task cur (fun _ => t) (w_tasks w)))
                (<[pid p := s_c s]> (ctxs w)) k (s_fresh s) (nr_threads w + 1) (max_threads w)
                (total_forks w + 1) (if lead then process_counts w + 1 else process_counts w) (s_uw s)) /\
    (forall o, live o (s_k s) -> live o k) /\
    (forall o n, refs k !! o = Some n -> o.2 < s_fresh s /\ 1 <= n) /\
    siglock k = false /\ tasklist k = false /\
    (forall o, cnt (refs k) o = cnt (refs k0) o + b2z (points o (s_c s))).
Proof.
  intros Hr He Hex Hpid lead p'. unfold link. cbv zeta. rewrite (exit_signal_leader e a He Hex). fold lead.
  rewrite (r_p _ _ _ _ _ _ _ Hr), (r_cur _ _ _ _ _ _ _ Hr).
  rewrite (bool_decide_eq_false_2 (pid p = 0)) by done. cbn [negb andb].
  assert (Hsig : exists k1, (if negb lead then get (KSignal, c_signal (s_c s)) (s_k s) else Ok (s_k s)) = Ok k1 /\
    res k1 = res (s_k s) /\ siglock k1 = true /\ tasklist k1 = true /\
    (forall o, live o (s_k s) -> live o k1) /\ (forall o n, refs k1 !! o = Some n -> o.2 < s_fresh s /\ 1 <= n) /\
    (forall o, cnt (refs k1) o = cnt (refs k0) o + b2z (points o (s_c s)))).
  { unfold lead. destruct (has (a_flags a) CLONE_THREAD) eqn:Eth; cbn [negb].
    - destruct (get_put (KSignal, c_signal (s_c s)) (s_k s)) as (k1 & E & _ & Ek & Hl & Hn).
      { apply (ready_child_live _ _ _ _ _ _ _ Hr). }
      exists k1. split_and!; [done|by rewrite Ek|rewrite Ek; apply Hr|rewrite Ek; apply Hr|done| |].
      2: { intros o. rewrite (get_cnt _ _ _ o E), (ready_cnt _ _ _ _ _ _ _ o Hr), Eth, points_kind.
           destruct o as [[] i]; cbn [fst snd points]; repeat case_bool_decide; simplify_eq; cbn [andb b2z]; lia. }
      + intros o n En. destruct (Hn o n En) as (n' & E' & Hle).
        destruct (r_fresh _ _ _ _ _ _ _ Hr _ _ E'). lia.
    - exists (s_k s). split_and!; try done; try apply Hr.
      intros o. rewrite (ready_cnt _ _ _ _ _ _ _ o Hr), Eth. lia. }
  destruct Hsig as (k1 & -> & Er1 & Es1 & Et1 & Hl1 & Hf1 & Hc1). cbn [mbind run_bind].
  assert (Hdel : exists k2, (if has (a_flags a) CLONE_THREAD then Ok k1 else release RDelayed k1) = Ok k2 /\
    refs k2 = refs k1 /\ siglock k2 = true /\ tasklist k2 = true /\ RThreadgroup ∈ res k2).
  { pose proof (r_group _ _ _ _ _ _ _ Hr) as Hg. rewrite <- Er1 in Hg.
    destruct (has (a_flags a) CLONE_THREAD) eqn:Et; [exists k1; by split_and!|].
    destruct (release_elem RDelayed k1) as (k2 & E & H1 & H2 & H3 & H4).
    { rewrite Er1. by apply (r_delayed _ _ _ _ _ _ _ Hr). }
    exists k2. rewrite H2, H3. split_and!; try done. by apply H4. }
  destruct Hdel as (k2 & -> & Er2 & Es2 & Et2 & Hg2). cbn [mbind run_bind].
  unfold unlock_sig at 1. rewrite Es2. cbn [mbind run_bind]. unfold unlock_tasks at 1.
  cbn [tasklist set_siglock]. rewrite Et2. cbn [mbind run_bind].
  destruct (release_elem RThreadgroup (set_tasklist false (set_siglock false k2))) as (k3 & E3 & Er3 & Es3 & Et3 & _); [done|].
  rewrite E3. cbn [mbind run_bind]. rewrite decide_False by done.
  exists k3. split; [done|]. cbn [refs set_tasklist set_siglock siglock tasklist] in *.
  split_and!; try done; unfold live; rewrite Er3, Er2; done.
Qed.

(** ** [copy_process] *)

(** Flags that pass the checks: a thread shares the signal handlers and the
    address space. *)
Lemma flags_valid_thread e f :
  clone_flags_valid e f = true ->
  (has f CLONE_THREAD = true -> has f CLONE_SIGHAND = true) /\
  (has f CLONE_SIGHAND = true -> has f CLONE_VM = true).
Proof.
  unfold clone_flags_valid.
  destruct (has f CLONE_THREAD), (has f CLONE_SIGHAND), (has f CLONE_VM); cbn; repeat case_match; done.
Qed.

Lemma by_pid_join lead p ts q :
  by_pid (join_tasks lead p ts) !! q =
    if decide (q = pid p) then Some p
    else (fun t => if decide (lead = true /\ q = real_parent p)
                   then set_children (children t ++ [pid p]) t else t) <$> by_pid ts !! q.
Proof.
  unfold join_tasks, upd_task. cbn [by_pid]. case_decide as Hq.
  - subst q. by rewrite lookup_insert_eq.
  - rewrite lookup_insert_ne by done. destruct lead; cbn [by_pid].
    + destruct (decide (q = real_parent p)) as [->|Hne].
      * rewrite lookup_alter_eq. destruct (by_pid ts !! real_parent p); [|done]. cbn. by rewrite decide_True.
      * rewrite lookup_alter_ne by done. destruct (by_pid ts !! q); [|done]. cbn. by rewrite decide_False by naive_solver.
    + destruct (by_pid ts !! q); [|done]. cbn. by rewrite decide_False by naive_solver.
Qed.

Lemma by_pid_upd q g ts q' :
  by_pid (upd_task q g ts) !! q' = (fun t => if decide (q' = q) then g t else t) <$> by_pid ts !! q'.
Proof.
  unfold upd_task. cbn [by_pid]. destruct (decide (q' = q)) as [->|Hne].
  - rewrite lookup_alter_eq. by destruct (by_pid ts !! q).
  - rewrite lookup_alter_ne by done. by destruct (by_pid ts !! q').
Qed.

Lemma upd_task_const q t ts g :
  by_pid ts !! q = Some t -> upd_task q (fun _ => g t) ts = upd_task q g ts.
Proof.
  intros E. unfold upd_task. f_equal. apply map_eq. intros q'. destruct (decide (q' = q)) as [->|Hne].
  - rewrite !lookup_alter_eq, E. done.
  - by rewrite !lookup_alter_ne.
Qed.

(** The new task when it is first visible. *)
Definition new_task (e : kenv) (a : kernel_clone_args) (trace : Z) (t : task_struct) : task_struct :=
  set_parents (real_parent (child_of e false a t)) (parent_of e a trace (child_of e false a t)) (child_of e false a t).

Lemma new_task_pid e a trace t : pid (new_task e a trace t) = alloc_pid e.
Proof. unfold new_task, child_of, adopted, numbered. cbn. by destruct (has (a_flags a) CLONE_THREAD). Qed.

Lemma copy_process_cases e trace a cur w t c :
  world_ok w -> kenv_ok e -> 0 <= a_exit_signal a ->
  by_pid (w_tasks w) !! cur = Some t -> ctxs w !! cur = Some c ->
  (exists r w', copy_process e false trace a cur w = Ok (inl r, w') /\ r < 0 /\ unchanged cur w w' /\
     fresh w <= fresh w') \/
  (exists c' k fr uw, clone_flags_valid e (a_flags a) = true /\
    let p := new_task e a trace t in
    let lead := negb (has (a_flags a) CLONE_THREAD) in
    copy_process e false trace a cur w =
      Ok (inr p, World (join_tasks lead p (upd_task cur caller_after (w_tasks w)))
        (<[pid p := c']> (ctxs w)) k fr (nr_threads w + 1) (max_threads w) (total_forks w + 1)
        (if lead then process_counts w + 1 else process_counts w) uw) /\
    copied a c 6 c' /\ caller_live c' k /\ (forall o, live o (w_core w) -> live o k) /\
    (forall o n, refs k !! o = Some n -> o.2 < fr /\ 1 <= n) /\ siglock k = false /\ tasklist k = false /\
    (forall o, cnt (refs k) o = cnt (refs (w_core w)) o + b2z (points o c'))).
Proof.
  intros Hw He Hex Ht Hc. unfold copy_process. destruct (clone_flags_valid e (a_flags a)) eqn:Ev.
  2: { left. exists (- EINVAL), w. split_and!; try done. split; [by left|done]. }
  rewrite Ht, Hc.
  destruct (steps_moves e false a c (w_core w) (ke_ext _ He) (ke_dupfd _ He) t (nr_threads w) (max_threads w)
    (St t c t (w_core w) (fresh w) (user_writes w))) as (o & E & Ho).
  { split_and!; try done; try apply Hw. by apply (wo_live _ Hw cur). }
  destruct (steps_cur _ _ _ _ _ _ _ _ E) as [Hcur Hfr]. rewrite E. cbn [mbind run_bind].
  destruct o as [s|l r s]; cbn [out_cur s_cur] in Hcur.
  - right. destruct (link_ok e false a c (w_core w) _ _ s trace cur w Ho He Hex) as (k & El & Hl & Hf & Hsg & Htl & Hcn).
    { change (pid (new_task e a trace t) <> 0). rewrite new_task_pid. apply He. }
    rewrite El. cbn [mbind run_bind]. rewrite (upd_task_const cur t _ caller_after Ht).
    exists (s_c s), k, (s_fresh s), (s_uw s). split; [done|]. cbv zeta. split; [reflexivity|].
    split_and!; try done.
    + apply Ho.
    + eapply caller_live_mono; [exact Hl|]. by eapply ready_child_live.
    + intros o Hlo. apply Hl. by apply (r_all _ _ _ _ _ _ _ Ho).
  - left. destruct Ho as [Hneg ->]. cbn [mbind run_bind]. eexists r, _. split; [done|]. split; [done|].
    split; [|exact Hfr]. split; [|done]. cbn [w_tasks]. destruct Hcur as [-> | ->].
    + left. change (fun _ : task_struct => t) with (fun _ : task_struct => id t).
      rewrite (upd_task_const cur t _ id Ht). unfold upd_task. rewrite alter_id by done. by destruct (w_tasks w).
    + right. by apply upd_task_const.
Qed.

Lemma unchanged_ok cur w w' :
  world_ok w -> unchanged cur w w' -> fresh w <= fresh w' -> world_ok w'.
Proof.
  intros [H1 H2 H3 H4 H5] (Hts & Hcx & Hk & _) Hfr. split; rewrite ?Hcx, ?Hk; try done.
  - intros q t' Hq. destruct Hts as [Hts|Hts]; rewrite Hts in Hq; [by eapply H1|].
    rewrite by_pid_upd in Hq. destruct (by_pid (w_tasks w) !! q) eqn:Eq; [|done]. by eapply H1.
  - intros o n Hn. destruct (H3 o n Hn). lia.
Qed.

Lemma joined_ok w lead p cur c' k fr nr mx tf pc uw :
  world_ok w -> caller_live c' k -> (forall o, live o (w_core w) -> live o k) ->
  (forall o n, refs k !! o = Some n -> o.2 < fr /\ 1 <= n) -> siglock k = false -> tasklist k = false ->
  world_ok (World (join_tasks lead p (upd_task cur caller_after (w_tasks w))) (<[pid p := c']> (ctxs w)) k fr
              nr mx tf pc uw).
Proof.
  intros [H1 H2 H3 H4 H5] Hl Hall Hf Hsg Htl. split; cbn [w_tasks ctxs w_core fresh]; try done.
  - intros q t' Hq. rewrite by_pid_join in Hq. destruct (decide (q = pid p)) as [->|Hne].
    + rewrite lookup_insert_eq. eauto.
    + rewrite lookup_insert_ne by done. rewrite by_pid_upd in Hq.
      destruct (by_pid (w_tasks w) !! q) eqn:Eq; [|done]. by eapply H1.
  - intros q cq Hq. destruct (decide (pid p = q)) as [<-|Hne].
    + rewrite lookup_insert_eq in Hq. by simplify_eq.
    + rewrite lookup_insert_ne in Hq by done. eapply caller_live_mono; [exact Hall|]. by eapply H2.
Qed.

(** C24. [copy_process] never goes wrong: for every combination of flags and
    every combination of failures of the functions it calls, it is defined (it
    frees nothing twice, drops no reference it does not hold and takes no lock
    that is held).  If it fails, the error is negative and every reference
    count, the number of processes, the locks, everything allocated on the
    way, the tasks and the counters are as before (but for one flag of the
    caller that records an old failure).  If it succeeds, the pointers of the
    new task are counted, those the flags ask to share are the caller's, and
    a thread shares the address space, the signal handlers and the signals. *)
Theorem copy_process_safe (e : kenv) (trace : Z) (a : kernel_clone_args) (cur : Z) (w : world)
    (t : task_struct) (c : ctx) (Hw : world_ok w) (He : kenv_ok e) (Hex : 0 <= a_exit_signal a)
    (Ht : by_pid (w_tasks w) !! cur = Some t) (Hc : ctxs w !! cur = Some c) :
  exists o w', copy_process e false trace a cur w = Ok (o, w') /\ world_ok w' /\
    match o with
    | inl r => r < 0 /\ unchanged cur w w'
    | inr p =>
        pid p = alloc_pid e /\ by_pid (w_tasks w') !! alloc_pid e = Some p /\
        nr_threads w' = nr_threads w + 1 /\ total_forks w' = total_forks w + 1 /\
        exists c', ctxs w' !! alloc_pid e = Some c' /\ copied a c 6 c' /\
          (has (a_flags a) CLONE_THREAD = true ->
           c_mm c' = c_mm c /\ c_sighand c' = c_sighand c /\ c_signal c' = c_signal c)
    end.
Proof.
  destruct (copy_process_cases e trace a cur w t c Hw He Hex Ht Hc)
    as [(r & w' & E & Hr & Hun & Hfr)|(c' & k & fr & uw & Hv & E & Hcp & Hl & Hall & Hf & Hsg & Htl & Hcn)].
  - exists (inl r), w'. split_and!; try done. by eapply unchanged_ok.
  - exists (inr (new_task e a trace t)). eexists. split; [exact E|]. split; [by apply joined_ok|].
    pose proof (new_task_pid e a trace t) as Hpid. cbn [w_tasks nr_threads total_forks ctxs]. rewrite Hpid.
    split_and!; try done.
    + rewrite by_pid_join. by rewrite decide_True.
    + exists c'. rewrite lookup_insert_eq. split_and!; try done. intros Hth.
      destruct (flags_valid_thread _ _ Hv) as [Hv1 Hv2]. specialize (Hv1 Hth). specialize (Hv2 Hv1).
      destruct Hcp. auto.
Qed.

(** ** [_do_fork] and the task table *)

(** The table the tracer relies on, with the real parents. *)
Record forest_ok (ts : tasks) : Prop := {
  fo_tasks : tasks_ok ts;
  fo_real q t : by_pid ts !! q = Some t -> is_Some (by_pid ts !! real_parent t) }.

(** The pid and the tracer a fork gets fit the table. *)
Definition fits (e : kenv) (ts : tasks) : Prop :=
  0 < alloc_pid e /\ by_pid ts !! alloc_pid e = None /\
  (forall q, tracer e = Some q -> is_Some (by_pid ts !! q)).

Definition forked_tasks (e : kenv) (a : kernel_clone_args) (cur : Z) (p : task_struct) (ts : tasks) : tasks :=
  upd_task (pid p) (set_state (woken_state e))
    (upd_task cur (fun t => set_fork_count (wraps 32 (fork_count t + 1)) t)
      (upd_task (pid p) (set_fork_count 0)
        (join_tasks (negb (has (a_flags a) CLONE_THREAD)) p (upd_task cur caller_after ts)))).

(** What happens to a task that was there before. *)
Definition aged (a : kernel_clone_args) (cur : Z) (p : task_struct) (q : Z) (t : task_struct) : task_struct :=
  let t1 := if decide (q = cur) then caller_after t else t in
  let t2 := if decide (negb (has (a_flags a) CLONE_THREAD) = true /\ q = real_parent p)
            then set_children (children t1 ++ [pid p]) t1 else t1 in
  if decide (q = cur) then set_fork_count (wraps 32 (fork_count t2 + 1)) t2 else t2.

Lemma forked_lookup e a cur p ts q :
  cur <> pid p ->
  by_pid (forked_tasks e a cur p ts) !! q =
    if decide (q = pid p) then Some (set_state (woken_state e) (set_fork_count 0 p))
    else aged a cur p q <$> by_pid ts !! q.
Proof.
  intros Hne. unfold forked_tasks, aged. rewrite !by_pid_upd, by_pid_join.
  destruct (decide (q = pid p)) as [->|Hq].
  - cbn [fmap option_fmap option_map]. rewrite (decide_False (P := pid p = cur)) by done. done.
  - rewrite by_pid_upd. by destruct (by_pid ts !! q).
Qed.

Lemma aged_same a cur p q t :
  pid (aged a cur p q t) = pid t /\ parent (aged a cur p q t) = parent t /\
  group_leader (aged a cur p q t) = group_leader t /\ real_parent (aged a cur p q t) = real_parent t /\
  children (aged a cur p q t) =
    children t ++ (if decide (negb (has (a_flags a) CLONE_THREAD) = true /\ q = real_parent p) then [pid p] else []) /\
  fork_count (aged a cur p q t) = if decide (q = cur) then wraps 32 (fork_count t + 1) else fork_count t.
Proof. unfold aged. repeat case_decide; cbn; rewrite ?app_nil_r; done. Qed.

Lemma new_task_fields e a trace t :
  parent (new_task e a trace t) = parent_of e a trace (child_of e false a t) /\
  real_parent (new_task e a trace t) =
    (if has (a_flags a) (Z.lor CLONE_PARENT CLONE_THREAD) then real_parent t else pid t) /\
  group_leader (new_task e a trace t) = (if has (a_flags a) CLONE_THREAD then group_leader t else alloc_pid e) /\
  children (new_task e a trace t) = [].
Proof. unfold new_task, child_of, adopted, numbered. cbn. by destruct (has (a_flags a) CLONE_THREAD). Qed.

Lemma real_parent_child e a t :
  real_parent (child_of e false a t) =
    if has (a_flags a) (Z.lor CLONE_PARENT CLONE_THREAD) then real_parent t else pid t.
Proof. done. Qed.

(** A successful fork keeps the table well-formed. *)
Lemma forked_forest e a trace cur t ts :
  forest_ok ts -> fits e ts -> by_pid ts !! cur = Some t ->
  forest_ok (forked_tasks e a cur (new_task e a trace t) ts).
Proof.
  intros [Hts Hreal] (Hpos & Hnew & Htr) Ht. set (p := new_task e a trace t).
  assert (Hpid : pid p = alloc_pid e) by apply new_task_pid.
  destruct (new_task_fields e a trace t) as (Hpar & Hrp & Hgl & Hch). fold p in Hpar, Hrp, Hgl, Hch.
  clearbody p.
  assert (Hcne : cur <> pid p) by (rewrite Hpid; congruence).
  assert (Hin : forall q, is_Some (by_pid ts !! q) -> is_Some (by_pid (forked_tasks e a cur p ts) !! q)).
  { intros q [tq Hq]. rewrite forked_lookup by done. case_decide; [eauto|]. rewrite Hq. by eexists. }
  assert (Hself : is_Some (by_pid (forked_tasks e a cur p ts) !! alloc_pid e)).
  { rewrite forked_lookup by done. rewrite decide_True by done. by eexists. }
  assert (Hcases : forall q t', by_pid (forked_tasks e a cur p ts) !! q = Some t' ->
    (q = alloc_pid e /\ t' = set_state (woken_state e) (set_fork_count 0 p)) \/
    (exists t0, by_pid ts !! q = Some t0 /\ t' = aged a cur p q t0)).
  { intros q t'. rewrite forked_lookup by done. case_decide; [rewrite Hpid in *; naive_solver|].
    destruct (by_pid ts !! q) eqn:Eq; [|done]. cbn. intros [= <-]. eauto. }
  assert (Hrpin : is_Some (by_pid ts !! real_parent p)).
  { rewrite Hrp. destruct (has (a_flags a) _); [by eapply Hreal|]. rewrite (to_pid _ Hts _ _ Ht). eauto. }
  split; [split|]; intros q t' Hq; destruct (Hcases q t' Hq) as [[-> ->]|(t0 & Hq0 & ->)];
    try (destruct (aged_same a cur p q t0) as (E1 & E2 & E3 & E4 & E5 & _); rewrite ?E1, ?E2, ?E3, ?E4, ?E5).
  - done.
  - by apply (to_pid _ Hts).
  - cbn [parent set_state set_fork_count]. rewrite Hpar. unfold parent_of. apply Hin.
    rewrite real_parent_child, <- Hrp.
    destruct (tracer e) as [tr|]; [destruct (_ || _)|]; [by apply Htr|done..].
  - by apply Hin, (to_parent _ Hts q).
  - cbn [group_leader set_state set_fork_count]. rewrite Hgl.
    destruct (has (a_flags a) CLONE_THREAD); [by apply Hin, (to_leader _ Hts cur)|done].
  - by apply Hin, (to_leader _ Hts q).
  - cbn [children set_state set_fork_count]. by rewrite Hch.
  - apply Forall_app. split.
    + eapply Forall_impl; [by apply (to_children _ Hts q)|]. intros x. apply Hin.
    + case_decide; [|done]. by rewrite Hpid, Forall_singleton.
  - cbn [children set_state set_fork_count]. rewrite Hch. apply NoDup_nil_2.
  - apply NoDup_app. split_and!; [by apply (to_nodup _ Hts q)| |case_decide; [apply NoDup_singleton|apply NoDup_nil_2]].
    intros x Hx. case_decide; [|apply not_elem_of_nil]. rewrite list_elem_of_singleton. intros ->.
    pose proof (to_children _ Hts _ _ Hq0) as Hf. rewrite Forall_forall in Hf. destruct (Hf _ Hx) as [y Hy].
    congruence.
  - by apply Hin.
  - by apply Hin, (Hreal q).
Qed.

Lemma world_ok_tasks w ts :
  world_ok w -> (forall q, is_Some (by_pid ts !! q) -> is_Some (by_pid (w_tasks w) !! q)) ->
  world_ok (set_tasks ts w).
Proof.
  intros [H1 H2 H3 H4 H5] Hts. split; try done. intros q t Hq. cbn [w_tasks set_tasks ctxs] in *.
  destruct (Hts q ltac:(eauto)) as [t' Ht']. by eapply H1.
Qed.

Lemma upd_is_Some q g ts q' : is_Some (by_pid (upd_task q g ts) !! q') <-> is_Some (by_pid ts !! q').
Proof. rewrite by_pid_upd. apply fmap_is_Some. Qed.

Lemma caller_after_forest cur ts : forest_ok ts -> forest_ok (upd_task cur caller_after ts).
Proof.
  intros [[H1 H2 H3 H4 H5] H6].
  assert (Hc : forall q t, by_pid (upd_task cur caller_after ts) !! q = Some t ->
    exists t0, by_pid ts !! q = Some t0 /\ pid t = pid t0 /\ parent t = parent t0 /\
      group_leader t = group_leader t0 /\ children t = children t0 /\ real_parent t = real_parent t0).
  { intros q t Hq. rewrite by_pid_upd in Hq. destruct (by_pid ts !! q) as [t0|]; [|done]. cbn in Hq.
    injection Hq as <-. exists t0. by case_decide. }
  split; [split|]; intros q t Hq; destruct (Hc q t Hq) as (t0 & Hq0 & E1 & E2 & E3 & E4 & E5);
    rewrite ?E1, ?E2, ?E3, ?E4, ?E5, ?upd_is_Some; eauto.
  eapply Forall_impl; [by eapply H4|]. intros x Hx. by apply upd_is_Some.
Qed.

(** A fork ends, and fails without a trace or adds one task to the table. *)
Lemma do_fork_cases e a cur w t :
  world_ok w -> forest_ok (w_tasks w) -> kenv_ok e -> fits e (w_tasks w) -> 0 <= a_exit_signal a ->
  by_pid (w_tasks w) !! cur = Some t ->
  exists r w', do_fork_ e a cur w = Ok (r, w') /\ world_ok w' /\ forest_ok (w_tasks w') /\
    ((r < 0 /\ (w_tasks w' = w_tasks w \/ w_tasks w' = upd_task cur caller_after (w_tasks w))) \/
     (r = alloc_pid e /\ w_tasks w' = forked_tasks e a cur (new_task e a (fork_event e a) t) (w_tasks w))).
Proof.
  intros Hw Hf He Hfit Hex Ht. destruct (wo_ctx _ Hw _ _ Ht) as [c Hc]. unfold do_fork_.
  destruct (copy_process_cases e (fork_event e a) a cur w t c Hw He Hex Ht Hc)
    as [(r & w' & E & Hr & Hun & Hfr)|(c' & k & fr & uw & Hv & E & Hcp & Hl & Hall & Hfk & Hsg & Htl & Hcn)];
    rewrite E; cbn [mbind run_bind].
  - exists r, w'. split_and!; try done; [by eapply unchanged_ok| |left; split; [done|apply Hun]].
    destruct Hun as [[-> | ->] _]; [done|by apply caller_after_forest].
  - set (p := new_task e a (fork_event e a) t).
    assert (Hw1 := joined_ok w (negb (has (a_flags a) CLONE_THREAD)) p cur c' k fr (nr_threads w + 1) (max_threads w)
      (total_forks w + 1) (if negb (has (a_flags a) CLONE_THREAD) then process_counts w + 1 else process_counts w)
      uw Hw Hl Hall Hfk Hsg Htl).
    set (w1 := World _ _ _ _ _ _ _ _ _) in Hw1 |- *.
    assert (Hok : world_ok (set_tasks (forked_tasks e a cur p (w_tasks w)) w1)).
    { apply world_ok_tasks; [done|]. intros q. unfold forked_tasks. by rewrite !upd_is_Some. }
    assert (Hpid : pid p = alloc_pid e) by apply new_task_pid.
    destruct (has (a_flags a) CLONE_PARENT_SETTID); eexists (pid p), _; (split; [reflexivity|]).
    all: split_and!; [destruct Hok as [H1 H2 H3 H4 H5]; by split| |right; by split].
    all: change (forest_ok (forked_tasks e a cur p (w_tasks w))); by apply forked_forest.
Qed.

(** ** Histories of forks *)

(** A sequence of calls of [_do_fork] by tasks of the table, each with the
    caller and whether it succeeded. *)
Inductive forks : world -> list (Z * bool) -> world -> Prop :=
| forks_nil w : forks w [] w
| forks_step e a cur w t r w1 h w2 :
    kenv_ok e -> fits e (w_tasks w) -> 0 <= a_exit_signal a -> by_pid (w_tasks w) !! cur = Some t ->
    do_fork_ e a cur w = Ok (r, w1) -> forks w1 h w2 ->
    forks w ((cur, bool_decide (0 < r)) :: h) w2.

Definition successes (q : Z) (h : list (Z * bool)) : Z := Z.of_nat (length (filter (fun x => x = (q, true)) h)).

Lemma successes_cons q x h :
  successes q (x :: h) = (if decide (x = (q, true)) then 1 else 0) + successes q h.
Proof. unfold successes. rewrite filter_cons. case_decide; cbn [length]; lia. Qed.

Lemma wraps_int z : int_range z -> wraps 32 z = z.
Proof.
  unfold int_range, INT_MIN, INT_MAX, wraps, wrapu. intros Hz.
  change (2 ^ (32 - 1)) with 2147483648. change (2 ^ 32) with 4294967296.
  destruct (decide (0 <= z)).
  - rewrite Z.mod_small by lia. rewrite decide_True by lia. done.
  - replace (z mod 4294967296) with (z + 4294967296); [rewrite decide_False by lia; lia|].
    apply (Z.mod_unique _ _ (-1)); lia.
Qed.

Lemma wraps_add z n : wraps 32 (wraps 32 z + n) = wraps 32 (z + n).
Proof. apply wraps_mod. rewrite Z.add_mod, wraps_congr by lia. by rewrite <- Z.add_mod by lia. Qed.

(** One call: the count of its caller grows by one if it succeeds, the others
    keep theirs. *)
Lemma do_fork_count e a cur w t r w1 q tq :
  world_ok w -> forest_ok (w_tasks w) -> kenv_ok e -> fits e (w_tasks w) -> 0 <= a_exit_signal a ->
  by_pid (w_tasks w) !! cur = Some t -> do_fork_ e a cur w = Ok (r, w1) ->
  by_pid (w_tasks w) !! q = Some tq ->
  exists tq1, by_pid (w_tasks w1) !! q = Some tq1 /\
    fork_count tq1 = if decide ((cur, bool_decide (0 < r)) = (q, true)) then wraps 32 (fork_count tq + 1) else fork_count tq.
Proof.
  intros Hw Hf He Hfit Hex Ht E Hq.
  destruct (do_fork_cases e a cur w t Hw Hf He Hfit Hex Ht) as (r' & w' & E' & _ & _ & Hcase).
  rewrite E in E'. injection E' as <- <-. destruct Hfit as (Hpos & Hnew & _).
  destruct Hcase as [(Hr & Hts)|(-> & ->)].
  - rewrite decide_False by (rewrite bool_decide_eq_false_2 by lia; congruence).
    destruct Hts as [-> | ->]; [eauto|]. rewrite by_pid_upd, Hq. eexists. split; [done|]. by case_decide.
  - rewrite forked_lookup, new_task_pid by (rewrite new_task_pid; congruence).
    rewrite decide_False, Hq by congruence. eexists. split; [done|].
    destruct (aged_same a cur (new_task e a (fork_event e a) t) q tq) as (_ & _ & _ & _ & _ & ->).
    rewrite bool_decide_eq_true_2 by done.
    destruct (decide (q = cur)) as [->|Hne]; [by rewrite decide_True|by rewrite decide_False by congruence].
Qed.

(** C25. [fork_count] counts: over any history of calls of [_do_fork] (by
    [fork], [vfork], [clone], kernel threads), with any failures in between,
    the kernel and the task table stay well-formed, so that [process_tracer]
    stays defined; the count of every task grows by the number of its own
    successful calls (modulo 2^32), whichever kind they are; and a task made
    by a call starts with 0. *)
Theorem fork_count_counts (w w' : world) (h : list (Z * bool))
    (Hw : world_ok w) (Hf : forest_ok (w_tasks w)) (Hh : forks w h w') :
  world_ok w' /\ forest_ok (w_tasks w') /\
  (forall q t, by_pid (w_tasks w) !! q = Some t -> int_range (fork_count t) ->
   exists t', by_pid (w_tasks w') !! q = Some t' /\ fork_count t' = wraps 32 (fork_count t + successes q h)) /\
  (forall e a cur t r w1, kenv_ok e -> fits e (w_tasks w') -> 0 <= a_exit_signal a ->
   by_pid (w_tasks w') !! cur = Some t -> do_fork_ e a cur w' = Ok (r, w1) -> 0 < r ->
   exists p, by_pid (w_tasks w1) !! r = Some p /\ pid p = r /\ fork_count p = 0).
Proof.
  induction Hh as [w|e a cur w t r w1 h w2 He Hfit Hex Ht E Hh IH].
  - split_and!; try done.
    + intros q t Hq Hi. exists t. split; [done|]. unfold successes. cbn. rewrite Z.add_0_r. by rewrite wraps_int.
    + intros e a cur t r w1 He Hfit Hex Ht E Hr.
      destruct (do_fork_cases e a cur w t Hw Hf He Hfit Hex Ht) as (r' & w' & E' & _ & _ & Hcase).
      rewrite E in E'. injection E' as <- <-. destruct Hcase as [[? _]|(-> & ->)]; [lia|].
      destruct Hfit as (_ & Hnew & _).
      rewrite forked_lookup, new_task_pid, decide_True by (done || rewrite new_task_pid; congruence).
      eexists. split; [done|]. cbn [pid fork_count set_state set_fork_count]. by rewrite new_task_pid.
  - destruct (do_fork_cases e a cur w t Hw Hf He Hfit Hex Ht) as (r' & w' & E' & Hw1 & Hf1 & _).
    rewrite E in E'. injection E' as <- <-. destruct (IH Hw1 Hf1) as (H1 & H2 & H3 & H4).
    split_and!; try done. intros q tq Hq Hi.
    destruct (do_fork_count e a cur w t r w1 q tq Hw Hf He Hfit Hex Ht E Hq) as (tq1 & Hq1 & Ec).
    destruct (H3 q tq1 Hq1) as (tq2 & Hq2 & Ec2).
    { rewrite Ec. case_decide; [apply wraps32_range|done]. }
    exists tq2. split; [done|]. rewrite Ec2, Ec, successes_cons. case_decide.
    + rewrite wraps_add. f_equal. lia.
    + done.
Qed.

(** ** Concrete inputs *)

(** Everything succeeds but the calls in [fails]. *)
Definition kenv1 (np : Z) (fails : ext_call -> bool) : kenv :=
  KEnv false false false 100 false (fun x => if fails x then - ENOMEM else 0) (true, true) (fun _ => true)
    true true false false np 5 true false TASK_NEW TASK_RUNNING SIGCHLD None (fun _ => false) (fun _ _ => true).

Lemma kenv1_ok np fails : np <> 0 -> kenv_ok (kenv1 np fails).
Proof. intros Hnp. split; try done. intros x. cbn. by case_match. Qed.

Definition init1 : task_struct := Task 0 0 0 1 1 "init" 1 1 [] 1 3 4 0 0 0 0 0.
Definition world1 : world :=
  World (Tasks {[ 1 := init1 ]} [1]) {[ 1 := Ctx (Some 1) 2 3 4 (Some 5) None true ]}
    (Core (<[(KFiles, 1) := 1]> (<[(KFs, 2) := 1]> (<[(KSighand, 3) := 1]> (<[(KSignal, 4) := 1]>
       {[ (KMm, 5) := 1 ]})))) 1 1 false false []) 10 1 100 0 1 [].

Lemma world1_ok : world_ok world1.
Proof.
  split; try done.
  - intros q t Hq. cbn [world1 w_tasks by_pid ctxs] in *. apply lookup_singleton_Some in Hq as [<- _]. by eexists.
  - intros q c Hq. cbn [world1 ctxs] in *. apply lookup_singleton_Some in Hq as [<- <-].
    unfold caller_live, live. cbn [c_files c_fs c_sighand c_signal c_mm c_io]. split_and!.
    + intros i [= <-]. by exists 1.
    + by exists 1.
    + by exists 1.
    + by exists 1.
    + intros i [= <-]. by exists 1.
    + done.
  - intros o n. cbn [world1 w_core refs fresh]. rewrite !lookup_insert_Some, lookup_singleton_Some.
    intros H. repeat (destruct H as [[<- <-]|[_ H]]; [cbn; lia|]). destruct H as [<- <-]. cbn. lia.
Qed.

Lemma world1_forest : forest_ok (w_tasks world1).
Proof.
  assert (Hc : forall q t, by_pid (w_tasks world1) !! q = Some t -> q = 1 /\ t = init1).
  { intros q t Hq. cbn [world1 w_tasks by_pid] in Hq. by apply lookup_singleton_Some in Hq as [<- <-]. }
  split; [split|]; intros q t Hq; destruct (Hc q t Hq) as [-> ->]; try done; try (by eexists); constructor.
Qed.

(** The copy of the namespaces fails: the ladder below it runs. *)
Definition no_namespaces (x : ext_call) : bool := match x with CopyNamespaces => true | _ => false end.

Lemma copy_process_safe_witness :
  exists o w', copy_process (kenv1 2 no_namespaces) false 0
      (Args 0 0 0 SIGCHLD 0 0) 1 world1 = Ok (o, w') /\ o = inl (- ENOMEM) /\ unchanged 1 world1 w'.
Proof.
  assert (Hex : 0 <= a_exit_signal (Args 0 0 0 SIGCHLD 0 0)) by (vm_compute; discriminate).
  assert (He : kenv_ok (kenv1 2 no_namespaces)) by (apply kenv1_ok; lia).
  destruct (copy_process_safe (kenv1 2 no_namespaces) 0 (Args 0 0 0 SIGCHLD 0 0) 1
    world1 init1 (Ctx (Some 1) 2 3 4 (Some 5) None true) world1_ok He Hex
    eq_refl eq_refl) as (o & w' & E & _ & Ho).
  exists o, w'. split; [done|]. assert (Eo : o = inl (- ENOMEM)).
  { assert (E' : (fun x => x.1) <$> (Some (o, w')) = Some (inl (- ENOMEM))); [|by injection E'].
    transitivity ((fun x => x.1) <$> match copy_process (kenv1 2 no_namespaces) false 0
      (Args 0 0 0 SIGCHLD 0 0) 1 world1 with Ok x => Some x | _ => None end); [by rewrite E|vm_compute; reflexivity]. }
  split; [done|]. rewrite Eo in Ho. apply Ho.
Defined.

(** Init forks, fails to fork, and makes a thread. *)
Definition world2 : world := match do_fork_ (kenv1 2 (fun _ => false)) (Args 0 0 0 SIGCHLD 0 0) 1 world1 with
  | Ok (_, w) => w | _ => world1 end.
Definition world3 : world := match do_fork_ (kenv1 3 no_namespaces) (Args 0 0 0 SIGCHLD 0 0) 1 world2 with
  | Ok (_, w) => w | _ => world2 end.
Definition thread_args : kernel_clone_args :=
  Args (Z.lor CLONE_THREAD (Z.lor CLONE_SIGHAND CLONE_VM)) 0 0 0 0 0.
Definition world4 : world := match do_fork_ (kenv1 3 (fun _ => false)) thread_args 1 world3 with
  | Ok (_, w) => w | _ => world3 end.

Definition found (q : Z) (w : world) : option task_struct := by_pid (w_tasks w) !! q.

Lemma history : forks world1 [(1, true); (1, false); (1, true)] world4.
Proof.
  assert (Hs : forall e a w r w1 h w2 t, kenv_ok e -> alloc_pid e = 2 \/ alloc_pid e = 3 -> tracer e = None ->
    found (alloc_pid e) w = None -> found 1 w = Some t -> 0 <= a_exit_signal a ->
    do_fork_ e a 1 w = Ok (r, w1) -> forks w1 h w2 -> forks w ((1, bool_decide (0 < r)) :: h) w2).
  { intros e a w r w1 h w2 t He Hp Htr Hn Ht Hex E Hh. eapply (forks_step e a 1 w t); try done.
    split_and!; [lia|done|]. by rewrite Htr. }
  eapply (Hs (kenv1 2 (fun _ => false)) (Args 0 0 0 SIGCHLD 0 0) world1 2 world2);
    [by apply kenv1_ok|by left|done|vm_compute; reflexivity|vm_compute; reflexivity|done|vm_compute; reflexivity|].
  eapply (Hs (kenv1 3 no_namespaces) (Args 0 0 0 SIGCHLD 0 0) world2 (-12) world3);
    [by apply kenv1_ok|by right|done|vm_compute; reflexivity|vm_compute; reflexivity|done|vm_compute; reflexivity|].
  eapply (Hs (kenv1 3 (fun _ => false)) thread_args world3 3 world4);
    [by apply kenv1_ok|by right|done|vm_compute; reflexivity|vm_compute; reflexivity|done|vm_compute; reflexivity|].
  constructor.
Qed.

Lemma fork_count_counts_witness :
  exists t', by_pid (w_tasks world4) !! 1 = Some t' /\ fork_count t' = 2.
Proof.
  destruct (fork_count_counts world1 world4 _ world1_ok world1_forest history) as (_ & _ & H & _).
  destruct (H 1 init1 eq_refl) as (t' & Ht & Hc); [done|]. exists t'. split; [exact Ht|]. rewrite Hc. reflexivity.
Defined.
