(* ===== verification/KRefs.v ===== *)
(** * Reference counts are exact

    The count of every object of the kernel is the number of tasks that point
    to it.  For a fork this follows from the error ladder itself: what the
    ladder would drop is what the new task holds. *)

From Stdlib Require Import ZArith Lia String.
From stdpp Require Import base numbers list option strings gmap.
From S2P Require Import Prelude CText Hook Sched Tracer TracerFacts ProcInfo KFork KForkLadder KDrops KForkFacts.

Local Open Scope Z_scope.

(** ** Who points to an object *)
Definition holders (o : kind * Z) (m : gmap Z ctx) : Z :=
  Z.of_nat (size (filter (fun x => points o x.2 = true) m)).

(** Every count is the number of tasks that point to the object, and only tasks
    of the table have pointers. *)
Record exact (w : world) : Prop := {
  ex_cnt o : cnt (refs (w_core w)) o = holders o (ctxs w);
  ex_dom q : is_Some (ctxs w !! q) -> is_Some (by_pid (w_tasks w) !! q) }.

Lemma holders_insert o q c m :
  m !! q = None -> holders o (<[q := c]> m) = holders o m + b2z (points o c).
Proof.
  intros Hq. unfold holders. destruct (points o c) eqn:E; cbn [b2z].
  - rewrite map_filter_insert_True by done. rewrite map_size_insert_None; [lia|].
    apply map_lookup_filter_None. by left.
  - rewrite map_filter_insert_False by (cbn; congruence). rewrite delete_id by done. lia.
Qed.

Lemma holders_update o q c c' m :
  m !! q = Some c -> holders o (<[q := c']> m) = holders o m - b2z (points o c) + b2z (points o c').
Proof.
  intros Hq. rewrite <- insert_delete_eq. rewrite <- (insert_id m q c Hq) at 2.
  rewrite <- (insert_delete_eq m q c).
  rewrite !holders_insert by apply lookup_delete_eq. lia.
Qed.


(** ** A fork keeps the counts exact *)
Lemma exact_tasks ts w :
  exact w -> (forall q, is_Some (by_pid (w_tasks w) !! q) -> is_Some (by_pid ts !! q)) ->
  exact (set_tasks ts w).
Proof. intros [H1 H2] Hts. split; [done|]. intros q Hq. by apply Hts, H2. Qed.

Lemma join_is_Some lead p ts q :
  is_Some (by_pid ts !! q) \/ q = pid p -> is_Some (by_pid (join_tasks lead p ts) !! q).
Proof.
  intros Hq. rewrite by_pid_join. case_decide; [by eexists|]. destruct Hq as [Hq|Hq]; [|done].
  by apply fmap_is_Some.
Qed.

Lemma do_fork_exact e a cur w t r w1 :
  world_ok w -> exact w -> kenv_ok e -> fits e (w_tasks w) -> 0 <= a_exit_signal a ->
  by_pid (w_tasks w) !! cur = Some t -> do_fork_ e a cur w = Ok (r, w1) -> exact w1.
Proof.
  intros Hw Hx He (Hpos & Hnew & _) Hex Ht E. destruct (wo_ctx _ Hw _ _ Ht) as [c Hc]. unfold do_fork_ in E.
  destruct (copy_process_cases e (fork_event e a) a cur w t c Hw He Hex Ht Hc)
    as [(r' & w' & E' & _ & Hun & _)|(c' & k & fr & uw & _ & E' & _ & _ & _ & _ & _ & _ & Hcn)];
    rewrite E' in E; cbn [mbind run_bind] in E.
  - simplify_eq. destruct Hun as (Hts & Hcx & Hk & _), Hx as [H1 H2]. split.
    + intros o. by rewrite Hk, Hcx.
    + intros q. rewrite Hcx. intros Hq. apply H2 in Hq.
      destruct Hts as [-> | ->]; [done|]. by apply upd_is_Some.
  - set (p := new_task e a (fork_event e a) t) in *. assert (Hpid : pid p = alloc_pid e) by apply new_task_pid.
    set (w2 := World _ _ _ _ _ _ _ _ _) in E.
    assert (Hx2 : exact w2).
    { destruct Hx as [H1 H2]. split; cbn [w2 w_core ctxs w_tasks].
      - intros o. rewrite Hcn, H1, holders_insert; [done|]. destruct (ctxs w !! pid p) eqn:Ec; [|done].
        destruct (H2 (pid p) ltac:(eauto)). congruence.
      - intros q Hq. apply join_is_Some. rewrite upd_is_Some. apply lookup_insert_is_Some in Hq as [<-|[_ Hq]]; auto. }
    assert (Hts : forall w3, exact w3 -> exact (set_tasks (upd_task (pid p) (set_state (woken_state e)) (w_tasks w3)) w3)).
    { intros w3 H3. apply exact_tasks; [done|]. intros q. by rewrite upd_is_Some. }
    assert (Hx3 : exact (set_tasks (upd_task cur (fun t => set_fork_count (wraps 32 (fork_count t + 1)) t)
      (upd_task (pid p) (set_fork_count 0) (w_tasks w2))) w2)).
    { apply exact_tasks; [done|]. intros q. by rewrite !upd_is_Some. }
    injection E as _ <-. apply Hts. destruct (has (a_flags a) CLONE_PARENT_SETTID); [|done].
    destruct Hx3 as [H1 H2]. by split.
Qed.

(** A pointer of a task is counted. *)
Lemma holders_pos o q c m : m !! q = Some c -> points o c = true -> 1 <= holders o m.
Proof.
  intros Hq Hp. rewrite <- (insert_id m q c Hq), <- insert_delete_eq.
  rewrite holders_insert, Hp by apply lookup_delete_eq. unfold holders. cbn [b2z]. lia.
Qed.

Lemma exact_live w q c : exact w -> ctxs w !! q = Some c -> caller_live c (w_core w).
Proof.
  intros Hx Hq. assert (H : forall o, points o c = true -> live o (w_core w)).
  { intros o Hp. pose proof (holders_pos o q c _ Hq Hp) as H1. rewrite <- (ex_cnt _ Hx) in H1. unfold cnt in H1.
    destruct (refs (w_core w) !! o) as [n|] eqn:E; cbn in H1; [by exists n|lia]. }
  unfold caller_live. split_and!; intros; apply H; cbn; by apply bool_decide_eq_true_2.
Qed.

(** With positive counts, an object exists exactly as long as a task points to
    it. *)
Lemma exact_refs w o :
  world_ok w -> exact w ->
  (refs (w_core w) !! o = None /\ holders o (ctxs w) = 0) \/
  (refs (w_core w) !! o = Some (holders o (ctxs w)) /\ 1 <= holders o (ctxs w)).
Proof.
  intros Hw Hx. pose proof (ex_cnt _ Hx o) as Hc. unfold cnt in Hc.
  destruct (refs (w_core w) !! o) as [n|] eqn:E; cbn in Hc; [right|left; split; [done|lia]].
  destruct (wo_fresh _ Hw _ _ E). by rewrite <- Hc.
Qed.

(** ** A concrete kernel *)
Lemma world1_exact : exact world1.
Proof.
  split.
  - intros o. change (ctxs world1) with ({[ 1 := Ctx (Some 1) 2 3 4 (Some 5) None true ]} : gmap Z ctx).
    rewrite <- insert_empty. rewrite holders_insert by apply lookup_empty.
    unfold holders. rewrite map_filter_empty, map_size_empty. cbn [Z.of_nat].
    unfold cnt. cbn [world1 w_core refs].
    destruct o as [kd i]. destruct (decide (i = 1)), (decide (i = 2)), (decide (i = 3)), (decide (i = 4)), (decide (i = 5));
      subst; try lia; destruct kd; try (vm_compute; reflexivity).
    all: rewrite ?lookup_insert_ne, ?lookup_singleton_ne by congruence; cbn [default points b2z c_files c_fs c_sighand c_signal c_mm c_io];
      repeat case_bool_decide; simplify_eq; cbn; done.
  - intros q. cbn [world1 ctxs w_tasks by_pid]. rewrite !lookup_singleton_is_Some. done.
Qed.

Lemma count_read (r : option Z) (h n : Z) :
  (r = None /\ h = 0) \/ (r = Some h /\ 1 <= h) -> r = Some n -> h = n.
Proof. intros [[-> _]|[-> _]]; [done|]. by intros [= ->]. Qed.

