(* ===== verification/KUnshare.v ===== *)
(** * [unshare]

    The second half of [src/Assignment2/Assignment2-1/fork.c]: a task takes
    copies of what it shares.  The theorem says that the reference counts stay
    exact, that an error changes nothing, and that afterwards the parts asked
    for are the task's own. *)

From Stdlib Require Import ZArith Lia String.
From stdpp Require Import base numbers list option strings gmap.
From S2P Require Import Prelude CText Hook Sched Tracer TracerFacts ProcInfo KFork KForkLadder KDrops KForkFacts KRefs.

Local Open Scope Z_scope.

(** What the functions outside the file answer. *)
Record uenv := UEnv {
  thread_group_empty : bool;
  single_threaded : bool;         (** [current_is_single_threaded] *)
  copy_fs_ok : bool;              (** [copy_fs_struct] *)
  dup_fd : Z;                     (** 0 for a copy, or a negative error *)
  userns : Z;                     (** [unshare_userns] *)
  makes_cred : bool;              (** it made new credentials *)
  nsproxy : Z;                    (** [unshare_nsproxy_namespaces] *)
  makes_ns : bool }.              (** it made a new set of namespaces *)

(** Effects on parts that are not modelled, in their order. *)
Inductive event := ExitSem | ExitShm | SwitchNamespaces | CommitCreds.

(** [unshare_fs] and [unshare_fd]: the error, and the copy, if one was made. *)
Definition unshare_fs (e : uenv) (fl : Z) (c : ctx) (k : core) (fr : Z) : run (Z * option Z * core * Z) :=
  if has fl CLONE_FS then
    match refs k !! (KFs, c_fs c) with
    | None => Undef
    | Some users =>
        if decide (users = 1) then Ok (0, None, k, fr)
        else if copy_fs_ok e then Ok (0, Some fr, new_obj (KFs, fr) k, fr + 1)
        else Ok (- ENOMEM, None, k, fr)
    end
  else Ok (0, None, k, fr).

Definition unshare_fd (e : uenv) (fl : Z) (c : ctx) (k : core) (fr : Z) : run (Z * option Z * core * Z) :=
  if has fl CLONE_FILES then
    match c_files c with
    | None => Ok (0, None, k, fr)
    | Some fd =>
        match refs k !! (KFiles, fd) with
        | None => Undef
        | Some count =>
            if decide (1 < count) then
              if decide (dup_fd e = 0) then Ok (0, Some fr, new_obj (KFiles, fr) k, fr + 1)
              else Ok (dup_fd e, None, k, fr)
            else Ok (0, None, k, fr)
        end
    end
  else Ok (0, None, k, fr).

(** [free_fs_struct] frees whatever the count is. *)
Definition free_fs (o : option Z) (k : core) : run core :=
  match o with
  | None => Ok k
  | Some i => match refs k !! (KFs, i) with
              | Some _ => Ok (set_refs (delete (KFs, i) (refs k)) k)
              | None => Undef
              end
  end.

(** The labels [bad_unshare_cleanup_cred], [.._fd] and [.._fs]. *)
Definition cleanup_new_cred (b : bool) (k : core) : run core := if b then release RCreds k else Ok k.
Definition cleanup_new_fd (o : option Z) (k : core) : run core :=
  match o with Some i => put (KFiles, i) k | None => Ok k end.

(** The new file system information takes the place of the old, whose last
    user would free it. *)
Definition install_fs (new_fs : option Z) (c : ctx) (k : core) : run (ctx * option Z * core) :=
  match new_fs with
  | None => Ok (c, None, k)
  | Some i =>
      match refs k !! (KFs, c_fs c) with
      | None => Undef
      | Some users =>
          let k' := set_refs (<[(KFs, c_fs c) := users - 1]> (refs k)) k in
          let c' := Ctx (c_files c) i (c_sighand c) (c_signal c) (c_mm c) (c_io c) (c_seccomp c) in
          Ok (c', if decide (users - 1 <> 0) then None else Some (c_fs c), k')
      end
  end.

Definition install_fd (new_fd : option Z) (c : ctx) : ctx * option Z :=
  match new_fd with
  | None => (c, None)
  | Some i => (Ctx (Some i) (c_fs c) (c_sighand c) (c_signal c) (c_mm c) (c_io c) (c_seccomp c), c_files c)
  end.

(** Both, and then the labels with the old structures in place of the new. *)
Definition install (new_fs new_fd : option Z) (c : ctx) (k : core) : run (ctx * core) :=
  '(c1, old_fs, k) ← install_fs new_fs c k;
  let '(c2, old_fd) := install_fd new_fd c1 in
  k ← cleanup_new_fd old_fd k;
  k ← free_fs old_fs k;
  Ok (c2, k).

Definition is_new (o : option Z) : bool := match o with Some _ => true | None => false end.

(** [ksys_unshare] for the task with the pointers [c]. *)
Definition ksys_unshare (e : uenv) (unshare_flags : Z) (c : ctx) (k : core) (fr : Z)
  : run (Z * ctx * core * Z * list event) :=
  let fl := unshare_implied unshare_flags in
  match refs k !! (KSighand, c_sighand c) with
  | None => Undef
  | Some sighand_count =>
  let err := check_unshare_flags fl (thread_group_empty e) sighand_count (single_threaded e) in
  if decide (err <> 0) then Ok (err, c, k, fr, []) else
  let do_sysvsem := has fl (Z.lor CLONE_NEWIPC CLONE_SYSVSEM) in
  '(err, new_fs, k, fr) ← unshare_fs e fl c k fr;
  if decide (err <> 0) then Ok (err, c, k, fr, []) else
  '(err, new_fd, k, fr) ← unshare_fd e fl c k fr;
  if decide (err <> 0) then k ← free_fs new_fs k; Ok (err, c, k, fr, []) else
  if decide (userns e <> 0) then
    k ← cleanup_new_fd new_fd k; k ← free_fs new_fs k; Ok (userns e, c, k, fr, [])
  else
  let k := if makes_cred e then acquire RCreds k else k in
  if decide (nsproxy e <> 0) then
    k ← cleanup_new_cred (makes_cred e) k; k ← cleanup_new_fd new_fd k; k ← free_fs new_fs k;
    Ok (nsproxy e, c, k, fr, [])
  else
  let k := if makes_ns e then acquire RNamespaces k else k in
  if is_new new_fs || is_new new_fd || do_sysvsem || makes_cred e || makes_ns e then
    let ev := (if do_sysvsem then [ExitSem] else []) ++ (if has fl CLONE_NEWIPC then [ExitShm] else [])
              ++ (if makes_ns e then [SwitchNamespaces] else []) ++ (if makes_cred e then [CommitCreds] else []) in
    '(c2, k) ← install new_fs new_fd c k;
    Ok (0, c2, k, fr, ev)
  else Ok (0, c, k, fr, [])
  end.

(** The system call on the machine. *)
Definition sys_unshare (e : uenv) (fl cur : Z) (w : world) : run (Z * world * list event) :=
  match ctxs w !! cur with
  | None => Undef
  | Some c =>
      '(r, c', k, fr, ev) ← ksys_unshare e fl c (w_core w) (fresh w);
      Ok (r, World (w_tasks w) (<[cur := c']> (ctxs w)) k fr (nr_threads w) (max_threads w) (total_forks w)
               (process_counts w) (user_writes w), ev)
  end.

(** [unshare_files], for [exec]: the old table is handed to the caller. *)
Definition unshare_files (e : uenv) (c : ctx) (k : core) (fr : Z) : run (Z * option Z * ctx * core * Z) :=
  '(error, copy, k, fr) ← unshare_fd e CLONE_FILES c k fr;
  match copy with
  | None => Ok (error, None, c, k, fr)
  | Some i =>
      if decide (error <> 0) then Ok (error, None, c, k, fr)
      else Ok (0, c_files c, (install_fd (Some i) c).1, k, fr)
  end.
