(* ===== verification/KUnshareFacts.v ===== *)
(** * Theorems on [unshare] *)

From Stdlib Require Import ZArith Lia String.
From stdpp Require Import base numbers list option strings gmap.
From S2P Require Import Prelude CText Hook Sched Tracer TracerFacts ProcInfo KFork KForkLadder KDrops KForkFacts KRefs KUnshare.

Local Open Scope Z_scope.

Lemma cnt_insert r o n o' : cnt (<[o := n]> r) o' = if decide (o = o') then n else cnt r o'.
Proof. unfold cnt. case_decide; [subst; by rewrite lookup_insert_eq|by rewrite lookup_insert_ne]. Qed.

(** Addresses below [fr] are in use, with a positive count. *)
Definition fresh_ok (k : core) (fr : Z) : Prop :=
  forall o n, refs k !! o = Some n -> o.2 < fr /\ 1 <= n.

Lemma fresh_none k fr o : fresh_ok k fr -> fr <= o.2 -> refs k !! o = None.
Proof. intros H Ho. destruct (refs k !! o) eqn:E; [|done]. apply H in E. lia. Qed.

Lemma fresh_cnt k fr o : fresh_ok k fr -> fr <= o.2 -> cnt (refs k) o = 0.
Proof. intros H Ho. unfold cnt. by rewrite (fresh_none k fr). Qed.

Lemma fresh_new k fr kd : fresh_ok k fr -> fresh_ok (new_obj (kd, fr) k) (fr + 1).
Proof.
  intros H o n. unfold new_obj. cbn [refs set_refs]. destruct (decide ((kd, fr) = o)) as [<-|Hne].
  - rewrite lookup_insert_eq. intros [= <-]. cbn. lia.
  - rewrite lookup_insert_ne by done. intros E. apply H in E. lia.
Qed.

Lemma live_new_ne o o' k : live o' k -> o <> o' -> refs (new_obj o k) !! o' = refs k !! o'.
Proof. intros _ Hne. unfold new_obj. cbn. by rewrite lookup_insert_ne. Qed.

(** ** Taking copies *)
Section copies.
Context (e : uenv) (fl : Z) (c : ctx).

Lemma unshare_fs_cases k fr :
  live (KFs, c_fs c) k -> exists r, unshare_fs e fl c k fr = Ok r /\
    ((r = (0, None, k, fr) /\ (has fl CLONE_FS = true -> refs k !! (KFs, c_fs c) = Some 1)) \/
     (r = (0, Some fr, new_obj (KFs, fr) k, fr + 1) /\ has fl CLONE_FS = true /\ exists n, 2 <= n /\ refs k !! (KFs, c_fs c) = Some n) \/
     r = (- ENOMEM, None, k, fr)).
Proof.
  intros (n & Hn & E). unfold unshare_fs. destruct (has fl CLONE_FS); [|eexists; split; [done|]; left; done].
  rewrite E. case_decide; [subst; eexists; split; [done|]; by left|].
  destruct (copy_fs_ok e); eexists; (split; [done|]); right; [left|by right]. split_and!; [done|done|].
  exists n. split; [lia|done].
Qed.

Lemma unshare_fd_cases k fr :
  (forall i, c_files c = Some i -> live (KFiles, i) k) -> dup_fd e <= 0 ->
  exists r, unshare_fd e fl c k fr = Ok r /\
    ((r = (0, None, k, fr) /\
      (has fl CLONE_FILES = true -> forall i, c_files c = Some i -> refs k !! (KFiles, i) = Some 1)) \/
     (r = (0, Some fr, new_obj (KFiles, fr) k, fr + 1) /\ has fl CLONE_FILES = true /\
      exists i n, c_files c = Some i /\ 2 <= n /\ refs k !! (KFiles, i) = Some n) \/
     (exists err, r = (err, None, k, fr) /\ err < 0)).
Proof.
  intros Hl Hd. unfold unshare_fd. destruct (has fl CLONE_FILES); [|eexists; split; [done|]; left; done].
  destruct (c_files c) as [i|] eqn:Ec; [|eexists; split; [done|]; left; done].
  destruct (Hl i eq_refl) as (n & Hn & E). rewrite E. case_decide as H1.
  - case_decide as H2; eexists; (split; [done|]); right; [left|right].
    + split_and!; [done|done|]. exists i, n. split_and!; [done|lia|done].
    + exists (dup_fd e). split; [done|lia].
  - eexists. split; [done|]. left. split; [done|]. intros _ j [= <-]. rewrite E. f_equal. lia.
Qed.
End copies.

(** ** Undoing and installing *)
Lemma free_new_fs k fr : fresh_ok k fr -> free_fs (Some fr) (new_obj (KFs, fr) k) = Ok k.
Proof.
  intros H. unfold free_fs, new_obj. cbn [refs set_refs]. rewrite lookup_insert_eq. f_equal.
  rewrite delete_insert_id by (apply (fresh_none k fr); [done|cbn; lia]). by destruct k.
Qed.

Lemma drop_new_fd k fr : fresh_ok k fr -> put (KFiles, fr) (new_obj (KFiles, fr) k) = Ok k.
Proof. intros H. apply put_new. apply (fresh_none k fr); [done|cbn; lia]. Qed.

(** The outcome of the two copies: what the labels undo, and what installing
    the copies gives. *)
Record prepared (fl : Z) (c : ctx) (k : core) (fr : Z) (nfs nfd : option Z) (k3 : core) (fr3 : Z) : Prop := {
  pr_fr : fr <= fr3;
  pr_undo : exists k2, cleanup_new_fd nfd k3 = Ok k2 /\ free_fs nfs k2 = Ok k;
  pr_locks : siglock k3 = siglock k /\ tasklist k3 = tasklist k;
  pr_fs : nfs = None -> has fl CLONE_FS = true -> refs k !! (KFs, c_fs c) = Some 1;
  pr_fd : nfd = None -> has fl CLONE_FILES = true ->
    forall i, c_files c = Some i -> refs k !! (KFiles, i) = Some 1;
  pr_fs_flag : nfs <> None -> has fl CLONE_FS = true;
  pr_fd_flag : nfd <> None -> has fl CLONE_FILES = true;
  pr_install k' : refs k' = refs k3 -> exists c2 k5, install nfs nfd c k' = Ok (c2, k5) /\
    siglock k5 = siglock k' /\ tasklist k5 = tasklist k' /\ fresh_ok k5 fr3 /\
    (forall o, cnt (refs k5) o = cnt (refs k) o - b2z (points o c) + b2z (points o c2)) /\
    c_sighand c2 = c_sighand c /\ c_signal c2 = c_signal c /\ c_mm c2 = c_mm c /\ c_io c2 = c_io c /\
    (nfs = None -> c_fs c2 = c_fs c) /\ (nfd = None -> c_files c2 = c_files c) /\
    (nfs <> None -> refs k5 !! (KFs, c_fs c2) = Some 1) /\
    (nfd <> None -> forall i, c_files c2 = Some i -> refs k5 !! (KFiles, i) = Some 1) }.

Lemma cnt_some r o n : r !! o = Some n -> cnt r o = n.
Proof. unfold cnt. by intros ->. Qed.

Lemma put_many o k n :
  refs k !! o = Some n -> 2 <= n -> put o k = Ok (set_refs (<[o := n - 1]> (refs k)) k).
Proof. intros E Hn. unfold put. rewrite E. by rewrite decide_False by lia. Qed.

Lemma fresh_dec (fr : Z) (r : gmap (kind * Z) Z) (o : kind * Z) (n : Z) :
  (forall (o' : kind * Z) (n' : Z), r !! o' = Some n' -> o'.2 < fr /\ 1 <= n') -> r !! o = Some n -> 2 <= n ->
  forall (o' : kind * Z) (n' : Z), (<[o := n - 1]> r) !! o' = Some n' -> o'.2 < fr /\ 1 <= n'.
Proof.
  intros H E Hn o' n'. destruct (decide (o = o')) as [<-|Hne].
  - rewrite lookup_insert_eq. intros [= <-]. apply H in E. lia.
  - rewrite lookup_insert_ne by done. apply H.
Qed.

Section combos.
Context (c : ctx) (k : core) (fr : Z) (Hf : fresh_ok k fr).

(** Installing new file system information. *)
Lemma install_fs_new n k' i :
  refs k' !! (KFs, c_fs c) = Some n -> 2 <= n ->
  install_fs (Some i) c k' =
    Ok (Ctx (c_files c) i (c_sighand c) (c_signal c) (c_mm c) (c_io c) (c_seccomp c), None,
        set_refs (<[(KFs, c_fs c) := n - 1]> (refs k')) k').
Proof. intros E Hn. unfold install_fs. rewrite E. by rewrite decide_True by lia. Qed.

Ltac ne := let H := fresh in intros [= H]; cbn in *; lia.
Ltac count := intros [[] i']; rewrite ?cnt_insert; cbn [points c_files c_fs c_sighand c_signal c_mm c_io];
  repeat case_bool_decide; repeat case_decide; simplify_eq; cbn [b2z]; try lia.

Lemma prepared_none fl :
  (has fl CLONE_FS = true -> refs k !! (KFs, c_fs c) = Some 1) ->
  (has fl CLONE_FILES = true -> forall i, c_files c = Some i -> refs k !! (KFiles, i) = Some 1) ->
  prepared fl c k fr None None k fr.
Proof.
  intros H1 H2. split; try done. { by exists k. }
  intros k' Hk'. exists c, k'. split; [done|]. rewrite Hk'. split_and!; try done.
  - intros o n. rewrite Hk'. apply Hf.
  - intros o. lia.
Qed.

Lemma prepared_fs fl n :
  has fl CLONE_FS = true ->
  refs k !! (KFs, c_fs c) = Some n -> 2 <= n ->
  (has fl CLONE_FILES = true -> forall i, c_files c = Some i -> refs k !! (KFiles, i) = Some 1) ->
  prepared fl c k fr (Some fr) None (new_obj (KFs, fr) k) (fr + 1).
Proof.
  intros Hfl E Hn H2. assert (Hlt : c_fs c < fr) by (apply Hf in E; cbn in E; lia).
  assert (E' : <[(KFs, fr) := 1]> (refs k) !! (KFs, c_fs c) = Some n) by (rewrite lookup_insert_ne by ne; done).
  split; try done. { lia. } { eexists. split; [done|]. by apply free_new_fs. }
  intros k' Hk'. unfold install. rewrite (install_fs_new n) by (rewrite ?Hk'; done).
  cbn [mbind run_bind install_fd cleanup_new_fd free_fs]. eexists _, _. split; [done|].
  cbn [refs set_refs siglock tasklist c_fs c_files c_sighand c_signal c_mm c_io]. rewrite Hk'.
  split_and!; try done.
  - intros o' n'. cbn [refs set_refs]. apply fresh_dec; [|done|done]. by apply (fresh_new k fr).
  - pose proof (cnt_some _ _ _ E). pose proof (fresh_cnt k fr (KFs, fr) Hf ltac:(cbn; lia)).
    cbn [new_obj refs set_refs]. count.
  - intros _. cbn [new_obj refs set_refs]. rewrite lookup_insert_ne by ne. apply lookup_insert_eq.
Qed.

Lemma prepared_fd fl i n :
  has fl CLONE_FILES = true ->
  (has fl CLONE_FS = true -> refs k !! (KFs, c_fs c) = Some 1) ->
  c_files c = Some i -> refs k !! (KFiles, i) = Some n -> 2 <= n ->
  prepared fl c k fr None (Some fr) (new_obj (KFiles, fr) k) (fr + 1).
Proof.
  intros Hfl H1 Ec E Hn. assert (Hlt : i < fr) by (apply Hf in E; cbn in E; lia).
  assert (E' : <[(KFiles, fr) := 1]> (refs k) !! (KFiles, i) = Some n) by (rewrite lookup_insert_ne by ne; done).
  split; try done. { lia. } { exists k. split; [by apply drop_new_fd|done]. }
  intros k' Hk'. unfold install. cbn [install_fs mbind run_bind install_fd]. rewrite Ec. cbn [cleanup_new_fd].
  rewrite (put_many _ _ n) by (rewrite ?Hk'; done).
  cbn [mbind run_bind free_fs]. eexists _, _. split; [done|].
  cbn [refs set_refs siglock tasklist c_fs c_files c_sighand c_signal c_mm c_io]. rewrite Hk'.
  split_and!; try done.
  - intros o' n'. cbn [refs set_refs]. apply fresh_dec; [|done|done]. by apply (fresh_new k fr).
  - pose proof (cnt_some _ _ _ E). pose proof (fresh_cnt k fr (KFiles, fr) Hf ltac:(cbn; lia)).
    cbn [new_obj refs set_refs]. count.
  - intros _ j [= <-]. cbn [new_obj refs set_refs]. rewrite lookup_insert_ne by ne. apply lookup_insert_eq.
Qed.

Lemma prepared_both fl i n m :
  has fl CLONE_FS = true -> has fl CLONE_FILES = true ->
  refs k !! (KFs, c_fs c) = Some m -> 2 <= m ->
  c_files c = Some i -> refs k !! (KFiles, i) = Some n -> 2 <= n ->
  prepared fl c k fr (Some fr) (Some (fr + 1)) (new_obj (KFiles, fr + 1) (new_obj (KFs, fr) k)) (fr + 1 + 1).
Proof.
  intros Hfl Hfl' Em Hm Ec E Hn. assert (Hlt : i < fr) by (apply Hf in E; cbn in E; lia).
  assert (Hlt' : c_fs c < fr) by (apply Hf in Em; cbn in Em; lia).
  pose proof (fresh_new k fr KFs Hf) as Hf1. pose proof (fresh_new _ _ KFiles Hf1) as Hf2.
  assert (Em' : refs (new_obj (KFiles, fr + 1) (new_obj (KFs, fr) k)) !! (KFs, c_fs c) = Some m).
  { cbn. rewrite !lookup_insert_ne by ne. done. }
  assert (E' : refs (new_obj (KFiles, fr + 1) (new_obj (KFs, fr) k)) !! (KFiles, i) = Some n).
  { cbn. rewrite !lookup_insert_ne by ne. done. }
  split; try done. { lia. }
  { exists (new_obj (KFs, fr) k). split; [by apply drop_new_fd|by apply free_new_fs]. }
  intros k' Hk'. unfold install. rewrite (install_fs_new m) by (rewrite ?Hk'; done).
  cbn [mbind run_bind install_fd c_files]. rewrite Ec. cbn [cleanup_new_fd].
  rewrite (put_many _ _ n); [|cbn [refs set_refs]; rewrite Hk', lookup_insert_ne by ne; done|done].
  cbn [mbind run_bind free_fs]. eexists _, _. split; [done|].
  cbn [refs set_refs siglock tasklist c_fs c_files c_sighand c_signal c_mm c_io]. rewrite Hk'.
  split_and!; try done.
  - intros o' n'. cbn [refs set_refs]. apply fresh_dec.
    + by apply fresh_dec.
    + by rewrite lookup_insert_ne by ne.
    + done.
  - pose proof (cnt_some _ _ _ E). pose proof (cnt_some _ _ _ Em).
    pose proof (fresh_cnt k fr (KFs, fr) Hf ltac:(cbn; lia)).
    pose proof (fresh_cnt k fr (KFiles, fr + 1) Hf ltac:(cbn; lia)).
    cbn [new_obj refs set_refs]. count.
  - intros _. cbn [new_obj refs set_refs]. rewrite !lookup_insert_ne by ne. apply lookup_insert_eq.
  - intros _ j [= <-]. cbn [new_obj refs set_refs]. rewrite !lookup_insert_ne by ne. apply lookup_insert_eq.
Qed.
End combos.

(** The two copies together: an error leaves the kernel as it was. *)
Lemma copies_prepared e fl c k fr :
  caller_live c k -> fresh_ok k fr -> dup_fd e <= 0 ->
  exists err nfs k1 fr1, unshare_fs e fl c k fr = Ok (err, nfs, k1, fr1) /\
    ((err < 0 /\ k1 = k /\ fr1 = fr) \/
     (err = 0 /\ exists err' nfd k2 fr2, unshare_fd e fl c k1 fr1 = Ok (err', nfd, k2, fr2) /\ fr <= fr2 /\
      ((err' < 0 /\ free_fs nfs k2 = Ok k) \/ (err' = 0 /\ prepared fl c k fr nfs nfd k2 fr2)))).
Proof.
  intros (Hl1 & Hl2 & _) Hf Hd.
  destruct (unshare_fs_cases e fl c k fr Hl2) as (r & E & [[-> Hone]|[(-> & Hfl & n & Hn & En)| ->]]).
  - exists 0, None, k, fr. split; [done|]. right. split; [done|].
    destruct (unshare_fd_cases e fl c k fr Hl1 Hd) as (r' & -> & [[-> H1]|[(-> & Hfl & i & n & Ec & Hn & En)|(err & -> & Herr)]]).
    + exists 0, None, k, fr. split_and!; [done|done|]. right. split; [done|]. by apply prepared_none.
    + exists 0, (Some fr), (new_obj (KFiles, fr) k), (fr + 1). split_and!; [done|lia|]. right.
      split; [done|]. by eapply prepared_fd.
    + exists err, None, k, fr. split_and!; [done|done|]. by left.
  - exists 0, (Some fr), (new_obj (KFs, fr) k), (fr + 1). split; [done|]. right. split; [done|].
    assert (Hne : forall i, refs (new_obj (KFs, fr) k) !! (KFiles, i) = refs k !! (KFiles, i)).
    { intros i. unfold new_obj. cbn [refs set_refs]. by rewrite lookup_insert_ne. }
    destruct (unshare_fd_cases e fl c (new_obj (KFs, fr) k) (fr + 1)) as
      (r' & -> & [[-> H1]|[(-> & Hfl' & i & m & Ec & Hm & Em)|(err & -> & Herr)]]).
    + intros i Hi. unfold live. rewrite Hne. by apply Hl1.
    + done.
    + exists 0, None, (new_obj (KFs, fr) k), (fr + 1). split_and!; [done|lia|]. right. split; [done|].
      eapply prepared_fs; [done..|]. intros H i Hi. rewrite <- Hne. by apply H1.
    + rewrite Hne in Em. eexists 0, (Some (fr + 1)), _, _. split_and!; [done|lia|]. right. split; [done|].
      by eapply prepared_both.
    + eexists err, None, _, _. split_and!; [done|lia|]. left. split; [done|by apply free_new_fs].
  - exists (- ENOMEM), None, k, fr. split; [done|]. by left.
Qed.

(** ** The system call *)

(** Errors of the functions outside the file are negative. *)
Record uenv_ok (e : uenv) : Prop := {
  ue_dup : dup_fd e <= 0;
  ue_userns : userns e <= 0;
  ue_nsproxy : nsproxy e <= 0 }.

(** What a successful call does to the task's pointers and to the counts. *)
Record unshared (fl : Z) (c : ctx) (k : core) (c2 : ctx) (k5 : core) (fr5 : Z) : Prop := {
  us_locks : siglock k5 = siglock k /\ tasklist k5 = tasklist k;
  us_fresh : fresh_ok k5 fr5;
  us_cnt o : cnt (refs k5) o = cnt (refs k) o - b2z (points o c) + b2z (points o c2);
  us_rest : c_sighand c2 = c_sighand c /\ c_signal c2 = c_signal c /\ c_mm c2 = c_mm c /\ c_io c2 = c_io c;
  us_fs : if has fl CLONE_FS then refs k5 !! (KFs, c_fs c2) = Some 1 else c_fs c2 = c_fs c;
  us_files : if has fl CLONE_FILES then forall i, c_files c2 = Some i -> refs k5 !! (KFiles, i) = Some 1
             else c_files c2 = c_files c }.

Lemma check_unshare_err fl b n s :
  check_unshare_flags fl b n s = 0 \/ check_unshare_flags fl b n s < 0.
Proof. unfold check_unshare_flags. repeat case_match; (by left) || (by right). Qed.

Lemma kept_one r r' o (c c2 : ctx) :
  (forall o, cnt r' o = cnt r o - b2z (points o c) + b2z (points o c2)) ->
  points o c = points o c2 -> (forall o n, r' !! o = Some n -> 1 <= n) -> r !! o = Some 1 -> r' !! o = Some 1.
Proof.
  intros Hc Hp Hpos E. specialize (Hc o). rewrite (cnt_some _ _ _ E), Hp in Hc. unfold cnt in Hc.
  destruct (r' !! o) as [n|] eqn:E'; cbn in Hc; [f_equal|]; lia.
Qed.

Lemma prepared_unshared fl c k fr nfs nfd k3 fr3 k4 :
  prepared fl c k fr nfs nfd k3 fr3 -> refs k4 = refs k3 -> siglock k4 = siglock k3 -> tasklist k4 = tasklist k3 ->
  exists c2 k5, install nfs nfd c k4 = Ok (c2, k5) /\ unshared fl c k c2 k5 fr3.
Proof.
  intros Hp E1 E2 E3. destruct (pr_install _ _ _ _ _ _ _ _ Hp k4 E1) as
    (c2 & k5 & E & S1 & S2 & Hfr & Hc & R1 & R2 & R3 & R4 & F1 & F2 & G1 & G2).
  destruct (pr_locks _ _ _ _ _ _ _ _ Hp) as [L1 L2].
  assert (Hpos : forall o n, refs k5 !! o = Some n -> 1 <= n) by (intros o n Ho; apply Hfr in Ho; lia).
  exists c2, k5. split; [done|]. split; try done.
  - split; congruence.
  - destruct (has fl CLONE_FS) eqn:Efl.
    + destruct nfs as [i|]; [by apply G1|]. rewrite F1 by done.
      eapply kept_one; [done|cbn; by rewrite F1|done|]. exact (pr_fs _ _ _ _ _ _ _ _ Hp eq_refl Efl).
    + destruct nfs as [i|]; [|by apply F1]. rewrite (pr_fs_flag _ _ _ _ _ _ _ _ Hp) in Efl; done.
  - destruct (has fl CLONE_FILES) eqn:Efl.
    + destruct nfd as [j|]; [by apply G2|]. intros i. rewrite F2 by done. intros Hi.
      eapply kept_one; [done|cbn; by rewrite F2|done|]. exact (pr_fd _ _ _ _ _ _ _ _ Hp eq_refl Efl i Hi).
    + destruct nfd as [j|]; [|by apply F2]. rewrite (pr_fd_flag _ _ _ _ _ _ _ _ Hp) in Efl; done.
Qed.

Lemma ksys_unshare_cases e ufl c k fr :
  caller_live c k -> fresh_ok k fr -> uenv_ok e ->
  exists r c2 k5 fr5 ev, ksys_unshare e ufl c k fr = Ok (r, c2, k5, fr5, ev) /\ fr <= fr5 /\
    ((r < 0 /\ c2 = c /\ k5 = k /\ ev = []) \/ (r = 0 /\ unshared (unshare_implied ufl) c k c2 k5 fr5)).
Proof.
  intros Hl Hf [Hd Hu Hn]. unfold ksys_unshare. set (fl := unshare_implied ufl).
  destruct (Hl) as (_ & _ & (n & _ & ->) & _).
  destruct (check_unshare_err fl (thread_group_empty e) n (single_threaded e)) as [-> | Herr];
    [rewrite decide_False by lia|rewrite decide_True by lia; eexists _, c, k, fr, []; split_and!; [done|lia|by left]].
  destruct (copies_prepared e fl c k fr Hl Hf Hd) as (err & nfs & k1 & fr1 & -> & [(Herr & -> & ->)|(-> & Hfd)]);
    cbn [mbind run_bind]; [rewrite decide_True by lia; eexists err, c, k, fr, []; split_and!; [done|lia|by left]|].
  rewrite decide_False by lia.
  destruct Hfd as (err & nfd & k2 & fr2 & -> & Hfr & [(Herr & Hfree)|(-> & Hp)]); cbn [mbind run_bind].
  { rewrite decide_True, Hfree by lia. eexists err, c, k, fr2, []. split_and!; [done|lia|by left]. }
  rewrite decide_False by lia. destruct (pr_undo _ _ _ _ _ _ _ _ Hp) as (k2' & U1 & U2).
  case_decide as Hus.
  { rewrite U1. cbn [mbind run_bind]. rewrite U2. cbn [mbind run_bind].
    eexists _, c, k, fr2, []. split_and!; [done|lia|left; split; [lia|done]]. }
  set (k3 := if makes_cred e then acquire RCreds k2 else k2). case_decide as Hns.
  { assert (cleanup_new_cred (makes_cred e) k3 = Ok k2) as ->.
    { unfold cleanup_new_cred, k3. destruct (makes_cred e); [apply release_acquire|done]. }
    cbn [mbind run_bind]. rewrite U1. cbn [mbind run_bind]. rewrite U2. cbn [mbind run_bind].
    eexists _, c, k, fr2, []. split_and!; [done|lia|left; split; [lia|done]]. }
  set (k4 := if makes_ns e then acquire RNamespaces k3 else k3).
  assert (H4 : refs k4 = refs k2 /\ siglock k4 = siglock k2 /\ tasklist k4 = tasklist k2).
  { unfold k4, k3. by destruct (makes_ns e), (makes_cred e). }
  destruct H4 as (E1 & E2 & E3). destruct (prepared_unshared _ _ _ _ _ _ _ _ k4 Hp E1 E2 E3) as (c2 & k5 & E & Hun).
  case_match eqn:Hany.
  - rewrite E. cbn [mbind run_bind]. eexists 0, c2, k5, fr2, _. split_and!; [done|done|]. by right.
  - apply orb_false_iff in Hany as [Hany _]. apply orb_false_iff in Hany as [Hany _].
    apply orb_false_iff in Hany as [Hany _]. apply orb_false_iff in Hany as [N1 N2].
    destruct nfs, nfd; try done. cbn in E. injection E as <- <-.
    eexists 0, c, k4, fr2, []. split_and!; [done|done|]. by right.
Qed.

Lemma sys_unshare_cases e fl cur w t :
  world_ok w -> exact w -> uenv_ok e -> by_pid (w_tasks w) !! cur = Some t ->
  exists r w' ev, sys_unshare e fl cur w = Ok (r, w', ev) /\ world_ok w' /\ exact w' /\ w_tasks w' = w_tasks w /\
    ((r < 0 /\ ctxs w' = ctxs w /\ w_core w' = w_core w /\ ev = []) \/
     (r = 0 /\ exists c c', ctxs w !! cur = Some c /\ ctxs w' = <[cur := c']> (ctxs w) /\
        unshared (unshare_implied fl) c (w_core w) c' (w_core w') (fresh w'))).
Proof.
  intros Hw Hx He Ht. destruct (wo_ctx _ Hw _ _ Ht) as [c Hc]. unfold sys_unshare. rewrite Hc.
  destruct (ksys_unshare_cases e fl c (w_core w) (fresh w)) as (r & c2 & k5 & fr5 & ev & -> & Hfr & Hcase).
  { by eapply wo_live. } { intros o n. by apply wo_fresh. } { done. }
  cbn [mbind run_bind]. eexists r, _, ev. split; [done|].
  destruct Hcase as [(Hr & -> & -> & ->)|(-> & Hus)].
  - rewrite (insert_id (ctxs w) cur c Hc). split_and!; [|by destruct Hx|done|by left].
    destruct Hw as [H1 H2 H3 H4 H5]. split; try done. intros o n E. apply H3 in E. cbn [fresh]. lia.
  - destruct (Hus) as [[L1 L2] Hf5 Hcnt _ _ _].
    assert (Hx' : exact (World (w_tasks w) (<[cur := c2]> (ctxs w)) k5 fr5 (nr_threads w) (max_threads w)
      (total_forks w) (process_counts w) (user_writes w))).
    { destruct Hx as [H1 H2]. split; cbn [w_core ctxs w_tasks].
      - intros o. rewrite (holders_update o cur c c2 _ Hc), Hcnt, H1. done.
      - intros q Hq. apply lookup_insert_is_Some in Hq as [<-|[_ Hq]]; eauto. }
    split_and!; [|done|done|right; split; [done|by exists c, c2]].
    destruct Hw as [H1 H2 H3 H4 H5]. split; cbn [w_tasks ctxs w_core fresh]; try congruence.
    + intros q t' Hq. apply lookup_insert_is_Some. destruct (decide (cur = q)); [by left|right]. eauto.
    + intros q c' Hq. exact (exact_live _ q c' Hx' Hq).
    + intros o n. apply Hf5.
Qed.

(** C27. [unshare]: for all flags and all failures the call is defined and keeps
    the kernel well-formed and its reference counts exact.  An error changes
    nothing: no pointer, count, lock or allocation.  On success the task alone
    points to its file system information and to its file table, if the flags
    ask for them (also by implication, as for a new mount or user namespace),
    and all other pointers of all tasks are as before. *)
Theorem unshare_exact (e : uenv) (fl cur : Z) (w : world) (t : task_struct)
    (Hw : world_ok w) (Hx : exact w) (He : uenv_ok e) (Ht : by_pid (w_tasks w) !! cur = Some t) :
  exists r w' ev, sys_unshare e fl cur w = Ok (r, w', ev) /\ world_ok w' /\ exact w' /\ w_tasks w' = w_tasks w /\
    ((r < 0 /\ ctxs w' = ctxs w /\ w_core w' = w_core w /\ ev = []) \/
     (r = 0 /\ exists c c', ctxs w !! cur = Some c /\ ctxs w' = <[cur := c']> (ctxs w) /\
        c_sighand c' = c_sighand c /\ c_signal c' = c_signal c /\ c_mm c' = c_mm c /\ c_io c' = c_io c /\
        (if has (unshare_implied fl) CLONE_FS then holders (KFs, c_fs c') (ctxs w') = 1 else c_fs c' = c_fs c) /\
        (if has (unshare_implied fl) CLONE_FILES
         then forall i, c_files c' = Some i -> holders (KFiles, i) (ctxs w') = 1
         else c_files c' = c_files c))).
Proof.
  destruct (sys_unshare_cases e fl cur w t Hw Hx He Ht) as (r & w' & ev & E & Hw' & Hx' & Hts & Hcase).
  exists r, w', ev. split_and!; try done. destruct Hcase as [H|(-> & c & c' & Hc & Hcx & Hus)]; [by left|right].
  split; [done|]. exists c, c'. destruct Hus as [_ _ _ (R1 & R2 & R3 & R4) Hfs Hfd]. do 6 (split; [assumption|]). split.
  - destruct (has (unshare_implied fl) CLONE_FS); [|done]. rewrite <- (ex_cnt _ Hx' (KFs, c_fs c')). exact (cnt_some _ _ _ Hfs).
  - destruct (has (unshare_implied fl) CLONE_FILES); [|done]. intros i Hi.
    rewrite <- (ex_cnt _ Hx' (KFiles, i)). exact (cnt_some _ _ _ (Hfd i Hi)).
Qed.

(** [unshare_files], for [exec]: it fails and changes nothing, or the table is
    the task's own already, or a copy takes its place and the caller is given
    the old table together with its reference. *)
Lemma unshare_files_own e c k fr :
  (forall i, c_files c = Some i -> live (KFiles, i) k) -> dup_fd e <= 0 ->
  exists r d c' k' fr', unshare_files e c k fr = Ok (r, d, c', k', fr') /\
    ((r < 0 /\ d = None /\ c' = c /\ k' = k) \/
     (r = 0 /\ d = None /\ c' = c /\ k' = k /\ forall i, c_files c = Some i -> refs k !! (KFiles, i) = Some 1) \/
     (r = 0 /\ d = c_files c /\ c_files c' = Some fr /\ refs k' !! (KFiles, fr) = Some 1 /\
      k' = new_obj (KFiles, fr) k)).
Proof.
  intros Hl Hd. unfold unshare_files.
  destruct (unshare_fd_cases e CLONE_FILES c k fr Hl Hd)
    as (r & -> & [[-> H1]|[(-> & _ & i & n & Ec & _)|(err & -> & Herr)]]); cbn [mbind run_bind].
  - eexists _, _, _, _, _. split; [done|]. right. left. split_and!; try done. by apply H1.
  - rewrite decide_False by lia. eexists _, _, _, _, _. split; [done|]. do 2 right. split_and!; try done.
    unfold new_obj. cbn. by rewrite lookup_insert_eq.
  - eexists _, _, _, _, _. split; [done|]. by left.
Qed.

(** ** Histories *)

(** Any sequence of calls of [_do_fork] and [unshare] by tasks of the table. *)
Inductive calls : world -> world -> Prop :=
| calls_nil w : calls w w
| calls_fork e a cur w t r w1 w2 :
    kenv_ok e -> fits e (w_tasks w) -> 0 <= a_exit_signal a -> by_pid (w_tasks w) !! cur = Some t ->
    do_fork_ e a cur w = Ok (r, w1) -> calls w1 w2 -> calls w w2
| calls_unshare e fl cur w t r w1 ev w2 :
    uenv_ok e -> by_pid (w_tasks w) !! cur = Some t ->
    sys_unshare e fl cur w = Ok (r, w1, ev) -> calls w1 w2 -> calls w w2.

(** C26. Reference counts stay exact: if at the start the count of every object
    (open files, file system information, signal handlers, signals, address
    space, I/O context) is the number of tasks that point to it, then it is so
    after every history of forks, threads, kernel threads and [unshare] calls,
    with any failures; so an object exists exactly as long as a task points to
    it, and the kernel stays well-formed. *)
Theorem calls_exact (w w' : world)
    (Hw : world_ok w) (Hf : forest_ok (w_tasks w)) (Hx : exact w) (Hh : calls w w') :
  world_ok w' /\ forest_ok (w_tasks w') /\
  forall o, (refs (w_core w') !! o = None /\ holders o (ctxs w') = 0) \/
            (refs (w_core w') !! o = Some (holders o (ctxs w')) /\ 1 <= holders o (ctxs w')).
Proof.
  induction Hh as [w|e a cur w t r w1 w2 He Hfit Hex Ht E Hh IH|e fl cur w t r w1 ev w2 He Ht E Hh IH].
  - split_and!; [done|done|]. intros o. by apply exact_refs.
  - destruct (do_fork_cases e a cur w t Hw Hf He Hfit Hex Ht) as (r' & w1' & E' & Hw1 & Hf1 & _).
    rewrite E in E'. injection E' as <- <-. apply IH; [done|done|].
    exact (do_fork_exact e a cur w t r w1 Hw Hx He Hfit Hex Ht E).
  - destruct (sys_unshare_cases e fl cur w t Hw Hx He Ht) as (r' & w1' & ev' & E' & Hw1 & Hx1 & Hts & _).
    rewrite E in E'. injection E' as <- <- <-. apply IH; [done|by rewrite Hts|done].
Qed.

(** ** Concrete inputs *)
Definition uenv1 (ns : Z) : uenv := UEnv true true true 0 0 false ns true.

Lemma uenv1_ok ns : ns <= 0 -> uenv_ok (uenv1 ns).
Proof. by split. Qed.

Lemma Ok_pair {A B} {a a' : A} {b b' : B} : Ok (a, b) = Ok (a', b') -> a = a' /\ b = b'.
Proof. by intros [= -> ->]. Qed.

Lemma Ok_triple {A B C} {a a' : A} {b b' : B} {c c' : C} :
  Ok (a, b, c) = Ok (a', b', c') -> a = a' /\ b = b' /\ c = c'.
Proof. by intros [= -> -> ->]. Qed.

(** A process that shares files and file system information with its parent. *)
Definition sharing_args : kernel_clone_args := Args (Z.lor CLONE_FILES CLONE_FS) 0 0 SIGCHLD 0 0.
Definition world5 : world := match do_fork_ (kenv1 2 (fun _ => false)) sharing_args 1 world1 with
  | Ok (_, w) => w | _ => world1 end.

Lemma world5_fork : do_fork_ (kenv1 2 (fun _ => false)) sharing_args 1 world1 = Ok (2, world5).
Proof. vm_compute. reflexivity. Qed.

Lemma world5_ok : world_ok world5 /\ exact world5.
Proof.
  assert (Hfit : fits (kenv1 2 (fun _ => false)) (w_tasks world1)) by (split_and!; [done|vm_compute; reflexivity|done]).
  assert (He : kenv_ok (kenv1 2 (fun _ => false))) by (apply kenv1_ok; lia).
  split.
  - destruct (do_fork_cases (kenv1 2 (fun _ => false)) sharing_args 1 world1 init1 world1_ok world1_forest
      He Hfit ltac:(done) eq_refl) as (r & w' & E & Hw & _). rewrite world5_fork in E.
    rewrite (proj2 (Ok_pair E)). exact Hw.
  - exact (do_fork_exact (kenv1 2 (fun _ => false)) sharing_args 1 world1 init1 2 world5
      world1_ok world1_exact He Hfit ltac:(done) eq_refl world5_fork).
Qed.

(** It asks for files and a mount namespace of its own. *)
Definition unshare_flags1 : Z := Z.lor CLONE_FILES CLONE_NEWNS.
Definition world6 : world := match sys_unshare (uenv1 0) unshare_flags1 2 world5 with
  | Ok (_, w, _) => w | _ => world5 end.

Lemma world6_unshare : sys_unshare (uenv1 0) unshare_flags1 2 world5 = Ok (0, world6, [SwitchNamespaces]).
Proof. vm_compute. reflexivity. Qed.

Lemma unshare_exact_witness :
  exists c', ctxs world6 !! 2 = Some c' /\ holders (KFs, c_fs c') (ctxs world6) = 1.
Proof.
  destruct (found 2 world5) as [t|] eqn:Ht; [|vm_compute in Ht; discriminate Ht].
  assert (He : uenv_ok (uenv1 0)) by (apply uenv1_ok; lia).
  destruct (unshare_exact (uenv1 0) unshare_flags1 2 world5 t (proj1 world5_ok) (proj2 world5_ok) He Ht)
    as (r & w' & ev & E & _ & _ & _ & Hcase).
  rewrite world6_unshare in E. apply Ok_triple in E as (Hr & Hw' & _). rewrite <- Hw' in Hcase.
  destruct Hcase as [[Hn _]|(_ & c & c' & _ & Hcx & _ & _ & _ & _ & Hfs & _)]; [lia|].
  exists c'. split; [rewrite Hcx; apply lookup_insert_eq|].
  assert (Hfl : has (unshare_implied unshare_flags1) CLONE_FS = true) by (vm_compute; reflexivity).
  rewrite Hfl in Hfs. exact Hfs.
Defined.

Lemma calls_exact_witness : holders (KFs, 2) (ctxs world6) = 1 /\ holders (KMm, 5) (ctxs world6) = 1.
Proof.
  assert (He : kenv_ok (kenv1 2 (fun _ => false))) by (apply kenv1_ok; lia).
  assert (Hu : uenv_ok (uenv1 0)) by (apply uenv1_ok; lia).
  assert (Hfit : fits (kenv1 2 (fun _ => false)) (w_tasks world1)) by (split_and!; [done|vm_compute; reflexivity|done]).
  assert (Hc : calls world1 world6).
  { destruct (found 2 world5) as [t|] eqn:Ht; [|vm_compute in Ht; discriminate Ht].
    apply (calls_fork (kenv1 2 (fun _ => false)) sharing_args 1 world1 init1 2 world5 world6 He Hfit ltac:(done) eq_refl world5_fork).
    apply (calls_unshare _ _ _ _ _ _ _ _ _ Hu Ht world6_unshare). constructor. }
  destruct (calls_exact world1 world6 world1_ok world1_forest world1_exact Hc) as (_ & _ & H).
  assert (E1 : refs (w_core world6) !! (KFs, 2) = Some 1) by (vm_compute; reflexivity).
  assert (E2 : refs (w_core world6) !! (KMm, 5) = Some 1) by (vm_compute; reflexivity).
  exact (conj (count_read _ _ _ (H (KFs, 2)) E1) (count_read _ _ _ (H (KMm, 5)) E2)).
Defined.
