(* ===== verification/KWalk.v ===== *)
(** * Walking the tree of processes

    [walk_process_tree] of [src/Assignment2/Assignment2-1/fork.c]: a traversal
    without a stack, with two jumps into the middle of its loops.  It is shown
    equal to the recursive traversal of the tree, with a bound on its steps. *)

From Stdlib Require Import ZArith Lia String.
From stdpp Require Import base numbers list option strings gmap.
From S2P Require Import Prelude Sched KFork KForkFacts.

Local Open Scope Z_scope.

(** ** The code *)

(** The element that follows [x] in a list of the kernel; [None] when the next
    one is the head.  A loop over a list that [x] is not on does not meet its
    head. *)
Fixpoint after (x : Z) (l : list Z) : run (option Z) :=
  match l with
  | [] => Undef
  | y :: l' => if decide (x = y) then Ok (head l') else after x l'
  end.

(** Where control is: at the test of the loop over the threads of [leader], or
    at the test of the loop over the children of [parent]; [None] is the head
    of the list, where the loop ends. *)
Inductive pos :=
| Threads (leader : Z) (parent : option Z)
| Children (leader parent : Z) (child : option Z).

Section walk.
Context (ts : tasks) (threads : Z -> list Z).   (** [threads l] is the list [thread_head] of the leader [l] *)
Context {D : Type} (visitor : Z -> D -> Z * D). (** the call back, with the data it changes *)

Inductive outcome := Go (p : pos) (d : D) | Out (d : D).

Definition task_at (q : Z) : run task_struct := match by_pid ts !! q with Some t => Ok t | None => Undef end.

(** From one test of a loop to the next, or to [out]. *)
Definition step (top : Z) (p : pos) (d : D) : run outcome :=
  match p with
  | Threads leader (Some parent) =>
      t ← task_at parent;
      Ok (Go (Children leader parent (head (children t))) d)
  | Children leader parent (Some child) =>
      let '(res, d) := visitor child d in
      if decide (res <> 0) then
        if decide (res < 0) then Ok (Out d)
        else Ok (Go (Threads child (head (threads child))) d)
      else
        t ← task_at parent;
        next ← after child (children t);
        Ok (Go (Children leader parent next) d)
  | Children leader parent None =>
      next ← after parent (threads leader);
      Ok (Go (Threads leader next) d)
  | Threads leader None =>
      if decide (leader <> top) then
        let child := leader in
        c ← task_at child;
        let parent := real_parent c in
        t ← task_at parent;
        next ← after child (children t);
        Ok (Go (Children (group_leader t) parent next) d)
      else Ok (Out d)
  end.

Fixpoint walk (fuel : nat) (top : Z) (p : pos) (d : D) : run D :=
  match fuel with
  | O => NoFuel
  | S fuel' => match step top p d with
               | Ok (Go p' d') => walk fuel' top p' d'
               | Ok (Out d') => Ok d'
               | Undef => Undef
               | NoFuel => NoFuel
               end
  end.

Definition walk_process_tree (fuel : nat) (top : Z) (d : D) : run D :=
  t ← task_at top;
  let leader := group_leader t in
  walk fuel leader (Threads leader (head (threads leader))) d.

(** ** The tree *)

(** A thread group, its threads, and the groups that are children of each. *)
Inductive group := Group (leader : Z) (ms : members)
with members := MNil | MCons (thread : Z) (cs : forest) (ms : members)
with forest := FNil | FCons (g : group) (cs : forest).

Definition leader_of (g : group) : Z := match g with Group l _ => l end.
Fixpoint names (ms : members) : list Z := match ms with MNil => [] | MCons t _ ms => t :: names ms end.
Fixpoint roots (cs : forest) : list Z := match cs with FNil => [] | FCons g cs => leader_of g :: roots cs end.

(** The recursive traversal: all children of all threads in order, and below a
    child when the visitor answers a positive number; a negative number stops
    everything, which is the boolean. *)
Fixpoint visit_group (g : group) (d : D) : bool * D :=
  match g with Group _ ms => visit_members ms d end
with visit_members (ms : members) (d : D) : bool * D :=
  match ms with
  | MNil => (false, d)
  | MCons _ cs ms => let '(b, d) := visit_forest cs d in if b then (true, d) else visit_members ms d
  end
with visit_forest (cs : forest) (d : D) : bool * D :=
  match cs with
  | FNil => (false, d)
  | FCons g cs =>
      let '(res, d) := visitor (leader_of g) d in
      if decide (res = 0) then visit_forest cs d
      else if decide (res < 0) then (true, d)
      else let '(b, d) := visit_group g d in if b then (true, d) else visit_forest cs d
  end.

(** Two steps for each thread and for each child. *)
Fixpoint size_group (g : group) : nat := match g with Group _ ms => size_members ms end
with size_members (ms : members) : nat :=
  match ms with MNil => 0%nat | MCons _ cs ms => (2 + size_forest cs + size_members ms)%nat end
with size_forest (cs : forest) : nat :=
  match cs with FNil => 0%nat | FCons g cs => (2 + size_group g + size_forest cs)%nat end.

(** The table of tasks holds the tree below [top]: the lists of the kernel are
    those of the tree without repetitions, the pointers up agree with the lists,
    and [top] is no descendant of itself. *)
Fixpoint holds_group (top : Z) (g : group) : Prop :=
  match g with Group l ms => threads l = names ms /\ NoDup (names ms) /\ holds_members top l ms end
with holds_members (top l : Z) (ms : members) : Prop :=
  match ms with
  | MNil => True
  | MCons t cs ms =>
      (exists x, by_pid ts !! t = Some x /\ group_leader x = l /\ children x = roots cs) /\ NoDup (roots cs) /\
      holds_forest top t cs /\ holds_members top l ms
  end
with holds_forest (top t : Z) (cs : forest) : Prop :=
  match cs with
  | FNil => True
  | FCons g cs =>
      (exists x, by_pid ts !! leader_of g = Some x /\ real_parent x = t) /\ leader_of g <> top /\
      holds_group top g /\ holds_forest top t cs
  end.

(** ** Runs *)
Context (top : Z).

(** After at most [n] steps control is at [p'], or the walk is over. *)
Definition goes (n : nat) (p : pos) (d : D) (r : bool * D) (p' : pos) : Prop :=
  exists k, (k <= n)%nat /\ forall m, walk (k + m) top p d = if r.1 then Ok r.2 else walk m top p' r.2.

Lemma goes_refl p d : goes 0 p d (false, d) p.
Proof. by exists 0%nat. Qed.

Lemma goes_step n p d p1 d1 r p' :
  step top p d = Ok (Go p1 d1) -> goes n p1 d1 r p' -> goes (S n) p d r p'.
Proof. intros E (k & Hk & H). exists (S k). split; [lia|]. intros m. cbn. by rewrite E, H. Qed.

Lemma goes_out p d d1 p' : step top p d = Ok (Out d1) -> goes 1 p d (true, d1) p'.
Proof. intros E. exists 1%nat. split; [done|]. intros m. cbn. by rewrite E. Qed.

Lemma goes_trans n1 n2 p d b d1 p1 r p2 :
  goes n1 p d (b, d1) p1 -> (b = false -> goes n2 p1 d1 r p2) ->
  goes (n1 + n2) p d (if b then (true, d1) else r) p2.
Proof.
  intros (k1 & Hk1 & H1) H2. destruct b.
  - exists k1. split; [lia|]. intros m. by rewrite H1.
  - destruct (H2 eq_refl) as (k2 & Hk2 & H3). exists (k1 + k2)%nat. split; [lia|]. intros m.
    rewrite <- Nat.add_assoc, H1. cbn. apply H3.
Qed.

Lemma goes_le n n' p d r p' : goes n p d r p' -> (n <= n')%nat -> goes n' p d r p'.
Proof. intros (k & Hk & H) Hn. exists k. split; [lia|done]. Qed.

Lemma after_mid x pre post : x ∉ pre -> after x (pre ++ x :: post) = Ok (head post).
Proof.
  induction pre as [|y pre IH]; cbn; [by rewrite decide_True|].
  rewrite not_elem_of_cons. intros [H1 H2]. rewrite decide_False by done. by apply IH.
Qed.

Lemma NoDup_mid (x : Z) pre post : NoDup (pre ++ x :: post) -> x ∉ pre.
Proof. intros (_ & H & _)%NoDup_app Hx. eapply H; [done|]. apply list_elem_of_here. Qed.

Lemma task_at_Some q t : by_pid ts !! q = Some t -> task_at q = Ok t.
Proof. unfold task_at. by intros ->. Qed.

Scheme group_mut := Induction for group Sort Prop
with members_mut := Induction for members Sort Prop
with forest_mut := Induction for forest Sort Prop.

(** The loops follow the recursive traversal. *)
Lemma walk_group : forall g, holds_group top g -> forall d,
  goes (size_group g) (Threads (leader_of g) (head (threads (leader_of g)))) d (visit_group g d)
    (Threads (leader_of g) None).
Proof.
  apply (group_mut
    (fun g => holds_group top g -> forall d,
       goes (size_group g) (Threads (leader_of g) (head (threads (leader_of g)))) d (visit_group g d)
         (Threads (leader_of g) None))
    (fun ms => forall l pre, threads l = pre ++ names ms -> NoDup (threads l) -> holds_members top l ms -> forall d,
       goes (size_members ms) (Threads l (head (names ms))) d (visit_members ms d) (Threads l None))
    (fun cs => forall l t x pre, by_pid ts !! t = Some x -> group_leader x = l -> children x = pre ++ roots cs ->
       NoDup (children x) -> holds_forest top t cs -> forall d,
       goes (size_forest cs) (Children l t (head (roots cs))) d (visit_forest cs d) (Children l t None))).
  - intros l ms IH (E & Hnd & Hms) d. cbn [leader_of size_group visit_group]. rewrite E.
    apply (IH l []); [done|by rewrite E|done].
  - intros l pre _ _ _ d. apply goes_refl.
  - intros t cs IHcs ms IHms l pre E Hnd ((x & Hx & Hl & Hc) & Hndc & Hcs & Hms) d.
    cbn [names head size_members visit_members]. destruct (visit_forest cs d) as [b d1] eqn:Ev.
    apply (goes_le (S (size_forest cs + S (size_members ms)))); [|lia].
    eapply goes_step; [cbn; rewrite (task_at_Some _ _ Hx); reflexivity|]. rewrite Hc.
    eapply goes_trans.
    + rewrite <- Ev. eapply (IHcs l t x []); rewrite ?Hc; try done.
    + intros ->. cbn [names] in E. eapply goes_step.
      * cbn. rewrite E, after_mid; [done|]. rewrite E in Hnd. by eapply NoDup_mid.
      * eapply (IHms l (pre ++ [t])); [by rewrite <- app_assoc|done|done].
  - intros l t x pre _ _ _ _ _ d. apply goes_refl.
  - intros g IHg cs IHcs l t x pre Hx Hl Hc Hnd ((y & Hy & Hp) & Htop & Hg & Hcs) d.
    cbn [roots head size_forest visit_forest]. cbn [roots] in Hc.
    assert (Ha : after (leader_of g) (children x) = Ok (head (roots cs))).
    { rewrite Hc. apply after_mid. rewrite Hc in Hnd. by eapply NoDup_mid. }
    assert (Hrest : forall d1, goes (size_forest cs) (Children l t (head (roots cs))) d1 (visit_forest cs d1) (Children l t None)).
    { eapply (IHcs l t x (pre ++ [leader_of g])); try done. by rewrite <- app_assoc. }
    destruct (visitor (leader_of g) d) as [res d1] eqn:Ev. destruct (decide (res = 0)) as [->|H0].
    { apply (goes_le (S (size_forest cs))); [|lia]. eapply goes_step; [|apply Hrest].
      cbn. rewrite Ev, decide_False by lia. rewrite (task_at_Some _ _ Hx). cbn [mbind run_bind].
      by rewrite Ha. }
    destruct (decide (res < 0)) as [H1|H1].
    { apply (goes_le 1); [|lia]. apply goes_out. cbn. by rewrite Ev, !decide_True by lia. }
    destruct (visit_group g d1) as [b d2] eqn:Eg.
    apply (goes_le (S (size_group g + S (size_forest cs)))); [|lia].
    eapply goes_step; [cbn; rewrite Ev, decide_True, decide_False by lia; reflexivity|].
    eapply goes_trans; [rewrite <- Eg; by apply IHg|]. intros ->. eapply goes_step; [|apply Hrest].
    cbn. rewrite decide_True by done. rewrite (task_at_Some _ _ Hy). cbn [mbind run_bind].
    rewrite Hp, (task_at_Some _ _ Hx). cbn [mbind run_bind]. by rewrite Ha, Hl.
Qed.
End walk.

(** C30. The walk over the processes below a task: whatever the visitor does and
    answers, when the task table holds a tree below the task's group, the loops
    of [walk_process_tree] with their jumps end, after at most two steps for
    each thread and each child and one more, and have done exactly what the
    recursive traversal does: the children of all threads of the group are
    visited in order, the groups below a child directly after it when the
    visitor answers a positive number, not when it answers 0, and nothing after
    a negative answer. *)
Theorem walk_is_recursive {D : Type} (ts : tasks) (threads : Z -> list Z) (visitor : Z -> D -> Z * D)
    (q : Z) (t : task_struct) (g : group) (d : D) (fuel : nat)
    (Ht : by_pid ts !! q = Some t) (Hl : leader_of g = group_leader t)
    (Hg : holds_group ts threads (leader_of g) g) (Hf : (size_group g < fuel)%nat) :
  walk_process_tree ts threads visitor fuel q d = Ok (visit_group visitor g d).2.
Proof.
  destruct (walk_group ts threads visitor _ g Hg d) as (k & Hk & H). unfold walk_process_tree.
  rewrite (task_at_Some _ _ _ Ht). cbn [mbind run_bind]. rewrite <- Hl.
  replace fuel with (k + S (fuel - S k))%nat by lia. rewrite H.
  destruct (visit_group visitor g d) as [[] d']; [done|]. cbn. by rewrite decide_False by auto.
Qed.

(** With a visitor that descends everywhere, every process below the group is
    visited once, a parent before its children. *)
Fixpoint below_group (g : group) : list Z := match g with Group _ ms => below_members ms end
with below_members (ms : members) : list Z :=
  match ms with MNil => [] | MCons _ cs ms => below_forest cs ++ below_members ms end
with below_forest (cs : forest) : list Z :=
  match cs with FNil => [] | FCons g cs => leader_of g :: below_group g ++ below_forest cs end.

Definition record (child : Z) (l : list Z) : Z * list Z := (1, l ++ [child]).

Lemma visit_record : forall g l, visit_group record g l = (false, l ++ below_group g).
Proof.
  apply (group_mut (fun g => forall l, visit_group record g l = (false, l ++ below_group g))
    (fun ms => forall l, visit_members record ms l = (false, l ++ below_members ms))
    (fun cs => forall l, visit_forest record cs l = (false, l ++ below_forest cs))).
  - intros l ms IH. apply IH.
  - intros l. by rewrite app_nil_r.
  - intros t cs IHcs ms IHms l. cbn. rewrite IHcs, IHms. by rewrite app_assoc.
  - intros l. by rewrite app_nil_r.
  - intros g IHg cs IHcs l. cbn [visit_forest record below_forest]. rewrite !decide_False by lia. rewrite IHg, IHcs. by rewrite <- !app_assoc.
Qed.

(** ** A concrete tree

    Init with a child and a thread, which has a child of its own. *)
Definition world7 : world := match do_fork_ (kenv1 4 (fun _ => false)) (Args 0 0 0 SIGCHLD 0 0) 3 world4 with
  | Ok (_, w) => w | _ => world4 end.
Definition threads7 (l : Z) : list Z := if decide (l = 1) then [1; 3] else [l].
Definition tree7 : group :=
  Group 1 (MCons 1 (FCons (Group 2 (MCons 2 FNil MNil)) FNil)
          (MCons 3 (FCons (Group 4 (MCons 4 FNil MNil)) FNil) MNil)).

Lemma task7 q (P : task_struct -> Prop) `{forall t, Decision (P t)} :
  match by_pid (w_tasks world7) !! q with Some t => bool_decide (P t) | None => false end = true ->
  exists x, by_pid (w_tasks world7) !! q = Some x /\ P x.
Proof. destruct (_ !! q) as [t|]; [|done]. rewrite bool_decide_eq_true. eauto. Qed.

Lemma tree7_holds : holds_group (w_tasks world7) threads7 1 tree7.
Proof.
  cbn [tree7 holds_group holds_members holds_forest names roots leader_of].
  split_and!; first [exact I | lia | apply (bool_decide_eq_true_1 (NoDup _)); vm_compute; reflexivity
    | apply (task7 _ _); vm_compute; reflexivity | vm_compute; reflexivity].
Qed.

Lemma walk_is_recursive_witness :
  walk_process_tree (w_tasks world7) threads7 record 13 3 [] = Ok [2; 4].
Proof.
  destruct (by_pid (w_tasks world7) !! 3) as [t|] eqn:Ht; [|vm_compute in Ht; discriminate Ht].
  assert (Hl : group_leader t = 1).
  { assert (E : group_leader <$> by_pid (w_tasks world7) !! 3 = Some 1) by (vm_compute; reflexivity).
    rewrite Ht in E. by injection E. }
  rewrite (walk_is_recursive (w_tasks world7) threads7 record 3 t tree7 [] 13); [|done|done| |cbn; lia].
  - by rewrite visit_record.
  - exact tree7_holds.
Defined.
