(* ===== verification/KMmap.v ===== *)
(** * Copying a memory map

    [dup_mmap] of [src/Assignment2/Assignment2-1/fork.c]: the areas of the
    parent are copied to the child one by one, and each can fail at several
    places. *)

From Stdlib Require Import ZArith Lia String.
From stdpp Require Import base numbers list option strings gmap.
From S2P Require Import Prelude CText Hook Sched Tracer ProcInfo KFork.

Local Open Scope Z_scope.

(** ** Data *)
Definition VM_SHARED : Z := 0x8.
Definition VM_DENYWRITE : Z := 0x800.
Definition VM_LOCKED : Z := 0x2000.
Definition VM_DONTCOPY : Z := 0x20000.
Definition VM_LOCKONFAULT : Z := 0x80000.
Definition VM_ACCOUNT : Z := 0x100000.
Definition VM_WIPEONFORK : Z := 0x2000000.
Definition PAGE_SHIFT : Z := 12.

Record vma := Vma {
  vm_start : Z;
  vm_end : Z;
  vm_flags : Z;
  vm_file : option Z;
  vm_mm : Z }.

Definition vma_pages (v : vma) : Z := Z.shiftr (vm_end v - vm_start v) PAGE_SHIFT.

(** The statistics of an address space: [total_vm], [data_vm], [exec_vm] and
    [stack_vm]. *)
Record stat := Stat { total_vm : Z; data_vm : Z; exec_vm : Z; stack_vm : Z }.

Record mm_struct := Mm {
  mmap : list vma;
  map_count : Z;
  exe_file : option Z;
  vm_stat : stat }.

(** What the copy changes outside the new address space. *)
Record resources := Res {
  f_count : gmap Z Z;             (** references to files *)
  i_writecount : gmap Z Z;        (** of inodes *)
  i_mmap_writable : gmap Z Z;     (** of mappings *)
  i_mmap : list (Z * vma);        (** areas inserted into the tree of a mapping *)
  areas : Z;                      (** allocated [vm_area_struct]s *)
  policies : Z;                   (** references to memory policies *)
  committed : Z;                  (** accounted pages *)
  pages_copied : list Z;          (** areas whose page tables were copied *)
  opened : list Z;                (** areas whose [open] was called *)
  old_sem : bool;                 (** [mmap_sem] of the parent *)
  new_sem : bool;                 (** and of the child *)
  uprobe_dups : Z }.              (** between [uprobe_start_dup_mmap] and [..end..] *)

(** ** What the functions outside the file answer *)
Record menv := MEnv {
  interrupted : bool;             (** [down_write_killable] *)
  exe_alive : bool;               (** [get_file_rcu] *)
  ksm_fork : Z;
  khugepaged_fork : Z;
  fatal : vma -> bool;            (** [fatal_signal_pending] at the area *)
  enough_memory : vma -> bool;    (** [security_vm_enough_memory_mm] *)
  area_ok : vma -> bool;          (** [kmem_cache_alloc] *)
  dup_policy : vma -> Z;
  dup_userfaultfd : vma -> Z;
  uffd_flags : vma -> Z;          (** the flags it leaves in the copy *)
  anon_ok : vma -> bool;          (** [anon_vma_prepare] and [anon_vma_fork] *)
  copy_page_range : vma -> Z;
  has_open : vma -> bool;
  arch_dup_mmap : Z;
  file_inode : Z -> Z;
  f_mapping : Z -> Z;
  vm_stat_account : stat -> Z -> Z -> stat }.

Section mmap.
Context (e : menv) (mm : Z).      (** [mm] is the address of the new structure *)

(** ** Counters *)
Definition at0 (m : gmap Z Z) (i : Z) : Z := default 0 (m !! i).
Definition bump (m : gmap Z Z) (i n : Z) : gmap Z Z := <[i := at0 m i + n]> m.

Definition with_areas (n : Z) (s : resources) : resources :=
  Res (f_count s) (i_writecount s) (i_mmap_writable s) (i_mmap s) n (policies s) (committed s)
    (pages_copied s) (opened s) (old_sem s) (new_sem s) (uprobe_dups s).
Definition with_policies (n : Z) (s : resources) : resources :=
  Res (f_count s) (i_writecount s) (i_mmap_writable s) (i_mmap s) (areas s) n (committed s)
    (pages_copied s) (opened s) (old_sem s) (new_sem s) (uprobe_dups s).
Definition with_committed (n : Z) (s : resources) : resources :=
  Res (f_count s) (i_writecount s) (i_mmap_writable s) (i_mmap s) (areas s) (policies s) n
    (pages_copied s) (opened s) (old_sem s) (new_sem s) (uprobe_dups s).
Definition with_sems (o n : bool) (s : resources) : resources :=
  Res (f_count s) (i_writecount s) (i_mmap_writable s) (i_mmap s) (areas s) (policies s) (committed s)
    (pages_copied s) (opened s) o n (uprobe_dups s).
Definition with_uprobe (n : Z) (s : resources) : resources :=
  Res (f_count s) (i_writecount s) (i_mmap_writable s) (i_mmap s) (areas s) (policies s) (committed s)
    (pages_copied s) (opened s) (old_sem s) (new_sem s) n.
Definition with_f_count (m : gmap Z Z) (s : resources) : resources :=
  Res m (i_writecount s) (i_mmap_writable s) (i_mmap s) (areas s) (policies s) (committed s)
    (pages_copied s) (opened s) (old_sem s) (new_sem s) (uprobe_dups s).

(** Locking twice, or unlocking what is not locked, is undefined. *)
Definition down_old (s : resources) : run resources :=
  if old_sem s then Undef else Ok (with_sems true (new_sem s) s).
Definition down_new (s : resources) : run resources :=
  if new_sem s then Undef else Ok (with_sems (old_sem s) true s).
Definition up_both (s : resources) : run resources :=
  if new_sem s && old_sem s then Ok (with_sems false false s) else Undef.

(** A reference to a file that has none is undefined. *)
Definition get_file (f : Z) (s : resources) : run resources :=
  match f_count s !! f with
  | Some n => Ok (with_f_count (<[f := n + 1]> (f_count s)) s)
  | None => Undef
  end.

(** [get_mm_exe_file] *)
Definition get_mm_exe_file (old : mm_struct) (s : resources) : run (option Z * resources) :=
  match exe_file old with
  | Some f => if exe_alive e then s ← get_file f s; Ok (Some f, s) else Ok (None, s)
  | None => Ok (None, s)
  end.

(** ** One area *)

(** The labels below [out]. *)
Inductive flabel := fail_nomem_anon_vma_fork | fail_nomem_policy | fail_nomem.

Definition fail (l : flabel) (charge : Z) (s : resources) : resources :=
  let s := match l with fail_nomem_anon_vma_fork => with_policies (policies s - 1) s | _ => s end in
  let s := match l with fail_nomem => s | _ => with_areas (areas s - 1) s end in
  with_committed (committed s - charge) s.

(** The file of the copy gets another reference and the copy is entered in the
    tree of its mapping. *)
Definition link_file (tmp : vma) (s : resources) : run resources :=
  match vm_file tmp with
  | None => Ok s
  | Some file =>
      s ← get_file file s;
      let wc := if has (vm_flags tmp) VM_DENYWRITE then bump (i_writecount s) (file_inode e file) (-1) else i_writecount s in
      let mw := if has (vm_flags tmp) VM_SHARED then bump (i_mmap_writable s) (f_mapping e file) 1 else i_mmap_writable s in
      Ok (Res (f_count s) wc mw (i_mmap s ++ [(f_mapping e file, tmp)]) (areas s) (policies s) (committed s)
            (pages_copied s) (opened s) (old_sem s) (new_sem s) (uprobe_dups s))
  end.

(** Linking the copy into the list, and its page tables. *)
Definition link_area (mpnt tmp : vma) (new : mm_struct) (s : resources) : Z * mm_struct * resources :=
  let wipe := has (vm_flags tmp) VM_WIPEONFORK in
  (if wipe then 0 else copy_page_range e mpnt,
   Mm (mmap new ++ [tmp]) (map_count new + 1) (exe_file new) (vm_stat new),
   Res (f_count s) (i_writecount s) (i_mmap_writable s) (i_mmap s) (areas s) (policies s) (committed s)
     (if wipe then pages_copied s else pages_copied s ++ [vm_start mpnt])
     (if has_open e tmp then opened s ++ [vm_start tmp] else opened s) (old_sem s) (new_sem s) (uprobe_dups s)).

(** The body of the loop; a result other than 0 is a jump to [out]. *)
Definition dup_area (mpnt : vma) (new : mm_struct) (s : resources) : run (Z * mm_struct * resources) :=
  if has (vm_flags mpnt) VM_DONTCOPY then
    Ok (0, Mm (mmap new) (map_count new) (exe_file new)
             (vm_stat_account e (vm_stat new) (vm_flags mpnt) (- vma_pages mpnt)), s)
  else if fatal e mpnt then Ok (- EINTR, new, s)
  else
    let account := has (vm_flags mpnt) VM_ACCOUNT in
    if account && negb (enough_memory e mpnt) then Ok (- ENOMEM, new, fail fail_nomem 0 s) else
    let charge := if account then vma_pages mpnt else 0 in
    let s := with_committed (committed s + charge) s in
    if negb (area_ok e mpnt) then Ok (- ENOMEM, new, fail fail_nomem charge s) else
    let s := with_areas (areas s + 1) s in
    if decide (dup_policy e mpnt <> 0) then Ok (- ENOMEM, new, fail fail_nomem_policy charge s) else
    let s := with_policies (policies s + 1) s in
    if decide (dup_userfaultfd e mpnt <> 0) then Ok (- ENOMEM, new, fail fail_nomem_anon_vma_fork charge s) else
    if negb (anon_ok e mpnt) then Ok (- ENOMEM, new, fail fail_nomem_anon_vma_fork charge s) else
    let tmp := Vma (vm_start mpnt) (vm_end mpnt) (Z.ldiff (uffd_flags e mpnt) (Z.lor VM_LOCKED VM_LOCKONFAULT))
                 (vm_file mpnt) mm in
    s ← link_file tmp s;
    Ok (link_area mpnt tmp new s).

Fixpoint dup_areas (l : list vma) (new : mm_struct) (s : resources) : run (Z * mm_struct * resources) :=
  match l with
  | [] => Ok (arch_dup_mmap e, new, s)
  | mpnt :: l' =>
      '(retval, new, s) ← dup_area mpnt new s;
      if decide (retval <> 0) then Ok (retval, new, s) else dup_areas l' new s
  end.

(** ** The whole copy *)
Definition dup_mmap (old new : mm_struct) (s : resources) : run (Z * mm_struct * resources) :=
  let s := with_uprobe (uprobe_dups s + 1) s in
  if interrupted e then Ok (- EINTR, new, with_uprobe (uprobe_dups s - 1) s) else
  s ← down_old s;
  s ← down_new s;
  '(exe, s) ← get_mm_exe_file old s;
  let new := Mm (mmap new) (map_count new) exe (vm_stat old) in
  '(retval, new, s) ←
    (if decide (ksm_fork e <> 0) then Ok (ksm_fork e, new, s)
     else if decide (khugepaged_fork e <> 0) then Ok (khugepaged_fork e, new, s)
     else dup_areas (mmap old) new s);
  s ← up_both s;
  Ok (retval, new, with_uprobe (uprobe_dups s - 1) s).
End mmap.
