(* ===== verification/KMmapFacts.v ===== *)
(** * Theorems on copying a memory map

    Whatever fails and wherever, the new map holds the copies of a first part
    of the areas to copy, and exactly these are accounted for: references to
    files, entries in mappings, memory, policies.  So the code that takes a map
    apart finds what it expects. *)

From Stdlib Require Import ZArith Lia String.
From stdpp Require Import base numbers list option strings gmap.
From S2P Require Import Prelude CText Hook Sched Tracer ProcInfo KFork KMmap.

Local Open Scope Z_scope.

Definition one (b : bool) : Z := if b then 1 else 0.
Definition tally {A} (g : A -> Z) (l : list A) : Z := foldr (fun v n => g v + n) 0 l.

Lemma tally_app {A} (g : A -> Z) l1 l2 : tally g (l1 ++ l2) = tally g l1 + tally g l2.
Proof. induction l1 as [|v l1 IH]; cbn [tally foldr app] in *; unfold tally in *; lia. Qed.

Section facts.
Context (e : menv) (mm : Z).

(** The areas to copy, and the copy of one. *)
Definition copyable (v : vma) : bool := negb (has (vm_flags v) VM_DONTCOPY).
Definition copied_areas (l : list vma) : list vma := filter (fun v => copyable v = true) l.
Definition child (v : vma) : vma :=
  Vma (vm_start v) (vm_end v) (Z.ldiff (uffd_flags e v) (Z.lor VM_LOCKED VM_LOCKONFAULT)) (vm_file v) mm.
Definition in_file (g : Z -> Z) (m i : Z) (v : vma) : bool :=
  match vm_file v with Some f => bool_decide (g f = i) && has (vm_flags (child v)) m | None => false end.
Definition wiped (v : vma) : bool := has (vm_flags (child v)) VM_WIPEONFORK.

(** The difference between two states of the kernel is exactly what the areas
    [ps] and the reference [x] to the executable account for. *)
Record grown (x : option Z) (ps : list vma) (s s' : resources) : Prop := {
  gr_files f : at0 (f_count s') f =
    at0 (f_count s) f + one (bool_decide (x = Some f)) + tally (fun v => one (bool_decide (vm_file v = Some f))) ps;
  gr_dom f : is_Some (f_count s !! f) -> is_Some (f_count s' !! f);
  gr_deny i : at0 (i_writecount s') i = at0 (i_writecount s) i - tally (fun v => one (in_file (file_inode e) VM_DENYWRITE i v)) ps;
  gr_shared i : at0 (i_mmap_writable s') i =
    at0 (i_mmap_writable s) i + tally (fun v => one (in_file (f_mapping e) VM_SHARED i v)) ps;
  gr_mapped : i_mmap s' = i_mmap s ++ omap (fun v => (fun f => (f_mapping e f, child v)) <$> vm_file v) ps;
  gr_areas : areas s' = areas s + Z.of_nat (length ps);
  gr_policies : policies s' = policies s + Z.of_nat (length ps);
  gr_committed : committed s' =
    committed s + tally (fun v => if has (vm_flags v) VM_ACCOUNT then vma_pages v else 0) ps;
  gr_pages : pages_copied s' = pages_copied s ++ map vm_start (filter (fun v => wiped v = false) ps);
  gr_opened : opened s' = opened s ++ map vm_start (filter (fun v => has_open e (child v) = true) ps);
  gr_locks : old_sem s' = old_sem s /\ new_sem s' = new_sem s /\ uprobe_dups s' = uprobe_dups s }.

Lemma grown_refl s : grown None [] s s.
Proof. split; intros; rewrite ?bool_decide_eq_false_2 by done; cbn; rewrite ?app_nil_r; try done; lia. Qed.

Lemma grown_app x l1 l2 s1 s2 s3 :
  grown x l1 s1 s2 -> grown None l2 s2 s3 -> grown x (l1 ++ l2) s1 s3.
Proof.
  intros [A1 A2 A3 A4 A5 A6 A7 A8 A9 A10 (A11 & A12 & A13)] [B1 B2 B3 B4 B5 B6 B7 B8 B9 B10 (B11 & B12 & B13)].
  split.
  - intros f. rewrite B1, A1, tally_app, (bool_decide_eq_false_2 (None = Some f)) by done. cbn [one]. lia.
  - intros f Hf. by apply B2, A2.
  - intros i. rewrite B3, A3, tally_app. lia.
  - intros i. rewrite B4, A4, tally_app. lia.
  - rewrite B5, A5, <- app_assoc. f_equal. by rewrite omap_app.
  - rewrite B6, A6, length_app. lia.
  - rewrite B7, A7, length_app. lia.
  - rewrite B8, A8, tally_app. lia.
  - by rewrite B9, A9, filter_app, map_app, <- app_assoc.
  - by rewrite B10, A10, filter_app, map_app, <- app_assoc.
  - split_and!; congruence.
Qed.

Lemma at0_insert m i n j : at0 (<[i := n]> m) j = if decide (i = j) then n else at0 m j.
Proof. unfold at0. case_decide; [subst; by rewrite lookup_insert_eq|by rewrite lookup_insert_ne]. Qed.

Lemma at0_get m f n j : m !! f = Some n -> at0 (<[f := n + 1]> m) j = at0 m j + one (bool_decide (Some f = Some j)).
Proof.
  intros E. rewrite at0_insert. case_decide as Hd; [subst|]; [rewrite bool_decide_eq_true_2 by done|
    rewrite bool_decide_eq_false_2 by congruence]; unfold at0; rewrite ?E; cbn; lia.
Qed.

Lemma at0_bump (b : bool) m i n j :
  at0 (if b then bump m i n else m) j = at0 m j + n * one (bool_decide (i = j) && b).
Proof.
  unfold bump. destruct b; [|rewrite andb_false_r; cbn; lia]. rewrite at0_insert, andb_true_r.
  case_decide as Hd; [subst; rewrite bool_decide_eq_true_2 by done|rewrite bool_decide_eq_false_2 by done]; cbn; lia.
Qed.

(** ** One area *)
Definition with_area (v : vma) (s : resources) : resources :=
  with_policies (policies s + 1) (with_areas (areas s + 1)
    (with_committed (committed s + (if has (vm_flags v) VM_ACCOUNT then vma_pages v else 0)) s)).

Lemma link_grown v s new :
  (forall f, vm_file v = Some f -> is_Some (f_count s !! f)) ->
  exists s1, link_file e (child v) (with_area v s) = Ok s1 /\
    grown None [v] s (link_area e v (child v) new s1).2.
Proof.
  intros Hf. unfold link_file. cbn [child vm_file].
  destruct (vm_file v) as [f|] eqn:Ef; [destruct (Hf f eq_refl) as [n Hn]|].
  - unfold get_file. cbn [with_area with_policies with_areas with_committed f_count]. rewrite Hn. cbn [mbind run_bind].
    eexists. split; [done|]. split; cbn -[at0 bump has one]; unfold in_file; rewrite ?Ef; try (intros; lia).
    + intros j. rewrite (at0_get _ _ _ _ Hn). rewrite (bool_decide_eq_false_2 (None = Some j)) by done. cbn [one]. lia.
    + intros j Hj. destruct (decide (f = j)) as [<-|Hne]; [rewrite lookup_insert_eq; eauto|by rewrite lookup_insert_ne].
    + intros j. rewrite at0_bump. cbn [child vm_flags]. lia.
    + intros j. rewrite at0_bump. cbn [child vm_flags]. lia.
    + done.
    + unfold wiped. cbn [child vm_flags]. destruct (has _ VM_WIPEONFORK) eqn:Ew; rewrite ?decide_True, ?decide_False by done; cbn;
        by rewrite ?app_nil_r.
    + destruct (has_open e _) eqn:Eo; rewrite ?decide_True, ?decide_False by done; cbn; by rewrite ?app_nil_r.
    + done.
  - eexists. split; [done|]. split; cbn -[at0 bump has one]; unfold in_file; rewrite ?Ef; try (intros; lia).
    + intros j. rewrite !bool_decide_eq_false_2 by done. cbn [one]. lia.
    + done.
    + intros j. cbn. lia.
    + intros j. cbn. lia.
    + by rewrite app_nil_r.
    + unfold wiped. cbn [child vm_flags]. destruct (has _ VM_WIPEONFORK) eqn:Ew; rewrite ?decide_True, ?decide_False by done; cbn;
        by rewrite ?app_nil_r.
    + destruct (has_open e _) eqn:Eo; rewrite ?decide_True, ?decide_False by done; cbn; by rewrite ?app_nil_r.
    + done.
Qed.

(** Errors are negative. *)
Record menv_ok : Prop := {
  me_ksm : ksm_fork e <= 0;
  me_khugepaged : khugepaged_fork e <= 0;
  me_pages v : copy_page_range e v <= 0;
  me_arch : arch_dup_mmap e <= 0 }.

Definition files_live (l : list vma) (s : resources) : Prop :=
  Forall (fun v => forall f, vm_file v = Some f -> is_Some (f_count s !! f)) l.

Lemma fail_undoes l c s : fail l c (match l with
  | fail_nomem => with_committed (committed s + c) s
  | fail_nomem_policy => with_areas (areas s + 1) (with_committed (committed s + c) s)
  | fail_nomem_anon_vma_fork => with_policies (policies s + 1) (with_areas (areas s + 1) (with_committed (committed s + c) s))
  end) = s.
Proof.
  destruct s as [a1 a2 a3 a4 a5 a6 a7 a8 a9 a10 a11 a12].
  destruct l; unfold fail; cbn [areas policies committed with_committed with_areas with_policies]; by rewrite !Z.add_simpl_r.
Qed.

Definition skipped (v : vma) (new : mm_struct) : mm_struct :=
  Mm (mmap new) (map_count new) (exe_file new) (vm_stat_account e (vm_stat new) (vm_flags v) (- vma_pages v)).
Definition linked (v : vma) (new : mm_struct) : mm_struct :=
  Mm (mmap new ++ [child v]) (map_count new + 1) (exe_file new) (vm_stat new).

(** An area is skipped, fails without a trace, or is copied and linked; in the
    last case its page tables can still fail. *)
Lemma dup_area_cases v new s :
  menv_ok -> (forall f, vm_file v = Some f -> is_Some (f_count s !! f)) ->
  exists r new' s', dup_area e mm v new s = Ok (r, new', s') /\ r <= 0 /\
    ((copyable v = false /\ r = 0 /\ new' = skipped v new /\ s' = s) \/
     (copyable v = true /\ r < 0 /\ new' = new /\ s' = s) \/
     (copyable v = true /\ new' = linked v new /\ grown None [v] s s')).
Proof.
  intros He Hf. unfold dup_area, copyable. destruct (has (vm_flags v) VM_DONTCOPY); cbn [negb].
  { eexists _, _, _. split_and!; [done|done|]. by left. }
  destruct (fatal e v); [eexists _, _, _; split_and!; [done|done|]; right; by left|].
  assert (Hbad : forall l c s0, fail l c s0 = s -> exists r new' s', Ok (- ENOMEM, new, fail l c s0) = Ok (r, new', s') /\ r <= 0 /\
    ((true = false /\ r = 0 /\ new' = skipped v new /\ s' = s) \/ (true = true /\ r < 0 /\ new' = new /\ s' = s) \/
     (true = true /\ new' = linked v new /\ grown None [v] s s'))).
  { intros l c s0 ->. eexists _, _, _. split_and!; [done|done|]. right. by left. }
  destruct (has (vm_flags v) VM_ACCOUNT && negb (enough_memory e v)).
  { apply Hbad. destruct s as [a1 a2 a3 a4 a5 a6 a7 a8 a9 a10 a11 a12]. unfold fail. cbn [committed with_committed]. by rewrite Z.sub_0_r. }
  set (c := if has (vm_flags v) VM_ACCOUNT then vma_pages v else 0).
  destruct (negb (area_ok e v)); [apply Hbad, (fail_undoes fail_nomem c s)|].
  case_decide; [apply Hbad, (fail_undoes fail_nomem_policy c s)|].
  case_decide; [apply Hbad, (fail_undoes fail_nomem_anon_vma_fork c s)|].
  destruct (negb (anon_ok e v)); [apply Hbad, (fail_undoes fail_nomem_anon_vma_fork c s)|].
  destruct (link_grown v s new Hf) as (s1 & E & Hg).
  change (link_file e _ _) with (link_file e (child v) (with_area v s)). rewrite E. cbn [mbind run_bind].
  eexists _, _, _. split; [reflexivity|]. split.
  - destruct (has _ VM_WIPEONFORK); [done|]. apply (me_pages He).
  - do 2 right. split_and!; done.
Qed.

(** ** All areas *)
Lemma copied_cons v l : copied_areas (v :: l) = if copyable v then v :: copied_areas l else copied_areas l.
Proof. unfold copied_areas. rewrite filter_cons. destruct (copyable v); rewrite ?decide_True, ?decide_False by done; done. Qed.

Definition skip_all (l : list vma) (st : stat) : stat :=
  foldl (fun st v => vm_stat_account e st (vm_flags v) (- vma_pages v)) st (filter (fun v => copyable v = false) l).

Lemma skip_cons v l st :
  skip_all (v :: l) st =
    if copyable v then skip_all l st else skip_all l (vm_stat_account e st (vm_flags v) (- vma_pages v)).
Proof. unfold skip_all. rewrite filter_cons. destruct (copyable v); rewrite ?decide_True, ?decide_False by done; done. Qed.

Lemma files_live_grown l x ps s s' : files_live l s -> grown x ps s s' -> files_live l s'.
Proof.
  intros H Hg. eapply Forall_impl; [done|]. intros v Hv f Hf. by apply (gr_dom _ _ _ _ Hg), Hv.
Qed.

Lemma dup_areas_cases l new s :
  menv_ok -> files_live l s ->
  exists r new' s' ps, dup_areas e mm l new s = Ok (r, new', s') /\ r <= 0 /\ ps `prefix_of` copied_areas l /\
    mmap new' = mmap new ++ map child ps /\ map_count new' = map_count new + Z.of_nat (length ps) /\
    exe_file new' = exe_file new /\ grown None ps s s' /\
    (r = 0 -> ps = copied_areas l /\ vm_stat new' = skip_all l (vm_stat new)).
Proof.
  intros He. revert new s. induction l as [|v l IH]; intros new s Hl.
  { exists (arch_dup_mmap e), new, s, []. split_and!; try done; [apply (me_arch He)|by rewrite app_nil_r|cbn; lia|apply grown_refl]. }
  apply Forall_cons in Hl as [Hv Hl]. rewrite copied_cons, skip_cons. cbn [dup_areas].
  destruct (dup_area_cases v new s He Hv) as (r & new1 & s1 & -> & Hr &
    [(-> & -> & -> & ->)|[(-> & Hr' & -> & ->)|(-> & -> & Hg)]]); cbn [mbind run_bind].
  - rewrite decide_False by lia. apply (IH (skipped v new) s Hl).
  - rewrite decide_True by lia. exists r, new, s, []. split_and!; try done; [apply prefix_nil|by rewrite app_nil_r|
      cbn; lia|apply grown_refl|lia].
  - case_decide as H0.
    + exists r, (linked v new), s1, [v]. split_and!; try done; [apply prefix_cons, prefix_nil].
    + destruct (IH (linked v new) s1) as (r2 & new2 & s2 & ps & -> & Hr2 & Hp & Em & Ec & Ex & Hg2 & Hok).
      { by eapply files_live_grown. }
      exists r2, new2, s2, (v :: ps). split_and!; try done.
      * by apply prefix_cons.
      * rewrite Em. cbn [linked mmap map]. by rewrite <- app_assoc.
      * rewrite Ec. cbn [linked map_count length]. lia.
      * by apply (grown_app _ [v] ps s s1 s2).
      * intros H2. destruct (Hok H2) as [-> ->]. done.
Qed.

Definition unlocked (s : resources) : Prop := old_sem s = false /\ new_sem s = false.

Lemma exe_grown old s :
  (forall f, exe_file old = Some f -> is_Some (f_count s !! f)) ->
  exists x s', get_mm_exe_file e old s = Ok (x, s') /\ grown x [] s s' /\
    x = (if exe_alive e then exe_file old else None).
Proof.
  intros Hf. unfold get_mm_exe_file. destruct (exe_file old) as [f|], (exe_alive e); try (eexists _, _; split; [done|split; [apply grown_refl|done]]).
  destruct (Hf f eq_refl) as [n Hn]. unfold get_file. rewrite Hn. cbn [mbind run_bind]. eexists _, _. split; [done|]. split; [|done].
  split; cbn -[at0 one]; rewrite ?app_nil_r; try done; try (intros; lia).
  - intros j. rewrite (at0_get _ _ _ _ Hn). lia.
  - intros j Hj. destruct (decide (f = j)) as [<-|Hne]; [rewrite lookup_insert_eq; eauto|by rewrite lookup_insert_ne].
Qed.

(** Taking the locks and giving them back. *)
Definition locked (s : resources) : resources := with_sems true true (with_uprobe (uprobe_dups s + 1) s).

Lemma grown_unlock x ps s s' :
  unlocked s -> grown x ps (locked s) s' ->
  up_both s' = Ok (with_sems false false s') /\
  grown x ps s (with_uprobe (uprobe_dups s' - 1) (with_sems false false s')).
Proof.
  intros [U1 U2] [A1 A2 A3 A4 A5 A6 A7 A8 A9 A10 (A11 & A12 & A13)].
  change (old_sem s' = true) in A11. change (new_sem s' = true) in A12.
  change (uprobe_dups s' = uprobe_dups s + 1) in A13.
  split; [unfold up_both; by rewrite A11, A12|]. split; try assumption. cbn. split_and!; [done|done|lia].
Qed.
End facts.

(** C28. Copying the memory map of a process: for all maps and all failures of
    the functions it calls, [dup_mmap] is defined and gives back both locks.
    The new map holds the copies of a first part of the areas to copy, in
    order, without the locking flags, and counts them; references to files, the
    entries and counters of their mappings and inodes, the memory accounted,
    the policies and allocated areas have grown by exactly what these copies
    and the executable hold, so what failed half way is undone.  When it
    answers 0 all areas but those not to be copied are there, the page tables
    of all but those to be wiped are copied, and the statistics are those of
    the parent less the areas left out. *)
Theorem dup_mmap_safe (e : menv) (mm : Z) (old : mm_struct) (st : stat) (s : resources)
    (He : menv_ok e) (Hl : files_live (mmap old) s)
    (Hx : forall f, exe_file old = Some f -> is_Some (f_count s !! f)) (Hu : unlocked s) :
  exists r new s' ps, dup_mmap e mm old (Mm [] 0 None st) s = Ok (r, new, s') /\ r <= 0 /\ unlocked s' /\
    ps `prefix_of` copied_areas (mmap old) /\
    mmap new = map (child e mm) ps /\ map_count new = Z.of_nat (length ps) /\
    grown e mm (exe_file new) ps s s' /\
    (r = 0 -> ps = copied_areas (mmap old) /\ vm_stat new = skip_all e (mmap old) (vm_stat old) /\
              exe_file new = if exe_alive e then exe_file old else None).
Proof.
  unfold dup_mmap. destruct (interrupted e).
  { eexists _, _, _, []. split_and!; [done|done|done|apply prefix_nil|done|done| |done].
    pose proof (grown_refl e mm s) as [A1 A2 A3 A4 A5 A6 A7 A8 A9 A10 A11]. split; try assumption. cbn. split_and!; [done|done|lia]. }
  destruct (Hu) as [U1 U2]. unfold down_old at 1. cbn [with_uprobe old_sem]. rewrite U1. cbn [mbind run_bind].
  unfold down_new at 1. cbn [with_uprobe with_sems new_sem]. rewrite U2. cbn [mbind run_bind]. 
  change (get_mm_exe_file e old _) with (get_mm_exe_file e old (locked s)).
  destruct (exe_grown e mm old (locked s) Hx) as (x & s1 & -> & Hg1 & Ex). cbn [mbind run_bind].
  set (new0 := Mm _ _ _ _).
  assert (Hmid : exists r new s2 ps, (if decide (ksm_fork e <> 0) then Ok (ksm_fork e, new0, s1)
      else if decide (khugepaged_fork e <> 0) then Ok (khugepaged_fork e, new0, s1)
      else dup_areas e mm (mmap old) new0 s1) = Ok (r, new, s2) /\ r <= 0 /\
    ps `prefix_of` copied_areas (mmap old) /\ mmap new = map (child e mm) ps /\ map_count new = Z.of_nat (length ps) /\
    exe_file new = x /\ grown e mm None ps s1 s2 /\
    (r = 0 -> ps = copied_areas (mmap old) /\ vm_stat new = skip_all e (mmap old) (vm_stat old))).
  { destruct He as [H1 H2 H3 H4]. case_decide; [|case_decide].
    1,2: eexists _, new0, s1, []; split_and!; [done|done|apply prefix_nil|done|done|done|apply grown_refl|lia].
    assert (Hl1 : files_live (mmap old) s1) by (exact (files_live_grown e mm (mmap old) x [] (locked s) s1 Hl Hg1)).
    destruct (dup_areas_cases e mm (mmap old) new0 s1) as (r & new & s2 & ps & Hd); [done|done|].
    exists r, new, s2, ps. exact Hd. }
  destruct Hmid as (r & new & s2 & ps & -> & Hr & Hp & Em & Ec & Ex' & Hg2 & Hok). cbn [mbind run_bind].
  pose proof (grown_app e mm x [] ps _ _ _ Hg1 Hg2) as Hg. cbn [app] in Hg.
  destruct (grown_unlock e mm x ps s s2 Hu Hg) as [-> Hg']. cbn [mbind run_bind].
  eexists r, new, _, ps. split; [done|]. rewrite Ex'. split_and!; try done.
  intros H0. destruct (Hok H0) as [-> ->]. done.
Qed.

(** ** A concrete map: a private program text, an area not to be copied, and
    accounted memory to be wiped. *)
Definition areas1 : list vma :=
  [Vma 0x1000 0x3000 VM_DENYWRITE (Some 5) 1; Vma 0x3000 0x4000 VM_DONTCOPY None 1;
   Vma 0x8000 0xb000 (Z.lor VM_LOCKED (Z.lor VM_ACCOUNT VM_WIPEONFORK)) None 1].
Definition mm1 : mm_struct := Mm areas1 3 (Some 5) (Stat 6 5 2 0).
Definition menv1 (fails : Z) : menv :=
  MEnv false true 0 0 (fun _ => false) (fun _ => true) (fun _ => true) (fun _ => 0) (fun _ => 0) vm_flags
    (fun v => negb (bool_decide (vm_start v = fails))) (fun _ => 0) (fun _ => false) 0 (fun f => f) (fun f => f)
    (fun st _ n => Stat (total_vm st + n) (data_vm st) (exec_vm st) (stack_vm st)).
Definition res1 : resources := Res {[ 5 := 2 ]} ∅ ∅ [] 3 3 10 [] [] false false 0.

Lemma menv1_ok fails : menv_ok (menv1 fails).
Proof. by split. Qed.

Lemma mm1_live : files_live (mmap mm1) res1.
Proof.
  apply Forall_cons_2; [intros f [= <-]; by exists 2|]. apply Forall_cons_2; [done|]. apply Forall_cons_2; [done|]. apply Forall_nil_2.
Qed.

Definition dup1 (fails : Z) : option (Z * mm_struct * resources) :=
  match dup_mmap (menv1 fails) 2 mm1 (Mm [] 0 None (Stat 0 0 0 0)) res1 with Ok x => Some x | _ => None end.

(** Without failures the accounted memory grows by the three pages of the last
    area; when it fails, only the text is there and nothing is accounted. *)
Lemma dup_mmap_safe_witness :
  (exists new s', dup1 0 = Some (0, new, s') /\ map_count new = 2 /\ committed s' = 13 /\ unlocked s') /\
  (exists new s', dup1 0x8000 = Some (- ENOMEM, new, s') /\ map_count new = 1 /\ committed s' = 10 /\ unlocked s').
Proof.
  assert (Hx : forall f, exe_file mm1 = Some f -> is_Some (f_count res1 !! f)) by (intros f [= <-]; by exists 2).
  assert (H : forall fails r n c, (forall x, dup1 fails = Some x -> x.1.1 = r /\ map_count x.1.2 = n /\ committed x.2 = c) ->
    exists new s', dup1 fails = Some (r, new, s') /\ map_count new = n /\ committed s' = c /\ unlocked s').
  { intros fails r n c Hc.
    destruct (dup_mmap_safe (menv1 fails) 2 mm1 (Stat 0 0 0 0) res1 (menv1_ok fails) mm1_live Hx (conj eq_refl eq_refl))
      as (r' & new & s' & ps & E & _ & Hu & _).
    assert (E' : dup1 fails = Some (r', new, s')) by (unfold dup1; rewrite E; reflexivity).
    destruct (Hc _ E') as (<- & Hn & Hco). exists new, s'. exact (conj E' (conj Hn (conj Hco Hu))). }
  split; apply H; intros x Hx'; vm_compute in Hx'; injection Hx' as <-; vm_compute; auto.
Defined.
