(* ===== verification/KStack.v ===== *)
(** * Kernel stacks

    The cache of stacks of [src/Assignment2/Assignment2-1/fork.c]
    ([CONFIG_VMAP_STACK]): every processor keeps up to two stacks of dead
    tasks for new ones, and each page in use is charged to the memory group. *)

From Stdlib Require Import ZArith Lia String.
From stdpp Require Import base numbers list option strings gmap fin_sets.
From S2P Require Import Prelude Sched.

Local Open Scope Z_scope.

Definition NR_CACHED_STACKS : nat := 2.

Record stacks := Stacks {
  cached : gmap (Z * nat) Z;     (** [cached_stacks], by processor and index; no entry is NULL *)
  mapped : gset Z;               (** areas of [vmalloc] *)
  zeroed : gset Z;               (** those with no stale contents *)
  stack_of : gmap Z Z;           (** [tsk->stack_vm_area] *)
  charged : gset (Z * nat);      (** pages charged to the memory group *)
  memcg_kb : Z;                  (** [MEMCG_KERNEL_STACK_KB] *)
  zone_kb : Z }.                 (** [NR_KERNEL_STACK_KB] *)

Section stacks.
Context (n : nat) (kb : Z).      (** [THREAD_SIZE / PAGE_SIZE] and [PAGE_SIZE / 1024] *)

(** ** Operations

    A task can be moved to another processor between two turns of a loop:
    [cpu i] is the processor of turn [i]. *)
Definition vfree (x : Z) (s : stacks) : run stacks :=
  if decide (x ∈ mapped s)
  then Ok (Stacks (cached s) (mapped s ∖ {[x]}) (zeroed s ∖ {[x]}) (stack_of s) (charged s) (memcg_kb s) (zone_kb s))
  else Undef.

Fixpoint free_cache_from (cpu : Z) (i rem : nat) (s : stacks) : run stacks :=
  match rem with
  | O => Ok s
  | S rem' =>
      match cached s !! (cpu, i) with
      | None => free_cache_from cpu (S i) rem' s
      | Some x =>
          s ← vfree x s;
          free_cache_from cpu (S i) rem' (Stacks (delete (cpu, i) (cached s)) (mapped s) (zeroed s) (stack_of s)
            (charged s) (memcg_kb s) (zone_kb s))
      end
  end.
Definition free_vm_stack_cache (cpu : Z) (s : stacks) : run stacks := free_cache_from cpu 0 NR_CACHED_STACKS s.

(** The loop of [alloc_thread_stack_node]. *)
Fixpoint reuse (cpu : nat -> Z) (tsk : Z) (i rem : nat) (s : stacks) : option stacks :=
  match rem with
  | O => None
  | S rem' =>
      match cached s !! (cpu i, i) with
      | None => reuse cpu tsk (S i) rem' s
      | Some x => Some (Stacks (delete (cpu i, i) (cached s)) (mapped s) (zeroed s ∪ {[x]}) (<[tsk := x]> (stack_of s))
                    (charged s) (memcg_kb s) (zone_kb s))
      end
  end.

(** [vm] is the answer of [__vmalloc_node_range]. *)
Definition alloc_thread_stack_node (cpu : nat -> Z) (vm : option Z) (tsk : Z) (s : stacks) : option stacks :=
  match reuse cpu tsk 0 NR_CACHED_STACKS s with
  | Some s' => Some s'
  | None =>
      match vm with
      | Some x => Some (Stacks (cached s) (mapped s ∪ {[x]}) (zeroed s ∪ {[x]}) (<[tsk := x]> (stack_of s))
                    (charged s) (memcg_kb s) (zone_kb s))
      | None => None
      end
  end.

(** Charging the pages from [i]: [fails i] is an error of [memcg_kmem_charge],
    which leaves the page without a group. *)
Fixpoint charge_pages (x : Z) (fails : nat -> bool) (i rem : nat) (ch : gset (Z * nat)) (m : Z)
  : bool * gset (Z * nat) * Z :=
  match rem with
  | O => (true, ch, m)
  | S rem' => if fails i then (false, ch, m) else charge_pages x fails (S i) rem' (ch ∪ {[(x, i)]}) (m + kb)
  end.

Definition memcg_charge_kernel_stack (fails : nat -> bool) (tsk : Z) (s : stacks) : bool * stacks :=
  match stack_of s !! tsk with
  | None => (true, s)
  | Some x =>
      let '(ok, ch, m) := charge_pages x fails 0 n (charged s) (memcg_kb s) in
      (ok, Stacks (cached s) (mapped s) (zeroed s) (stack_of s) ch m (zone_kb s))
  end.

(** A page without a group is ignored. *)
Fixpoint uncharge_pages (x : Z) (i rem : nat) (ch : gset (Z * nat)) (m : Z) : gset (Z * nat) * Z :=
  match rem with
  | O => (ch, m)
  | S rem' =>
      if decide ((x, i) ∈ ch) then uncharge_pages x (S i) rem' (ch ∖ {[(x, i)]}) (m - kb)
      else uncharge_pages x (S i) rem' ch m
  end.

Fixpoint keep (cpu : nat -> Z) (x : Z) (i rem : nat) (s : stacks) : option stacks :=
  match rem with
  | O => None
  | S rem' =>
      match cached s !! (cpu i, i) with
      | Some _ => keep cpu x (S i) rem' s
      | None => Some (Stacks (<[(cpu i, i) := x]> (cached s)) (mapped s) (zeroed s) (stack_of s)
                  (charged s) (memcg_kb s) (zone_kb s))
      end
  end.

Definition free_thread_stack (cpu : nat -> Z) (tsk : Z) (s : stacks) : run stacks :=
  match stack_of s !! tsk with
  | None => Undef                (** [virt_to_page (NULL)] *)
  | Some x =>
      let '(ch, m) := uncharge_pages x 0 n (charged s) (memcg_kb s) in
      let s := Stacks (cached s) (mapped s) (zeroed s) (stack_of s) ch m (zone_kb s) in
      match keep cpu x 0 NR_CACHED_STACKS s with
      | Some s' => Ok s'
      | None => vfree x s
      end
  end.

Definition account_kernel_stack (account : Z) (s : stacks) : stacks :=
  Stacks (cached s) (mapped s) (zeroed s) (stack_of s) (charged s) (memcg_kb s)
    (zone_kb s + Z.of_nat n * (kb * account)).

Definition forget (tsk : Z) (s : stacks) : stacks :=
  Stacks (cached s) (mapped s) (zeroed s) (delete tsk (stack_of s)) (charged s) (memcg_kb s) (zone_kb s).

(** A task that is not dead keeps its stack. *)
Definition release_task_stack (cpu : nat -> Z) (t : task_struct) (tsk : Z) (s : stacks) : run stacks :=
  if decide (state t <> TASK_DEAD) then Ok s
  else s ← free_thread_stack cpu tsk (account_kernel_stack (-1) s); Ok (forget tsk s).

(** The stack in [dup_task_struct]; [err] is the answer of
    [arch_dup_task_struct]. *)
Definition dup_stack (cpu cpu' : nat -> Z) (vm : option Z) (fails : nat -> bool) (err : Z) (tsk : Z) (s : stacks)
  : run (bool * stacks) :=
  match alloc_thread_stack_node cpu vm tsk s with
  | None => Ok (false, s)
  | Some s =>
      let '(ok, s) := memcg_charge_kernel_stack fails tsk s in
      if negb ok then s ← free_thread_stack cpu' tsk s; Ok (false, forget tsk s)
      else if decide (err <> 0) then s ← free_thread_stack cpu' tsk s; Ok (false, forget tsk s)
      else Ok (true, account_kernel_stack 1 s)
  end.

(** A task runs on its stack. *)
Definition dirty (x : Z) (s : stacks) : stacks :=
  Stacks (cached s) (mapped s) (zeroed s ∖ {[x]}) (stack_of s) (charged s) (memcg_kb s) (zone_kb s).
End stacks.
