(* ===== verification/KStackFacts.v ===== *)
(** * Theorems on kernel stacks

    No stack is used twice, freed twice or lost, whatever the order of forks
    and exits on the processors and whatever fails; a new task never sees the
    contents of an old stack; and the two statistics are exact. *)

From Stdlib Require Import ZArith Lia String.
From stdpp Require Import base numbers list option strings gmap fin_sets.
From S2P Require Import Prelude Sched KStack.

Local Open Scope Z_scope.

Section facts.
Context (n : nat) (kb : Z).

(** Every mapped stack is in use by one task or in one slot of the cache, and
    only pages of stacks in use are charged; the zone statistics may be off by
    [z] while a task is made or released. *)
Record sound (z : Z) (s : stacks) : Prop := {
  so_use t1 t2 x : stack_of s !! t1 = Some x -> stack_of s !! t2 = Some x -> t1 = t2;
  so_cached l1 l2 x : cached s !! l1 = Some x -> cached s !! l2 = Some x -> l1 = l2;
  so_apart t l x : stack_of s !! t = Some x -> cached s !! l = Some x -> False;
  so_mapped x : x ∈ mapped s <-> (exists t, stack_of s !! t = Some x) \/ (exists l, cached s !! l = Some x);
  so_slots c i x : cached s !! (c, i) = Some x -> (i < NR_CACHED_STACKS)%nat;
  so_charged x i : (x, i) ∈ charged s -> (i < n)%nat /\ exists t, stack_of s !! t = Some x;
  so_memcg : memcg_kb s = kb * Z.of_nat (size (charged s));
  so_zone : zone_kb s = Z.of_nat n * (kb * Z.of_nat (size (stack_of s))) + z }.

(** ** Pages *)
Lemma charge_pages_ok x fails i rem ch m :
  m = kb * Z.of_nat (size ch) -> (forall j, (x, j) ∈ ch -> (j < i)%nat) ->
  exists ok ch' m', charge_pages kb x fails i rem ch m = (ok, ch', m') /\ m' = kb * Z.of_nat (size ch') /\
    (forall y j, (y, j) ∈ ch' -> (y, j) ∈ ch \/ (y = x /\ (j < i + rem)%nat)).
Proof.
  revert i ch m. induction rem as [|rem IH]; intros i ch m Hm Hx; cbn [charge_pages].
  { exists true, ch, m. split_and!; [done|done|]. auto. }
  destruct (fails i); [exists false, ch, m; split_and!; [done|done|]; auto|].
  destruct (IH (S i) (ch ∪ {[(x, i)]}) (m + kb)) as (ok & ch' & m' & E & Hm' & H).
  - rewrite size_union by (intros [y j] Hy Hi; apply elem_of_singleton in Hi as [= -> ->]; apply Hx in Hy; lia). rewrite size_singleton. lia.
  - intros j. rewrite elem_of_union, elem_of_singleton. intros [Hj|Hj]; [apply Hx in Hj; lia|]. injection Hj as ->. lia.
  - exists ok, ch', m'. split_and!; [done|done|]. intros y j Hj. apply H in Hj as [Hj|[-> Hj]]; [|right; split; [done|lia]].
    apply elem_of_union in Hj as [Hj|Hj]; [by left|]. apply elem_of_singleton in Hj as [= -> ->]. right. split; [done|lia].
Qed.

Lemma uncharge_pages_ok x i rem ch m :
  m = kb * Z.of_nat (size ch) ->
  exists ch' m', uncharge_pages kb x i rem ch m = (ch', m') /\ m' = kb * Z.of_nat (size ch') /\
    (forall y j, (y, j) ∈ ch' <-> (y, j) ∈ ch /\ ~ (y = x /\ (i <= j < i + rem)%nat)).
Proof.
  revert i ch m. induction rem as [|rem IH]; intros i ch m Hm; cbn [uncharge_pages].
  { exists ch, m. split_and!; [done|done|]. intros y j. split; [intros H; split; [done|lia]|tauto]. }
  case_decide as Hin.
  - destruct (IH (S i) (ch ∖ {[(x, i)]}) (m - kb)) as (ch' & m' & E & Hm' & H).
    { rewrite size_difference by set_solver. rewrite size_singleton.
      assert (0 < size ch)%nat; [|rewrite Hm, Nat2Z.inj_sub by lia; lia]. destruct (decide (size ch = 0%nat)) as [H0|]; [|lia].
      apply size_empty_inv in H0. set_solver. }
    exists ch', m'. split_and!; [done|done|]. intros y j. rewrite H, elem_of_difference, elem_of_singleton.
    split; [intros [[H1 H2] H3]; split; [done|]; intros [-> Hj]; apply H3; split; [done|];
            assert (j <> i) by congruence; lia|].
    intros [H1 H2]. split_and!; [done|intros [= -> ->]; apply H2; split; [done|lia]|intros [-> Hj]; apply H2; split; [done|lia]].
  - destruct (IH (S i) ch m Hm) as (ch' & m' & E & Hm' & H). exists ch', m'. split_and!; [done|done|].
    intros y j. rewrite H. split; intros [H1 H2]; (split; [done|]); intros [-> Hj]; apply H2; (split; [done|]); [|lia].
    assert (j <> i) by congruence. lia.
Qed.

(** ** Slots *)
Lemma reuse_sound cpu tsk i rem z s s' :
  sound z s -> stack_of s !! tsk = None -> reuse cpu tsk i rem s = Some s' ->
  exists x, stack_of s' = <[tsk := x]> (stack_of s) /\ (forall t, stack_of s !! t <> Some x) /\ x ∈ zeroed s' /\
    charged s' = charged s /\ sound (z - Z.of_nat n * kb) s'.
Proof.
  intros Hs Ht. revert i. induction rem as [|rem IH]; intros i E; cbn [reuse] in E; [done|].
  destruct (cached s !! (cpu i, i)) as [x|] eqn:Ex; [|by eapply IH]. injection E as <-. exists x.
  destruct Hs as [H1 H2 H3 H4 H5 H6 H7 H8].
  assert (Hnew : forall t, stack_of s !! t <> Some x) by (intros t Hx; by eapply H3).
  cbn [stack_of zeroed charged]. split_and!; [done|done|set_solver|done|].
  split; cbn [stack_of zeroed charged mapped cached memcg_kb zone_kb].
  - intros t1 t2 y. rewrite !lookup_insert_Some. intros [[<- <-]|[N1 A1]] [[<- B]|[N2 A2]]; try done.
    + by apply Hnew in A2.
    + subst. by apply Hnew in A1.
    + by eapply H1.
  - intros l1 l2 y. rewrite !lookup_delete_Some. intros [_ A1] [_ A2]. by eapply H2.
  - intros t l y. rewrite lookup_insert_Some, lookup_delete_Some. intros [[_ <-]|[_ A]] [N B]; [|by eapply H3].
    apply N. by eapply H2.
  - intros y. rewrite H4. split.
    + intros [[t A]|[l A]].
      * left. exists t. rewrite lookup_insert_ne; [done|]. intros ->. congruence.
      * destruct (decide (l = (cpu i, i))) as [->|Hne].
        -- left. exists tsk. rewrite lookup_insert_eq. congruence.
        -- right. exists l. by rewrite lookup_delete_ne.
    + intros [[t A]|[l A]]; [apply lookup_insert_Some in A as [[_ <-]|[_ A]]; eauto|].
      apply lookup_delete_Some in A as [_ A]. eauto.
  - intros c j y A. apply lookup_delete_Some in A as [_ A]. by eapply H5.
  - intros y j A. apply H6 in A as (A & t & B). split; [done|]. exists t. rewrite lookup_insert_ne; [done|]. congruence.
  - done.
  - rewrite map_size_insert_None, H8 by done. lia.
Qed.

Lemma alloc_sound cpu vm tsk z s s' :
  sound z s -> stack_of s !! tsk = None -> (forall x, vm = Some x -> x ∉ mapped s) ->
  alloc_thread_stack_node cpu vm tsk s = Some s' ->
  exists x, stack_of s' = <[tsk := x]> (stack_of s) /\ (forall t, stack_of s !! t <> Some x) /\ x ∈ zeroed s' /\
    charged s' = charged s /\ sound (z - Z.of_nat n * kb) s'.
Proof.
  intros Hs Ht Hvm. unfold alloc_thread_stack_node.
  destruct (reuse _ _ _ _ _) as [s1|] eqn:E; [intros [= <-]; by eapply reuse_sound|].
  destruct vm as [x|]; [|done]. intros [= <-]. specialize (Hvm x eq_refl). exists x.
  destruct Hs as [H1 H2 H3 H4 H5 H6 H7 H8]. rewrite H4 in Hvm.
  assert (Hnew : forall t, stack_of s !! t <> Some x) by (intros t Hx; apply Hvm; eauto).
  cbn [stack_of zeroed charged]. split_and!; [done|done|set_solver|done|].
  split; cbn [stack_of zeroed charged mapped cached memcg_kb zone_kb].
  - intros t1 t2 y. rewrite !lookup_insert_Some. intros [[<- <-]|[N1 A1]] [[<- B]|[N2 A2]]; try done.
    + by apply Hnew in A2.
    + subst. by apply Hnew in A1.
    + by eapply H1.
  - done.
  - intros t l y. rewrite lookup_insert_Some. intros [[_ <-]|[_ A]] B; [|by eapply H3]. apply Hvm. eauto.
  - intros y. rewrite elem_of_union, elem_of_singleton, H4. split.
    + intros [[[t A]|A]| ->]; [left; exists t|by right|left; exists tsk; by rewrite lookup_insert_eq].
      rewrite lookup_insert_ne; [done|]. congruence.
    + intros [[t A]|A]; [|by left; right]. apply lookup_insert_Some in A as [[_ <-]|[_ A]]; eauto.
  - done.
  - intros y j A. apply H6 in A as (A & t & B). split; [done|]. exists t. rewrite lookup_insert_ne; [done|]. congruence.
  - done.
  - rewrite map_size_insert_None, H8 by done. lia.
Qed.

Lemma charge_sound fails tsk x z s ok s' :
  sound z s -> stack_of s !! tsk = Some x -> (forall j, (x, j) ∉ charged s) ->
  memcg_charge_kernel_stack n kb fails tsk s = (ok, s') ->
  sound z s' /\ stack_of s' = stack_of s /\ zeroed s' = zeroed s.
Proof.
  intros [H1 H2 H3 H4 H5 H6 H7 H8] Hx Hno. unfold memcg_charge_kernel_stack. rewrite Hx.
  destruct (charge_pages_ok x fails 0 n (charged s) (memcg_kb s) H7) as (ok' & ch & m & -> & Hm & Hch).
  { intros j Hj. by apply Hno in Hj. }
  intros [= <- <-]. split_and!; [|done|done]. split; cbn [stack_of charged mapped cached memcg_kb zone_kb]; try done.
  intros y j Hj. apply Hch in Hj as [Hj|[-> Hj]]; [by apply H6|]. split; [lia|eauto].
Qed.

Lemma keep_cases cpu x i rem s s' :
  keep cpu x i rem s = Some s' ->
  exists j, (i <= j < i + rem)%nat /\ cached s !! (cpu j, j) = None /\
    s' = Stacks (<[(cpu j, j) := x]> (cached s)) (mapped s) (zeroed s) (stack_of s) (charged s) (memcg_kb s) (zone_kb s).
Proof.
  revert i. induction rem as [|rem IH]; intros i; cbn [keep]; [done|].
  destruct (cached s !! (cpu i, i)) eqn:E.
  - intros H. apply IH in H as (j & Hj & H). exists j. split; [lia|done].
  - intros [= <-]. exists i. split; [lia|done].
Qed.

(** A freed stack goes to a slot or back to [vmalloc]; no page of it stays
    charged. *)
(** The stack of a task that is left, its pages not charged, in a slot of the
    cache or unmapped. *)
Section freed.
Context (tsk x z : Z) (s : stacks) (ch : gset (Z * nat)) (m : Z).
Context (Hs : sound z s) (Hx : stack_of s !! tsk = Some x).
Context (Hm : m = kb * Z.of_nat (size ch)) (Hch : forall y i, (y, i) ∈ ch -> (y, i) ∈ charged s /\ y <> x).

Lemma freed_use t y : delete tsk (stack_of s) !! t = Some y -> stack_of s !! t = Some y /\ y <> x.
Proof using Hs Hx. intros A. apply lookup_delete_Some in A as [N A]. split; [done|]. intros ->. apply N. by eapply (so_use _ _ Hs). Qed.
Lemma freed_rest t y : stack_of s !! t = Some y -> y <> x -> delete tsk (stack_of s) !! t = Some y.
Proof using Hx. intros A N. rewrite lookup_delete_ne; [done|]. congruence. Qed.
Lemma freed_charged y i : (y, i) ∈ ch -> (i < n)%nat /\ exists t, delete tsk (stack_of s) !! t = Some y.
Proof using Hs Hx Hch.
  intros A. apply Hch in A as [A N]. apply (so_charged _ _ Hs) in A as [Hi [t B]]. split; [done|]. exists t. by apply freed_rest.
Qed.
Lemma freed_zone : zone_kb s = Z.of_nat n * (kb * Z.of_nat (size (delete tsk (stack_of s)))) + (z + Z.of_nat n * kb).
Proof using Hs Hx.
  clear Hm Hch. assert (Hsz : size (stack_of s) = S (size (delete tsk (stack_of s)))).
  { rewrite map_size_delete_Some by eauto. assert (size (stack_of s) <> 0%nat); [|lia].
    intros Hz. apply map_size_empty_inv in Hz. rewrite Hz in Hx. done. }
  rewrite (so_zone _ _ Hs), Hsz. lia.
Qed.

Lemma freed_kept c i : cached s !! (c, i) = None -> (i < NR_CACHED_STACKS)%nat ->
  sound (z + Z.of_nat n * kb)
    (Stacks (<[(c, i) := x]> (cached s)) (mapped s) (zeroed s) (delete tsk (stack_of s)) ch m (zone_kb s)).
Proof using Hs Hx Hm Hch.
  intros Hnone Hi. destruct (Hs) as [H1 H2 H3 H4 H5 _ _ _].
  split; cbn [cached mapped zeroed stack_of charged memcg_kb zone_kb]; [| | | | |exact freed_charged|done|exact freed_zone].
  - intros t1 t2 y A B. apply freed_use in A as [A _]. apply freed_use in B as [B _]. by eapply H1.
  - intros l1 l2 y. rewrite !lookup_insert_Some. intros [[<- <-]|[N1 A1]] [[<- B]|[N2 A2]]; try done.
    + by destruct (H3 tsk l2 x).
    + subst. by destruct (H3 tsk l1 y).
    + by eapply H2.
  - intros t l y A. apply freed_use in A as [A N]. rewrite lookup_insert_Some. intros [[_ ->]|[_ B]]; [done|by eapply H3].
  - intros y. rewrite H4. destruct (decide (y = x)) as [->|N].
    + split; [intros _; right; exists (c, i); by rewrite lookup_insert_eq|intros _; eauto].
    + split; (intros [[t A]|[l A]]; [left; exists t|right; exists l]).
      * by apply freed_rest.
      * rewrite lookup_insert_ne; [done|]. congruence.
      * by apply freed_use in A as [A _].
      * apply lookup_insert_Some in A as [[_ ->]|[_ A]]; done.
  - intros c' j y. rewrite lookup_insert_Some. intros [[[= <- <-] _]|[_ A]]; [lia|by eapply H5].
Qed.

Lemma freed_unmapped zr :
  sound (z + Z.of_nat n * kb) (Stacks (cached s) (mapped s ∖ {[x]}) zr (delete tsk (stack_of s)) ch m (zone_kb s)).
Proof using Hs Hx Hm Hch.
  destruct (Hs) as [H1 H2 H3 H4 H5 _ _ _].
  split; cbn [cached mapped zeroed stack_of charged memcg_kb zone_kb]; [|done| | |done|exact freed_charged|done|exact freed_zone].
  - intros t1 t2 y A B. apply freed_use in A as [A _]. apply freed_use in B as [B _]. by eapply H1.
  - intros t l y A. apply freed_use in A as [A _]. by eapply H3.
  - intros y. rewrite elem_of_difference, elem_of_singleton, H4. split.
    + intros [[[t A]|A] N]; [left; exists t; by apply freed_rest|by right].
    + intros [[t A]|[l A]]; [apply freed_use in A as [A N]; eauto|]. split; [eauto|]. intros ->. by eapply H3.
Qed.
End freed.

Lemma free_sound cpu tsk x z s :
  sound z s -> stack_of s !! tsk = Some x ->
  exists s', free_thread_stack n kb cpu tsk s = Ok s' /\ stack_of s' = stack_of s /\
    sound (z + Z.of_nat n * kb) (forget tsk s').
Proof.
  intros Hs Hx. unfold free_thread_stack. rewrite Hx.
  destruct (uncharge_pages_ok x 0 n (charged s) (memcg_kb s) (so_memcg _ _ Hs)) as (ch & m & -> & Hm & Hch).
  assert (Hch' : forall y i, (y, i) ∈ ch -> (y, i) ∈ charged s /\ y <> x).
  { intros y i A. apply Hch in A as [A N]. split; [done|]. intros ->. apply N. split; [done|].
    apply (so_charged _ _ Hs) in A. lia. }
  set (s1 := Stacks _ _ _ _ _ _ _). destruct (keep cpu x 0 NR_CACHED_STACKS s1) as [s2|] eqn:E.
  - apply keep_cases in E as (j & Hj & Hnone & ->). eexists. split; [done|]. split; [done|].
    apply (freed_kept tsk x z s ch m); try done. lia.
  - unfold vfree. cbn [s1 mapped]. rewrite decide_True by (apply (so_mapped _ _ Hs); eauto).
    eexists. split; [done|]. split; [done|]. by apply (freed_unmapped tsk x z s ch m).
Qed.

Lemma cache_sound cpu i rem z s :
  sound z s ->
  exists s', free_cache_from cpu i rem s = Ok s' /\ sound z s' /\ stack_of s' = stack_of s /\
    (forall l, cached s !! l = None -> cached s' !! l = None) /\
    (forall j, (i <= j < i + rem)%nat -> cached s' !! (cpu, j) = None).
Proof.
  revert i s. induction rem as [|rem IH]; intros i s Hs; cbn [free_cache_from].
  { exists s. split_and!; try done. intros j Hj. lia. }
  destruct (cached s !! (cpu, i)) as [x|] eqn:E.
  - destruct Hs as [H1 H2 H3 H4 H5 H6 H7 H8]. unfold vfree. rewrite decide_True by (apply H4; eauto). cbn [mbind run_bind].
    destruct (IH (S i) (Stacks (delete (cpu, i) (cached s)) (mapped s ∖ {[x]}) (zeroed s ∖ {[x]}) (stack_of s)
      (charged s) (memcg_kb s) (zone_kb s))) as (s' & E' & Hs' & Hst & Hl & Hj).
    + split; cbn [cached mapped zeroed stack_of charged memcg_kb zone_kb]; try done.
      * intros l1 l2 y A B. apply lookup_delete_Some in A as [_ A], B as [_ B]. by eapply H2.
      * intros t l y A B. apply lookup_delete_Some in B as [_ B]. by eapply H3.
      * intros y. rewrite elem_of_difference, elem_of_singleton, H4. split.
        -- intros [[A|[l A]] N]; [by left|right; exists l]. rewrite lookup_delete_ne; [done|]. congruence.
        -- intros [[t A]|[l A]]; [split; [eauto|intros ->; by eapply H3]|].
           apply lookup_delete_Some in A as [N A]. split; [eauto|]. intros ->. apply N. by eapply H2.
      * intros c j y A. apply lookup_delete_Some in A as [_ A]. by eapply H5.
    + exists s'. cbn [cached stack_of] in *. split_and!; try done.
      * intros l A. apply Hl. by apply lookup_delete_None; right.
      * intros j Hj'. destruct (decide (j = i)) as [->|]; [apply Hl, lookup_delete_eq|apply Hj; lia].
  - destruct (IH (S i) s Hs) as (s' & E' & Hs' & Hst & Hl & Hj). exists s'. split_and!; try done.
    intros j Hj'. destruct (decide (j = i)) as [->|]; [by apply Hl|apply Hj; lia].
Qed.

Lemma dirty_sound x z s : sound z s -> sound z (dirty x s).
Proof. intros [H1 H2 H3 H4 H5 H6 H7 H8]. by split. Qed.

Lemma account_sound a z s : sound z s -> sound (z + Z.of_nat n * (kb * a)) (account_kernel_stack n kb a s).
Proof. intros [H1 H2 H3 H4 H5 H6 H7 H8]. split; try done. cbn. lia. Qed.
(** ** Tasks come and go *)
Lemma dup_stack_cases cpu cpu' vm fails err tsk s :
  sound 0 s -> stack_of s !! tsk = None -> (forall x, vm = Some x -> x ∉ mapped s) ->
  exists (b : bool) (s' : stacks), dup_stack n kb cpu cpu' vm fails err tsk s = Ok (b, s') /\ sound 0 s' /\
    (if b then exists x, stack_of s' = <[tsk := x]> (stack_of s) /\ (forall t, stack_of s !! t <> Some x) /\ x ∈ zeroed s'
     else stack_of s' = stack_of s).
Proof.
  intros Hs Ht Hvm. unfold dup_stack.
  destruct (alloc_thread_stack_node cpu vm tsk s) as [s1|] eqn:Ea; [|by exists false, s].
  destruct (alloc_sound _ _ _ _ _ _ Hs Ht Hvm Ea) as (x & Est & Hnew & Hz & Ech & Hs1).
  assert (Hx1 : stack_of s1 !! tsk = Some x) by (by rewrite Est, lookup_insert_eq).
  assert (Hno : forall j, (x, j) ∉ charged s1).
  { intros j. rewrite Ech. intros Hj. apply (so_charged _ _ Hs) in Hj as [_ [t Hj]]. by apply Hnew in Hj. }
  destruct (memcg_charge_kernel_stack n kb fails tsk s1) as [ok s2] eqn:Ec.
  destruct (charge_sound _ _ _ _ _ _ _ Hs1 Hx1 Hno Ec) as (Hs2 & Est2 & Ez).
  assert (Hfail : exists (b : bool) (s' : stacks), (s ← free_thread_stack n kb cpu' tsk s2; Ok (false, forget tsk s)) = Ok (b, s') /\ sound 0 s' /\
    (if b then exists x, stack_of s' = <[tsk := x]> (stack_of s) /\ (forall t, stack_of s !! t <> Some x) /\ x ∈ zeroed s'
     else stack_of s' = stack_of s)).
  { destruct (free_sound cpu' tsk x _ s2 Hs2) as (s3 & -> & Est3 & Hs3); [by rewrite Est2|].
    exists false, (forget tsk s3). split; [done|]. split.
    - by replace 0 with (0 - Z.of_nat n * kb + Z.of_nat n * kb) by lia.
    - cbn [forget stack_of]. by rewrite Est3, Est2, Est, delete_insert_id. }
  destruct ok; cbn [negb]; [|exact Hfail]. case_decide; [exact Hfail|].
  exists true, (account_kernel_stack n kb 1 s2). split; [done|]. split.
  - replace 0 with (0 - Z.of_nat n * kb + Z.of_nat n * (kb * 1)) by lia. by apply account_sound.
  - exists x. cbn [account_kernel_stack stack_of zeroed]. rewrite Est2, Ez. done.
Qed.

Lemma release_cases cpu t tsk x s :
  sound 0 s -> stack_of s !! tsk = Some x ->
  exists s', release_task_stack n kb cpu t tsk s = Ok s' /\ sound 0 s' /\
    stack_of s' = (if decide (state t = TASK_DEAD) then delete tsk (stack_of s) else stack_of s).
Proof.
  intros Hs Hx. unfold release_task_stack. destruct (decide (state t = TASK_DEAD)) as [->|Hd].
  - rewrite decide_False by auto.
    destruct (free_sound cpu tsk x _ _ (account_sound (-1) 0 s Hs) Hx) as (s1 & -> & Est & Hs1). cbn [mbind run_bind].
    eexists. split; [done|]. split; [|cbn [forget stack_of]; by rewrite Est].
    by replace 0 with (0 + Z.of_nat n * (kb * -1) + Z.of_nat n * kb) by lia.
  - rewrite decide_True by done. by exists s.
Qed.

(** Forks, running, exits and processors going away, in any order. *)
Inductive life : stacks -> stacks -> Prop :=
| life_nil s : life s s
| life_fork cpu cpu' vm fails err tsk s b s1 s2 :
    stack_of s !! tsk = None -> (forall x, vm = Some x -> x ∉ mapped s) ->
    dup_stack n kb cpu cpu' vm fails err tsk s = Ok (b, s1) -> life s1 s2 -> life s s2
| life_run tsk x s s2 : stack_of s !! tsk = Some x -> life (dirty x s) s2 -> life s s2
| life_exit cpu t tsk x s s1 s2 :
    stack_of s !! tsk = Some x -> release_task_stack n kb cpu t tsk s = Ok s1 -> life s1 s2 -> life s s2
| life_cpu cpu s s1 s2 : free_vm_stack_cache cpu s = Ok s1 -> life s1 s2 -> life s s2.

Lemma life_sound s s' : life s s' -> sound 0 s -> sound 0 s'.
Proof.
  induction 1 as [s|cpu cpu' vm fails err tsk s b s1 s2 Ht Hvm E _ IH|tsk x s s2 Hx _ IH|
    cpu t tsk x s s1 s2 Hx E _ IH|cpu s s1 s2 E _ IH]; intros Hs; [done|apply IH..].
  - destruct (dup_stack_cases cpu cpu' vm fails err tsk s Hs Ht Hvm) as (b' & s' & E' & Hs' & _). congruence.
  - by apply dirty_sound.
  - destruct (release_cases cpu t tsk x s Hs Hx) as (s' & E' & Hs' & _). congruence.
  - destruct (cache_sound cpu 0 NR_CACHED_STACKS 0 s Hs) as (s' & E' & Hs' & _). unfold free_vm_stack_cache in E. congruence.
Qed.
End facts.

(** C29. Kernel stacks: after every history of forks with any failures, of tasks
    running, of exits and of processors going away, each mapped stack is in use
    by exactly one task or in exactly one slot of a cache, never both, so none
    is lost, shared or freed twice; the memory charged and the memory of the
    zones are exactly that of the charged pages and of the tasks' stacks.  The
    next fork is defined, and if it succeeds the stack it takes was used by no
    task and has no stale contents; the next exit of a dead task and the next
    emptying of a cache are defined too. *)
Theorem stacks_safe (n : nat) (kb : Z) (s s' : stacks) (Hs : sound n kb 0 s) (Hl : life n kb s s') :
  (forall x, x ∈ mapped s' <-> (exists t, stack_of s' !! t = Some x) \/ (exists l, cached s' !! l = Some x)) /\
  (forall t1 t2 x, stack_of s' !! t1 = Some x -> stack_of s' !! t2 = Some x -> t1 = t2) /\
  (forall l1 l2 x, cached s' !! l1 = Some x -> cached s' !! l2 = Some x -> l1 = l2) /\
  (forall t l x, stack_of s' !! t = Some x -> cached s' !! l <> Some x) /\
  memcg_kb s' = kb * Z.of_nat (size (charged s')) /\
  zone_kb s' = Z.of_nat n * (kb * Z.of_nat (size (stack_of s'))) /\
  (forall cpu cpu' vm fails err tsk, stack_of s' !! tsk = None -> (forall x, vm = Some x -> x ∉ mapped s') ->
   exists b s2, dup_stack n kb cpu cpu' vm fails err tsk s' = Ok (b, s2) /\
     if b then exists x, stack_of s2 !! tsk = Some x /\ (forall t, stack_of s' !! t <> Some x) /\ x ∈ zeroed s2
     else stack_of s2 = stack_of s') /\
  (forall cpu t tsk x, stack_of s' !! tsk = Some x -> state t = TASK_DEAD ->
   exists s2, release_task_stack n kb cpu t tsk s' = Ok s2 /\ stack_of s2 = delete tsk (stack_of s')) /\
  (forall cpu, exists s2, free_vm_stack_cache cpu s' = Ok s2 /\ stack_of s2 = stack_of s' /\
     forall i, cached s2 !! (cpu, i) = None).
Proof.
  pose proof (life_sound _ _ _ _ Hl Hs) as Hs'. destruct (Hs') as [H1 H2 H3 H4 H5 H6 H7 H8].
  split_and!; try done.
  - lia.
  - intros cpu cpu' vm fails err tsk Ht Hvm.
    destruct (dup_stack_cases n kb cpu cpu' vm fails err tsk s' Hs' Ht Hvm) as (b & s2 & E & _ & H).
    exists b, s2. split; [done|]. destruct b; [|done]. destruct H as (x & -> & Hn & Hz). exists x.
    by rewrite lookup_insert_eq.
  - intros cpu t tsk x Hx Hd. destruct (release_cases n kb cpu t tsk x s' Hs' Hx) as (s2 & E & _ & H).
    exists s2. by rewrite decide_True in H.
  - intros cpu. destruct (cache_sound n kb cpu 0 NR_CACHED_STACKS 0 s' Hs') as (s2 & E & Hs2 & Hst & Hnone & Hj).
    exists s2. split_and!; [done|done|]. intros i. destruct (decide (i < NR_CACHED_STACKS)%nat); [apply Hj; lia|].
    apply Hnone. destruct (cached s' !! (cpu, i)) eqn:E'; [|done]. apply H5 in E'. lia.
Qed.

(** ** A concrete history

    A task is made, runs and exits; the next one takes over its stack. *)
Definition stacks0 : stacks := Stacks ∅ ∅ ∅ ∅ ∅ 0 0.

Lemma stacks0_sound : sound 4 4 0 stacks0.
Proof.
  split; cbn [stacks0 cached mapped zeroed stack_of charged memcg_kb zone_kb]; try done.
  intros x. split; [set_solver|]. intros [[t H]|[l H]]; done.
Qed.

Definition dead : task_struct := Task TASK_DEAD 0 0 7 7 "dead" 1 1 [] 7 0 0 0 0 0 0 0.
Definition run_stacks (r : run (bool * stacks)) : stacks := match r with Ok (_, s) => s | _ => stacks0 end.
Definition stacks1 : stacks := run_stacks (dup_stack 4 4 (fun _ => 0) (fun _ => 0) (Some 100) (fun _ => false) 0 7 stacks0).
Definition stacks2 : stacks := dirty 100 stacks1.
Definition stacks3 : stacks := match release_task_stack 4 4 (fun _ => 1) dead 7 stacks2 with Ok s => s | _ => stacks0 end.

Lemma stacks_safe_witness :
  exists s2, dup_stack 4 4 (fun _ => 1) (fun _ => 1) None (fun _ => false) 0 8 stacks3 = Ok (true, s2) /\
    stack_of s2 !! 8 = Some 100 /\ 100 ∈ zeroed s2.
Proof.
  assert (Hl : life 4 4 stacks0 stacks3).
  { eapply (life_fork 4 4 (fun _ => 0) (fun _ => 0) (Some 100) (fun _ => false) 0 7 stacks0 true stacks1);
      [done|intros x _; apply not_elem_of_empty|vm_compute; reflexivity|].
    eapply (life_run 4 4 7 100); [vm_compute; reflexivity|].
    eapply (life_exit 4 4 (fun _ => 1) dead 7 100 _ stacks3); [vm_compute; reflexivity|vm_compute; reflexivity|].
    apply life_nil. }
  destruct (stacks_safe 4 4 stacks0 stacks3 stacks0_sound Hl) as (_ & _ & _ & _ & _ & _ & Hf & _).
  destruct (Hf (fun _ => 1) (fun _ => 1) None (fun _ => false) 0 8) as (b & s2 & E & Hb);
    [vm_compute; reflexivity|done|].
  assert (E' : match dup_stack 4 4 (fun _ => 1) (fun _ => 1) None (fun _ => false) 0 8 stacks3 with
    | Ok (b, s) => b = true /\ stack_of s !! 8 = Some 100 | _ => False end) by (vm_compute; split; reflexivity).
  rewrite E in E'. destruct E' as [-> E']. destruct Hb as (x & Hx & _ & Hz). exists s2.
  rewrite E' in Hx. injection Hx as <-. exact (conj E (conj E' Hz)).
Defined.
