(* ===== verification/KVfork.v ===== *)
(** * [vfork]: the parent waits for the child

    The end of [_do_fork], [wait_for_vfork_done], [mm_release] and
    [complete_vfork_done] of [src/Assignment2/Assignment2-1/fork.c].  The
    completion lies on the stack of the parent, which can be killed while it
    waits; the lock of the child's task structure orders the two. *)

From Stdlib Require Import ZArith Lia String.
From stdpp Require Import base numbers list option relations.
From S2P Require Import Prelude.

Local Open Scope Z_scope.

(** Where the parent is. *)
Inductive parent_pc :=
| PStart                         (** before [vfork_done] is set *)
| PWaiting                       (** [wait_for_completion_killable] *)
| PKilled                        (** before [task_lock (child)] *)
| PLocked                        (** before [child->vfork_done = NULL] *)
| PCleared                       (** before [task_unlock (child)] *)
| PPut (killed : bool)           (** before [put_task_struct (child)] *)
| PReturned (killed : bool).     (** the frame with the completion is gone *)

(** Where the child is. *)
Inductive child_pc :=
| CNew                           (** not yet woken *)
| CRunning                       (** before [mm_release] tests [vfork_done] *)
| CSeen                          (** before [task_lock (tsk)] *)
| CLocked                        (** before it reads the pointer *)
| CHolds                         (** before [complete (vfork)] *)
| CUnlock                        (** before [task_unlock (tsk)] *)
| CReleased                      (** the address space is released *)
| CReaped.

#[global] Instance parent_pc_eq_dec : EqDecision parent_pc.
Proof. solve_decision. Defined.
#[global] Instance child_pc_eq_dec : EqDecision child_pc.
Proof. solve_decision. Defined.

Record vfork := Vfork {
  pp : parent_pc;
  cp : child_pc;
  vfork_done : bool;             (** the field points to the completion *)
  completed : bool;
  locked : bool;                 (** [task_lock] of the child *)
  usage : Z }.                   (** references to the child's structure *)

(** The test and the second half of [mm_release]: the user's word for
    [clear_child_tid] is cleared, and its futex woken, unless the group dumps
    core or nobody shares the memory. *)
Inductive user_effect := PutUser (addr value : Z) | FutexWake (addr n : Z).
Definition release_tid (clear_child_tid : option Z) (coredump : bool) (mm_users : Z) : list user_effect * option Z :=
  match clear_child_tid with
  | Some a => (if negb coredump && bool_decide (1 < mm_users) then [PutUser a 0; FutexWake a 1] else [], None)
  | None => ([], None)
  end.

(** One action of the parent, without and with a fatal signal; [None] when it
    has to wait, [Undef] when it touches a freed structure. *)
Definition parent_step (signal : bool) (v : vfork) : option (run vfork) :=
  let '(Vfork p c d done l u) := v in
  match p with
  | PStart => Some (Ok (Vfork PWaiting CRunning true false l (u + 1)))
  | PWaiting => if done then Some (Ok (Vfork (PPut false) c d done l u))
                else if signal then Some (Ok (Vfork PKilled c d done l u)) else None
  | PKilled => if decide (u <= 0) then Some Undef
               else if l then None else Some (Ok (Vfork PLocked c d done true u))
  | PLocked => Some (Ok (Vfork PCleared c false done l u))
  | PCleared => Some (Ok (Vfork (PPut true) c d done false u))
  | PPut k => Some (if decide (u <= 0) then Undef else Ok (Vfork (PReturned k) c d done l (u - 1)))
  | PReturned _ => None
  end.

(** One action of the child.  Completing what is on a dead stack frame is
    undefined. *)
Definition child_step (v : vfork) : option (run vfork) :=
  let '(Vfork p c d done l u) := v in
  match c with
  | CNew => None
  | CRunning => Some (Ok (Vfork p (if d then CSeen else CReleased) d done l u))
  | CSeen => if l then None else Some (Ok (Vfork p CLocked d done true u))
  | CLocked => Some (Ok (if d then Vfork p CHolds false done l u else Vfork p CUnlock d done l u))
  | CHolds => Some (match p with PReturned _ => Undef | _ => Ok (Vfork p CUnlock d true l u) end)
  | CUnlock => Some (Ok (Vfork p CReleased d done false u))
  | CReleased => Some (if decide (u <= 0) then Undef else Ok (Vfork p CReaped d done l (u - 1)))
  | CReaped => None
  end.

(** The new child before [vfork_done] is set. *)
Definition vfork0 : vfork := Vfork PStart CNew false false false 1.

Inductive vstep : vfork -> run vfork -> Prop :=
| vstep_parent signal v r : parent_step signal v = Some r -> vstep v r
| vstep_child v r : child_step v = Some r -> vstep v r.

Definition moves (v v' : vfork) : Prop := vstep v (Ok v').

(** ** The invariant *)
Definition parent_locks (p : parent_pc) : bool := match p with PLocked | PCleared => true | _ => false end.
Definition child_locks (c : child_pc) : bool := match c with CLocked | CHolds | CUnlock => true | _ => false end.
Definition parent_ref (p : parent_pc) : Z := match p with PStart | PReturned _ => 0 | _ => 1 end.
Definition released (c : child_pc) : bool := match c with CUnlock | CReleased | CReaped => true | _ => false end.

(** What the parent's place says about the pointer and the completion. *)
Definition agrees (v : vfork) : bool :=
  match pp v with
  | PStart => bool_decide (cp v = CNew) && negb (vfork_done v) && negb (completed v)
  | PWaiting | PKilled =>
      match cp v with
      | CRunning | CSeen | CLocked => vfork_done v && negb (completed v)
      | CHolds => negb (vfork_done v) && negb (completed v)
      | CUnlock | CReleased | CReaped => negb (vfork_done v) && completed v
      | CNew => false
      end
  | PLocked => match cp v with
               | CRunning | CSeen => vfork_done v && negb (completed v)
               | CReleased | CReaped => negb (vfork_done v) && completed v
               | _ => false
               end
  | PCleared | PPut true | PReturned true => negb (vfork_done v) && negb (bool_decide (cp v = CHolds)) && negb (bool_decide (cp v = CNew))
  | PPut false | PReturned false => negb (vfork_done v) && completed v && released (cp v)
  end.

Record vinv (v : vfork) : Prop := {
  vi_lock : locked v = parent_locks (pp v) || child_locks (cp v);
  vi_one : parent_locks (pp v) && child_locks (cp v) = false;
  vi_usage : usage v = parent_ref (pp v) + (if decide (cp v = CReaped) then 0 else 1);
  vi_agrees : agrees v = true }.

Ltac solve_vinv := split; cbn in *; repeat case_decide; try done; try lia; try congruence.

Lemma parent_vinv s v r : vinv v -> parent_step s v = Some r -> exists v', r = Ok v' /\ vinv v'.
Proof.
  destruct v as [p c d done l u]. intros [H1 H2 H3 H4] E. cbn [pp cp vfork_done completed locked usage] in *.
  destruct p as [| | | | |k|k], c; destruct d, done, l, s; try (by destruct k); try discriminate; cbn in *;
    repeat case_decide; simplify_eq; try lia; eexists; (split; [reflexivity|]); try (destruct k; try discriminate); solve_vinv.
Qed.

Lemma child_vinv v r : vinv v -> child_step v = Some r -> exists v', r = Ok v' /\ vinv v'.
Proof.
  destruct v as [p c d done l u]. intros [H1 H2 H3 H4] E. cbn [pp cp vfork_done completed locked usage] in *.
  destruct p as [| | | | |k|k], c; destruct d, done, l; try (by destruct k); try discriminate; cbn in *;
    repeat case_decide; simplify_eq; try lia; eexists; (split; [reflexivity|]); try (destruct k; try discriminate); solve_vinv.
Qed.

Lemma vstep_vinv v r : vinv v -> vstep v r -> exists v', r = Ok v' /\ vinv v'.
Proof. intros Hv H. destruct H; eauto using parent_vinv, child_vinv. Qed.

Lemma vfork0_vinv : vinv vfork0.
Proof. by split. Qed.

Lemma reach_vinv v : rtc moves vfork0 v -> vinv v.
Proof.
  intros H. assert (Hall : forall x y, rtc moves x y -> vinv x -> vinv y).
  { induction 1 as [|x y z Hxy _ IH]; [done|]. intros Hx. apply IH.
    destruct (vstep_vinv _ _ Hx Hxy) as (v' & [= <-] & Hv'). done. }
  by eapply Hall, vfork0_vinv.
Qed.

(** ** Progress *)
Definition parent_rank (p : parent_pc) : nat :=
  match p with PStart => 6 | PWaiting => 5 | PKilled => 4 | PLocked => 3 | PCleared => 2 | PPut _ => 1 | PReturned _ => 0 end.
Definition child_rank (c : child_pc) : nat :=
  match c with CNew => 7 | CRunning => 6 | CSeen => 5 | CLocked => 4 | CHolds => 3 | CUnlock => 2 | CReleased => 1 | CReaped => 0 end.
Definition rank (v : vfork) : nat := parent_rank (pp v) + child_rank (cp v).

Lemma moves_rank v v' : vinv v -> moves v v' -> (rank v' < rank v)%nat.
Proof.
  intros [_ _ _ H4] H. unfold rank. destruct v as [p c d done l u]. cbn in H4.
  inversion H as [s v1 r E|v1 r E]; subst; cbn in E.
  - destruct p as [| | | | |k|k]; repeat case_match; simplify_eq; cbn; try lia. destruct c; try discriminate; cbn; lia.
  - destruct c; repeat case_match; simplify_eq; cbn; lia.
Qed.

Lemma stuck_final v : vinv v -> parent_step false v = None -> child_step v = None ->
  exists k, pp v = PReturned k /\ cp v = CReaped /\ usage v = 0.
Proof.
  destruct v as [p c d done l u]. intros [H1 H2 H3 H4] E1 E2. cbn [pp cp vfork_done completed locked usage] in *.
  destruct p as [| | | | |k|k], c; destruct d, done, l; try discriminate; cbn in *; repeat case_decide; try discriminate;
    try lia; destruct k; cbn in *; try discriminate; try done; eexists; (split; [done|split; [done|lia]]).
Qed.

(** C32. [vfork]: in every interleaving of parent and child, with a fatal signal
    for the parent at any time, neither touches memory that is gone: the child
    never completes on the dead stack frame of its parent, and nobody uses or
    drops a freed task structure.  A parent that returns without being killed
    does so after the child has released the address space.  The two cannot
    block each other: a state in which the child and a parent without signals
    have nothing to do is the end, with all references given back, and every
    action brings it nearer. *)
Theorem vfork_safe (v : vfork) (Hv : rtc moves vfork0 v) :
  (forall r, vstep v r -> exists v', r = Ok v' /\ (rank v' < rank v)%nat) /\
  (pp v = PReturned false -> completed v = true /\ released (cp v) = true) /\
  (pp v = PReturned true -> vfork_done v = false /\ cp v <> CHolds) /\
  (parent_step false v = None -> child_step v = None ->
   exists k, pp v = PReturned k /\ cp v = CReaped /\ usage v = 0).
Proof.
  pose proof (reach_vinv v Hv) as Hi. split_and!.
  - intros r Hr. destruct (vstep_vinv _ _ Hi Hr) as (v' & -> & _). exists v'. split; [done|]. by apply moves_rank.
  - intros E. destruct Hi as [_ _ _ H]. unfold agrees in H. rewrite E in H. by destruct (vfork_done v), (completed v).
  - intros E. destruct Hi as [_ _ _ H]. unfold agrees in H. rewrite E in H.
    destruct (vfork_done v); [done|]. split; [done|]. intros E'. by rewrite E' in H.
  - by apply stuck_final.
Qed.

(** The parent is killed just after the child has read the pointer. *)
Lemma vfork_safe_witness :
  exists v, rtc moves vfork0 v /\ pp v = PKilled /\ cp v = CHolds /\
    (forall r, vstep v r -> exists v', r = Ok v' /\ (rank v' < rank v)%nat).
Proof.
  assert (H : rtc moves vfork0 (Vfork PKilled CHolds false false true 2)).
  { eapply rtc_l; [apply (vstep_parent false); reflexivity|].
    eapply rtc_l; [apply vstep_child; reflexivity|].
    eapply rtc_l; [apply vstep_child; reflexivity|].
    eapply rtc_l; [apply vstep_child; reflexivity|].
    eapply rtc_l; [apply (vstep_parent true); reflexivity|]. apply rtc_refl. }
  eexists. split; [exact H|]. split; [reflexivity|]. split; [reflexivity|].
  exact (proj1 (vfork_safe _ H)).
Defined.
