(* ===== verification/KMm.v ===== *)
(** * The life of an address space

    The functions of [src/Assignment2/Assignment2-1/fork.c] that make, share
    and free [mm_struct]: two reference counts, one for the users of the
    memory and one for the structure, and work that is put off. *)

From Stdlib Require Import ZArith Lia String.
From stdpp Require Import base numbers list option strings gmap fin_sets.
From S2P Require Import Prelude CText Hook Sched Tracer ProcInfo KFork.

Local Open Scope Z_scope.

(** ** State *)
Record mm_rec := MmRec {
  mm_users : Z;
  mm_count : Z;
  exe : option Z;                (** [exe_file] *)
  binfmt : option Z;             (** the module of [binfmt] *)
  user_ns : Z;
  mm_flags : Z;
  def_flags : Z;
  owner : option Z;
  on_list : bool }.              (** linked in [mmlist] *)

Inductive work := WPut (mm : Z) | WDrop (mm : Z).

#[global] Instance work_eq_dec : EqDecision work.
Proof. solve_decision. Defined.

Record mem := Mem {
  mms : gmap Z mm_rec;
  file_refs : gmap Z Z;
  mod_refs : gmap Z Z;
  ns_refs : gmap Z Z;
  pgds : gset Z;                 (** address spaces with a page directory *)
  contexts : gset Z;             (** and with an architecture's context *)
  works : list work }.           (** [schedule_work] *)

Definition set_mms (x : gmap Z mm_rec) (m : mem) : mem :=
  Mem x (file_refs m) (mod_refs m) (ns_refs m) (pgds m) (contexts m) (works m).
Definition set_works (x : list work) (m : mem) : mem :=
  Mem (mms m) (file_refs m) (mod_refs m) (ns_refs m) (pgds m) (contexts m) x.

Definition ref (r : gmap Z Z) (i : Z) : Z := default 0 (r !! i).
Definition ref_add (n i : Z) (r : gmap Z Z) : gmap Z Z := <[i := ref r i + n]> r.
Definition ref_opt (n : Z) (o : option Z) (r : gmap Z Z) : gmap Z Z :=
  match o with Some i => ref_add n i r | None => r end.

(** The structure at [i]; without it every access is undefined. *)
Definition at_mm {A} (i : Z) (m : mem) (f : mm_rec -> run A) : run A :=
  match mms m !! i with Some r => f r | None => Undef end.

Definition set_users (n : Z) (r : mm_rec) : mm_rec :=
  MmRec n (mm_count r) (exe r) (binfmt r) (user_ns r) (mm_flags r) (def_flags r) (owner r) (on_list r).
Definition set_count (n : Z) (r : mm_rec) : mm_rec :=
  MmRec (mm_users r) n (exe r) (binfmt r) (user_ns r) (mm_flags r) (def_flags r) (owner r) (on_list r).
Definition set_exe (f : option Z) (r : mm_rec) : mm_rec :=
  MmRec (mm_users r) (mm_count r) f (binfmt r) (user_ns r) (mm_flags r) (def_flags r) (owner r) (on_list r).
Definition set_binfmt (b : option Z) (o : option Z) (r : mm_rec) : mm_rec :=
  MmRec (mm_users r) (mm_count r) (exe r) b (user_ns r) (mm_flags r) (def_flags r) o (on_list r).
(** The module of the binary format is not looked at again: the model forgets it. *)
Definition unlist (r : mm_rec) : mm_rec :=
  MmRec (mm_users r) (mm_count r) (exe r) None (user_ns r) (mm_flags r) (def_flags r) (owner r) false.

(** ** Making one *)

(** [MMF_INIT_MASK], [VM_INIT_DEF_MASK] and [default_dump_filter]. *)
Record masks := Masks { MMF_INIT_MASK : Z; VM_INIT_DEF_MASK : Z; default_dump_filter : Z }.

Definition set_pgds (x : gset Z) (m : mem) : mem :=
  Mem (mms m) (file_refs m) (mod_refs m) (ns_refs m) x (contexts m) (works m).
Definition mm_free_pgd (i : Z) (m : mem) : mem := set_pgds (pgds m ∖ {[i]}) m.

(** [mm_init] on a structure that is allocated and whose [binfmt] is [b];
    [cur] is [current->mm]. *)
Definition mm_init (k : masks) (pgd_ok context_ok : bool) (cur : option mm_rec) (b : option Z) (p ns i : Z) (m : mem)
  : bool * mem :=
  let '(fl, df) := match cur with
                   | Some c => (Z.land (mm_flags c) (MMF_INIT_MASK k), Z.land (def_flags c) (VM_INIT_DEF_MASK k))
                   | None => (default_dump_filter k, 0)
                   end in
  let fail_nopgd m := (false, set_mms (delete i (mms m)) m) in
  let fail_nocontext m := fail_nopgd (mm_free_pgd i m) in
  if negb pgd_ok then fail_nopgd m else
  let m := set_pgds (pgds m ∪ {[i]}) m in
  if negb context_ok then fail_nocontext m else
  (true, Mem (<[i := MmRec 1 1 None b ns fl df (Some p) false]> (mms m)) (file_refs m) (mod_refs m)
           (ref_add 1 ns (ns_refs m)) (pgds m) (contexts m ∪ {[i]}) (works m)).

(** [alloc] is the answer of [allocate_mm]; the structure is cleared. *)
Definition mm_alloc (k : masks) (alloc : option Z) (pgd_ok context_ok : bool) (cur : option mm_rec) (p ns : Z) (m : mem)
  : option Z * mem :=
  match alloc with
  | None => (None, m)
  | Some i => let '(ok, m) := mm_init k pgd_ok context_ok cur None p ns i m in (if ok then Some i else None, m)
  end.

(** ** The executable *)
Definition set_mm_exe_file (new : option Z) (i : Z) (m : mem) : run mem :=
  at_mm i m (fun r =>
    let f := ref_opt 1 new (file_refs m) in
    Ok (Mem (<[i := set_exe new r]> (mms m)) (ref_opt (-1) (exe r) f) (mod_refs m) (ns_refs m) (pgds m) (contexts m) (works m))).

(** [alive] is the answer of [get_file_rcu]. *)
Definition get_exe (alive : bool) (i : Z) (m : mem) : run (option Z * mem) :=
  at_mm i m (fun r =>
    match exe r with
    | Some f => if alive then Ok (Some f, Mem (mms m) (ref_add 1 f (file_refs m)) (mod_refs m) (ns_refs m) (pgds m) (contexts m) (works m))
                else Ok (None, m)
    | None => Ok (None, m)
    end).

(** ** Freeing one *)

(** The last reference to the structure is gone. *)
Definition mmdrop_ (i : Z) (m : mem) : run mem :=
  at_mm i m (fun r =>
    if decide (i ∈ pgds m /\ i ∈ contexts m) then
      Ok (Mem (delete i (mms m)) (file_refs m) (mod_refs m) (ref_add (-1) (user_ns r) (ns_refs m))
            (pgds m ∖ {[i]}) (contexts m ∖ {[i]}) (works m))
    else Undef).

Definition mmdrop (i : Z) (m : mem) : run mem :=
  at_mm i m (fun r =>
    let m := set_mms (<[i := set_count (mm_count r - 1) r]> (mms m)) m in
    if decide (mm_count r - 1 = 0) then mmdrop_ i m else Ok m).

Definition mmdrop_async (i : Z) (m : mem) : run mem :=
  at_mm i m (fun r =>
    let m := set_mms (<[i := set_count (mm_count r - 1) r]> (mms m)) m in
    if decide (mm_count r - 1 = 0) then Ok (set_works (works m ++ [WDrop i]) m) else Ok m).

(** The last user is gone; [exit_mmap] and the like are left out. *)
Definition mmput_ (i : Z) (m : mem) : run mem :=
  at_mm i m (fun r =>
    if decide (mm_users r <> 0) then Undef else
    m ← set_mm_exe_file None i m;
    at_mm i m (fun r =>
      mmdrop i (Mem (<[i := unlist r]> (mms m)) (file_refs m) (ref_opt (-1) (binfmt r) (mod_refs m)) (ns_refs m)
                  (pgds m) (contexts m) (works m)))).

Definition mmput (i : Z) (m : mem) : run mem :=
  at_mm i m (fun r =>
    let m := set_mms (<[i := set_users (mm_users r - 1) r]> (mms m)) m in
    if decide (mm_users r - 1 = 0) then mmput_ i m else Ok m).

Definition mmput_async (i : Z) (m : mem) : run mem :=
  at_mm i m (fun r =>
    let m := set_mms (<[i := set_users (mm_users r - 1) r]> (mms m)) m in
    if decide (mm_users r - 1 = 0) then Ok (set_works (works m ++ [WPut i]) m) else Ok m).

(** [mmput_async_fn] and [mmdrop_async_fn], for the work at the head. *)
Definition run_work (m : mem) : run mem :=
  match works m with
  | [] => Ok m
  | WPut i :: ws => mmput_ i (set_works ws m)
  | WDrop i :: ws => mmdrop_ i (set_works ws m)
  end.

(** ** Sharing one *)
Definition mmget (i : Z) (m : mem) : run mem :=
  at_mm i m (fun r => Ok (set_mms (<[i := set_users (mm_users r + 1) r]> (mms m)) m)).
Definition mmgrab (i : Z) (m : mem) : run mem :=
  at_mm i m (fun r => Ok (set_mms (<[i := set_count (mm_count r + 1) r]> (mms m)) m)).

(** A task by its flags and its [mm]. *)
Definition get_task_mm (flags : Z) (mm : option Z) (m : mem) : run (option Z * mem) :=
  match mm with
  | Some i => if has flags PF_KTHREAD then Ok (None, m) else m ← mmget i m; Ok (Some i, m)
  | None => Ok (None, m)
  end.

Definition get_task_exe_file (flags : Z) (mm : option Z) (alive : bool) (m : mem) : run (option Z * mem) :=
  match mm with
  | Some i => if has flags PF_KTHREAD then Ok (None, m) else get_exe alive i m
  | None => Ok (None, m)
  end.

Definition EACCES : Z := 13.

(** [lock_err] is the answer of [down_read_killable], [may] of
    [ptrace_may_access], and [readers] counts the holders of
    [exec_update_lock]. *)
Definition mm_access (flags : Z) (mm cur_mm : option Z) (lock_err : Z) (may : bool) (m : mem) (readers : Z)
  : run ((Z + option Z) * mem * Z) :=
  if decide (lock_err <> 0) then Ok (inl lock_err, m, readers) else
  let readers := readers + 1 in
  '(r, m) ← get_task_mm flags mm m;
  match r with
  | Some i =>
      if bool_decide (Some i <> cur_mm) && negb may
      then m ← mmput i m; Ok (inl (- EACCES), m, readers - 1)
      else Ok (inr r, m, readers - 1)
  | None => Ok (inr None, m, readers - 1)
  end.

(** ** Copying one

    [dup_mmap] answers an error, and whether it came to take a reference to
    the executable; [module_ok] is the answer of [try_module_get]. *)
Definition dup_mm (k : masks) (alloc : option Z) (pgd_ok context_ok : bool) (dup_mmap : Z) (takes_exe module_ok : bool)
    (old tsk : Z) (m : mem) : run (option Z * mem) :=
  at_mm old m (fun o =>
    match alloc with
    | None => Ok (None, m)
    | Some i =>
        let '(ok, m) := mm_init k pgd_ok context_ok (Some o) (binfmt o) tsk (user_ns o) i m in
        if negb ok then Ok (None, m) else
        m ← (if takes_exe then '(f, m) ← get_exe true old m;
                                at_mm i m (fun r => Ok (set_mms (<[i := set_exe f r]> (mms m)) m))
             else Ok m);
        let free_pt m := at_mm i m (fun r => m ← mmput i (set_mms (<[i := set_binfmt None None r]> (mms m)) m); Ok (None, m)) in
        if decide (dup_mmap <> 0) then free_pt m else
        match binfmt o with
        | Some b => if module_ok then Ok (Some i, Mem (mms m) (file_refs m) (ref_add 1 b (mod_refs m)) (ns_refs m)
                                            (pgds m) (contexts m) (works m))
                    else free_pt m
        | None => Ok (Some i, m)
        end
    end).
