(* ===== verification/KMmFacts.v ===== *)
(** * Theorems on the life of an address space

    An address space lives exactly as long as somebody uses it or holds on to
    its structure, and when it goes everything it held is given back. *)

From Stdlib Require Import ZArith Lia String.
From stdpp Require Import base numbers list option strings gmap fin_sets.
From S2P Require Import Prelude CText Hook Sched Tracer ProcInfo KFork KMm.

Local Open Scope Z_scope.

(** ** Counting *)
Definition number {A} (P : A -> bool) (m : gmap Z A) : Z := Z.of_nat (size (filter (fun x => P x.2 = true) m)).
Definition bz (b : bool) : Z := if b then 1 else 0.

Section number.
Context {A : Type} (P : A -> bool).
Implicit Types m : gmap Z A.

Lemma number_insert m i x : m !! i = None -> number P (<[i := x]> m) = number P m + bz (P x).
Proof.
  intros Hi. unfold number. destruct (P x) eqn:E; cbn [bz].
  - rewrite map_filter_insert_True by done. rewrite map_size_insert_None; [lia|]. apply map_lookup_filter_None. by left.
  - rewrite map_filter_insert_False by (cbn; congruence). rewrite delete_id by done. lia.
Qed.

Lemma number_delete m i x : m !! i = Some x -> number P (delete i m) = number P m - bz (P x).
Proof.
  intros Hi. rewrite <- (insert_id m i x Hi) at 2. rewrite <- insert_delete_eq.
  rewrite number_insert by apply lookup_delete_eq. lia.
Qed.

Lemma number_update m i x y : m !! i = Some x -> number P (<[i := y]> m) = number P m - bz (P x) + bz (P y).
Proof.
  intros Hi. rewrite <- insert_delete_eq, number_insert by apply lookup_delete_eq.
  by rewrite (number_delete m i x Hi).
Qed.
End number.

Lemma ref_insert r i n j : ref (<[i := n]> r) j = if decide (i = j) then n else ref r j.
Proof. unfold ref. case_decide; [subst; by rewrite lookup_insert_eq|by rewrite lookup_insert_ne]. Qed.

Lemma ref_ref_add n i r j : ref (ref_add n i r) j = ref r j + (if decide (i = j) then n else 0).
Proof. unfold ref_add. rewrite ref_insert. case_decide; subst; lia. Qed.

Definition names_it (o : option Z) (f : Z) : bool := bool_decide (o = Some f).

Lemma names_none f : names_it None f = false.
Proof. by apply bool_decide_eq_false_2. Qed.

Lemma ref_ref_opt n o r j : ref (ref_opt n o r) j = ref r j + n * bz (names_it o j).
Proof.
  unfold names_it. destruct o as [i|]; cbn [ref_opt].
  - rewrite ref_ref_add. case_decide; [subst; rewrite bool_decide_eq_true_2 by done|rewrite bool_decide_eq_false_2 by congruence]; cbn; lia.
  - rewrite bool_decide_eq_false_2 by done. cbn. lia.
Qed.

(** ** The invariant

    [U] and [L] are the numbers of users and of those who hold the structure
    only, and [ws] is the work to do.  The counts of files, modules and
    namespaces are those at the start and one for each address space that
    names them. *)
Section life.
Context (bf bn : Z -> Z).

Definition pending (i : Z) (ws : list work) : Z := if decide (WPut i ∈ ws) then 1 else 0.
Definition in_use (U : gmap Z Z) (i : Z) : Z := if decide (0 < ref U i) then 1 else 0.

Record counted (U L : gmap Z Z) (ws : list work) (i : Z) (r : mm_rec) : Prop := {
  ct_users : mm_users r = ref U i;
  ct_pos : 0 <= ref U i /\ 0 <= ref L i;
  ct_count : mm_count r = ref L i + in_use U i + pending i ws;
  ct_put : WPut i ∈ ws -> ref U i = 0;
  ct_drop : (WDrop i ∈ ws) <-> (mm_count r = 0);
  ct_idle : ref U i = 0 -> WPut i ∉ ws -> exe r = None /\ binfmt r = None }.

Record alive (bm : Z -> Z) (U L : gmap Z Z) (ws : list work) (m : mem) : Prop := {
  al_live i r : mms m !! i = Some r -> counted U L ws i r;
  al_dead i : mms m !! i = None -> ref U i = 0 /\ ref L i = 0 /\ (WPut i ∉ ws) /\ (WDrop i ∉ ws);
  al_works : NoDup ws;
  al_pgd i : i ∈ pgds m <-> is_Some (mms m !! i);
  al_context i : i ∈ contexts m <-> is_Some (mms m !! i);
  al_files f : ref (file_refs m) f = bf f + number (fun r => names_it (exe r) f) (mms m);
  al_mods f : ref (mod_refs m) f = bm f + number (fun r => names_it (binfmt r) f) (mms m);
  al_ns f : ref (ns_refs m) f = bn f + number (fun r => bool_decide (user_ns r = f)) (mms m) }.

(** The invariant looks at the numbers and at the set of work only. *)
Lemma counted_ext U L ws U' L' ws' i r :
  (ref U' i = ref U i) -> (ref L' i = ref L i) ->
  (WPut i ∈ ws' <-> WPut i ∈ ws) -> (WDrop i ∈ ws' <-> WDrop i ∈ ws) ->
  counted U L ws i r -> counted U' L' ws' i r.
Proof.
  intros EU EL E1 E2 [H1 H2 H3 H4 H5 H6]. unfold in_use, pending in H3.
  split; unfold in_use, pending; rewrite ?EU, ?EL, ?E1, ?E2; try done.
  rewrite H3. f_equal. repeat case_decide; tauto || lia.
Qed.

Lemma alive_ext bm U L ws U' L' ws' m :
  (forall i, ref U' i = ref U i) -> (forall i, ref L' i = ref L i) -> ws' ≡ₚ ws -> alive bm U L ws m -> alive bm U' L' ws' m.
Proof.
  intros EU EL Ep [H1 H2 H3 H4 H5 H6 H7 H8]. split; try done.
  - intros i r Hi. eapply (counted_ext U L ws); [done|done|by rewrite Ep|by rewrite Ep|by apply H1].
  - intros i. rewrite EU, EL, Ep. apply H2.
  - by rewrite Ep.
Qed.

Lemma alive_set_works bm U L ws x m : alive bm U L ws m -> alive bm U L ws (set_works x m).
Proof. intros [H1 H2 H3 H4 H5 H6 H7 H8]. by split. Qed.

(** A step that changes one structure, the numbers at its address and the work
    for it. *)
Lemma alive_update bm bm' U L ws m U' L' ws' i r r' m' :
  alive bm U L ws m -> mms m !! i = Some r -> counted U' L' ws' i r' -> NoDup ws' ->
  (forall j, j <> i -> ref U' j = ref U j /\ ref L' j = ref L j /\
     (WPut j ∈ ws' <-> WPut j ∈ ws) /\ (WDrop j ∈ ws' <-> WDrop j ∈ ws)) ->
  mms m' = <[i := r']> (mms m) -> pgds m' = pgds m -> contexts m' = contexts m -> user_ns r' = user_ns r ->
  ns_refs m' = ns_refs m ->
  (forall f, ref (file_refs m') f = ref (file_refs m) f - bz (names_it (exe r) f) + bz (names_it (exe r') f)) ->
  (forall f, ref (mod_refs m') f = ref (mod_refs m) f + (bm' f - bm f) - bz (names_it (binfmt r) f) + bz (names_it (binfmt r') f)) ->
  alive bm' U' L' ws' m'.
Proof.
  intros [H1 H2 H3 H4 H5 H6 H7 H8] Hi Hc Hnd Ho Em Ep Ec En Er Ef Eb.
  assert (Hsome : forall j, is_Some (mms m' !! j) <-> is_Some (mms m !! j)).
  { intros j. rewrite Em, lookup_insert_is_Some. destruct (decide (i = j)) as [<-|]; [rewrite Hi|]; naive_solver. }
  split.
  - intros j x. rewrite Em. destruct (decide (i = j)) as [<-|Hne].
    + rewrite lookup_insert_eq. by intros [= <-].
    + rewrite lookup_insert_ne by done. intros Hj. destruct (Ho j) as (E1 & E2 & E3 & E4); [done|].
      eapply counted_ext; [done..|]. by apply H1.
  - intros j. rewrite Em. destruct (decide (i = j)) as [<-|Hne]; [by rewrite lookup_insert_eq|].
    rewrite lookup_insert_ne by done. intros Hj. destruct (Ho j) as (-> & -> & -> & ->); [done|]. by apply H2.
  - done.
  - intros j. rewrite Ep, Hsome. apply H4.
  - intros j. rewrite Ec, Hsome. apply H5.
  - intros f. rewrite Ef, H6, Em, (number_update _ _ _ _ _ Hi). lia.
  - intros f. rewrite Eb, H7, Em, (number_update _ _ _ _ _ Hi). lia.
  - intros f. rewrite Er, H8, Em, (number_update _ _ _ _ _ Hi), En. lia.
Qed.

Section fixed.
Context (bm : Z -> Z).
Local Abbreviation alive := (alive bm).

Lemma add_other n i r j : j <> i -> ref (ref_add n i r) j = ref r j.
Proof. intros Hne. rewrite ref_ref_add, decide_False by done. lia. Qed.
Lemma add_here n i r : ref (ref_add n i r) i = ref r i + n.
Proof. by rewrite ref_ref_add, decide_True. Qed.

(** *** The structure *)
Lemma mmdrop__ok U L ws i m :
  alive U L (WDrop i :: ws) m ->
  exists m', mmdrop_ i m = Ok m' /\ alive U L ws m' /\ works m' = works m.
Proof.
  intros [H1 H2 H3 H4 H5 H6 H7 H8]. unfold mmdrop_, at_mm.
  destruct (mms m !! i) as [r|] eqn:Hi; [|destruct (H2 i Hi) as (_ & _ & _ & H); set_solver].
  rewrite decide_True by (rewrite H4, H5, Hi; eauto). eexists. split; [done|]. split; [|done].
  destruct (H1 i r Hi) as [C1 C2 C3 C4 C5 C6]. assert (C0 : mm_count r = 0) by (apply C5; set_solver).
  apply NoDup_cons in H3 as [Hn Hnd].
  assert (HU : ref U i = 0 /\ ref L i = 0 /\ WPut i ∉ ws).
  { unfold in_use, pending in C3. repeat case_decide; try lia. split_and!; [lia|lia|]. set_solver. }
  destruct (C6 (proj1 HU)) as [Hx Hb]; [set_solver|].
  assert (Hin : forall j, j <> i -> (WDrop j ∈ ws <-> WDrop j ∈ WDrop i :: ws) /\ (WPut j ∈ ws <-> WPut j ∈ WDrop i :: ws)).
  { intros j Hne. rewrite !elem_of_cons. split; (split; [by right|intros [[= ->]|Hw]; done]). }
  assert (Hsome : forall j (X : gset Z), (j ∈ X <-> is_Some (mms m !! j)) -> j ∈ X ∖ {[i]} <-> is_Some (delete i (mms m) !! j)).
  { intros j X HX. rewrite elem_of_difference, elem_of_singleton, HX, lookup_delete_is_Some. naive_solver. }
  split; cbn [mms pgds contexts file_refs mod_refs ns_refs].
  - intros j x Hj. apply lookup_delete_Some in Hj as [Hne Hj].
    destruct (Hin j) as [E1 E2]; [done|]. by eapply counted_ext; [..|apply (H1 j x Hj)].
  - intros j Hj. apply lookup_delete_None in Hj as [<-|Hj]; [tauto|].
    destruct (H2 j Hj) as (A & B & C & D). split_and!; [done|done|set_solver..].
  - done.
  - intros j. apply Hsome, H4.
  - intros j. apply Hsome, H5.
  - intros f. rewrite (number_delete _ _ _ _ Hi), H6. cbn beta. rewrite Hx, names_none. cbn. lia.
  - intros f. rewrite (number_delete _ _ _ _ Hi), H7. cbn beta. rewrite Hb, names_none. cbn. lia.
  - intros f. rewrite (number_delete _ _ _ _ Hi), ref_ref_add, H8.
    case_decide; [rewrite bool_decide_eq_true_2 by done|rewrite bool_decide_eq_false_2 by done]; cbn; lia.
Qed.

Lemma live_of_ref U L ws i m :
  alive U L ws m -> 1 <= ref U i \/ 1 <= ref L i -> exists r, mms m !! i = Some r /\ counted U L ws i r.
Proof.
  intros Ha Hr. destruct (mms m !! i) as [r|] eqn:E; [exists r; split; [done|by apply (al_live _ _ _ _ _ Ha)]|].
  destruct (al_dead _ _ _ _ _ Ha i E). lia.
Qed.

Ltac other_work := rewrite ?elem_of_cons; naive_solver.

(** One reference to the structure less: the last one leaves work to do. *)
Lemma drop_step U L ws i m r :
  alive U L ws m -> mms m !! i = Some r -> 1 <= ref L i ->
  alive U (ref_add (-1) i L) (if decide (mm_count r - 1 = 0) then WDrop i :: ws else ws)
    (set_mms (<[i := set_count (mm_count r - 1) r]> (mms m)) m).
Proof.
  intros Ha Hi HL. destruct (al_live _ _ _ _ _ Ha i r Hi) as [C1 C2 C3 C4 C5 C6].
  assert (Hc : in_use U i = 0 \/ in_use U i = 1) by (unfold in_use; case_decide; auto).
  assert (Hp : pending i ws = 0 \/ pending i ws = 1) by (unfold pending; case_decide; auto).
  assert (Hn : WDrop i ∉ ws) by (rewrite C5; lia).
  assert (Hput : forall ws', ws' = ws \/ ws' = WDrop i :: ws -> (WPut i ∈ ws' <-> WPut i ∈ ws)) by (intros ws' [-> | ->]; other_work).
  assert (Hpw : forall ws', ws' = ws \/ ws' = WDrop i :: ws -> pending i ws' = pending i ws).
  { intros ws' Hw. apply Hput in Hw. unfold pending. repeat case_decide; tauto. }
  eapply (alive_update bm bm U L ws m _ _ _ i r); try done.
  - split; cbn [set_count mm_users mm_count exe binfmt]; rewrite ?add_here.
    + done.
    + lia.
    + case_decide; [rewrite (Hpw (WDrop i :: ws)) by auto|]; lia.
    + case_decide; [rewrite (Hput (WDrop i :: ws)) by auto|]; auto.
    + case_decide; [split; [done|intros _; apply list_elem_of_here]|]. split; [done|lia].
    + case_decide; [rewrite (Hput (WDrop i :: ws)) by auto|]; auto.
  - case_decide; [|by apply (al_works _ _ _ _ _ Ha)]. apply NoDup_cons. split; [done|apply (al_works _ _ _ _ _ Ha)].
  - intros j Hne. rewrite add_other by done. split_and!; try done; case_decide; other_work.
  - intros f. cbn. lia.
  - intros f. cbn. lia.
Qed.

(** One user less. *)
Lemma user_step U L ws i m r :
  alive U L ws m -> mms m !! i = Some r -> 1 <= ref U i ->
  alive (ref_add (-1) i U) L (if decide (mm_users r - 1 = 0) then WPut i :: ws else ws)
    (set_mms (<[i := set_users (mm_users r - 1) r]> (mms m)) m).
Proof.
  intros Ha Hi HU. destruct (al_live _ _ _ _ _ Ha i r Hi) as [C1 C2 C3 C4 C5 C6].
  assert (Hn : WPut i ∉ ws) by (intros Hw; apply C4 in Hw; lia).
  assert (Hdrop : forall ws', ws' = ws \/ ws' = WPut i :: ws -> (WDrop i ∈ ws' <-> WDrop i ∈ ws)) by (intros ws' [-> | ->]; other_work).
  unfold in_use, pending in C3. rewrite decide_True, decide_False in C3 by (done || lia).
  eapply (alive_update bm bm U L ws m _ _ _ i r); try done.
  - split; cbn [set_users mm_users mm_count exe binfmt]; rewrite ?add_here.
    + lia.
    + lia.
    + unfold pending, in_use. rewrite add_here. destruct (decide (mm_users r - 1 = 0)).
      * rewrite decide_False, decide_True by (apply list_elem_of_here || lia). lia.
      * rewrite decide_True, decide_False by (done || lia). lia.
    + case_decide; [lia|done].
    + case_decide; [rewrite (Hdrop (WPut i :: ws)) by auto|]; auto.
    + case_decide; [intros _ Hw; exfalso; apply Hw, list_elem_of_here|lia].
  - case_decide; [|by apply (al_works _ _ _ _ _ Ha)]. apply NoDup_cons. split; [done|apply (al_works _ _ _ _ _ Ha)].
  - intros j Hne. rewrite add_other by done. split_and!; try done; case_decide; other_work.
  - intros f. cbn. lia.
  - intros f. cbn. lia.
Qed.

Lemma mmdrop_ok U L ws i m :
  alive U L ws m -> 1 <= ref L i ->
  exists m', mmdrop i m = Ok m' /\ alive U (ref_add (-1) i L) ws m' /\ works m' = works m.
Proof.
  intros Ha HL. destruct (live_of_ref U L ws i m Ha) as (r & Hi & _); [by right|].
  pose proof (drop_step U L ws i m r Ha Hi HL) as H. unfold mmdrop, at_mm. rewrite Hi.
  case_decide; [|eauto]. destruct (mmdrop__ok _ _ _ _ _ H) as (m' & E & Ha' & Ew). eauto.
Qed.

Lemma mmdrop_async_ok U L i m :
  alive U L (works m) m -> 1 <= ref L i ->
  exists m', mmdrop_async i m = Ok m' /\ alive U (ref_add (-1) i L) (works m') m'.
Proof.
  intros Ha HL. destruct (live_of_ref U L (works m) i m Ha) as (r & Hi & _); [by right|].
  pose proof (drop_step U L (works m) i m r Ha Hi HL) as H. unfold mmdrop_async, at_mm. rewrite Hi.
  case_decide; [|eauto]. eexists. split; [done|]. cbn [set_works works set_mms].
  eapply alive_ext; [done|done| |by apply alive_set_works]. by rewrite Permutation_app_comm.
Qed.

(** *** The users *)
Lemma mmput__ok U L ws i m :
  alive U L (WPut i :: ws) m ->
  exists m', mmput_ i m = Ok m' /\ alive U L ws m' /\ works m' = works m.
Proof.
  intros Ha. unfold mmput_, set_mm_exe_file, at_mm.
  destruct (mms m !! i) as [r|] eqn:Hi; [|destruct (al_dead _ _ _ _ _ Ha i Hi) as (_ & _ & H & _); set_solver].
  destruct (al_live _ _ _ _ _ Ha i r Hi) as [C1 C2 C3 C4 C5 C6].
  assert (HU : ref U i = 0) by (apply C4, list_elem_of_here).
  rewrite decide_False by lia. cbn [mbind run_bind mms]. rewrite lookup_insert_eq. cbn [binfmt set_exe ref_opt].
  set (m2 := Mem _ _ _ _ _ _ _).
  apply (al_works _ _ _ _ _) in Ha as Hnd. apply NoDup_cons in Hnd as [Hn Hnd].
  unfold in_use, pending in C3. rewrite decide_False, decide_True in C3 by (apply list_elem_of_here || lia).
  assert (Ha2 : alive U (ref_add 1 i L) ws m2).
  { eapply (alive_update bm bm U L (WPut i :: ws) m _ _ _ i r (unlist (set_exe None r))); try done.
    - split; cbn [unlist set_exe mm_users mm_count exe binfmt]; rewrite ?add_here; try done; try lia.
      + unfold in_use, pending. rewrite !decide_False by (done || lia). lia.
      + rewrite <- C5. other_work.
    - intros j Hne. rewrite add_other by done. split_and!; try done; other_work.
    - cbn [m2 mms]. by rewrite insert_insert_eq.
    - intros f. cbn [m2 file_refs unlist set_exe exe]. rewrite ref_ref_opt, names_none. cbn. lia.
    - intros f. cbn [m2 mod_refs unlist set_exe binfmt]. rewrite ref_ref_opt, names_none. cbn. lia. }
  destruct (mmdrop_ok _ _ _ i _ Ha2) as (m' & E & Ha' & Ew); [rewrite add_here; lia|].
  exists m'. split; [done|]. split; [|done]. eapply alive_ext; [done| |done|done].
  intros j. rewrite !ref_ref_add. case_decide; lia.
Qed.

Lemma mmput_ok U L ws i m :
  alive U L ws m -> 1 <= ref U i ->
  exists m', mmput i m = Ok m' /\ alive (ref_add (-1) i U) L ws m' /\ works m' = works m.
Proof.
  intros Ha HU. destruct (live_of_ref U L ws i m Ha) as (r & Hi & _); [by left|].
  pose proof (user_step U L ws i m r Ha Hi HU) as H. unfold mmput, at_mm. rewrite Hi.
  case_decide; [|eauto]. destruct (mmput__ok _ _ _ _ _ H) as (m' & E & Ha' & Ew). eauto.
Qed.

Lemma mmput_async_ok U L i m :
  alive U L (works m) m -> 1 <= ref U i ->
  exists m', mmput_async i m = Ok m' /\ alive (ref_add (-1) i U) L (works m') m'.
Proof.
  intros Ha HU. destruct (live_of_ref U L (works m) i m Ha) as (r & Hi & _); [by left|].
  pose proof (user_step U L (works m) i m r Ha Hi HU) as H. unfold mmput_async, at_mm. rewrite Hi.
  case_decide; [|eauto]. eexists. split; [done|]. cbn [set_works works set_mms].
  eapply alive_ext; [done|done| |by apply alive_set_works]. by rewrite Permutation_app_comm.
Qed.

Lemma run_work_ok U L m :
  alive U L (works m) m -> exists m', run_work m = Ok m' /\ alive U L (works m') m' /\ length (works m') = pred (length (works m)).
Proof.
  intros Ha. unfold run_work. destruct (works m) as [|w ws] eqn:Ew; [exists m; rewrite Ew; by split_and!|].
  apply (alive_set_works _ _ _ _ ws) in Ha as Ha'.
  destruct w as [i|i].
  - destruct (mmput__ok _ _ _ _ _ Ha') as (m' & E & Ha2 & Ew2). exists m'. rewrite Ew2. by split_and!.
  - destruct (mmdrop__ok _ _ _ _ _ Ha') as (m' & E & Ha2 & Ew2). exists m'. rewrite Ew2. by split_and!.
Qed.

Lemma mmget_ok U L ws i m :
  alive U L ws m -> 1 <= ref U i ->
  exists m', mmget i m = Ok m' /\ alive (ref_add 1 i U) L ws m' /\ works m' = works m.
Proof.
  intros Ha HU. destruct (live_of_ref U L ws i m Ha) as (r & Hi & [C1 C2 C3 C4 C5 C6]); [by left|].
  unfold mmget, at_mm. rewrite Hi. eexists. split; [done|]. split; [|done].
  assert (Hn : WPut i ∉ ws) by (intros Hw; apply C4 in Hw; lia).
  unfold in_use in C3. rewrite decide_True in C3 by lia.
  eapply (alive_update bm bm U L ws m _ _ _ i r); try done.
  - split; cbn [set_users mm_users mm_count exe binfmt]; rewrite ?add_here; try done; try lia.
    unfold in_use. rewrite add_here, decide_True by lia. done.
  - apply (al_works _ _ _ _ _ Ha).
  - intros j Hne. by rewrite add_other.
  - intros f. cbn. lia.
  - intros f. cbn. lia.
Qed.

Lemma mmgrab_ok U L ws i m :
  alive U L ws m -> 1 <= ref U i \/ 1 <= ref L i ->
  exists m', mmgrab i m = Ok m' /\ alive U (ref_add 1 i L) ws m' /\ works m' = works m.
Proof.
  intros Ha HU. destruct (live_of_ref U L ws i m Ha HU) as (r & Hi & [C1 C2 C3 C4 C5 C6]).
  unfold mmgrab, at_mm. rewrite Hi. eexists. split; [done|]. split; [|done].
  assert (Hp : 0 <= pending i ws) by (unfold pending; case_decide; lia).
  assert (Hc : 1 <= mm_count r) by (rewrite C3; unfold in_use; case_decide; lia).
  eapply (alive_update bm bm U L ws m _ _ _ i r); try done.
  - split; cbn [set_count mm_users mm_count exe binfmt]; rewrite ?add_here; try done; try lia.
    rewrite C5. lia.
  - apply (al_works _ _ _ _ _ Ha).
  - intros j Hne. by rewrite add_other.
  - intros f. cbn. lia.
  - intros f. cbn. lia.
Qed.

Lemma set_exe_ok U L ws new i m :
  alive U L ws m -> 1 <= ref U i ->
  exists m', set_mm_exe_file new i m = Ok m' /\ alive U L ws m' /\ works m' = works m.
Proof.
  intros Ha HU. destruct (live_of_ref U L ws i m Ha) as (r & Hi & [C1 C2 C3 C4 C5 C6]); [by left|].
  unfold set_mm_exe_file, at_mm. rewrite Hi. eexists. split; [done|]. split; [|done].
  eapply (alive_update bm bm U L ws m _ _ _ i r (set_exe new r)); try done.
  - split; cbn [set_exe mm_users mm_count exe binfmt]; try done. lia.
  - apply (al_works _ _ _ _ _ Ha).
  - intros f. cbn [file_refs set_exe exe]. rewrite !ref_ref_opt. lia.
  - intros f. cbn. lia.
Qed.
End fixed.

(** *** New ones *)
Lemma mm_init_ok bm k p1 p2 cur b p ns i U L ws m :
  alive bm U L ws m -> mms m !! i = None ->
  exists ok m', mm_init k p1 p2 cur b p ns i m = (ok, m') /\ works m' = works m /\
    if ok then alive (fun f => bm f - bz (names_it b f)) (ref_add 1 i U) L ws m' /\
               file_refs m' = file_refs m /\ mod_refs m' = mod_refs m /\
               exists r, mms m' = <[i := r]> (mms m) /\ exe r = None /\ binfmt r = b /\ mm_users r = 1
    else m' = m.
Proof.
  intros [H1 H2 H3 H4 H5 H6 H7 H8] Hi. unfold mm_init.
  destruct (match cur with Some _ => _ | None => _ end) as [fl df]. set (r := MmRec _ _ _ _ _ _ _ _ _).
  assert (Hid : set_mms (delete i (mms m)) m = m) by (destruct m; cbn in *; unfold set_mms; cbn; by rewrite delete_id).
  assert (Hpgd : mm_free_pgd i (set_pgds (pgds m ∪ {[i]}) m) = m).
  { assert (Hn : i ∉ pgds m) by (rewrite H4, Hi; by intros [? [=]]).
    unfold mm_free_pgd, set_pgds. cbn. destruct m as [? ? ? ? X ? ?]. cbn in *. f_equal. set_solver. }
  destruct p1; cbn [negb]; [|rewrite Hid; by exists false, m].
  destruct p2; cbn [negb]; [|rewrite Hpgd, Hid; by exists false, m].
  eexists true, _. split; [done|]. split; [done|]. split_and!; [|done|done|by exists r].
  destruct (H2 i Hi) as (A1 & A2 & A3 & A4).
  assert (Hs : forall j (X : gset Z), (j ∈ X <-> is_Some (mms m !! j)) -> j ∈ X ∪ {[i]} <-> is_Some (<[i := r]> (mms m) !! j)).
  { intros j X HX. rewrite elem_of_union, elem_of_singleton, HX, lookup_insert_is_Some. destruct (decide (i = j)); naive_solver. }
  split; cbn [mms pgds contexts file_refs mod_refs ns_refs set_pgds].
  - intros j x. destruct (decide (i = j)) as [<-|Hne].
    + rewrite lookup_insert_eq. intros [= <-]. split; cbn [r mm_users mm_count exe binfmt]; unfold in_use, pending; rewrite ?add_here, ?A1, ?A2; try done.
      rewrite decide_True, decide_False by (done || lia). lia.
    + rewrite lookup_insert_ne by done. intros Hj. eapply counted_ext; [apply add_other; congruence|done|done|done|by apply H1].
  - intros j Hj. apply lookup_insert_None in Hj as [Hj Hne]. rewrite add_other by congruence. by apply H2.
  - done.
  - intros j. apply Hs, H4.
  - intros j. apply Hs, H5.
  - intros f. rewrite number_insert, H6 by done. cbn [r exe]. rewrite names_none. cbn. lia.
  - intros f. rewrite number_insert, H7 by done. cbn [r binfmt]. lia.
  - intros f. rewrite number_insert, ref_ref_add, H8 by done. cbn [r user_ns].
    case_decide; [rewrite bool_decide_eq_true_2 by done|rewrite bool_decide_eq_false_2 by done]; cbn; lia.
Qed.

Definition got (o : option Z) (U : gmap Z Z) : gmap Z Z := match o with Some i => ref_add 1 i U | None => U end.

Lemma names_bm_none bm U L ws m : alive (fun f => bm f - bz (names_it None f)) U L ws m -> alive bm U L ws m.
Proof. intros [H1 H2 H3 H4 H5 H6 H7 H8]. split; try done. intros f. rewrite H7, names_none. cbn. lia. Qed.

Lemma mm_alloc_ok bm k alloc p1 p2 cur p ns U L ws m :
  alive bm U L ws m -> (forall i, alloc = Some i -> mms m !! i = None) ->
  exists o m', mm_alloc k alloc p1 p2 cur p ns m = (o, m') /\ alive bm (got o U) L ws m' /\ works m' = works m.
Proof.
  intros Ha Hi. unfold mm_alloc. destruct alloc as [i|]; [|by exists None, m].
  destruct (mm_init_ok bm k p1 p2 cur None p ns i U L ws m Ha (Hi i eq_refl)) as (ok & m' & -> & Ew & H).
  destruct ok; [|subst; by exists None, m]. exists (Some i), m'. split; [done|]. split; [|done]. apply names_bm_none, H.
Qed.

(** *** Copies *)
Section copy.
Context (bm : Z -> Z) (U L : gmap Z Z) (ws : list work) (i : Z) (b : option Z).

(** The new address space before the module is taken. *)
Definition fresh_copy (m : mem) : Prop :=
  alive (fun f => bm f - bz (names_it b f)) (ref_add 1 i U) L ws m /\ ref U i = 0 /\
  exists r, mms m !! i = Some r /\ binfmt r = b.

Lemma copy_exe old m r :
  fresh_copy m -> mms m !! i = Some r -> exe r = None -> 1 <= ref U old ->
  exists f m2, get_exe true old m = Ok (f, m2) /\ mms m2 = mms m /\ works m2 = works m /\
    fresh_copy (set_mms (<[i := set_exe f r]> (mms m)) m2).
Proof.
  intros (Ha & HU & r' & Hr' & Hb) Hr Hx Hold. rewrite Hr in Hr'. injection Hr' as <-.
  destruct (live_of_ref _ _ _ _ old m Ha) as (o & Ho & _).
  { left. rewrite ref_ref_add. case_decide; lia. }
  destruct (al_live _ _ _ _ _ Ha i r Hr) as [C1 C2 C3 C4 C5 C6].
  assert (Hgoal : forall f m2, mms m2 = mms m -> works m2 = works m -> pgds m2 = pgds m -> contexts m2 = contexts m ->
    mod_refs m2 = mod_refs m -> ns_refs m2 = ns_refs m ->
    (forall j, ref (file_refs m2) j = ref (file_refs m) j + bz (names_it f j)) ->
    fresh_copy (set_mms (<[i := set_exe f r]> (mms m)) m2)).
  { intros f m2 E1 E2 E3 E4 E5 E6 E7. split_and!; [|done|].
    - eapply (alive_update _ _ _ _ _ m _ _ _ i r (set_exe f r)); try done.
      + split; cbn [set_exe mm_users mm_count exe binfmt]; try done. rewrite add_here. lia.
      + apply (al_works _ _ _ _ _ Ha).
      + intros j. cbn [set_mms file_refs set_exe exe]. rewrite E7, Hx, names_none. cbn. lia.
      + intros j. cbn [set_mms mod_refs set_exe binfmt]. rewrite E5. lia.
    - cbn [set_mms mms]. rewrite lookup_insert_eq. by eexists. }
  unfold get_exe, at_mm. rewrite Ho. destruct (exe o) as [f|].
  - eexists _, _. split; [done|]. split_and!; try done. apply Hgoal; try done. intros j. cbn [file_refs].
    rewrite ref_ref_add. unfold names_it. case_decide; [subst; rewrite bool_decide_eq_true_2 by done|
      rewrite bool_decide_eq_false_2 by congruence]; cbn; lia.
  - eexists _, _. split; [done|]. split_and!; try done. apply Hgoal; try done. intros j. rewrite names_none. cbn. lia.
Qed.

(** The error path drops the new address space without its module. *)
Lemma copy_fails m :
  fresh_copy m ->
  exists r m', mms m !! i = Some r /\
    mmput i (set_mms (<[i := set_binfmt None None r]> (mms m)) m) = Ok m' /\ alive bm U L ws m' /\ works m' = works m.
Proof.
  intros (Ha & HU & r & Hr & Hb). exists r. destruct (al_live _ _ _ _ _ Ha i r Hr) as [C1 C2 C3 C4 C5 C6].
  assert (Ha2 : alive bm (ref_add 1 i U) L ws (set_mms (<[i := set_binfmt None None r]> (mms m)) m)).
  { eapply (alive_update _ _ _ _ _ m _ _ _ i r (set_binfmt None None r)); try done.
    - split; cbn [set_binfmt mm_users mm_count exe binfmt]; try done. rewrite add_here. lia.
    - apply (al_works _ _ _ _ _ Ha).
    - intros j. cbn. lia.
    - intros j. cbn [set_mms mod_refs set_binfmt binfmt]. rewrite Hb, names_none. cbn. lia. }
  destruct (mmput_ok _ _ _ _ i _ Ha2) as (m' & E & Ha' & Ew); [rewrite add_here; lia|].
  exists m'. split_and!; try done. eapply alive_ext; [|done|done|done]. intros j. rewrite !ref_ref_add. case_decide; lia.
Qed.
End copy.

Lemma dup_mm_ok bm k alloc p1 p2 err takes module_ok old tsk U L ws m :
  alive bm U L ws m -> (forall i, alloc = Some i -> mms m !! i = None) -> 1 <= ref U old ->
  exists o m', dup_mm k alloc p1 p2 err takes module_ok old tsk m = Ok (o, m') /\
    alive bm (got o U) L ws m' /\ works m' = works m.
Proof.
  intros Ha Hi Hold. destruct (live_of_ref bm U L ws old m Ha) as (o & Ho & _); [by left|].
  unfold dup_mm. unfold at_mm at 1. rewrite Ho. destruct alloc as [i|]; [|by exists None, m].
  destruct (mm_init_ok bm k p1 p2 (Some o) (binfmt o) tsk (user_ns o) i U L ws m Ha (Hi i eq_refl)) as (ok & m1 & -> & Ew & H).
  destruct ok; cbn [negb]; [|subst; by exists None, m]. destruct H as (Ha1 & _ & Emod & r & Em & Hx & Hb & _).
  assert (Hr : mms m1 !! i = Some r) by (by rewrite Em, lookup_insert_eq).
  assert (Hc : fresh_copy bm U L ws i (binfmt o) m1).
  { split_and!; [done|by apply (al_dead _ _ _ _ _ Ha i), Hi|by exists r]. }
  assert (Hm2 : exists m2, (if takes then '(f, m) ← get_exe true old m1; at_mm i m (fun r => Ok (set_mms (<[i := set_exe f r]> (mms m)) m))
      else Ok m1) = Ok m2 /\ fresh_copy bm U L ws i (binfmt o) m2 /\ works m2 = works m1).
  { destruct takes; [|by exists m1]. destruct (copy_exe bm U L ws i (binfmt o) old m1 r Hc Hr Hx Hold) as (f & m2 & -> & E1 & E2 & Hc2).
    cbn [mbind run_bind]. unfold at_mm. rewrite E1, Hr. eexists. split; [done|]. split; [done|done]. }
  destruct Hm2 as (m2 & -> & Hc2 & Ew2). cbn [mbind run_bind].
  assert (Hfail : exists o' m', at_mm i m2 (fun r => m ← mmput i (set_mms (<[i := set_binfmt None None r]> (mms m2)) m2); Ok (@None Z, m)) = Ok (o', m') /\
    alive bm (got o' U) L ws m' /\ works m' = works m).
  { destruct (copy_fails bm U L ws i (binfmt o) m2 Hc2) as (r2 & m' & Hr2 & E & Ha' & Ew'). unfold at_mm. rewrite Hr2, E.
    exists None, m'. split_and!; [done|done|congruence]. }
  case_decide; [exact Hfail|]. destruct Hc2 as (Ha2 & _ & r2 & Hr2 & Hb2). destruct (binfmt o) as [md|] eqn:Eb.
  - destruct module_ok; [|exact Hfail]. eexists (Some i), _. split; [done|]. split; [|cbn; congruence].
    destruct Ha2 as [H1 H2 H3 H4 H5 H6 H7 H8]. split; try done. intros f. cbn [mod_refs mms]. rewrite ref_ref_add, H7.
    unfold names_it. case_decide; [subst; rewrite bool_decide_eq_true_2 by done|rewrite bool_decide_eq_false_2 by congruence]; cbn; lia.
  - exists (Some i), m2. split; [done|]. split; [by apply names_bm_none|congruence].
Qed.

(** *** Tasks *)
Lemma get_task_mm_ok bm fl mm U L ws m :
  alive bm U L ws m -> (forall i, mm = Some i -> 1 <= ref U i) ->
  exists o m', get_task_mm fl mm m = Ok (o, m') /\ alive bm (got o U) L ws m' /\ works m' = works m /\
    (o = mm \/ o = None).
Proof.
  intros Ha Hi. unfold get_task_mm. destruct mm as [i|]; [|exists None, m; auto].
  destruct (has fl PF_KTHREAD); [exists None, m; auto|].
  destruct (mmget_ok bm U L ws i m Ha (Hi i eq_refl)) as (m' & -> & Ha' & Ew). exists (Some i), m'. auto.
Qed.

Lemma mm_access_ok bm fl mm cur err may n U L ws m :
  alive bm U L ws m -> (forall i, mm = Some i -> 1 <= ref U i) ->
  exists r m', mm_access fl mm cur err may m n = Ok (r, m', n) /\ works m' = works m /\
    alive bm (match r with inr o => got o U | inl _ => U end) L ws m'.
Proof.
  intros Ha Hi. unfold mm_access. case_decide; [by eexists _, m|].
  destruct (get_task_mm_ok bm fl mm U L ws m Ha Hi) as (o & m1 & -> & Ha1 & Ew & Ho). cbn [mbind run_bind].
  replace (n + 1 - 1) with n by lia. destruct o as [i|]; [|by exists (inr None), m1].
  destruct (_ && _); [|by exists (inr (Some i)), m1]. destruct Ho as [Ho|]; [|done].
  assert (HU : 1 <= ref U i) by (by apply Hi). cbn [got] in Ha1.
  destruct (mmput_ok bm _ _ _ i _ Ha1) as (m2 & -> & Ha2 & Ew2); [rewrite add_here; lia|].
  exists (inl (- EACCES)), m2. split_and!; [done|congruence|].
  eapply alive_ext; [|done|done|done]. intros j. rewrite !ref_ref_add. case_decide; lia.
Qed.
End life.

(** ** Histories *)
Inductive mop :=
| OAlloc (k : masks) (alloc : option Z) (pgd_ok context_ok : bool) (cur : option mm_rec) (p ns : Z)
| ODup (k : masks) (alloc : option Z) (pgd_ok context_ok : bool) (err : Z) (takes_exe module_ok : bool) (old tsk : Z)
| OGetTaskMm (flags : Z) (mm : option Z)
| OAccess (flags : Z) (mm cur : option Z) (err : Z) (may : bool) (readers : Z)
| OPut (async : bool) (i : Z)
| OGrab (i : Z)
| ODrop (async : bool) (i : Z)
| OSetExe (new : option Z) (i : Z)
| OWork.

(** The numbers of users and of holders of the structure, and the memory. *)
Record users := Users { U : gmap Z Z; L : gmap Z Z; M : mem }.

Definition mrun (o : mop) (s : users) : run users :=
  match o with
  | OAlloc k al p c cur t ns => let '(r, m) := mm_alloc k al p c cur t ns (M s) in Ok (Users (got r (U s)) (L s) m)
  | ODup k al p c err te mo old t =>
      '(r, m) ← dup_mm k al p c err te mo old t (M s); Ok (Users (got r (U s)) (L s) m)
  | OGetTaskMm fl mm => '(r, m) ← get_task_mm fl mm (M s); Ok (Users (got r (U s)) (L s) m)
  | OAccess fl mm cur err may n =>
      '(r, m, _) ← mm_access fl mm cur err may (M s) n;
      Ok (Users (match r with inr r => got r (U s) | inl _ => U s end) (L s) m)
  | OPut async i => m ← (if async then mmput_async i (M s) else mmput i (M s)); Ok (Users (ref_add (-1) i (U s)) (L s) m)
  | OGrab i => m ← mmgrab i (M s); Ok (Users (U s) (ref_add 1 i (L s)) m)
  | ODrop async i => m ← (if async then mmdrop_async i (M s) else mmdrop i (M s)); Ok (Users (U s) (ref_add (-1) i (L s)) m)
  | OSetExe new i => m ← set_mm_exe_file new i (M s); Ok (Users (U s) (L s) m)
  | OWork => m ← run_work (M s); Ok (Users (U s) (L s) m)
  end.

(** Only a user shares, changes or puts an address space, only a holder drops
    it, and the allocator returns addresses that are free. *)
Definition lawful (o : mop) (s : users) : Prop :=
  match o with
  | OAlloc _ al _ _ _ _ _ => forall i, al = Some i -> mms (M s) !! i = None
  | ODup _ al _ _ _ _ _ old _ => (forall i, al = Some i -> mms (M s) !! i = None) /\ 1 <= ref (U s) old
  | OGetTaskMm _ mm | OAccess _ mm _ _ _ _ => forall i, mm = Some i -> 1 <= ref (U s) i
  | OPut _ i | OSetExe _ i => 1 <= ref (U s) i
  | OGrab i => 1 <= ref (U s) i \/ 1 <= ref (L s) i
  | ODrop _ i => 1 <= ref (L s) i
  | OWork => True
  end.

Fixpoint mexec (l : list mop) (s : users) : run users :=
  match l with [] => Ok s | o :: l' => s ← mrun o s; mexec l' s end.
Fixpoint all_lawful (l : list mop) (s : users) : Prop :=
  match l with [] => True | o :: l' => lawful o s /\ forall s', mrun o s = Ok s' -> all_lawful l' s' end.

Definition ok (bf bm bn : Z -> Z) (s : users) : Prop := alive bf bn bm (U s) (L s) (works (M s)) (M s).

Lemma mrun_ok bf bm bn o s : ok bf bm bn s -> lawful o s -> exists s', mrun o s = Ok s' /\ ok bf bm bn s'.
Proof.
  unfold ok. intros Ha Hl. destruct o; cbn [mrun lawful] in *.
  - edestruct (mm_alloc_ok bf bn) as (r & m & -> & Ha' & Ew); [done|done|]. eexists. split; [done|]. cbn. by rewrite Ew.
  - destruct Hl as [H1 H2]. edestruct (dup_mm_ok bf bn) as (r & m & -> & Ha' & Ew); [done|done|done|].
    eexists. split; [done|]. cbn. by rewrite Ew.
  - edestruct (get_task_mm_ok bf bn) as (r & m & -> & Ha' & Ew & _); [done|done|]. eexists. split; [done|]. cbn. by rewrite Ew.
  - edestruct (mm_access_ok bf bn) as (r & m & -> & Ew & Ha'); [done|done|]. eexists. split; [done|]. cbn. by rewrite Ew.
  - destruct async.
    + edestruct (mmput_async_ok bf bn) as (m & -> & Ha'); [done|done|]. eexists. by split.
    + edestruct (mmput_ok bf bn) as (m & -> & Ha' & Ew); [done|done|]. eexists. split; [done|]. cbn. by rewrite Ew.
  - edestruct (mmgrab_ok bf bn) as (m & -> & Ha' & Ew); [done|done|]. eexists. split; [done|]. cbn. by rewrite Ew.
  - destruct async.
    + edestruct (mmdrop_async_ok bf bn) as (m & -> & Ha'); [done|done|]. eexists. by split.
    + edestruct (mmdrop_ok bf bn) as (m & -> & Ha' & Ew); [done|done|]. eexists. split; [done|]. cbn. by rewrite Ew.
  - edestruct (set_exe_ok bf bn) as (m & -> & Ha' & Ew); [done|done|]. eexists. split; [done|]. cbn. by rewrite Ew.
  - edestruct (run_work_ok bf bn) as (m & -> & Ha' & _); [done|]. eexists. by split.
Qed.

Lemma mexec_ok bf bm bn l s :
  ok bf bm bn s -> all_lawful l s -> exists s', mexec l s = Ok s' /\ ok bf bm bn s'.
Proof.
  revert s. induction l as [|o l IH]; intros s Hs Hl; cbn [mexec]; [by exists s|]. destruct Hl as [H1 H2].
  destruct (mrun_ok bf bm bn o s Hs H1) as (s1 & E & Hs1). rewrite E. cbn [mbind run_bind]. by apply IH, H2.
Qed.

(** C31. The life of an address space: in every history in which users share,
    change and put address spaces, holders drop structures, processes are
    copied with any failures, other processes look in (and may be refused), and
    work is put off, no operation touches a structure that is gone.  Afterwards
    an address space is there exactly as long as it has a user, a holder or
    work to do, and the first count is the number of users.  When nobody uses
    or holds any and the work is done, all are gone, and the references to
    files, modules and namespaces are those of the beginning. *)
Theorem mm_lifetime (bf bm bn : Z -> Z) (s : users) (l : list mop)
    (Hs : ok bf bm bn s) (Hl : all_lawful l s) :
  exists s', mexec l s = Ok s' /\
    (forall i, is_Some (mms (M s') !! i) <->
       (0 < ref (U s') i \/ 0 < ref (L s') i \/ WPut i ∈ works (M s') \/ WDrop i ∈ works (M s'))) /\
    (forall i r, mms (M s') !! i = Some r -> mm_users r = ref (U s') i) /\
    ((forall i, ref (U s') i = 0 /\ ref (L s') i = 0) -> works (M s') = [] ->
     mms (M s') = ∅ /\ forall f, ref (file_refs (M s')) f = bf f /\ ref (mod_refs (M s')) f = bm f /\ ref (ns_refs (M s')) f = bn f).
Proof.
  destruct (mexec_ok bf bm bn l s Hs Hl) as (s' & E & Hs'). exists s'. split; [done|].
  assert (Hiff : forall i, is_Some (mms (M s') !! i) <->
       (0 < ref (U s') i \/ 0 < ref (L s') i \/ WPut i ∈ works (M s') \/ WDrop i ∈ works (M s'))).
  { intros i. destruct (mms (M s') !! i) as [r|] eqn:Hi.
    - split; [intros _|eauto]. destruct (al_live _ _ _ _ _ _ _ Hs' i r Hi) as [C1 C2 C3 C4 C5 C6].
      unfold in_use, pending in C3. repeat case_decide; try tauto; try lia.
      destruct (decide (0 < ref (L s') i)); [tauto|]. do 3 right. apply C5. lia.
    - split; [by intros [? ?]|]. destruct (al_dead _ _ _ _ _ _ _ Hs' i Hi) as (A1 & A2 & A3 & A4). intros H.
      exfalso. destruct H as [H|[H|[H|H]]]; [lia|lia|done|done]. }
  split_and!; [done| |].
  - intros i r Hi. apply (al_live _ _ _ _ _ _ _ Hs' i r Hi).
  - intros H0 Hw. assert (Em : mms (M s') = ∅).
    { apply map_empty. intros i. apply eq_None_not_Some. rewrite Hiff, Hw. destruct (H0 i) as [-> ->].
      rewrite !elem_of_nil. lia. }
    split; [done|]. intros f.
    rewrite (al_files _ _ _ _ _ _ _ Hs'), (al_mods _ _ _ _ _ _ _ Hs'), (al_ns _ _ _ _ _ _ _ Hs'), Em.
    unfold number. rewrite !map_filter_empty, map_size_empty. lia.
Qed.

(** ** A concrete history: an address space is made, gets an executable and a
    lazy holder, is copied, and both are put, one of them later. *)
Definition mem0 : mem := Mem ∅ {[ 9 := 1 ]} ∅ {[ 3 := 1 ]} ∅ ∅ [].
Definition masks0 : masks := Masks 0xff 0xf 0.
Definition ops0 : list mop :=
  [OAlloc masks0 (Some 1) true true None 7 3; OSetExe (Some 9) 1; OGrab 1;
   ODup masks0 (Some 2) true true 0 true true 1 8; ODup masks0 (Some 4) true true (-12) true true 1 8;
   OPut false 1; OPut true 2; ODrop false 1; OWork].

Lemma mem0_ok : ok (ref {[ 9 := 1 ]}) (fun _ => 0) (ref {[ 3 := 1 ]}) (Users ∅ ∅ mem0).
Proof.
  assert (Hn : forall P : mm_rec -> bool, number P (∅ : gmap Z mm_rec) = 0) by (intros P; unfold number; by rewrite map_filter_empty, map_size_empty).
  split; cbn [U L M mem0 mms works pgds contexts file_refs mod_refs ns_refs].
  - intros i r Hi. by rewrite lookup_empty in Hi.
  - intros i _. split_and!; [done|done|apply not_elem_of_nil..].
  - apply NoDup_nil_2.
  - intros i. rewrite lookup_empty. split; [set_solver|by intros [? ?]].
  - intros i. rewrite lookup_empty. split; [set_solver|by intros [? ?]].
  - intros f. rewrite Hn. lia.
  - intros f. by rewrite Hn.
  - intros f. rewrite Hn. lia.
Qed.

(** Laws that can be computed. *)
Definition lawfulb (o : mop) (s : users) : bool :=
  let free al := match al with Some i => bool_decide (mms (M s) !! i = None) | None => true end in
  let used mm := match mm with Some i => bool_decide (1 <= ref (U s) i) | None => true end in
  match o with
  | OAlloc _ al _ _ _ _ _ => free al
  | ODup _ al _ _ _ _ _ old _ => free al && bool_decide (1 <= ref (U s) old)
  | OGetTaskMm _ mm | OAccess _ mm _ _ _ _ => used mm
  | OPut _ i | OSetExe _ i => bool_decide (1 <= ref (U s) i)
  | OGrab i => bool_decide (1 <= ref (U s) i) || bool_decide (1 <= ref (L s) i)
  | ODrop _ i => bool_decide (1 <= ref (L s) i)
  | OWork => true
  end.
Fixpoint all_lawfulb (l : list mop) (s : users) : bool :=
  match l with
  | [] => true
  | o :: l' => lawfulb o s && match mrun o s with Ok s' => all_lawfulb l' s' | _ => true end
  end.

Lemma lawfulb_ok o s : lawfulb o s = true -> lawful o s.
Proof.
  destruct o; cbn; rewrite ?andb_true_iff, ?orb_true_iff, ?bool_decide_eq_true; try done.
  all: try destruct alloc; try destruct mm; rewrite ?bool_decide_eq_true; naive_solver.
Qed.

Lemma all_lawfulb_ok l s : all_lawfulb l s = true -> all_lawful l s.
Proof.
  revert s. induction l as [|o l IH]; intros s; cbn; [done|]. rewrite andb_true_iff. intros [H1 H2].
  split; [by apply lawfulb_ok|]. intros s' E. apply IH. by rewrite E in H2.
Qed.

Definition zeros (r : gmap Z Z) : bool := bool_decide (map_Forall (fun _ n => n = 0) r).
Definition quiet (s : users) : bool := zeros (U s) && zeros (L s) && bool_decide (works (M s) = []).

Lemma zeros_ok r i : zeros r = true -> ref r i = 0.
Proof.
  unfold zeros. rewrite bool_decide_eq_true. intros H. unfold ref. destruct (r !! i) as [n|] eqn:E; [|done].
  by apply (H i n).
Qed.

Lemma quiet_ok s : quiet s = true -> (forall i, ref (U s) i = 0 /\ ref (L s) i = 0) /\ works (M s) = [].
Proof.
  unfold quiet. rewrite !andb_true_iff, bool_decide_eq_true. intros [[H1 H2] H3].
  split; [|done]. intros i. split; by apply zeros_ok.
Qed.

Lemma mm_lifetime_witness :
  exists s', mexec ops0 (Users ∅ ∅ mem0) = Ok s' /\ mms (M s') = ∅ /\ ref (file_refs (M s')) 9 = 1.
Proof.
  assert (Hl : all_lawful ops0 (Users ∅ ∅ mem0)) by (apply all_lawfulb_ok; vm_compute; reflexivity).
  destruct (mm_lifetime _ _ _ (Users ∅ ∅ mem0) ops0 mem0_ok Hl) as (s' & E & _ & _ & H).
  exists s'. split; [exact E|].
  assert (Hc : match mexec ops0 (Users ∅ ∅ mem0) with Ok s => quiet s = true | _ => False end) by (vm_compute; reflexivity).
  rewrite E in Hc. destruct (quiet_ok s' Hc) as [H0 Hw]. destruct (H H0 Hw) as [Hm Hr].
  split; [exact Hm|]. exact (proj1 (Hr 9)).
Defined.
