(* ===== verification/KFlags.v ===== *)
(** * Flag words of a task

    The flags, atomic flags, thread flags, restartable sequences and numbers of
    a task from [src/Assignment2/Assignment2-1/sched.h], and the seccomp state
    that [src/Assignment2/Assignment2-1/fork.c] hands on to a child. *)

From Stdlib Require Import ZArith Lia.
From stdpp Require Import base numbers list option gmap.
From S2P Require Import Prelude Sched CText Hook Tracer ProcInfo KFork.

Local Open Scope Z_scope.

(** ** The process flags *)
Definition PF_VCPU : Z := 0x10.
Definition PF_MCE_PROCESS : Z := 0x80.
Definition PF_DUMPCORE : Z := 0x200.
Definition PF_SIGNALED : Z := 0x400.
Definition PF_MEMALLOC : Z := 0x800.
Definition PF_NOFREEZE : Z := 0x8000.
Definition PF_KSWAPD : Z := 0x20000.
Definition PF_MEMALLOC_NOFS : Z := 0x40000.
Definition PF_MEMALLOC_NOIO : Z := 0x80000.
Definition PF_LESS_THROTTLE : Z := 0x100000.
Definition PF_RANDOMIZE : Z := 0x400000.
Definition PF_SWAPWRITE : Z := 0x800000.
Definition PF_MEMSTALL : Z := 0x1000000.
Definition PF_UMH : Z := 0x2000000.
Definition PF_MCE_EARLY : Z := 0x8000000.
Definition PF_MEMALLOC_NOCMA : Z := 0x10000000.
Definition PF_FREEZER_SKIP : Z := 0x40000000.
Definition PF_SUSPEND_TASK : Z := 0x80000000.

Definition process_flags : list Z :=
  [PF_IDLE; PF_EXITING; PF_VCPU; PF_WQ_WORKER; PF_FORKNOEXEC; PF_MCE_PROCESS; PF_SUPERPRIV; PF_DUMPCORE; PF_SIGNALED;
   PF_MEMALLOC; PF_NPROC_EXCEEDED; PF_USED_MATH; PF_NOFREEZE; PF_FROZEN; PF_KSWAPD; PF_MEMALLOC_NOFS; PF_MEMALLOC_NOIO;
   PF_LESS_THROTTLE; PF_KTHREAD; PF_RANDOMIZE; PF_SWAPWRITE; PF_MEMSTALL; PF_UMH; PF_NO_SETAFFINITY; PF_MCE_EARLY;
   PF_MEMALLOC_NOCMA; PF_FREEZER_SKIP; PF_SUSPEND_TASK].

(** ** The atomic flags *)
Inductive pfa := NO_NEW_PRIVS | SPREAD_PAGE | SPREAD_SLAB | SPEC_SSB_DISABLE | SPEC_SSB_FORCE_DISABLE
  | SPEC_IB_DISABLE | SPEC_IB_FORCE_DISABLE | SPEC_SSB_NOEXEC.
#[global] Instance pfa_eq_dec : EqDecision pfa.
Proof. solve_decision. Defined.
Definition pfa_bit (p : pfa) : Z :=
  match p with
  | NO_NEW_PRIVS => 0 | SPREAD_PAGE => 1 | SPREAD_SLAB => 2 | SPEC_SSB_DISABLE => 3 | SPEC_SSB_FORCE_DISABLE => 4
  | SPEC_IB_DISABLE => 5 | SPEC_IB_FORCE_DISABLE => 6 | SPEC_SSB_NOEXEC => 7
  end.

(** The flags with [TASK_PFA_CLEAR]. *)
Inductive clearable := CSpreadPage | CSpreadSlab | CSsbDisable | CSsbNoexec | CIbDisable.
Definition clearable_pfa (c : clearable) : pfa :=
  match c with
  | CSpreadPage => SPREAD_PAGE | CSpreadSlab => SPREAD_SLAB | CSsbDisable => SPEC_SSB_DISABLE
  | CSsbNoexec => SPEC_SSB_NOEXEC | CIbDisable => SPEC_IB_DISABLE
  end.

(** ** The words *)
Record words := Words {
  tflags : Z;                    (** [unsigned int flags] *)
  atomic_flags : Z;              (** [unsigned long] *)
  ti_flags : Z;                  (** of [thread_info], [unsigned long] *)
  nr_cpus_allowed : Z;
  static_prio : Z;
  rseq : option Z;
  rseq_sig : Z;
  rseq_event_mask : Z;
  seccomp_mode : Z;
  seccomp_filter : option Z }.

Definition set_tflags (x : Z) (w : words) : words :=
  Words x (atomic_flags w) (ti_flags w) (nr_cpus_allowed w) (static_prio w) (rseq w) (rseq_sig w) (rseq_event_mask w)
    (seccomp_mode w) (seccomp_filter w).
Definition set_atomic (x : Z) (w : words) : words :=
  Words (tflags w) x (ti_flags w) (nr_cpus_allowed w) (static_prio w) (rseq w) (rseq_sig w) (rseq_event_mask w)
    (seccomp_mode w) (seccomp_filter w).
Definition set_ti (x : Z) (w : words) : words :=
  Words (tflags w) (atomic_flags w) x (nr_cpus_allowed w) (static_prio w) (rseq w) (rseq_sig w) (rseq_event_mask w)
    (seccomp_mode w) (seccomp_filter w).
Definition set_rseq (r : option Z) (sig mask : Z) (w : words) : words :=
  Words (tflags w) (atomic_flags w) (ti_flags w) (nr_cpus_allowed w) (static_prio w) r sig mask
    (seccomp_mode w) (seccomp_filter w).
Definition set_seccomp (mode : Z) (filter : option Z) (w : words) : words :=
  Words (tflags w) (atomic_flags w) (ti_flags w) (nr_cpus_allowed w) (static_prio w) (rseq w) (rseq_sig w)
    (rseq_event_mask w) mode filter.

(** [PRIO_TO_NICE] is a macro of [prio.h]. *)
Definition task_nice (PRIO_TO_NICE : Z -> Z) (w : words) : Z := PRIO_TO_NICE (static_prio w).

(** *** [flags] *)
Definition clear_stopped_child_used_math (w : words) : words := set_tflags (Z.ldiff (tflags w) PF_USED_MATH) w.
Definition set_stopped_child_used_math (w : words) : words := set_tflags (Z.lor (tflags w) PF_USED_MATH) w.
Definition conditional_stopped_child_used_math (c : bool) (w : words) : words :=
  set_tflags (Z.lor (Z.ldiff (tflags w) PF_USED_MATH) (if c then PF_USED_MATH else 0)) w.
Definition copy_to_stopped_child_used_math (cur child : words) : words :=
  set_tflags (Z.lor (Z.ldiff (tflags child) PF_USED_MATH) (Z.land (tflags cur) PF_USED_MATH)) child.
Definition tsk_used_math (w : words) : Z := Z.land (tflags w) PF_USED_MATH.
Definition is_percpu_thread (w : words) : bool := has (tflags w) PF_NO_SETAFFINITY && bool_decide (nr_cpus_allowed w = 1).
Definition current_restore_flags (orig fl : Z) (w : words) : words :=
  set_tflags (Z.lor (Z.ldiff (tflags w) (wrapu 32 fl)) (wrapu 32 (Z.land orig fl))) w.

(** *** [atomic_flags] *)
Definition TASK_PFA_TEST (p : pfa) (w : words) : bool := Z.testbit (atomic_flags w) (pfa_bit p).
Definition TASK_PFA_SET (p : pfa) (w : words) : words := set_atomic (Z.setbit (atomic_flags w) (pfa_bit p)) w.
Definition TASK_PFA_CLEAR (c : clearable) (w : words) : words :=
  set_atomic (Z.clearbit (atomic_flags w) (pfa_bit (clearable_pfa c))) w.

(** *** Thread flags *)
Definition set_tsk_thread_flag (f : Z) (w : words) : words := set_ti (Z.setbit (ti_flags w) f) w.
Definition clear_tsk_thread_flag (f : Z) (w : words) : words := set_ti (Z.clearbit (ti_flags w) f) w.
Definition update_tsk_thread_flag (f : Z) (v : bool) (w : words) : words :=
  if v then set_tsk_thread_flag f w else clear_tsk_thread_flag f w.
Definition test_tsk_thread_flag (f : Z) (w : words) : bool := Z.testbit (ti_flags w) f.
Definition test_and_set_tsk_thread_flag (f : Z) (w : words) : bool * words :=
  (test_tsk_thread_flag f w, set_tsk_thread_flag f w).
Definition test_and_clear_tsk_thread_flag (f : Z) (w : words) : bool * words :=
  (test_tsk_thread_flag f w, clear_tsk_thread_flag f w).

Inductive rseq_event := RSEQ_EVENT_PREEMPT | RSEQ_EVENT_SIGNAL | RSEQ_EVENT_MIGRATE.
Definition rseq_bit (e : rseq_event) : Z :=
  match e with RSEQ_EVENT_PREEMPT => 0 | RSEQ_EVENT_SIGNAL => 1 | RSEQ_EVENT_MIGRATE => 2 end.

(** The architecture: the numbers of the thread flags ([thread_info.h]), and
    two functions that turn off flags of a task: single stepping
    ([ptrace.h]) and the notifier for the return to user space
    ([user-return-notifier.h]).  [stepping] and [notifying] are the flags they
    turn off; they change nothing else of the words. *)
Class Arch := {
  TIF_NOTIFY_RESUME : Z;
  TIF_NEED_RESCHED : Z;
  TIF_SECCOMP : Z;
  notify_range : 0 <= TIF_NOTIFY_RESUME < 64;
  resched_range : 0 <= TIF_NEED_RESCHED < 64;
  seccomp_range : 0 <= TIF_SECCOMP < 64;
  user_disable_single_step : words -> words;
  clear_user_return_notifier : words -> words;
  stepping : Z -> bool;
  notifying : Z -> bool;
  step_other w : set_ti (ti_flags w) (user_disable_single_step w) = w;
  step_sign w : 0 <= ti_flags w -> 0 <= ti_flags (user_disable_single_step w);
  step_off w f : test_tsk_thread_flag f (user_disable_single_step w) =
    test_tsk_thread_flag f w && negb (stepping f);
  notifier_other w : set_ti (ti_flags w) (clear_user_return_notifier w) = w;
  notifier_sign w : 0 <= ti_flags w -> 0 <= ti_flags (clear_user_return_notifier w);
  notifier_off w f : test_tsk_thread_flag f (clear_user_return_notifier w) =
    test_tsk_thread_flag f w && negb (notifying f) }.

Section thread_flags.
Context `{Arch}.

Definition set_tsk_need_resched (w : words) : words := set_tsk_thread_flag TIF_NEED_RESCHED w.
Definition clear_tsk_need_resched (w : words) : words := clear_tsk_thread_flag TIF_NEED_RESCHED w.
Definition test_tsk_need_resched (w : words) : bool := test_tsk_thread_flag TIF_NEED_RESCHED w.

(** *** Restartable sequences *)
Definition rseq_set_notify_resume (w : words) : words :=
  match rseq w with Some _ => set_tsk_thread_flag TIF_NOTIFY_RESUME w | None => w end.
Definition rseq_set_event (e : rseq_event) (w : words) : words :=
  set_rseq (rseq w) (rseq_sig w) (Z.setbit (rseq_event_mask w) (rseq_bit e)) w.
Definition rseq_preempt (w : words) : words := rseq_set_notify_resume (rseq_set_event RSEQ_EVENT_PREEMPT w).
Definition rseq_migrate (w : words) : words := rseq_set_notify_resume (rseq_set_event RSEQ_EVENT_MIGRATE w).

(** [handle] is [__rseq_handle_notify_resume]. *)
Definition rseq_handle_notify_resume (handle : words -> words) (w : words) : words :=
  match rseq w with Some _ => handle w | None => w end.
Definition rseq_signal_deliver (handle : words -> words) (w : words) : words :=
  rseq_handle_notify_resume handle (rseq_set_event RSEQ_EVENT_SIGNAL w).
Definition rseq_fork (clone_flags : Z) (cur t : words) : words :=
  if has clone_flags CLONE_VM then set_rseq None 0 0 t else set_rseq (rseq cur) (rseq_sig cur) (rseq_event_mask cur) t.
Definition rseq_execve (t : words) : words := set_rseq None 0 0 t.

(** *** Seccomp *)
Definition SECCOMP_MODE_DISABLED : Z := 0.

(** [copy_seccomp], with the counts of the filters. *)
Definition copy_seccomp (cur p : words) (filters : gmap Z Z) : run (words * gmap Z Z) :=
  filters ← match seccomp_filter cur with
            | Some f => match filters !! f with Some n => Ok (<[f := n + 1]> filters) | None => Undef end
            | None => Ok filters
            end;
  let p := set_seccomp (seccomp_mode cur) (seccomp_filter cur) p in
  let p := if TASK_PFA_TEST NO_NEW_PRIVS cur then TASK_PFA_SET NO_NEW_PRIVS p else p in
  let p := if bool_decide (seccomp_mode p <> SECCOMP_MODE_DISABLED) then set_tsk_thread_flag TIF_SECCOMP p else p in
  Ok (p, filters).

(** ** The words of a child

    The steps of [dup_task_struct] and [copy_process] on these words, in their
    order: [cur] is the parent when it is copied, [cur'] under the lock of the
    signals, where another thread may have changed it.  [TIF_SYSCALL_EMU] is
    not there on every architecture. *)
Definition dup_words (cur : words) : words :=
  let p := set_seccomp (seccomp_mode cur) None cur in
  let p := clear_user_return_notifier p in
  clear_tsk_need_resched p.
Definition child_flags (p : words) : words :=
  set_tflags (Z.lor (Z.ldiff (tflags p) (Z.lor PF_SUPERPRIV (Z.lor PF_WQ_WORKER PF_IDLE))) PF_FORKNOEXEC) p.
Definition no_tracing (TIF_SYSCALL_TRACE : Z) (TIF_SYSCALL_EMU : option Z) (p : words) : words :=
  let p := user_disable_single_step p in
  let p := clear_tsk_thread_flag TIF_SYSCALL_TRACE p in
  match TIF_SYSCALL_EMU with Some f => clear_tsk_thread_flag f p | None => p end.
Definition child_words (TIF_SYSCALL_TRACE : Z) (TIF_SYSCALL_EMU : option Z) (clone_flags : Z) (cur cur' : words)
    (filters : gmap Z Z) : run (words * gmap Z Z) :=
  '(p, filters) ← copy_seccomp cur' (no_tracing TIF_SYSCALL_TRACE TIF_SYSCALL_EMU (child_flags (dup_words cur))) filters;
  Ok (rseq_fork clone_flags cur' p, filters).

End thread_flags.

(** ** Numbers of a task

    [nr] is [__task_pid_nr_ns]: the number of a task of a kind in a namespace,
    the caller's for [None]. *)
Inductive pid_type := PIDTYPE_PID | PIDTYPE_TGID | PIDTYPE_PGID | PIDTYPE_SID.

Section numbers.
Context (nr : Z -> pid_type -> option Z -> Z).
Context (init_pid_ns : Z).

Definition task_pid_nr (t : task_struct) : Z := pid t.
Definition task_tgid_nr (t : task_struct) : Z := tgid t.
Definition task_pid_nr_ns (t ns : Z) : Z := nr t PIDTYPE_PID (Some ns).
Definition task_pid_vnr (t : Z) : Z := nr t PIDTYPE_PID None.
Definition task_pgrp_nr_ns (t ns : Z) : Z := nr t PIDTYPE_PGID (Some ns).
Definition task_pgrp_vnr (t : Z) : Z := nr t PIDTYPE_PGID None.
Definition task_session_nr_ns (t ns : Z) : Z := nr t PIDTYPE_SID (Some ns).
Definition task_session_vnr (t : Z) : Z := nr t PIDTYPE_SID None.
Definition task_tgid_nr_ns (t ns : Z) : Z := nr t PIDTYPE_TGID (Some ns).
Definition task_tgid_vnr (t : Z) : Z := nr t PIDTYPE_TGID None.

(** [thread_pid] is NULL for a task that is gone. *)
Definition pid_alive (thread_pid : option Z) : bool := match thread_pid with Some _ => true | None => false end.
Definition task_ppid_nr_ns (thread_pid : option Z) (real_parent : Z) (ns : Z) : Z :=
  if pid_alive thread_pid then task_tgid_nr_ns real_parent ns else 0.
Definition task_ppid_nr (thread_pid : option Z) (real_parent : Z) : Z := task_ppid_nr_ns thread_pid real_parent init_pid_ns.
Definition task_pgrp_nr (t : Z) : Z := task_pgrp_nr_ns t init_pid_ns.
End numbers.
