(* ===== verification/KFlagsFacts.v ===== *)
(** * Theorems on the flag words of a task

    The words keep their widths, an operation changes its own bit only, and
    what a task may not gain back stays lost. *)

From Stdlib Require Import ZArith Lia.
From stdpp Require Import base numbers list option gmap.
From S2P Require Import Prelude CText Hook Sched Tracer ProcInfo KFork KFlags.

Local Open Scope Z_scope.

(** ** Widths *)
Definition fits (w z : Z) : Prop := 0 <= z < 2 ^ w.

Lemma fits_bits w z : 0 <= w -> 0 <= z -> (fits w z <-> forall i, w <= i -> Z.testbit z i = false).
Proof.
  intros Hw Hz. split.
  - intros [_ H] i Hi. rewrite <- (Z.mod_small z (2 ^ w)) by lia. apply Z.mod_pow2_bits_high. lia.
  - intros H. split; [done|]. assert (E : z = z mod 2 ^ w).
    { apply Z.bits_inj'. intros i Hi. destruct (decide (i < w)); [by rewrite Z.mod_pow2_bits_low by lia|].
      rewrite Z.mod_pow2_bits_high by lia. apply H. lia. }
    rewrite E. apply Z.mod_pos_bound. apply Z.pow_pos_nonneg; lia.
Qed.

Lemma fits_high w z i : 0 <= w -> fits w z -> w <= i -> Z.testbit z i = false.
Proof. intros Hw [H0 H1] Hi. apply (fits_bits w z); [lia|lia|by split|lia]. Qed.

Lemma fits_lor w a b : 0 <= w -> fits w a -> fits w b -> fits w (Z.lor a b).
Proof.
  intros Hw Ha Hb. apply fits_bits; [done|apply Z.lor_nonneg; unfold fits in *; lia|].
  intros i Hi. by rewrite Z.lor_spec, !(fits_high w) by done.
Qed.

Lemma fits_ldiff w a b : 0 <= w -> fits w a -> fits w (Z.ldiff a b).
Proof.
  intros Hw Ha. apply fits_bits; [done|apply Z.ldiff_nonneg; unfold fits in *; lia|].
  intros i Hi. by rewrite Z.ldiff_spec, (fits_high w) by done.
Qed.

Lemma fits_land w a b : 0 <= w -> fits w a -> fits w (Z.land a b).
Proof.
  intros Hw Ha. apply fits_bits; [done|apply Z.land_nonneg; unfold fits in *; lia|].
  intros i Hi. by rewrite Z.land_spec, (fits_high w) by done.
Qed.

Lemma fits_wrapu w z : 0 <= w -> fits w (wrapu w z).
Proof. intros Hw. unfold wrapu. apply Z.mod_pos_bound, Z.pow_pos_nonneg; lia. Qed.

Lemma fits_pow w n : 0 <= n < w -> fits w (2 ^ n).
Proof. intros Hn. split; [apply Z.pow_nonneg; lia|]. apply Z.pow_lt_mono_r; lia. Qed.

Lemma fits_setbit w z n : 0 <= n < w -> fits w z -> fits w (Z.setbit z n).
Proof. intros Hn Hz. rewrite Z.setbit_spec'. apply fits_lor; [lia|done|by apply fits_pow]. Qed.

Lemma fits_clearbit w z n : 0 <= w -> fits w z -> fits w (Z.clearbit z n).
Proof. intros Hw Hz. rewrite Z.clearbit_spec'. by apply fits_ldiff. Qed.

Create HintDb flags.
#[local] Hint Resolve fits_lor fits_ldiff fits_land fits_wrapu fits_setbit fits_clearbit : flags.
#[local] Hint Extern 1 (_ <= _) => lia : flags.
#[local] Hint Extern 1 (_ <= _ < _) => lia : flags.

(** Every flag is a bit of its own. *)
Lemma process_flags_apart i j a b :
  process_flags !! i = Some a -> process_flags !! j = Some b -> i <> j -> Z.land a b = 0.
Proof.
  assert (H : forallb (fun x => forallb (fun y => bool_decide (x.1 = y.1) || bool_decide (Z.land x.2 y.2 = 0))
    (imap pair process_flags)) (imap pair process_flags) = true) by (vm_compute; reflexivity).
  assert (Hin : forall k c, process_flags !! k = Some c -> In (k, c) (imap pair process_flags)).
  { intros k c Hk. apply list_elem_of_In, list_elem_of_lookup. exists k. by rewrite list_lookup_imap, Hk. }
  intros Ha Hb Hne. rewrite forallb_forall in H. specialize (H _ (Hin _ _ Ha)). rewrite forallb_forall in H.
  specialize (H _ (Hin _ _ Hb)). apply orb_true_iff in H as [H|H]; apply bool_decide_eq_true in H; done.
Qed.

(** ** Sets of flags

    The words as what they stand for: which flags are on, by name or number;
    the restartable sequence; the number of processors allowed. *)
Record view := View {
  v_flag : Z -> bool;
  v_pfa : pfa -> bool;
  v_tif : Z -> bool;
  v_event : rseq_event -> bool;
  v_rseq : option Z;
  v_sig : Z;
  v_cpus : Z }.

#[local] Instance view_equiv : Equiv view := fun a b =>
  (forall i, v_flag a i = v_flag b i) /\ (forall p, v_pfa a p = v_pfa b p) /\
  (forall f, v_tif a f = v_tif b f) /\ (forall e, v_event a e = v_event b e) /\
  v_rseq a = v_rseq b /\ v_sig a = v_sig b /\ v_cpus a = v_cpus b.

#[local] Instance view_equivalence : Equivalence (≡@{view}).
Proof.
  split; [done|..]; unfold equiv, view_equiv; intros ?; [naive_solver|].
  intros y z (A1 & A2 & A3 & A4 & A5 & A6 & A7) (B1 & B2 & B3 & B4 & B5 & B6 & B7).
  split_and!; intros; congruence.
Qed.

#[local] Instance rseq_event_eq_dec : EqDecision rseq_event.
Proof. solve_decision. Defined.

Definition see (w : words) : view :=
  View (Z.testbit (tflags w)) (fun p => Z.testbit (atomic_flags w) (pfa_bit p)) (Z.testbit (ti_flags w))
    (fun e => Z.testbit (rseq_event_mask w) (rseq_bit e)) (rseq w) (rseq_sig w) (nr_cpus_allowed w).

(** One flag is switched. *)
Definition switch {A} `{EqDecision A} (a : A) (b : bool) (f : A -> bool) : A -> bool :=
  fun x => if decide (x = a) then b else f x.

Definition on_flag (f : (Z -> bool) -> Z -> bool) (v : view) : view :=
  View (f (v_flag v)) (v_pfa v) (v_tif v) (v_event v) (v_rseq v) (v_sig v) (v_cpus v).
Definition on_pfa (f : (pfa -> bool) -> pfa -> bool) (v : view) : view :=
  View (v_flag v) (f (v_pfa v)) (v_tif v) (v_event v) (v_rseq v) (v_sig v) (v_cpus v).
Definition on_tif (f : (Z -> bool) -> Z -> bool) (v : view) : view :=
  View (v_flag v) (v_pfa v) (f (v_tif v)) (v_event v) (v_rseq v) (v_sig v) (v_cpus v).
Definition on_event (f : (rseq_event -> bool) -> rseq_event -> bool) (v : view) : view :=
  View (v_flag v) (v_pfa v) (v_tif v) (f (v_event v)) (v_rseq v) (v_sig v) (v_cpus v).
Definition with_rseq (r : option Z) (sig : Z) (e : rseq_event -> bool) (v : view) : view :=
  View (v_flag v) (v_pfa v) (v_tif v) e r sig (v_cpus v).

(** ** Sequences of operations

    All functions of the header on these words.  [CopyUsedMath] and [RseqFork]
    take the words of the current task. *)
Inductive fop :=
| SetUsedMath | ClearUsedMath | CondUsedMath (c : bool) | CopyUsedMath (cur : words) | TestUsedMath
| Restore (orig fl : Z) | PerCpu
| PfaTest (p : pfa) | PfaSet (p : pfa) | PfaClear (c : clearable)
| TifSet (f : Z) | TifClear (f : Z) | TifUpdate (f : Z) (v : bool)
| TifTestSet (f : Z) | TifTestClear (f : Z) | TifTest (f : Z)
| SetResched | ClearResched | TestResched
| RseqNotify | RseqResume | RseqSignal | RseqPreempt | RseqMigrate | RseqFork (fl : Z) (cur : words) | RseqExecve.

(** [__rseq_handle_notify_resume] works on the flags, by [vhandle]. *)
Section over.
Context `{Arch}.
Context (handle : words -> words) (vhandle : view -> view).

(** The words after an operation, and what it returns (0 where it returns
    nothing). *)
Definition run_fop (o : fop) (w : words) : Z * words :=
  match o with
  | SetUsedMath => (0, set_stopped_child_used_math w)
  | ClearUsedMath => (0, clear_stopped_child_used_math w)
  | CondUsedMath c => (0, conditional_stopped_child_used_math c w)
  | CopyUsedMath cur => (0, copy_to_stopped_child_used_math cur w)
  | TestUsedMath => (tsk_used_math w, w)
  | Restore orig fl => (0, current_restore_flags orig fl w)
  | PerCpu => (Z.b2z (is_percpu_thread w), w)
  | PfaTest p => (Z.b2z (TASK_PFA_TEST p w), w)
  | PfaSet p => (0, TASK_PFA_SET p w)
  | PfaClear c => (0, TASK_PFA_CLEAR c w)
  | TifSet f => (0, set_tsk_thread_flag f w)
  | TifClear f => (0, clear_tsk_thread_flag f w)
  | TifUpdate f v => (0, update_tsk_thread_flag f v w)
  | TifTestSet f => let '(b, w) := test_and_set_tsk_thread_flag f w in (Z.b2z b, w)
  | TifTestClear f => let '(b, w) := test_and_clear_tsk_thread_flag f w in (Z.b2z b, w)
  | TifTest f => (Z.b2z (test_tsk_thread_flag f w), w)
  | SetResched => (0, set_tsk_need_resched w)
  | ClearResched => (0, clear_tsk_need_resched w)
  | TestResched => (Z.b2z (test_tsk_need_resched w), w)
  | RseqNotify => (0, rseq_set_notify_resume w)
  | RseqResume => (0, rseq_handle_notify_resume handle w)
  | RseqSignal => (0, rseq_signal_deliver handle w)
  | RseqPreempt => (0, rseq_preempt w)
  | RseqMigrate => (0, rseq_migrate w)
  | RseqFork fl cur => (0, rseq_fork fl cur w)
  | RseqExecve => (0, rseq_execve w)
  end.

(** A task with a restartable sequence is told on its return to user space. *)
Definition notified (v : view) : view :=
  match v_rseq v with Some _ => on_tif (switch TIF_NOTIFY_RESUME true) v | None => v end.
Definition handled (v : view) : view := match v_rseq v with Some _ => vhandle v | None => v end.

(** What the operations mean: bit 13 of the flags is "used the FPU", bit 26
    "may not change its processors", bit 8 of the flags of a clone "shares the
    memory". *)
Definition spec_fop (o : fop) (v : view) : Z * view :=
  match o with
  | SetUsedMath => (0, on_flag (switch 13 true) v)
  | ClearUsedMath => (0, on_flag (switch 13 false) v)
  | CondUsedMath c => (0, on_flag (switch 13 c) v)
  | CopyUsedMath cur => (0, on_flag (switch 13 (v_flag (see cur) 13)) v)
  | TestUsedMath => (if v_flag v 13 then 2 ^ 13 else 0, v)
  | Restore orig fl =>
      (0, on_flag (fun f i => if Z.testbit fl i && bool_decide (i < 32) then Z.testbit orig i else f i) v)
  | PerCpu => (Z.b2z (v_flag v 26 && bool_decide (v_cpus v = 1)), v)
  | PfaTest p => (Z.b2z (v_pfa v p), v)
  | PfaSet p => (0, on_pfa (switch p true) v)
  | PfaClear c => (0, on_pfa (switch (clearable_pfa c) false) v)
  | TifSet f => (0, on_tif (switch f true) v)
  | TifClear f => (0, on_tif (switch f false) v)
  | TifUpdate f b => (0, on_tif (switch f b) v)
  | TifTestSet f => (Z.b2z (v_tif v f), on_tif (switch f true) v)
  | TifTestClear f => (Z.b2z (v_tif v f), on_tif (switch f false) v)
  | TifTest f => (Z.b2z (v_tif v f), v)
  | SetResched => (0, on_tif (switch TIF_NEED_RESCHED true) v)
  | ClearResched => (0, on_tif (switch TIF_NEED_RESCHED false) v)
  | TestResched => (Z.b2z (v_tif v TIF_NEED_RESCHED), v)
  | RseqNotify => (0, notified v)
  | RseqResume => (0, handled v)
  | RseqSignal => (0, handled (on_event (switch RSEQ_EVENT_SIGNAL true) v))
  | RseqPreempt => (0, notified (on_event (switch RSEQ_EVENT_PREEMPT true) v))
  | RseqMigrate => (0, notified (on_event (switch RSEQ_EVENT_MIGRATE true) v))
  | RseqFork fl cur =>
      (0, if Z.testbit fl 8 then with_rseq None 0 (fun _ => false) v
          else with_rseq (rseq cur) (rseq_sig cur) (v_event (see cur)) v)
  | RseqExecve => (0, with_rseq None 0 (fun _ => false) v)
  end.

Fixpoint run_fops (l : list fop) (w : words) : list Z * words :=
  match l with
  | [] => ([], w)
  | o :: l' => let '(r, w1) := run_fop o w in let '(rs, w2) := run_fops l' w1 in (r :: rs, w2)
  end.

Fixpoint spec_fops (l : list fop) (v : view) : list Z * view :=
  match l with
  | [] => ([], v)
  | o :: l' => let '(r, v1) := spec_fop o v in let '(rs, v2) := spec_fops l' v1 in (r :: rs, v2)
  end.

(** The numbers of thread flags are bits of the word; the words of the current
    task have their types. *)
Record typed (w : words) : Prop := {
  ty_flags : fits 32 (tflags w);
  ty_atomic : fits 64 (atomic_flags w);
  ty_ti : fits 64 (ti_flags w);
  ty_rseq : fits 64 (rseq_event_mask w) }.

Definition fop_ok (o : fop) : Prop :=
  match o with
  | TifSet f | TifClear f | TifUpdate f _ | TifTestSet f | TifTestClear f | TifTest f => 0 <= f < 64
  | CopyUsedMath cur | RseqFork _ cur => typed cur
  | _ => True
  end.

Lemma pfa_bit_inj p q : pfa_bit p = pfa_bit q -> p = q.
Proof. by destruct p, q. Qed.
Lemma pfa_bit_range p : 0 <= pfa_bit p < 64.
Proof. destruct p; cbn; lia. Qed.
Lemma rseq_bit_inj p q : rseq_bit p = rseq_bit q -> p = q.
Proof. by destruct p, q. Qed.
Lemma rseq_bit_range e : 0 <= rseq_bit e < 64.
Proof. destruct e; cbn; lia. Qed.
Lemma used_math_fits : fits 32 PF_USED_MATH.
Proof. unfold fits, PF_USED_MATH. lia. Qed.
Lemma zero_fits w : 0 <= w -> fits w 0.
Proof. intros Hw. split; [done|]. apply Z.pow_pos_nonneg; lia. Qed.
#[local] Hint Resolve notify_range resched_range seccomp_range pfa_bit_range rseq_bit_range used_math_fits zero_fits : flags.

(** *** Bits *)
Lemma setbit_testbit z n m : 0 <= n -> Z.testbit (Z.setbit z n) m = bool_decide (n = m) || Z.testbit z m.
Proof. intros Hn. rewrite Z.setbit_eqb by lia. f_equal. symmetry. apply Bool.eq_iff_eq_true. by rewrite bool_decide_eq_true, Z.eqb_eq. Qed.

Lemma setbit_switch z n m : 0 <= n -> Z.testbit (Z.setbit z n) m = switch n true (Z.testbit z) m.
Proof. intros Hn. rewrite setbit_testbit by done. unfold switch. rewrite bool_decide_decide. by repeat case_decide. Qed.

Lemma clearbit_switch z n m : Z.testbit (Z.clearbit z n) m = switch n false (Z.testbit z) m.
Proof.
  rewrite Z.clearbit_eqb. unfold switch. destruct (Z.eqb_spec n m) as [->|Hne].
  - by rewrite decide_True, andb_false_r.
  - by rewrite decide_False, andb_true_r by congruence.
Qed.

(** A mask of one bit replaced by [b]. *)
Lemma replace_switch z n (b : bool) m : 0 <= n ->
  Z.testbit (Z.lor (Z.ldiff z (2 ^ n)) (if b then 2 ^ n else 0)) m = switch n b (Z.testbit z) m.
Proof.
  intros Hn. rewrite Z.lor_spec, Z.ldiff_spec, Z.pow2_bits_eqb by done. unfold switch.
  destruct (Z.eqb_spec n m) as [->|Hne].
  - rewrite decide_True, andb_false_r by done. destruct b; [|apply Z.bits_0]. rewrite Z.pow2_bits_eqb by done. apply Z.eqb_refl.
  - rewrite decide_False, andb_true_r by congruence.
    destruct b; rewrite ?Z.pow2_bits_eqb, ?Z.bits_0 by done; [|by rewrite orb_false_r].
    destruct (Z.eqb_spec n m); [done|by rewrite orb_false_r].
Qed.

Lemma land_pow z n : 0 <= n -> Z.land z (2 ^ n) = if Z.testbit z n then 2 ^ n else 0.
Proof.
  intros Hn. apply Z.bits_inj'. intros i Hi. rewrite Z.land_spec, Z.pow2_bits_eqb by done.
  destruct (Z.eqb_spec n i) as [->|Hne].
  - destruct (Z.testbit z i); [by rewrite Z.pow2_bits_true|by rewrite Z.bits_0].
  - rewrite andb_false_r. destruct (Z.testbit z n); [by rewrite Z.pow2_bits_false|by rewrite Z.bits_0].
Qed.

Lemma has_pow z n : 0 <= n -> has z (2 ^ n) = Z.testbit z n.
Proof.
  intros Hn. unfold has. rewrite land_pow by done. pose proof (Z.pow_pos_nonneg 2 n ltac:(lia) Hn).
  destruct (Z.testbit z n); [rewrite bool_decide_eq_false_2 by lia|]; done.
Qed.

Lemma wrapu_bits z i : 0 <= i -> Z.testbit (wrapu 32 z) i = Z.testbit z i && bool_decide (i < 32).
Proof.
  intros Hi. unfold wrapu. destruct (decide (i < 32)).
  - rewrite Z.mod_pow2_bits_low, bool_decide_eq_true_2 by lia. by rewrite andb_true_r.
  - rewrite Z.mod_pow2_bits_high, bool_decide_eq_false_2 by lia. by rewrite andb_false_r.
Qed.

(** *** The operations keep the types *)
Lemma notify_typed w : typed w -> typed (rseq_set_notify_resume w).
Proof.
  intros [H1 H2 H3 H4]. unfold rseq_set_notify_resume. destruct (rseq w); [|done].
  split; cbn; try done. apply fits_setbit; [apply notify_range|done].
Qed.

Lemma event_typed e w : typed w -> typed (rseq_set_event e w).
Proof. intros [H1 H2 H3 H4]. split; cbn; try done. apply fits_setbit; [apply rseq_bit_range|done]. Qed.

Lemma ti_typed w x : typed w -> fits 64 x -> typed (set_ti x w).
Proof. intros [H1 H2 H3 H4] Hx. by split. Qed.

(** What is known of [__rseq_handle_notify_resume]. *)
Context (Hhandle : forall w, see (handle w) ≡ vhandle (see w)).
Context (Hproper : Proper ((≡) ==> (≡)) vhandle).
Context (Htyped : forall w, typed w -> typed (handle w)).

Lemma resume_typed w : typed w -> typed (rseq_handle_notify_resume handle w).
Proof. intros Hw. unfold rseq_handle_notify_resume. destruct (rseq w); auto. Qed.

Lemma run_fop_typed o w : fop_ok o -> typed w -> typed (run_fop o w).2.
Proof.
  intros Ho Hw. destruct (Hw) as [H1 H2 H3 H4].
  destruct o as [| |[]|cur| |orig fl| |p|p|c|f|f|f []|f|f|f| | | | | | | | |fl cur|]; cbn [run_fop fop_ok fst snd] in *; try done;
    try (first [by apply notify_typed, event_typed|by apply notify_typed|by apply resume_typed, event_typed|by apply resume_typed]);
    try (by apply ti_typed; auto 6 with flags); try (split; cbn; try done; auto 6 with flags).
  1: destruct Ho as [O1 _ _ _]. auto 6 with flags.
  all: unfold rseq_fork; destruct Ho as [_ _ _ O4]; destruct (has fl CLONE_VM); cbn; auto 6 with flags.
Qed.

(** *** The operations are those of the specification *)
Lemma see_notified w : see (rseq_set_notify_resume w) ≡ notified (see w).
Proof.
  unfold rseq_set_notify_resume, notified. cbn [v_rseq see]. destruct (rseq w); [|done].
  split_and!; try done. intros f. apply setbit_switch. pose proof notify_range. lia.
Qed.

Lemma see_event e w : see (rseq_set_event e w) ≡ on_event (switch e true) (see w).
Proof.
  split_and!; try done. intros e'. cbn. rewrite setbit_switch by (pose proof (rseq_bit_range e); lia).
  unfold switch. destruct (decide (e' = e)) as [->|Hne]; [by rewrite decide_True|].
  rewrite decide_False; [done|]. intros E. by apply Hne, rseq_bit_inj.
Qed.

Lemma see_resume w : see (rseq_handle_notify_resume handle w) ≡ handled (see w).
Proof. unfold rseq_handle_notify_resume, handled. cbn [v_rseq see]. destruct (rseq w); [apply Hhandle|done]. Qed.

Lemma see_pfa p b w w' : 
  (forall m, Z.testbit (atomic_flags w') m = switch (pfa_bit p) b (Z.testbit (atomic_flags w)) m) ->
  forall q, Z.testbit (atomic_flags w') (pfa_bit q) = switch p b (v_pfa (see w)) q.
Proof.
  intros E q. rewrite E. unfold switch. destruct (decide (q = p)) as [->|Hne]; [by rewrite decide_True|].
  rewrite decide_False; [done|]. intros E'. by apply Hne, pfa_bit_inj.
Qed.

#[local] Instance notified_proper : Proper ((≡) ==> (≡)) notified.
Proof.
  intros a b E. pose proof E as (A1 & A2 & A3 & A4 & A5 & A6 & A7). unfold notified. rewrite A5.
  destruct (v_rseq b) eqn:Eb; [|done]. split_and!; try done; [|cbn; congruence].
  intros f. cbn. unfold switch. by rewrite A3.
Qed.

#[local] Instance handled_proper : Proper ((≡) ==> (≡)) handled.
Proof. intros a b E. pose proof E as (_ & _ & _ & _ & A5 & _). unfold handled. rewrite A5. destruct (v_rseq b); [by apply Hproper|done]. Qed.

#[local] Instance on_event_proper e : Proper ((≡) ==> (≡)) (on_event (switch e true)).
Proof.
  intros a b (A1 & A2 & A3 & A4 & A5 & A6 & A7). split_and!; try done. intros x. cbn. unfold switch. by rewrite A4.
Qed.

Lemma spec_fop_proper o a b : a ≡ b ->
  (spec_fop o a).1 = (spec_fop o b).1 /\ (spec_fop o a).2 ≡ (spec_fop o b).2.
Proof.
  intros E. pose proof E as (A1 & A2 & A3 & A4 & A5 & A6 & A7).
  destruct o; cbn [spec_fop fst snd]; rewrite ?A1, ?A2, ?A3, ?A7; (split; [done|]); try done;
    try (by rewrite E); try (split_and!; try done; intros; cbn; unfold switch; by rewrite ?A1, ?A2, ?A3).
  destruct (Z.testbit fl 8); by split_and!.
Qed.

Lemma run_fop_refines o w : fop_ok o -> typed w ->
  (run_fop o w).1 = (spec_fop o (see w)).1 /\ see (run_fop o w).2 ≡ (spec_fop o (see w)).2.
Proof.
  intros Ho Hw.
  assert (Hum : PF_USED_MATH = 2 ^ 13) by reflexivity.
  assert (Hlor : forall z, Z.lor z (2 ^ 13) = Z.lor (Z.ldiff z (2 ^ 13)) (2 ^ 13)).
  { intros z. apply Z.bits_inj'. intros i _. rewrite !Z.lor_spec, Z.ldiff_spec. by destruct (Z.testbit z i), (Z.testbit (2 ^ 13) i). }
  assert (Hz : forall z, Z.ldiff z (2 ^ 13) = Z.lor (Z.ldiff z (2 ^ 13)) 0) by (intros z; by rewrite Z.lor_0_r).
  destruct o as [| |b|cur| |orig fl| |p|p|c|f|f|f []|f|f|f| | | | | | | | |fl cur|];
    cbn [run_fop spec_fop fst snd fop_ok test_and_set_tsk_thread_flag test_and_clear_tsk_thread_flag] in *;
    (split; [try done|try done]);
    try (split_and!; try done; intros i; cbn; first [apply setbit_switch; pose proof resched_range; lia|apply clearbit_switch]).
  - split_and!; try done. intros i. cbn. rewrite Hum, Hlor. apply (replace_switch _ 13 true). lia.
  - split_and!; try done. intros i. cbn. rewrite Hum, Hz. apply (replace_switch _ 13 false). lia.
  - split_and!; try done. intros i. cbn. rewrite Hum. by apply replace_switch.
  - split_and!; try done. intros i. cbn. rewrite Hum, land_pow by lia. by apply replace_switch.
  - unfold tsk_used_math. rewrite Hum, land_pow by lia. done.
  - split_and!; try done. intros i. cbn. destruct (decide (0 <= i)) as [Hi|Hi].
    + rewrite Z.lor_spec, Z.ldiff_spec, !wrapu_bits, Z.land_spec by done.
      destruct (Z.testbit fl i), (Z.testbit orig i), (Z.testbit (tflags w) i), (bool_decide (i < 32)); done.
    + by rewrite !Z.testbit_neg_r by lia.
  - unfold is_percpu_thread. change PF_NO_SETAFFINITY with (2 ^ 26). by rewrite has_pow by lia.
  - split_and!; try done. apply (see_pfa p true w). intros m. apply setbit_switch. pose proof (pfa_bit_range p). lia.
  - split_and!; try done. apply (see_pfa (clearable_pfa c) false w). intros m. apply clearbit_switch.
  - apply see_notified.
  - apply see_resume.
  - unfold rseq_signal_deliver. by rewrite see_resume, see_event.
  - unfold rseq_preempt. by rewrite see_notified, see_event.
  - unfold rseq_migrate. by rewrite see_notified, see_event.
  - unfold rseq_fork. change CLONE_VM with (2 ^ 8). rewrite has_pow by lia. destruct (Z.testbit fl 8); split_and!; try done.
    intros e. apply Z.bits_0.
  - split_and!; try done. intros e. apply Z.bits_0.
Qed.

Lemma run_fops_refine l w v : Forall fop_ok l -> typed w -> see w ≡ v ->
  (run_fops l w).1 = (spec_fops l v).1 /\ see (run_fops l w).2 ≡ (spec_fops l v).2 /\ typed (run_fops l w).2.
Proof.
  intros Hl. revert w v. induction Hl as [|o l Ho _ IH]; intros w v Hw Hv; [done|]. cbn [run_fops spec_fops].
  destruct (run_fop_refines o w Ho Hw) as [E1 E2]. pose proof (run_fop_typed o w Ho Hw) as Ht.
  destruct (spec_fop_proper o (see w) v Hv) as [F1 F2].
  destruct (run_fop o w) as [r w1], (spec_fop o (see w)) as [r' v1], (spec_fop o v) as [r'' v1']. cbn [fst snd] in *.
  destruct (IH w1 v1' Ht) as (I1 & I2 & I3); [by rewrite E2|].
  destruct (run_fops l w1) as [rs w2], (spec_fops l v1') as [rs' v2]. cbn [fst snd] in *. by subst.
Qed.

(** C34. The flag words are sets of flags: under every sequence of the functions
    of the header on the flags, atomic flags, thread flags and restartable
    sequence of a task, each function returns what it returns on the sets and
    switches exactly the flag its name says, on or off, in exactly the cases it
    should; all others keep their value; and the words keep their 32 and 64
    bits.  ([handle] is [__rseq_handle_notify_resume], of which it is known
    that it works on these flags.) *)
Theorem flags_refine (w : words) (l : list fop) (Hw : typed w) (Hl : Forall fop_ok l) :
  (run_fops l w).1 = (spec_fops l (see w)).1 /\
  see (run_fops l w).2 ≡ (spec_fops l (see w)).2 /\
  typed (run_fops l w).2.
Proof. by apply run_fops_refine. Qed.
End over.

Section child.
Context `{Arch}.

Lemma pfa_set_typed p w : typed w -> typed (TASK_PFA_SET p w).
Proof. intros [H1 H2 H3 H4]. split; try done. apply fits_setbit; [apply pfa_bit_range|done]. Qed.

Lemma tif_set_typed f w : 0 <= f < 64 -> typed w -> typed (set_tsk_thread_flag f w).
Proof. intros Hf Hw. apply ti_typed; [done|]. apply fits_setbit; [done|apply Hw]. Qed.

Lemma tif_clear_typed f w : typed w -> typed (clear_tsk_thread_flag f w).
Proof. intros Hw. apply ti_typed; [done|]. apply fits_clearbit; [lia|apply Hw]. Qed.

(** A function that turns off thread flags and changes nothing else. *)
Lemma off_typed (g : words -> words) (off : Z -> bool) w :
  set_ti (ti_flags w) (g w) = w -> (0 <= ti_flags w -> 0 <= ti_flags (g w)) ->
  (forall f, test_tsk_thread_flag f (g w) = test_tsk_thread_flag f w && negb (off f)) ->
  typed w -> typed (g w).
Proof.
  intros E Hs Hoff [T1 T2 T3 T4].
  assert (Ew : g w = set_ti (ti_flags (g w)) w).
  { transitivity (set_ti (ti_flags (g w)) (set_ti (ti_flags w) (g w))); [by destruct (g w)|by rewrite E]. }
  rewrite Ew. apply ti_typed; [by split|]. apply fits_bits; [lia|apply Hs; apply T3|].
  intros i Hi. unfold test_tsk_thread_flag in Hoff. by rewrite Hoff, (fits_high 64 _ i ltac:(lia) T3 Hi).
Qed.

Lemma off_other (g : words -> words) w :
  set_ti (ti_flags w) (g w) = w ->
  tflags (g w) = tflags w /\ (forall q, TASK_PFA_TEST q (g w) = TASK_PFA_TEST q w).
Proof.
  intros E. split; [transitivity (tflags (set_ti (ti_flags w) (g w))); [done|by rewrite E]|].
  intros q. transitivity (TASK_PFA_TEST q (set_ti (ti_flags w) (g w))); [done|by rewrite E].
Qed.

(** ** Seccomp *)
Lemma pfa_set_if (b : bool) q r w :
  TASK_PFA_TEST r (if b then TASK_PFA_SET q w else w) = TASK_PFA_TEST r w || bool_decide (r = q) && b.
Proof.
  destruct b; rewrite ?andb_true_r, ?andb_false_r, ?orb_false_r; [|done].
  unfold TASK_PFA_TEST, TASK_PFA_SET. cbn [atomic_flags set_atomic]. rewrite setbit_testbit by (pose proof (pfa_bit_range q); lia).
  rewrite orb_comm. f_equal. apply bool_decide_ext. split; [intros E; symmetry; by apply pfa_bit_inj|by intros ->].
Qed.

Lemma tif_set_if (b : bool) f g w : 0 <= f ->
  test_tsk_thread_flag g (if b then set_tsk_thread_flag f w else w) = test_tsk_thread_flag g w || bool_decide (g = f) && b.
Proof.
  intros Hf. destruct b; rewrite ?andb_true_r, ?andb_false_r, ?orb_false_r; [|done].
  unfold test_tsk_thread_flag, set_tsk_thread_flag. cbn [ti_flags set_ti]. rewrite setbit_testbit by done.
  rewrite orb_comm. f_equal. apply bool_decide_ext. by split.
Qed.

Lemma get_filter (o : option Z) (filters : gmap Z Z) :
  (forall f, o = Some f -> is_Some (filters !! f)) ->
  exists filters', match o with
      | Some f => match filters !! f with Some n => Ok (<[f := n + 1]> filters) | None => Undef end
      | None => Ok filters end = Ok filters' /\
    forall f, default 0 (filters' !! f) = default 0 (filters !! f) + if decide (o = Some f) then 1 else 0.
Proof.
  intros Hlive. destruct o as [g|]; [|exists filters; split; [done|intros f; rewrite decide_False by done; lia]].
  destruct (Hlive g eq_refl) as [n Hn]. rewrite Hn. eexists. split; [done|]. intros f.
  destruct (decide (Some g = Some f)) as [E|E].
  - injection E as <-. by rewrite lookup_insert_eq, Hn.
  - rewrite lookup_insert_ne by congruence. lia.
Qed.

Lemma seccomp_words (b c : bool) (w : words) :
  let p' := if c then set_tsk_thread_flag TIF_SECCOMP (if b then TASK_PFA_SET NO_NEW_PRIVS w else w)
            else (if b then TASK_PFA_SET NO_NEW_PRIVS w else w) in
  (seccomp_mode p', seccomp_filter p', tflags p') = (seccomp_mode w, seccomp_filter w, tflags w) /\
  (forall q, TASK_PFA_TEST q p' = TASK_PFA_TEST q w || bool_decide (q = NO_NEW_PRIVS) && b) /\
  (forall f, test_tsk_thread_flag f p' = test_tsk_thread_flag f w || bool_decide (f = TIF_SECCOMP) && c) /\
  (typed w -> typed p').
Proof.
  intros p'. split_and!.
  - by destruct b, c.
  - intros q. rewrite <- pfa_set_if. by destruct b, c.
  - intros f. unfold p'. rewrite tif_set_if by (pose proof seccomp_range; lia). f_equal. by destruct b.
  - intros Hw. assert (H1 : typed (if b then TASK_PFA_SET NO_NEW_PRIVS w else w)).
    { destruct b; [|done]. by apply pfa_set_typed. }
    unfold p'. destruct c; [|done]. apply tif_set_typed; [apply seccomp_range|done].
Qed.

(** What a child inherits of seccomp: with a live filter, or none, the copy
    is defined; the child has the parent's mode and filter, and the filter one
    more user, every other filter as many as before; the child may not gain
    privileges when its parent may not; a child with a mode takes the slow path
    of the system calls; no other flag changes. *)
Lemma seccomp_copied (cur p : words) (filters : gmap Z Z)
    (Hlive : forall f, seccomp_filter cur = Some f -> is_Some (filters !! f)) :
  exists p' filters', copy_seccomp cur p filters = Ok (p', filters') /\
    (seccomp_mode p', seccomp_filter p') = (seccomp_mode cur, seccomp_filter cur) /\
    (forall f, default 0 (filters' !! f) =
       default 0 (filters !! f) + if decide (seccomp_filter cur = Some f) then 1 else 0) /\
    (forall q, TASK_PFA_TEST q p' =
       TASK_PFA_TEST q p || bool_decide (q = NO_NEW_PRIVS) && TASK_PFA_TEST NO_NEW_PRIVS cur) /\
    (forall f, test_tsk_thread_flag f p' =
       test_tsk_thread_flag f p || bool_decide (f = TIF_SECCOMP) && bool_decide (seccomp_mode cur <> SECCOMP_MODE_DISABLED)) /\
    tflags p' = tflags p /\ (typed p -> typed p').
Proof.
  destruct (get_filter _ filters Hlive) as (filters' & E & Hf). unfold copy_seccomp. rewrite E. cbn [mbind run_bind].
  eexists _, filters'. split; [done|].
  pose proof (seccomp_words (TASK_PFA_TEST NO_NEW_PRIVS cur) (bool_decide (seccomp_mode cur <> SECCOMP_MODE_DISABLED))
    (set_seccomp (seccomp_mode cur) (seccomp_filter cur) p)) as (H1 & H2 & H3 & H4).
  assert (Hmode : forall b : bool, seccomp_mode (if b then TASK_PFA_SET NO_NEW_PRIVS
    (set_seccomp (seccomp_mode cur) (seccomp_filter cur) p) else set_seccomp (seccomp_mode cur) (seccomp_filter cur) p)
    = seccomp_mode cur) by by intros [].
  rewrite Hmode. injection H1 as Hm Hfl Ht. split_and!; [by rewrite Hm, Hfl|done|done|done|done|].
  intros [T1 T2 T3 T4]. apply H4. by split.
Qed.

(** ** The words of a child *)
Lemma tif_clear f g w : test_tsk_thread_flag g (clear_tsk_thread_flag f w) = test_tsk_thread_flag g w && negb (bool_decide (g = f)).
Proof.
  unfold test_tsk_thread_flag, clear_tsk_thread_flag. cbn [ti_flags set_ti]. rewrite Z.clearbit_eqb. f_equal. f_equal.
  apply Bool.eq_iff_eq_true. rewrite bool_decide_eq_true, Z.eqb_eq. by split.
Qed.

Lemma dup_typed w tr emu : typed w -> typed (no_tracing tr emu (child_flags (dup_words w))).
Proof.
  intros Hw. assert (H1 : typed (dup_words w)).
  { apply tif_clear_typed, (off_typed _ notifying); [apply notifier_other|apply notifier_sign|apply notifier_off|].
    destruct Hw. by split. }
  assert (H2 : typed (child_flags (dup_words w))).
  { destruct H1. split; try done. apply fits_lor; [lia|by apply fits_ldiff|unfold fits, PF_FORKNOEXEC; lia]. }
  unfold no_tracing. assert (H3 : typed (user_disable_single_step (child_flags (dup_words w))))
    by (apply (off_typed _ stepping); [apply step_other|apply step_sign|apply step_off|done]).
  destruct emu as [f|]; repeat apply tif_clear_typed; done.
Qed.

(** The thread flags a child does not get. *)
Definition off_in_child (tr : Z) (emu : option Z) (f : Z) : bool :=
  notifying f || bool_decide (f = TIF_NEED_RESCHED) || stepping f || bool_decide (f = tr) || bool_decide (emu = Some f).

Lemma dup_tif w tr emu f :
  test_tsk_thread_flag f (no_tracing tr emu (child_flags (dup_words w))) =
  test_tsk_thread_flag f w && negb (off_in_child tr emu f).
Proof.
  assert (E : test_tsk_thread_flag f (child_flags (dup_words w)) =
    test_tsk_thread_flag f w && negb (notifying f) && negb (bool_decide (f = TIF_NEED_RESCHED))).
  { change (test_tsk_thread_flag f (child_flags (dup_words w))) with
      (test_tsk_thread_flag f (clear_tsk_thread_flag TIF_NEED_RESCHED
         (clear_user_return_notifier (set_seccomp (seccomp_mode w) None w)))).
    rewrite tif_clear, notifier_off. done. }
  unfold no_tracing, off_in_child. destruct emu as [e|]; rewrite ?tif_clear, step_off, E.
  - rewrite (bool_decide_ext (Some e = Some f) (f = e)) by naive_solver.
    by destruct (test_tsk_thread_flag f w), (notifying f), (bool_decide (f = TIF_NEED_RESCHED)), (stepping f),
      (bool_decide (f = tr)), (bool_decide (f = e)).
  - rewrite (bool_decide_eq_false_2 (None = Some f)) by done.
    by destruct (test_tsk_thread_flag f w), (notifying f), (bool_decide (f = TIF_NEED_RESCHED)), (stepping f),
      (bool_decide (f = tr)).
Qed.

Lemma dup_other w tr emu :
  let p := no_tracing tr emu (child_flags (dup_words w)) in
  (forall q, TASK_PFA_TEST q p = TASK_PFA_TEST q w) /\
  tflags p = Z.lor (Z.ldiff (tflags w) (Z.lor PF_SUPERPRIV (Z.lor PF_WQ_WORKER PF_IDLE))) PF_FORKNOEXEC.
Proof.
  intros p. destruct (off_other user_disable_single_step (child_flags (dup_words w)) (step_other _)) as [F1 F2].
  destruct (off_other clear_user_return_notifier (set_seccomp (seccomp_mode w) None w) (notifier_other _)) as [G1 G2].
  split.
  - intros q. transitivity (TASK_PFA_TEST q (user_disable_single_step (child_flags (dup_words w)))); [by unfold p, no_tracing; destruct emu|].
    rewrite F2. exact (G2 q).
  - transitivity (tflags (user_disable_single_step (child_flags (dup_words w)))); [by unfold p, no_tracing; destruct emu|].
    rewrite F1. cbn [child_flags tflags set_tflags]. f_equal. f_equal. exact G1.
Qed.

End child.

Definition words0 : words := Words PF_KTHREAD 0 0 1 120 None 0 0 0 None.

Lemma words0_typed : typed words0.
Proof. split; unfold fits; vm_compute; intuition discriminate. Qed.

(** Thread flags of x86: single stepping is flag 4, the notifier flag 11. *)
#[local] Instance x86 : Arch.
Proof.
  refine {| TIF_NOTIFY_RESUME := 1; TIF_NEED_RESCHED := 3; TIF_SECCOMP := 8;
    user_disable_single_step := clear_tsk_thread_flag 4; clear_user_return_notifier := clear_tsk_thread_flag 11;
    stepping f := bool_decide (f = 4); notifying f := bool_decide (f = 11) |}; try lia;
    try (by intros []); try (intros w f; apply tif_clear); intros w Hw; cbn;
    rewrite Z.clearbit_spec'; apply Z.ldiff_nonneg; by left.
Defined.

Definition some_fops : list fop :=
  [PfaSet NO_NEW_PRIVS; PfaTest NO_NEW_PRIVS; PfaTest SPREAD_PAGE; SetUsedMath; TestUsedMath;
   PfaSet SPREAD_SLAB; PfaClear CSpreadSlab; PfaTest SPREAD_SLAB; Restore 0 PF_USED_MATH; TestUsedMath;
   TifTestSet 63; TifTestClear 63; TifTest 63; RseqFork 0 (Words 0 0 0 1 120 (Some 5) 0 0 0 None); RseqSignal].

Lemma flags_refine_witness :
  typed (run_fops (fun w => w) some_fops words0).2 /\
  (run_fops (fun w => w) some_fops words0).1 = [0; 1; 0; 0; 2 ^ 13; 0; 0; 0; 0; 0; 0; 1; 0; 0; 0] /\
  (run_fops (fun w => w) some_fops words0).1 = (spec_fops (fun v => v) some_fops (see words0)).1.
Proof.
  assert (Hl : Forall fop_ok some_fops).
  { repeat apply Forall_cons_2; try apply Forall_nil_2; cbn; try done; try lia. }
  destruct (flags_refine (fun w => w) (fun v => v) ltac:(done) ltac:(by intros ? ?) ltac:(done) words0 some_fops
    words0_typed Hl) as (E & _ & Ht).
  split; [exact Ht|]. split; [vm_compute; reflexivity|exact E].
Defined.

Definition words1 : words := Words PF_FORKNOEXEC 1 (8 + 16 + 32) 1 120 None 0 0 2 (Some 7).

Lemma words1_typed : typed words1.
Proof. split; unfold fits; vm_compute; intuition discriminate. Qed.

