(* ===== verification/KTask.v ===== *)
(** * The life of a task structure

    The functions of [src/Assignment2/Assignment2-1/fork.c] that make and free
    [task_struct] and [signal_struct] and give back what they hold: the kernel
    stack (with [KStack]), the signals and through them an address space (with
    [KMm]), and the seccomp filter. *)

From Stdlib Require Import ZArith Lia String.
From stdpp Require Import base numbers list option strings gmap fin_sets.
From S2P Require Import Prelude CText Hook Sched Tracer ProcInfo KFork KStack KMm.

Local Open Scope Z_scope.

(** ** State *)
Record task_rec := TaskRec {
  tsk : task_struct;
  usage : Z;
  rcu_users : Z;
  stack_refcount : Z;
  signal : Z;
  seccomp : option Z }.          (** [seccomp.filter] *)

Record sig_rec := SigRec { sigcnt : Z; oom_mm : option Z }.

(** What [call_rcu] runs after a grace period: [delayed_put_task_struct],
    [__put_task_struct_rcu_cb] and [__delayed_free_task]. *)
Inductive rcu_head := CbPut (t : Z) | CbLast (t : Z) | CbFree (t : Z).

#[global] Instance rcu_head_eq_dec : EqDecision rcu_head.
Proof. solve_decision. Defined.

Record ktasks := KTasks {
  recs : gmap Z task_rec;
  sigs : gmap Z sig_rec;
  filters : gmap Z Z;            (** users of a seccomp filter *)
  kthreads : gset Z;             (** tasks with a [struct kthread] *)
  rcu : list rcu_head;
  stk : stacks;
  memory : mem;
  warned : bool }.               (** a [WARN_ON] has fired *)

Definition set_recs (x : gmap Z task_rec) (k : ktasks) : ktasks :=
  KTasks x (sigs k) (filters k) (kthreads k) (rcu k) (stk k) (memory k) (warned k).
Definition set_sigs (x : gmap Z sig_rec) (k : ktasks) : ktasks :=
  KTasks (recs k) x (filters k) (kthreads k) (rcu k) (stk k) (memory k) (warned k).
Definition set_rcu (x : list rcu_head) (k : ktasks) : ktasks :=
  KTasks (recs k) (sigs k) (filters k) (kthreads k) x (stk k) (memory k) (warned k).
Definition set_stk (x : stacks) (k : ktasks) : ktasks :=
  KTasks (recs k) (sigs k) (filters k) (kthreads k) (rcu k) x (memory k) (warned k).
Definition set_memory (x : mem) (k : ktasks) : ktasks :=
  KTasks (recs k) (sigs k) (filters k) (kthreads k) (rcu k) (stk k) x (warned k).
Definition WARN_ON (b : bool) (k : ktasks) : ktasks :=
  KTasks (recs k) (sigs k) (filters k) (kthreads k) (rcu k) (stk k) (memory k) (warned k || b).

(** Every access to a structure that is not there is undefined. *)
Definition at_task {A} (t : Z) (k : ktasks) (f : task_rec -> run A) : run A :=
  match recs k !! t with Some r => f r | None => Undef end.
Definition at_sig {A} (s : Z) (k : ktasks) (f : sig_rec -> run A) : run A :=
  match sigs k !! s with Some g => f g | None => Undef end.

Definition set_usage (n : Z) (r : task_rec) : task_rec :=
  TaskRec (tsk r) n (rcu_users r) (stack_refcount r) (signal r) (seccomp r).
Definition set_rcu_users (n : Z) (r : task_rec) : task_rec :=
  TaskRec (tsk r) (usage r) n (stack_refcount r) (signal r) (seccomp r).
Definition set_stack_refcount (n : Z) (r : task_rec) : task_rec :=
  TaskRec (tsk r) (usage r) (rcu_users r) n (signal r) (seccomp r).
Definition set_signal (s : Z) (r : task_rec) : task_rec :=
  TaskRec (tsk r) (usage r) (rcu_users r) (stack_refcount r) s (seccomp r).
Definition set_filter (f : option Z) (r : task_rec) : task_rec :=
  TaskRec (tsk r) (usage r) (rcu_users r) (stack_refcount r) (signal r) f.
Definition set_tsk (p : task_struct) (r : task_rec) : task_rec :=
  TaskRec p (usage r) (rcu_users r) (stack_refcount r) (signal r) (seccomp r).

Definition put_rec (t : Z) (r : task_rec) (k : ktasks) : ktasks := set_recs (<[t := r]> (recs k)) k.

(** [p->state] and [p->exit_state]. *)
Definition with_states (st ex : Z) (p : task_struct) : task_struct :=
  Task st ex (flags p) (pid p) (tgid p) (comm p) (real_parent p) (parent p) (children p) (group_leader p)
    (nvcsw p) (nivcsw p) (fork_count p) (uid p) (gid p) (utime p) (stime p).

Section tasks.
Context (n : nat) (kb : Z).      (** of the stacks *)
Context (CONFIG_MEMCG : bool).

(** ** The stack *)
Definition put_task_stack (cpu : nat -> Z) (t : Z) (k : ktasks) : run ktasks :=
  at_task t k (fun r =>
    if decide (stack_refcount r <= 0) then Undef else
    let k := put_rec t (set_stack_refcount (stack_refcount r - 1) r) k in
    if decide (stack_refcount r - 1 = 0)
    then s ← release_task_stack n kb cpu (tsk r) t (stk k); Ok (set_stk s k)
    else Ok k).

(** ** The end of a task *)
Definition free_task (t : Z) (k : ktasks) : run ktasks :=
  at_task t k (fun r =>
    let k := WARN_ON (bool_decide (stack_refcount r <> 0)) k in
    Ok (KTasks (delete t (recs k)) (sigs k) (ref_opt (-1) (seccomp r) (filters k))
          (if has (flags (tsk r)) PF_KTHREAD then kthreads k ∖ {[t]} else kthreads k) (rcu k) (stk k) (memory k) (warned k))).

Definition free_signal_struct (s : Z) (k : ktasks) : run ktasks :=
  at_sig s k (fun g =>
    k ← match oom_mm g with
        | Some i => m ← mmdrop_async i (memory k); Ok (set_memory m k)
        | None => Ok k
        end;
    Ok (set_sigs (delete s (sigs k)) k)).

Definition put_signal_struct (s : Z) (k : ktasks) : run ktasks :=
  at_sig s k (fun g =>
    if decide (sigcnt g <= 0) then Undef else
    let k := set_sigs (<[s := SigRec (sigcnt g - 1) (oom_mm g)]> (sigs k)) k in
    if decide (sigcnt g - 1 = 0) then free_signal_struct s k else Ok k).

(** [__put_task_struct]; [handoff] is the answer of [profile_handoff_task] and
    [cur] is [current]. *)
Definition put_task_struct_ (handoff : bool) (cur t : Z) (k : ktasks) : run ktasks :=
  at_task t k (fun r =>
    let k := WARN_ON (bool_decide (exit_state (tsk r) = 0)) k in
    let k := WARN_ON (bool_decide (usage r <> 0)) k in
    let k := WARN_ON (bool_decide (t = cur)) k in
    k ← put_signal_struct (signal r) k;
    if handoff then Ok k else free_task t k).

Definition delayed_free_task (t : Z) (k : ktasks) : run ktasks :=
  if CONFIG_MEMCG then Ok (set_rcu (rcu k ++ [CbFree t]) k) else free_task t k.

(** ** The beginning of a task

    [alloc] is the answer of the allocator; the other arguments are those of
    [dup_stack].  The new task is a copy but for its counts, its stack and its
    filter. *)
Definition dup_task_struct (alloc : option Z) (cpu cpu' : nat -> Z) (vm : option Z) (fails : nat -> bool) (err orig : Z)
    (k : ktasks) : run (option Z * ktasks) :=
  match alloc with
  | None => Ok (None, k)
  | Some t =>
      at_task orig k (fun o =>
        '(b, st) ← dup_stack n kb cpu cpu' vm fails err t (stk k);
        let k := set_stk st k in
        if (b : bool) then Ok (Some t, put_rec t (TaskRec (tsk o) 1 2 1 (signal o) None) k) else Ok (None, k))
  end.

(** The structure in [copy_signal]; [alloc] is [None] without memory.  The
    field is written before the test, here only when it is not NULL: the error
    path does not look at it. *)
Definition copy_signal (thread : bool) (alloc : option Z) (t : Z) (k : ktasks) : run (bool * ktasks) :=
  if thread then Ok (true, k) else
  match alloc with
  | None => Ok (false, k)
  | Some s => at_task t k (fun r => Ok (true, put_rec t (set_signal s r) (set_sigs (<[s := SigRec 1 None]> (sigs k)) k)))
  end.

(** The filter in [copy_seccomp]. *)
Definition copy_filter (cur t : Z) (k : ktasks) : run ktasks :=
  at_task cur k (fun c => at_task t k (fun r =>
    Ok (KTasks (<[t := set_filter (seccomp c) r]> (recs k)) (sigs k) (ref_opt 1 (seccomp c) (filters k)) (kthreads k) (rcu k)
          (stk k) (memory k) (warned k)))).

(** From [bad_fork_cleanup_signal], where there are signals, and from
    [bad_fork_free]. *)
Definition bad_fork (own_signal : bool) (cpu : nat -> Z) (t : Z) (k : ktasks) : run ktasks :=
  k ← (if own_signal then at_task t k (fun r => free_signal_struct (signal r) k) else Ok k);
  k ← at_task t k (fun r => Ok (put_rec t (set_tsk (with_states TASK_DEAD (exit_state (tsk r)) (tsk r)) r) k));
  k ← put_task_stack cpu t k;
  delayed_free_task t k.

(** [copy_process] for these objects: [early], [late] and [last] are errors
    before [copy_signal], after it, and after [copy_seccomp]; a thread counts
    with its signals at the very end. *)
Definition copy_process_life (alloc : option Z) (cpu cpu' cpu'' : nat -> Z) (vm : option Z) (fails : nat -> bool) (err : Z)
    (thread : bool) (sig : option Z) (early late last : bool) (cur : Z) (k : ktasks) : run (option Z * ktasks) :=
  '(o, k) ← dup_task_struct alloc cpu cpu' vm fails err cur k;
  match o with
  | None => Ok (None, k)
  | Some t =>
      if early then k ← bad_fork false cpu'' t k; Ok (None, k) else
      '(b, k) ← copy_signal thread sig t k;
      if negb b then k ← bad_fork false cpu'' t k; Ok (None, k) else
      if late then k ← bad_fork (negb thread) cpu'' t k; Ok (None, k) else
      k ← copy_filter cur t k;
      if last then k ← bad_fork (negb thread) cpu'' t k; Ok (None, k) else
      at_task t k (fun r =>
        k ← (if thread then at_sig (signal r) k (fun g => Ok (set_sigs (<[signal r := SigRec (sigcnt g + 1) (oom_mm g)]> (sigs k)) k))
             else Ok k);
        Ok (Some t, k))
  end.
End tasks.
