(* ===== verification/KTaskFacts.v ===== *)
(** * Theorems on the life of a task structure

    No structure is used after it was freed, and every stack, signal structure,
    seccomp filter and address space a task held is given back with it. *)

From Stdlib Require Import ZArith Lia String.
From stdpp Require Import base numbers list option strings gmap fin_sets.
From S2P Require Import Prelude CText Hook Sched Tracer ProcInfo KFork KStack KStackFacts KMm KMmFacts KTask.

Local Open Scope Z_scope.

(** ** Phases of a life

    A task is being made, with signals of its own or not; it is alive, and its
    parent has reaped it or not, and the scheduler, after the last switch away
    from it, has left its stack or not and put it or not; a grace period runs; others still hold it; nobody
    does; the last callback is queued; only the one who frees it knows it;
    and this one is a callback. *)
Inductive phase := Embryo (own : bool) | Live (reaped left switched : bool) | Grace | Held | Gone | Ending | Spare | Doomed.

#[global] Instance phase_eq_dec : EqDecision phase.
Proof. solve_decision. Defined.

(** Others hold [held] references to the structure and [sheld] to the stack;
    [gsig] is what the task counts for. *)
Record ghost := Ghost { ph : phase; held : Z; sheld : Z; gsig : option Z; gfilter : option Z }.

Definition counts_ph (p : phase) : bool := match p with Embryo own => own | Spare | Doomed => false | _ => true end.
Definition runs_ph (p : phase) : bool := match p with Embryo _ => true | Live _ b _ => negb b | _ => false end.

Definition phase_ok (r : task_rec) (x : ghost) : Prop :=
  match ph x with
  | Embryo _ => held x = 0 /\ usage r = 1 /\ rcu_users r = 2
  | Live a b c => usage r = held x + 1 /\ rcu_users r = bz (negb a) + bz (negb c) /\ a && c = false /\ (c = true -> b = true) /\
                  (a || b = true -> exit_state (tsk r) <> 0) /\ (b = true -> state (tsk r) = TASK_DEAD)
  | Grace => usage r = held x + 1 /\ exit_state (tsk r) <> 0 /\ state (tsk r) = TASK_DEAD
  | Held => usage r = held x /\ 0 < held x /\ exit_state (tsk r) <> 0 /\ state (tsk r) = TASK_DEAD
  | Gone | Ending => held x = 0 /\ usage r = 0 /\ exit_state (tsk r) <> 0
  | Spare | Doomed => held x = 0
  end.

Record task_ok (r : task_rec) (x : ghost) : Prop := {
  to_sig : gsig x = if counts_ph (ph x) then Some (signal r) else None;
  to_filter : gfilter x = seccomp r;
  to_stack : stack_refcount r = sheld x + bz (runs_ph (ph x));
  to_held : 0 <= sheld x <= held x;
  to_phase : phase_ok r x }.

Definition target (c : rcu_head) : Z := match c with CbPut t | CbLast t | CbFree t => t end.
Definition waits (c : rcu_head) : phase := match c with CbPut _ => Grace | CbLast _ => Ending | CbFree _ => Doomed end.

Definition counts (s : Z) (x : ghost) : bool := names_it (gsig x) s.
Definition filters_by (f : Z) (x : ghost) : bool := names_it (gfilter x) f.
Definition ooms (i : Z) (y : sig_rec) : bool := names_it (oom_mm y) i.
Definition sig_ok (o : option sig_rec) (c : Z) : Prop := match o with Some y => sigcnt y = c /\ 0 < c | None => c = 0 end.

Section inv.
Context (n : nat) (kb : Z) (bf bm bn bfil : Z -> Z).

(** The address spaces: others use [U] and hold [Lo], and each signal structure
    with an [oom_mm] holds one more. *)
Definition mem_ok (U Lo : gmap Z Z) (sg : gmap Z sig_rec) (m : mem) : Prop :=
  exists L, (forall i, 0 <= ref Lo i /\ ref L i = ref Lo i + number (ooms i) sg) /\ alive bf bn bm U L (works m) m.

Record kinv (g : gmap Z ghost) (U Lo : gmap Z Z) (k : ktasks) : Prop := {
  ki_tasks t r : recs k !! t = Some r -> exists x, g !! t = Some x /\ task_ok r x;
  ki_ghosts t x : g !! t = Some x -> is_Some (recs k !! t);
  ki_stack t : is_Some (stack_of (stk k) !! t) <-> exists r, recs k !! t = Some r /\ 0 < stack_refcount r;
  ki_sound : sound n kb 0 (stk k);
  ki_nodup : NoDup (rcu k);
  ki_rcu c : c ∈ rcu k <-> exists x, g !! target c = Some x /\ ph x = waits c;
  ki_sig s : sig_ok (sigs k !! s) (number (counts s) g);
  ki_filter f : ref (filters k) f = bfil f + number (filters_by f) g;
  ki_mem : mem_ok U Lo (sigs k) (memory k);
  ki_warn : warned k = false }.

Lemma kinv_at g U Lo k t x : kinv g U Lo k -> g !! t = Some x -> exists r, recs k !! t = Some r /\ task_ok r x.
Proof.
  intros Hk Hx. destruct (ki_ghosts _ _ _ _ Hk _ _ Hx) as [r Hr]. exists r. split; [done|].
  destruct (ki_tasks _ _ _ _ Hk _ _ Hr) as (x' & Hx' & Ho). by simplify_eq.
Qed.

(** A step that changes one task and what it holds. *)
Lemma kinv_change g U Lo k t x r' x' sg' fil' kth' rcu' s' m' :
  kinv g U Lo k -> g !! t = Some x -> task_ok r' x' ->
  (forall t', is_Some (stack_of s' !! t') <-> if decide (t' = t) then 0 < stack_refcount r' else is_Some (stack_of (stk k) !! t')) ->
  sound n kb 0 s' -> NoDup rcu' ->
  (forall c, c ∈ rcu' <-> if decide (target c = t) then ph x' = waits c else c ∈ rcu k) ->
  (forall s, sig_ok (sg' !! s) (number (counts s) g - bz (counts s x) + bz (counts s x'))) ->
  (forall f, ref fil' f = ref (filters k) f - bz (filters_by f x) + bz (filters_by f x')) ->
  mem_ok U Lo sg' m' ->
  kinv (<[t := x']> g) U Lo (KTasks (<[t := r']> (recs k)) sg' fil' kth' rcu' s' m' (warned k)).
Proof.
  intros Hk Hx Hok Hst Hs Hnd Hrcu Hsig Hfil Hmem. split; cbn [recs sigs filters rcu stk memory warned]; try done.
  - intros t0 r0. destruct (decide (t0 = t)) as [->|Hne].
    + rewrite !lookup_insert_eq. intros [= <-]. by exists x'.
    + rewrite !lookup_insert_ne by done. apply (ki_tasks _ _ _ _ Hk).
  - intros t0 x0. destruct (decide (t0 = t)) as [->|Hne].
    + rewrite !lookup_insert_eq. intros _. by eexists.
    + rewrite !lookup_insert_ne by done. apply (ki_ghosts _ _ _ _ Hk).
  - intros t0. rewrite Hst. case_decide as E.
    + subst. rewrite lookup_insert_eq. naive_solver.
    + rewrite lookup_insert_ne by done. apply (ki_stack _ _ _ _ Hk).
  - intros c. rewrite Hrcu. case_decide as E.
    + rewrite E, lookup_insert_eq. naive_solver.
    + rewrite lookup_insert_ne by done. apply (ki_rcu _ _ _ _ Hk).
  - intros s. rewrite (number_update _ _ _ _ _ Hx). apply Hsig.
  - intros f. rewrite (number_update _ _ _ _ _ Hx), Hfil, (ki_filter _ _ _ _ Hk). lia.
  - apply (ki_warn _ _ _ _ Hk).
Qed.

(** The stack, the signals and the filter stay. *)
Lemma kinv_rec g U Lo k t r x r' x' rcu' :
  kinv g U Lo k -> g !! t = Some x -> recs k !! t = Some r -> task_ok r' x' ->
  gsig x' = gsig x -> gfilter x' = gfilter x -> (0 < stack_refcount r' <-> 0 < stack_refcount r) -> NoDup rcu' ->
  (forall c, c ∈ rcu' <-> if decide (target c = t) then ph x' = waits c else c ∈ rcu k) ->
  kinv (<[t := x']> g) U Lo (set_rcu rcu' (put_rec t r' k)).
Proof.
  intros Hk Hx Hr Hok Es Ef Est Hnd Hrcu. eapply (kinv_change g U Lo k t x); try done; try apply Hk.
  - intros t'. cbn [stk put_rec set_recs]. case_decide; [subst|done]. rewrite (ki_stack _ _ _ _ Hk t), Hr, Est. naive_solver.
  - intros s. unfold counts. rewrite Es.
    replace (number _ g - _ + _) with (number (counts s) g) by (unfold counts; lia). apply (ki_sig _ _ _ _ Hk).
  - intros f. unfold filters_by. cbn [filters put_rec set_recs]. rewrite Ef. lia.
Qed.

(** No callback waits for the task, before and after. *)
Lemma rcu_same g U Lo k t x x' :
  kinv g U Lo k -> g !! t = Some x -> (forall c, ph x <> waits c) -> (forall c, ph x' <> waits c) ->
  forall c, c ∈ rcu k <-> if decide (target c = t) then ph x' = waits c else c ∈ rcu k.
Proof.
  intros Hk Hx H1 H2 c. case_decide as E; [|done]. split; [|by intros ?%H2].
  intros Hc. apply (ki_rcu _ _ _ _ Hk) in Hc as (y & Hy & Hp). rewrite E in Hy. simplify_eq. by apply H1 in Hp.
Qed.

Lemma rcu_kept g U Lo k t x x' :
  kinv g U Lo k -> g !! t = Some x -> ph x' = ph x ->
  forall c, c ∈ rcu k <-> if decide (target c = t) then ph x' = waits c else c ∈ rcu k.
Proof.
  intros Hk Hx E c. case_decide as Ec; [|done]. rewrite (ki_rcu _ _ _ _ Hk), Ec, E. naive_solver.
Qed.

(** A callback is queued, and a callback is taken. *)
Lemma rcu_push g U Lo k t x c :
  kinv g U Lo k -> g !! t = Some x -> (forall c, ph x <> waits c) -> target c = t ->
  NoDup (rcu k ++ [c]) /\
  forall d, d ∈ rcu k ++ [c] <-> if decide (target d = t) then waits c = waits d else d ∈ rcu k.
Proof.
  intros Hk Hx Hp Hc. assert (Hno : forall d, target d = t -> d ∉ rcu k).
  { intros d Hd Hin. apply (ki_rcu _ _ _ _ Hk) in Hin as (y & Hy & Hw). rewrite Hd in Hy. simplify_eq. by apply Hp in Hw. }
  split.
  - apply NoDup_app. split_and!; [apply Hk| |apply NoDup_singleton].
    intros d Hd Hin. apply list_elem_of_singleton in Hin as ->. by apply (Hno c).
  - intros d. rewrite elem_of_app, list_elem_of_singleton. case_decide as E.
    + split; [intros [H| ->]; [by apply Hno in H|done]|]. intros Hw. right.
      destruct c, d; cbn in *; congruence.
    + split; [intros [H| ->]; [done|congruence]|by left].
Qed.

Lemma rcu_pop g U Lo k c q :
  kinv g U Lo k -> rcu k = c :: q ->
  (exists x, g !! target c = Some x /\ ph x = waits c) /\ NoDup q /\
  forall x', (forall d, ph x' <> waits d) ->
    forall d, d ∈ q <-> if decide (target d = target c) then ph x' = waits d else d ∈ rcu k.
Proof.
  intros Hk E. pose proof (ki_nodup _ _ _ _ Hk) as Hnd. rewrite E in Hnd. apply NoDup_cons in Hnd as [Hc Hnd].
  assert (Hin : exists x, g !! target c = Some x /\ ph x = waits c) by (apply (ki_rcu _ _ _ _ Hk); rewrite E; apply list_elem_of_here).
  split_and!; [done|done|]. intros x' Hx' d. case_decide as Ed.
  - split; [|by intros ?%Hx']. intros Hd. exfalso. assert (Hd' : d ∈ rcu k) by (rewrite E; by right).
    apply (ki_rcu _ _ _ _ Hk) in Hd' as (y & Hy & Hw). destruct Hin as (x & Hx & Hwx). rewrite Ed in Hy. simplify_eq.
    apply Hc. replace c with d; [done|]. destruct c, d; cbn in *; congruence.
  - rewrite E, elem_of_cons. naive_solver.
Qed.

(** ** The end of a task *)
Lemma warn_false k : WARN_ON false k = k.
Proof. destruct k. unfold WARN_ON. cbn. by rewrite orb_false_r. Qed.

Lemma free_task_ok g U Lo k t x :
  kinv g U Lo k -> g !! t = Some x -> ph x = Spare ->
  exists k', free_task t k = Ok k' /\ kinv (delete t g) U Lo k' /\ recs k' = delete t (recs k).
Proof.
  intros Hk Hx Hp. destruct (kinv_at _ _ _ _ _ _ Hk Hx) as (r & Hr & [H1 H2 H3 H4 H5]).
  unfold phase_ok in H5. rewrite Hp in *. cbn [counts_ph runs_ph bz] in *.
  unfold free_task, at_task. rewrite Hr, bool_decide_eq_false_2, warn_false by lia.
  eexists. split; [done|]. split; [|done]. split; cbn [recs sigs filters rcu stk memory warned]; try apply Hk.
  - intros t0 r0 [Hne E]%lookup_delete_Some. rewrite lookup_delete_ne by done. by apply (ki_tasks _ _ _ _ Hk).
  - intros t0 x0 [Hne E]%lookup_delete_Some. rewrite lookup_delete_ne by done. by apply (ki_ghosts _ _ _ _ Hk t0 x0).
  - intros t0. rewrite (ki_stack _ _ _ _ Hk). destruct (decide (t0 = t)) as [->|Hne].
    + rewrite lookup_delete_eq, Hr. split; [intros (r0 & [= <-] & ?); lia|naive_solver].
    + by rewrite lookup_delete_ne.
  - intros c. rewrite (ki_rcu _ _ _ _ Hk). destruct (decide (target c = t)) as [E|Hne].
    + rewrite E, lookup_delete_eq, Hx. split; [|naive_solver]. intros (y & [= <-] & Hw). by destruct c; rewrite Hp in Hw.
    + by rewrite lookup_delete_ne.
  - intros s. rewrite (number_delete _ _ _ _ Hx). change (counts s x) with (names_it (gsig x) s). rewrite H1, names_none. cbn [bz]. rewrite Z.sub_0_r.
    apply (ki_sig _ _ _ _ Hk).
  - intros f. rewrite (number_delete _ _ _ _ Hx), ref_ref_opt, (ki_filter _ _ _ _ Hk). change (filters_by f x) with (names_it (gfilter x) f). rewrite H2. lia.
Qed.

Lemma free_sig_ok U Lo k s y :
  mem_ok U Lo (sigs k) (memory k) -> sigs k !! s = Some y ->
  exists m', free_signal_struct s k = Ok (set_sigs (delete s (sigs k)) (set_memory m' k)) /\ mem_ok U Lo (delete s (sigs k)) m'.
Proof.
  intros (L & HL & Ha) Hy. unfold free_signal_struct, at_sig. rewrite Hy.
  assert (Hn : forall j, number (ooms j) (sigs k) = number (ooms j) (delete s (sigs k)) + bz (names_it (oom_mm y) j)).
  { intros j. rewrite (number_delete _ _ _ _ Hy). change (ooms j y) with (names_it (oom_mm y) j). lia. }
  destruct (oom_mm y) as [i|].
  - destruct (mmdrop_async_ok _ _ _ _ _ i _ Ha) as (m' & -> & Ha').
    { destruct (HL i) as [H0 ->]. rewrite Hn. unfold names_it. rewrite bool_decide_eq_true_2 by done. cbn [bz]. unfold number. lia. }
    exists m'. split; [done|]. exists (ref_add (-1) i L). split; [|done]. intros j. destruct (HL j) as [H0 E].
    rewrite ref_ref_add, E, Hn. unfold names_it. split; [done|].
    case_decide; [subst; rewrite bool_decide_eq_true_2 by done|rewrite bool_decide_eq_false_2 by congruence]; cbn [bz]; lia.
  - exists (memory k). split; [by destruct k|]. exists L. split; [|done]. intros j. destruct (HL j) as [H0 ->].
    rewrite Hn, names_none. cbn [bz]. lia.
Qed.

(** The task stops to count for its signals. *)
Lemma sig_dropped g U Lo k t x r y p s m' :
  kinv g U Lo k -> g !! t = Some x -> recs k !! t = Some r -> gsig x = Some s ->
  task_ok r (Ghost p (held x) (sheld x) None (gfilter x)) ->
  (forall c, ph x <> waits c) -> (forall c, p <> waits c) ->
  sig_ok y (number (counts s) g - 1) -> mem_ok U Lo (partial_alter (fun _ => y) s (sigs k)) m' ->
  kinv (<[t := Ghost p (held x) (sheld x) None (gfilter x)]> g) U Lo
    (set_sigs (partial_alter (fun _ => y) s (sigs k)) (set_memory m' k)).
Proof.
  intros Hk Hx Hr Hs Hok H1 H2 Hy Hm. set (x' := Ghost _ _ _ _ _).
  pose proof (kinv_change g U Lo k t x r x' (partial_alter (fun _ => y) s (sigs k)) (filters k) (kthreads k) (rcu k) (stk k) m'
    Hk Hx Hok) as H. rewrite (insert_id _ _ _ Hr) in H. apply H; try done; try apply Hk.
  - intros t'. case_decide; [subst|done]. rewrite (ki_stack _ _ _ _ Hk t), Hr. naive_solver.
  - by apply (rcu_same g U Lo k t x x').
  - intros s'. unfold counts at 2 3. unfold x'. cbn [gsig]. rewrite Hs, names_none. unfold names_it. cbn [bz].
    destruct (decide (s' = s)) as [->|Hne].
    + rewrite lookup_partial_alter_eq, bool_decide_eq_true_2, Z.add_0_r by done. done.
    + rewrite lookup_partial_alter_ne, bool_decide_eq_false_2 by congruence. cbn [bz].
      rewrite Z.sub_0_r, Z.add_0_r. apply (ki_sig _ _ _ _ Hk).
  - intros f. unfold filters_by, x'. cbn [gfilter]. lia.
Qed.

(** A counted signal structure is there. *)
Lemma number_pos g t x s : g !! t = Some x -> gsig x = Some s -> 0 < number (counts s) g.
Proof.
  intros Hx Hs. pose proof (number_delete (counts s) g t x Hx) as H. change (counts s x) with (names_it (gsig x) s) in H.
  unfold names_it in H. rewrite Hs, bool_decide_eq_true_2 in H by done. cbn [bz] in H. unfold number in *. lia.
Qed.

Lemma sig_there g U Lo k t x s :
  kinv g U Lo k -> g !! t = Some x -> gsig x = Some s ->
  exists y, sigs k !! s = Some y /\ sigcnt y = number (counts s) g /\ 0 < sigcnt y.
Proof.
  intros Hk Hx Hs. pose proof (number_pos g t x s Hx Hs) as Hn. pose proof (ki_sig _ _ _ _ Hk s) as H.
  unfold sig_ok in H. destruct (sigs k !! s) as [y|]; [|lia]. exists y. split; [done|]. lia.
Qed.

Definition spare (x : ghost) : ghost := Ghost Spare 0 0 None (gfilter x).
(** The entry of a task after a step that may have freed it. *)
Definition settle (t : Z) (x : ghost) (k : ktasks) (g : gmap Z ghost) : gmap Z ghost :=
  match recs k !! t with Some _ => <[t := x]> g | None => delete t g end.

Lemma put_signal_ok g U Lo k t x r :
  kinv g U Lo k -> g !! t = Some x -> recs k !! t = Some r -> ph x = Gone ->
  exists k', put_signal_struct (signal r) k = Ok k' /\ kinv (<[t := spare x]> g) U Lo k' /\ recs k' = recs k.
Proof.
  intros Hk Hx Hr Hp. destruct (kinv_at _ _ _ _ _ _ Hk Hx) as (r' & Hr' & Hok). simplify_eq.
  destruct (Hok) as [H1 H2 H3 H4 H5]. unfold phase_ok in H5. rewrite Hp in *. cbn [counts_ph runs_ph bz] in *.
  destruct (sig_there _ _ _ _ _ _ _ Hk Hx H1) as (y & Hy & Hc & Hpos).
  unfold put_signal_struct, at_sig. rewrite Hy, decide_False by lia.
  assert (Hx0 : spare x = Ghost Spare (held x) (sheld x) None (gfilter x)) by (unfold spare; f_equal; lia).
  assert (Hok' : task_ok r (spare x)) by (split; cbn; try done; lia).
  set (k1 := set_sigs _ k).
  assert (Hm : mem_ok U Lo (sigs k1) (memory k1)).
  { destruct (ki_mem _ _ _ _ Hk) as (L & HL & Ha). exists L. split; [|done]. intros i. cbn [k1 set_sigs sigs].
    rewrite (number_update _ _ _ _ _ Hy). destruct (HL i) as [? ->]. unfold ooms at 3 4. cbn [oom_mm]. lia. }
  rewrite Hx0. case_decide.
  - destruct (free_sig_ok U Lo k1 (signal r) (SigRec (sigcnt y - 1) (oom_mm y)) Hm) as (m' & -> & Hm');
      [by cbn [k1 set_sigs sigs]; rewrite lookup_insert_eq|].
    cbn [k1 set_sigs sigs] in *. rewrite delete_insert_eq in *. eexists. split; [done|]. split; [|done].
    eapply (sig_dropped g U Lo k t x r None Spare (signal r)); try done; rewrite ?Hp; try (by intros []); [by rewrite <- Hx0|cbn; lia].
  - eexists. split; [done|]. split; [|done].
    eapply (sig_dropped g U Lo k t x r (Some (SigRec (sigcnt y - 1) (oom_mm y))) Spare (signal r) (memory k)); try done; rewrite ?Hp; try (by intros []);
      [by rewrite <- Hx0|cbn; lia].
Qed.

Lemma put_task__ok g U Lo k handoff cur t x :
  kinv g U Lo k -> g !! t = Some x -> ph x = Gone -> t <> cur ->
  exists k', put_task_struct_ handoff cur t k = Ok k' /\ kinv (settle t (spare x) k' g) U Lo k'.
Proof.
  intros Hk Hx Hp Hne. destruct (kinv_at _ _ _ _ _ _ Hk Hx) as (r & Hr & Hok).
  destruct (Hok) as [H1 H2 H3 H4 H5]. unfold phase_ok in H5. rewrite Hp in *. destruct H5 as (H5 & H6 & H7).
  unfold put_task_struct_, at_task. rewrite Hr.
  rewrite !bool_decide_eq_false_2, !warn_false by (done || lia).
  destruct (put_signal_ok _ _ _ _ _ _ _ Hk Hx Hr Hp) as (k1 & -> & Hk1 & Er). cbn [mbind run_bind].
  unfold settle. destruct handoff.
  - exists k1. split; [done|]. by rewrite Er, Hr.
  - destruct (free_task_ok _ _ _ _ t (spare x) Hk1) as (k2 & -> & Hk2 & Er2); [by rewrite lookup_insert_eq|done|].
    exists k2. split; [done|]. rewrite Er2, lookup_delete_eq. by rewrite delete_insert_eq in Hk2.
Qed.

Lemma put_stack_ok cpu g U Lo k t x r x' :
  kinv g U Lo k -> g !! t = Some x -> recs k !! t = Some r -> 0 < stack_refcount r ->
  (stack_refcount r = 1 -> state (tsk r) = TASK_DEAD) ->
  task_ok (set_stack_refcount (stack_refcount r - 1) r) x' -> gsig x' = gsig x -> gfilter x' = gfilter x ->
  (forall c, c ∈ rcu k <-> if decide (target c = t) then ph x' = waits c else c ∈ rcu k) ->
  exists k', put_task_stack n kb cpu t k = Ok k' /\ kinv (<[t := x']> g) U Lo k' /\
    recs k' = <[t := set_stack_refcount (stack_refcount r - 1) r]> (recs k).
Proof.
  intros Hk Hx Hr Hpos Hdead Hok Es Ef Hrcu. unfold put_task_stack, at_task. rewrite Hr, decide_False by lia. case_decide as E.
  - assert (Hs : is_Some (stack_of (stk k) !! t)) by (apply (ki_stack _ _ _ _ Hk); eauto). destruct Hs as [a Ha].
    destruct (release_cases n kb cpu (tsk r) t a (stk k) (ki_sound _ _ _ _ Hk) Ha) as (s' & E' & Hs' & Est).
    cbn [put_rec set_recs stk]. rewrite E'. cbn [mbind run_bind]. eexists. split; [done|]. split; [|done].
    rewrite decide_True in Est by (apply Hdead; lia).
    eapply (kinv_change g U Lo k t x); try done; try apply Hk.
    + intros t'. rewrite Est. cbn [set_stack_refcount stack_refcount]. case_decide.
      * subst. rewrite lookup_delete_eq. split; [by intros [? ?]|lia].
      * by rewrite lookup_delete_ne.
    + intros s. unfold counts at 2 3. rewrite Es.
      replace (number _ g - _ + _) with (number (counts s) g) by lia. apply (ki_sig _ _ _ _ Hk).
    + intros f. unfold filters_by. cbn [filters put_rec set_recs]. rewrite Ef. lia.
  - eexists. split; [done|]. split; [|done].
    apply (kinv_rec g U Lo k t r x _ x' (rcu k)); try done; [cbn; lia|apply Hk].
Qed.

(** ** The rest of the kernel

    [put_task_struct] of [sched/task.h], with the variant that puts the end off
    ([rt]), and [put_task_struct_rcu_user] of [exit.c]: a count goes down, and
    the last one calls the functions above or queues a callback. *)
Definition put_task_struct (rt handoff : bool) (cur t : Z) (k : ktasks) : run ktasks :=
  at_task t k (fun r =>
    if decide (usage r <= 0) then Undef else
    let k := put_rec t (set_usage (usage r - 1) r) k in
    if decide (usage r - 1 = 0) then if rt then Ok (set_rcu (rcu k ++ [CbLast t]) k) else put_task_struct_ handoff cur t k
    else Ok k).

Definition put_task_struct_rcu_user (t : Z) (k : ktasks) : run ktasks :=
  at_task t k (fun r =>
    if decide (rcu_users r <= 0) then Undef else
    let k := put_rec t (set_rcu_users (rcu_users r - 1) r) k in
    if decide (rcu_users r - 1 = 0) then Ok (set_rcu (rcu k ++ [CbPut t]) k) else Ok k).

(** The oldest callback runs. *)
Definition run_rcu (rt handoff : bool) (cur : Z) (k : ktasks) : run ktasks :=
  match rcu k with
  | [] => Ok k
  | CbPut t :: q => put_task_struct rt handoff cur t (set_rcu q k)
  | CbLast t :: q => put_task_struct_ handoff cur t (set_rcu q k)
  | CbFree t :: q => free_task t (set_rcu q k)
  end.

Definition last_put (x : ghost) : bool := bool_decide (ph x = Held) && bool_decide (held x = 1).
Definition after_put (rt : bool) (x : ghost) : ghost :=
  if last_put x then if rt then Ghost Ending 0 0 (gsig x) (gfilter x) else spare x
  else Ghost (ph x) (held x - 1) (sheld x) (gsig x) (gfilter x).

Lemma put_rec_lookup t r k : recs (put_rec t r k) !! t = Some r.
Proof. cbn. apply lookup_insert_eq. Qed.

(** Only one who holds a reference puts it, and a reference to the stack goes
    first. *)
Lemma put_task_ok rt handoff cur g U Lo k t x :
  kinv g U Lo k -> g !! t = Some x -> sheld x < held x -> (ph x = Held -> t <> cur) ->
  exists k', put_task_struct rt handoff cur t k = Ok k' /\ kinv (settle t (after_put rt x) k' g) U Lo k'.
Proof.
  intros Hk Hx Hh Hcur. destruct (kinv_at _ _ _ _ _ _ Hk Hx) as (r & Hr & [H1 H2 H3 H4 H5]).
  unfold put_task_struct, at_task. rewrite Hr. unfold after_put, last_put.
  assert (Hu : 1 <= usage r /\ (usage r = 1 <-> ph x = Held /\ held x = 1)).
  { unfold phase_ok in H5. destruct (ph x); (split; [lia|split; [intros ?; first [split; [done|lia] | exfalso; lia]|intros [? ?]; first [done|lia]]]). }
  destruct Hu as [Hu Hlast]. rewrite decide_False by lia. destruct (decide (usage r - 1 = 0)) as [E|E].
  - destruct (proj1 Hlast ltac:(lia)) as [Hp Hh1]. rewrite !bool_decide_eq_true_2 by done. cbn [andb].
    unfold phase_ok in H5. rewrite Hp in *. cbn [counts_ph runs_ph bz] in *.
    destruct rt.
    + eexists. split; [done|]. unfold settle. cbn [set_rcu recs]. rewrite put_rec_lookup.
      destruct (rcu_push g U Lo k t x (CbLast t) Hk Hx) as [Hnd Hq]; [rewrite Hp; by intros []|done|].
      eapply kinv_rec; try done; cbn; try done. split; cbn; try done; lia.
    + set (x1 := Ghost Gone 0 0 (gsig x) (gfilter x)).
      assert (Hk1 : kinv (<[t := x1]> g) U Lo (set_rcu (rcu k) (put_rec t (set_usage (usage r - 1) r) k))).
      { eapply (kinv_rec g U Lo k t r x); try done; [|apply Hk|].
        - split; cbn; try done; lia.
        - apply (rcu_same g U Lo k t x x1); [done|done|rewrite Hp; by intros []|by intros []]. }
      change (set_rcu (rcu k) _) with (put_rec t (set_usage (usage r - 1) r) k) in Hk1.
      destruct (put_task__ok _ _ _ _ handoff cur t x1 Hk1) as (k2 & E2 & Hk2);
        [by rewrite lookup_insert_eq|done|by apply Hcur|].
      exists k2. split; [done|]. unfold settle in *. destruct (recs k2 !! t).
      * by rewrite insert_insert_eq in Hk2.
      * by rewrite delete_insert_eq in Hk2.
  - assert (Hn : bool_decide (ph x = Held) && bool_decide (held x = 1) = false).
    { apply not_true_iff_false. rewrite andb_true_iff, !bool_decide_eq_true. intros H. apply Hlast in H. lia. }
    rewrite Hn. eexists. split; [done|]. unfold settle. rewrite put_rec_lookup.
    change (put_rec t ?r' k) with (set_rcu (rcu k) (put_rec t r' k)).
    eapply (kinv_rec g U Lo k t r x); try done; [|apply Hk|by apply (rcu_kept g U Lo k t x)].
    split; cbn; try done; try lia. unfold phase_ok in *. cbn. destruct (ph x); cbn in *; intuition lia.
Qed.
Definition with_ph (p : phase) (x : ghost) : ghost := Ghost p (held x) (sheld x) (gsig x) (gfilter x).
Definition live_ph (a b c : bool) : phase := if a && c then Grace else Live a b c.

(** One of the two users puts the task. *)
Lemma rcu_user_ok g U Lo k t x r a b c a' c' :
  kinv g U Lo k -> g !! t = Some x -> recs k !! t = Some r -> ph x = Live a b c -> exit_state (tsk r) <> 0 ->
  bz (negb a') + bz (negb c') = bz (negb a) + bz (negb c) - 1 -> (c' = true -> b = true) ->
  exists k', put_task_struct_rcu_user t k = Ok k' /\ kinv (<[t := with_ph (live_ph a' b c') x]> g) U Lo k'.
Proof.
  intros Hk Hx Hr Hp Hex Hac Hb. destruct (kinv_at _ _ _ _ _ _ Hk Hx) as (r' & Hr' & [H1 H2 H3 H4 H5]). simplify_eq.
  unfold phase_ok in H5. rewrite Hp in *. cbn [counts_ph runs_ph] in *. destruct H5 as (H5 & H6 & H7 & H8 & H9 & H10).
  assert (Hge : 0 <= bz (negb a') + bz (negb c')) by (destruct a', c'; cbn; lia).
  unfold put_task_struct_rcu_user, at_task, live_ph. rewrite Hr, decide_False by lia. case_decide as E.
  - assert (Hac' : a' = true /\ c' = true) by (destruct a', c'; cbn in *; try lia; done). destruct Hac' as [-> ->]. cbn [andb].
    rewrite Hb in * by done. eexists. split; [done|].
    destruct (rcu_push g U Lo k t x (CbPut t) Hk Hx) as [Hnd Hq]; [rewrite Hp; by intros []|done|].
    eapply (kinv_rec g U Lo k t r x); try done. split; cbn; auto.
  - assert (Hac' : a' && c' = false) by (destruct a', c'; cbn in *; try lia; done). rewrite Hac'. eexists. split; [done|].
    change (put_rec t ?r0 k) with (set_rcu (rcu k) (put_rec t r0 k)).
    eapply (kinv_rec g U Lo k t r x); try done; [|apply Hk|apply (rcu_same g U Lo k t x); try done; [rewrite Hp; by intros []|by intros []]].
    split; cbn; try done. split_and!; try done; lia.
Qed.

(** The state of the task changes, and with it the phase of one that lives. *)
Lemma live_step g U Lo k t x r r' x' a b c :
  kinv g U Lo k -> g !! t = Some x -> recs k !! t = Some r -> ph x = Live a b c -> (forall d, ph x' <> waits d) ->
  task_ok r' x' -> gsig x' = gsig x -> gfilter x' = gfilter x -> stack_refcount r' = stack_refcount r ->
  kinv (<[t := x']> g) U Lo (put_rec t r' k).
Proof.
  intros Hk Hx Hr Hp Hp' Hok Es Ef Est. change (put_rec t r' k) with (set_rcu (rcu k) (put_rec t r' k)).
  eapply (kinv_rec g U Lo k t r x); try done; [by rewrite Est|apply Hk|].
  apply (rcu_same g U Lo k t x x'); try done. rewrite Hp. by intros [].
Qed.

(** Taking a callback changes the phase of its task. *)
Definition taken (c : rcu_head) (x : ghost) : ghost :=
  match c with
  | CbPut _ => Ghost Held (held x + 1) (sheld x) (gsig x) (gfilter x)
  | CbLast _ => with_ph Gone x
  | CbFree _ => with_ph Spare x
  end.

Lemma take_ok g U Lo k c q :
  kinv g U Lo k -> rcu k = c :: q ->
  exists x, g !! target c = Some x /\ ph x = waits c /\ kinv (<[target c := taken c x]> g) U Lo (set_rcu q k).
Proof.
  intros Hk E. destruct (rcu_pop g U Lo k c q Hk E) as ((x & Hx & Hp) & Hnd & Hq). exists x. split_and!; [done|done|].
  destruct (kinv_at _ _ _ _ _ _ Hk Hx) as (r & Hr & [H1 H2 H3 H4 H5]).
  assert (Hk' : kinv (<[target c := taken c x]> g) U Lo (set_rcu q (put_rec (target c) r k))).
  { eapply (kinv_rec g U Lo k (target c) r x); try done; try by destruct c.
    - unfold phase_ok in H5. rewrite Hp in *. destruct c; cbn in *; (split; cbn; try done; lia).
    - apply Hq. by destruct c; intros []. }
  unfold put_rec in Hk'. rewrite (insert_id _ _ _ Hr) in Hk'. destruct k; exact Hk'.
Qed.

Definition after_rcu (rt : bool) (c : rcu_head) (x : ghost) : ghost :=
  match c with CbPut _ => after_put rt (taken c x) | _ => spare x end.

Lemma settle_insert t x y k g : settle t x k (<[t := y]> g) = settle t x k g.
Proof. unfold settle. destruct (recs k !! t); [apply insert_insert_eq|apply delete_insert_eq]. Qed.

Lemma run_rcu_ok rt handoff cur g U Lo k c q :
  kinv g U Lo k -> rcu k = c :: q -> (forall x, g !! cur = Some x -> ph x <> waits c) ->
  exists k' x, run_rcu rt handoff cur k = Ok k' /\ g !! target c = Some x /\
    kinv (settle (target c) (after_rcu rt c x) k' g) U Lo k'.
Proof.
  intros Hk E Hcur. destruct (take_ok _ _ _ _ _ _ Hk E) as (x & Hx & Hp & Hk1). unfold run_rcu. rewrite E.
  assert (Hne : target c <> cur) by (intros <-; by apply (Hcur x)).
  destruct (kinv_at _ _ _ _ _ _ Hk Hx) as (r & Hr & [H1 H2 H3 H4 H5]).
  assert (Hx1 : <[target c := taken c x]> g !! target c = Some (taken c x)) by apply lookup_insert_eq.
  destruct c as [t|t|t]; cbn [target waits after_rcu] in *.
  - destruct (put_task_ok rt handoff cur _ _ _ _ _ _ Hk1 Hx1) as (k' & E' & Hk'); [cbn; lia|done|].
    exists k', x. rewrite settle_insert in Hk'. done.
  - destruct (put_task__ok _ _ _ _ handoff cur _ _ Hk1 Hx1) as (k' & E' & Hk'); [done|done|].
    exists k', x. rewrite settle_insert in Hk'. done.
  - destruct (free_task_ok _ _ _ _ _ _ Hk1 Hx1) as (k' & E' & Hk' & Er); [done|].
    exists k', x. split_and!; [done|done|]. unfold settle. rewrite Er, lookup_delete_eq. by rewrite delete_insert_eq in Hk'.
Qed.

(** ** The beginning of a task *)
Lemma kinv_insert g U Lo k t r' x' s' :
  kinv g U Lo k -> g !! t = None -> task_ok r' x' -> gsig x' = None -> gfilter x' = None -> (forall c, ph x' <> waits c) ->
  (forall t', is_Some (stack_of s' !! t') <-> if decide (t' = t) then 0 < stack_refcount r' else is_Some (stack_of (stk k) !! t')) ->
  sound n kb 0 s' -> kinv (<[t := x']> g) U Lo (put_rec t r' (set_stk s' k)).
Proof.
  intros Hk Hx Hok Es Ef Hp Hst Hs. split; cbn [put_rec set_recs set_stk recs sigs filters rcu stk memory warned]; try apply Hk; try done.
  - intros t0 r0. destruct (decide (t0 = t)) as [->|Hne].
    + rewrite !lookup_insert_eq. intros [= <-]. by exists x'.
    + rewrite !lookup_insert_ne by done. apply (ki_tasks _ _ _ _ Hk).
  - intros t0 x0. destruct (decide (t0 = t)) as [->|Hne].
    + rewrite !lookup_insert_eq. intros _. by eexists.
    + rewrite !lookup_insert_ne by done. apply (ki_ghosts _ _ _ _ Hk).
  - intros t0. rewrite Hst. case_decide as E.
    + subst. rewrite lookup_insert_eq. naive_solver.
    + rewrite lookup_insert_ne by done. apply (ki_stack _ _ _ _ Hk).
  - intros c. rewrite (ki_rcu _ _ _ _ Hk). destruct (decide (target c = t)) as [E|E].
    + rewrite E, lookup_insert_eq, Hx. split; [naive_solver|]. intros (y & [= <-] & Hw). by apply Hp in Hw.
    + by rewrite lookup_insert_ne.
  - intros s. rewrite number_insert by done. change (counts s x') with (names_it (gsig x') s). rewrite Es, names_none.
    cbn [bz]. rewrite Z.add_0_r. apply (ki_sig _ _ _ _ Hk).
  - intros f. rewrite number_insert by done. change (filters_by f x') with (names_it (gfilter x') f). rewrite Ef, names_none.
    cbn [bz]. rewrite (ki_filter _ _ _ _ Hk). lia.
Qed.

Definition embryo (own : bool) (s : option Z) (f : option Z) : ghost := Ghost (Embryo own) 0 0 s f.

Lemma no_ghost g U Lo k t : kinv g U Lo k -> recs k !! t = None -> g !! t = None.
Proof.
  intros Hk Hr. destruct (g !! t) as [x|] eqn:Hx; [|done]. destruct (ki_ghosts _ _ _ _ Hk _ _ Hx) as [r E]. congruence.
Qed.

Lemma dup_task_ok alloc cpu cpu' vm fails err cur g U Lo k o :
  kinv g U Lo k -> recs k !! cur = Some o -> (forall t, alloc = Some t -> recs k !! t = None) ->
  (forall x, vm = Some x -> x ∉ mapped (stk k)) ->
  exists b k', dup_task_struct n kb alloc cpu cpu' vm fails err cur k = Ok (b, k') /\ sigs k' = sigs k /\
    match b with
    | Some t => alloc = Some t /\ recs k' = <[t := TaskRec (tsk o) 1 2 1 (signal o) None]> (recs k) /\
        kinv (<[t := embryo false None None]> g) U Lo k'
    | None => recs k' = recs k /\ kinv g U Lo k'
    end.
Proof.
  intros Hk Ho Hal Hvm. unfold dup_task_struct. destruct alloc as [t|]; [|by exists None, k]. specialize (Hal t eq_refl).
  unfold at_task. rewrite Ho. pose proof (no_ghost _ _ _ _ _ Hk Hal) as Hg.
  assert (Hst : stack_of (stk k) !! t = None).
  { apply eq_None_not_Some. rewrite (ki_stack _ _ _ _ Hk), Hal. naive_solver. }
  destruct (dup_stack_cases n kb cpu cpu' vm fails err t (stk k) (ki_sound _ _ _ _ Hk) Hst Hvm) as (b & s' & -> & Hs' & Hb).
  cbn [mbind run_bind]. destruct b.
  - destruct Hb as (a & Est & _). eexists _, _. split; [done|]. split; [done|]. split; [done|]. split; [done|].
    apply kinv_insert; try done.
    + by intros [].
    + intros t'. rewrite Est. case_decide as E; [subst; rewrite lookup_insert_eq; cbn; split; [lia|by eexists]|].
      by rewrite lookup_insert_ne.
  - eexists None, _. split; [done|]. split; [done|]. split; [done|]. destruct Hk. split; cbn [set_stk recs sigs filters rcu stk memory warned]; try done.
    intros t'. by rewrite Hb.
Qed.

Lemma copy_signal_ok thread alloc g U Lo k t r :
  kinv g U Lo k -> g !! t = Some (embryo false None None) -> recs k !! t = Some r ->
  (forall s, alloc = Some s -> sigs k !! s = None) ->
  exists b k', copy_signal thread alloc t k = Ok (b, k') /\
    if (b : bool) then exists r', recs k' = <[t := r']> (recs k) /\ (if thread then signal r' = signal r else alloc = Some (signal r')) /\
      kinv (<[t := embryo (negb thread) (if thread then None else Some (signal r')) None]> g) U Lo k'
    else thread = false /\ k' = k.
Proof.
  intros Hk Hx Hr Hal. unfold copy_signal. destruct thread.
  { exists true, k. split; [done|]. exists r. rewrite (insert_id _ _ _ Hr), (insert_id _ _ _ Hx). done. }
  destruct alloc as [s|]; [|by exists false, k]. specialize (Hal s eq_refl). unfold at_task. rewrite Hr.
  eexists _, _. split; [done|]. cbv iota. exists (set_signal s r). split; [done|]. split; [done|].
  destruct (kinv_at _ _ _ _ _ _ Hk Hx) as (r' & Hr' & [H1 H2 H3 H4 H5]). simplify_eq.
  assert (Hz : number (counts s) g = 0) by (pose proof (ki_sig _ _ _ _ Hk s) as H; by rewrite Hal in H).
  eapply (kinv_change g U Lo k t _ _ _ (<[s := SigRec 1 None]> (sigs k)) (filters k) (kthreads k) (rcu k)); try done; try apply Hk.
  - intros t'. cbn [stk set_sigs]. case_decide; [subst|done]. rewrite (ki_stack _ _ _ _ Hk t), Hr. cbn. naive_solver.
  - apply (rcu_same g U Lo k t _ _ Hk Hx); by intros [].
  - intros s'. unfold counts at 2 3. cbn [embryo gsig set_signal signal]. rewrite names_none. unfold names_it.
    destruct (decide (s' = s)) as [->|Hne].
    + rewrite lookup_insert_eq, bool_decide_eq_true_2 by done. rewrite Hz. cbn. lia.
    + rewrite lookup_insert_ne, bool_decide_eq_false_2 by congruence. cbn [bz]. rewrite Z.sub_0_r, Z.add_0_r. apply (ki_sig _ _ _ _ Hk).
  - intros f. unfold filters_by, embryo. cbn. lia.
  - destruct (ki_mem _ _ _ _ Hk) as (L & HL & Ha). exists L. split; [|done]. intros i. destruct (HL i) as [H0 ->].
    rewrite number_insert by done. unfold ooms at 3. cbn [oom_mm]. rewrite names_none. cbn [bz]. lia.
Qed.

Lemma copy_filter_ok cur g U Lo k t r c own s :
  kinv g U Lo k -> g !! t = Some (embryo own s None) -> recs k !! t = Some r -> recs k !! cur = Some c ->
  exists k', copy_filter cur t k = Ok k' /\ recs k' = <[t := set_filter (seccomp c) r]> (recs k) /\ sigs k' = sigs k /\
    kinv (<[t := embryo own s (seccomp c)]> g) U Lo k'.
Proof.
  intros Hk Hx Hr Hc. unfold copy_filter, at_task. rewrite Hc, Hr. eexists. split; [done|]. split; [done|]. split; [done|].
  destruct (kinv_at _ _ _ _ _ _ Hk Hx) as (r' & Hr' & [H1 H2 H3 H4 H5]). simplify_eq.
  eapply (kinv_change g U Lo k t); try done; try apply Hk.
  - intros t'. case_decide; [subst|done]. rewrite (ki_stack _ _ _ _ Hk t), Hr. cbn. naive_solver.
  - apply (rcu_same g U Lo k t _ _ Hk Hx); by intros [].
  - intros s'. unfold counts at 2 3. cbn [embryo gsig].
    replace (number _ g - _ + _) with (number (counts s') g) by lia. apply (ki_sig _ _ _ _ Hk).
  - intros f. rewrite ref_ref_opt. unfold filters_by. cbn [embryo gfilter]. rewrite names_none. cbn [bz]. lia.
Qed.

(** ** A fork that fails *)
Lemma free_own_ok g U Lo k t r s f :
  kinv g U Lo k -> g !! t = Some (embryo true (Some s) f) -> recs k !! t = Some r ->
  (forall q y, q <> t -> g !! q = Some y -> gsig y <> Some s) ->
  exists k', at_task t k (fun r => free_signal_struct (signal r) k) = Ok k' /\ recs k' = recs k /\
    kinv (<[t := embryo false None f]> g) U Lo k'.
Proof.
  intros Hk Hx Hr Halone. destruct (kinv_at _ _ _ _ _ _ Hk Hx) as (r' & Hr' & [H1 H2 H3 H4 H5]). simplify_eq.
  cbn in H1. injection H1 as ->. unfold at_task. rewrite Hr.
  assert (Hone : number (counts (signal r)) g = 1).
  { rewrite <- (insert_delete_id g t _ Hx), number_insert by apply lookup_delete_eq.
    change (counts (signal r) (embryo true (Some (signal r)) f)) with (names_it (Some (signal r)) (signal r)).
    unfold names_it. rewrite bool_decide_eq_true_2 by done. cbn [bz]. unfold number.
    replace (filter _ (delete t g)) with (∅ : gmap Z ghost); [by rewrite map_size_empty|]. symmetry. apply map_empty.
    intros q. apply map_lookup_filter_None. destruct (decide (q = t)) as [->|Hne]; [left; apply lookup_delete_eq|].
    right. intros y Hy. rewrite lookup_delete_ne in Hy by done. unfold counts, names_it. cbn.
    rewrite bool_decide_eq_true. by apply (Halone q). }
  destruct (sig_there _ _ _ _ _ _ _ Hk Hx eq_refl) as (y & Hy & _ & _).
  destruct (free_sig_ok U Lo k (signal r) y (ki_mem _ _ _ _ Hk) Hy) as (m' & -> & Hm').
  eexists. split; [done|]. split; [done|].
  eapply (sig_dropped g U Lo k t _ r None (Embryo false) (signal r) m' Hk Hx Hr); try done; [by intros []..|].
  rewrite Hone. done.
Qed.

Definition doomed (f : option Z) : ghost := Ghost Doomed 0 0 None f.

Lemma delayed_free_ok memcg g U Lo k t x :
  kinv g U Lo k -> g !! t = Some x -> ph x = Spare ->
  exists k', delayed_free_task memcg t k = Ok k' /\ recs k' = (if memcg then recs k else delete t (recs k)) /\
    kinv (if memcg then <[t := doomed (gfilter x)]> g else delete t g) U Lo k'.
Proof.
  intros Hk Hx Hp. unfold delayed_free_task. destruct memcg.
  - eexists. split; [done|]. split; [done|]. destruct (kinv_at _ _ _ _ _ _ Hk Hx) as (r & Hr & [H1 H2 H3 H4 H5]).
    unfold phase_ok in H5. rewrite Hp in *. cbn in *.
    destruct (rcu_push g U Lo k t x (CbFree t) Hk Hx) as [Hnd Hq]; [rewrite Hp; by intros []|done|].
    assert (Hk' : kinv (<[t := doomed (gfilter x)]> g) U Lo (set_rcu (rcu k ++ [CbFree t]) (put_rec t r k))).
    { eapply (kinv_rec g U Lo k t r x); try done. split; cbn; try done; lia. }
    unfold put_rec in Hk'. rewrite (insert_id _ _ _ Hr) in Hk'. destruct k; exact Hk'.
  - destruct (free_task_ok _ _ _ _ _ _ Hk Hx Hp) as (k' & E & Hk' & Er). by exists k'.
Qed.

Lemma bad_fork_ok memcg own s f cpu g U Lo k t r :
  kinv g U Lo k -> g !! t = Some (embryo own s f) -> recs k !! t = Some r ->
  (forall q y s', s = Some s' -> q <> t -> g !! q = Some y -> gsig y <> Some s') ->
  exists k', bad_fork n kb memcg own cpu t k = Ok k' /\
    (forall q, q <> t -> recs k' !! q = recs k !! q) /\
    (if memcg then exists r', recs k' !! t = Some r' /\ seccomp r' = f else recs k' !! t = None) /\
    kinv (if memcg then <[t := doomed f]> g else delete t g) U Lo k'.
Proof.
  intros Hk Hx Hr Halone. destruct (kinv_at _ _ _ _ _ _ Hk Hx) as (r0 & Hr0 & [H1 H2 H3 H4 H5]). simplify_eq.
  assert (H0 : exists k1, (if own then at_task t k (fun r => free_signal_struct (signal r) k) else Ok k) = Ok k1 /\
    recs k1 = recs k /\ kinv (<[t := embryo false None f]> g) U Lo k1).
  { destruct own; cbn in H1; subst s.
    - eapply free_own_ok; try done. intros q y Hne Hq. by apply (Halone q).
    - exists k. by rewrite (insert_id _ _ _ Hx). }
  destruct H0 as (k1 & E1 & Er1 & Hk1). unfold bad_fork. rewrite E1. cbn [mbind run_bind].
  unfold at_task at 1. rewrite Er1, Hr. cbn [mbind run_bind].
  set (r2 := set_tsk _ r). assert (Hx1 : <[t := embryo false None f]> g !! t = Some (embryo false None f)) by apply lookup_insert_eq.
  assert (Hk2 : kinv (<[t := embryo false None f]> g) U Lo (put_rec t r2 k1)).
  { rewrite <- (insert_insert_eq g t (embryo false None f) (embryo false None f)).
    change (put_rec t r2 k1) with (set_rcu (rcu k1) (put_rec t r2 k1)).
    eapply (kinv_rec _ U Lo k1 t r); try done; [by rewrite Er1|apply Hk1|by apply (rcu_kept _ _ _ _ _ _ _ Hk1 Hx1)]. }
  cbn in H3.
  destruct (put_stack_ok cpu _ _ _ _ t _ r2 (Ghost Spare 0 0 None f) Hk2 Hx1) as (k3 & E3 & Hk3 & Er3);
    try done; [apply put_rec_lookup|cbn; lia|split; cbn; try done; lia|apply (rcu_same _ _ _ _ _ _ _ Hk2 Hx1); by intros []|].
  rewrite E3. cbn [mbind run_bind]. rewrite insert_insert_eq in Hk3.
  destruct (delayed_free_ok memcg _ _ _ k3 t (Ghost Spare 0 0 None f) Hk3) as (k4 & E4 & Er4 & Hk4); [apply lookup_insert_eq|done|].
  exists k4. split; [done|]. rewrite insert_insert_eq, delete_insert_eq in Hk4. cbn [put_rec set_recs recs] in Er3.
  rewrite Er1, insert_insert_eq in Er3. split_and!; [| |done].
  - intros q Hne. rewrite Er4, Er3. destruct memcg; by rewrite ?lookup_delete_ne, lookup_insert_ne.
  - rewrite Er4, Er3. destruct memcg; [|apply lookup_delete_eq]. eexists. split; [apply lookup_insert_eq|done].
Qed.

(** ** Forks *)
Definition born (alloc o : option Z) (k : ktasks) (g : gmap Z ghost) : gmap Z ghost :=
  match alloc with
  | Some t =>
      match recs k !! t with
      | Some r => <[t := match o with Some _ => Ghost (Live false false false) 0 0 (Some (signal r)) (seccomp r)
                                    | None => doomed (seccomp r) end]> g
      | None => g
      end
  | None => g
  end.

Lemma fork_failed memcg own s f cpu g U Lo k t r :
  g !! t = None -> kinv (<[t := embryo own s f]> g) U Lo k -> recs k !! t = Some r ->
  (forall s' q y, s = Some s' -> g !! q = Some y -> gsig y <> Some s') ->
  exists k', (k' ← bad_fork n kb memcg own cpu t k; Ok (None, k')) = Ok (None : option Z, k') /\ kinv (born (Some t) None k' g) U Lo k'.
Proof.
  intros Hg Hk Hr Hfresh. destruct (bad_fork_ok memcg own s f cpu _ U Lo k t r Hk) as (k' & -> & Hq & Ht & Hk'); try done.
  { apply lookup_insert_eq. }
  { intros q y s' Hs Hne Hy. rewrite lookup_insert_ne in Hy by done. by apply (Hfresh s' q). }
  exists k'. split; [done|]. unfold born. rewrite insert_insert_eq, delete_insert_id in Hk' by done. destruct memcg.
  - destruct Ht as (r' & -> & ->). done.
  - by rewrite Ht.
Qed.

(** A thread begins to count for the signals of its group. *)
Lemma thread_joins g U Lo k t r f y :
  kinv g U Lo k -> g !! t = Some (embryo false None f) -> recs k !! t = Some r -> sigs k !! signal r = Some y ->
  kinv (<[t := Ghost (Live false false false) 0 0 (Some (signal r)) f]> g) U Lo
    (set_sigs (<[signal r := SigRec (sigcnt y + 1) (oom_mm y)]> (sigs k)) k).
Proof.
  intros Hk Hx Hr Hy. destruct (kinv_at _ _ _ _ _ _ Hk Hx) as (r' & Hr' & [H1 H2 H3 H4 H5]). simplify_eq. cbn in H2, H3, H5.
  set (x' := Ghost _ _ _ _ _).
  pose proof (kinv_change g U Lo k t _ r x' (<[signal r := SigRec (sigcnt y + 1) (oom_mm y)]> (sigs k)) (filters k) (kthreads k)
    (rcu k) (stk k) (memory k) Hk Hx) as H. rewrite (insert_id _ _ _ Hr) in H. apply H; try done; try apply Hk.
  - split; cbn; try done. split_and!; try done; lia.
  - intros t'. case_decide; [subst|done]. rewrite (ki_stack _ _ _ _ Hk t), Hr. naive_solver.
  - apply (rcu_same g U Lo k t _ _ Hk Hx); by intros [].
  - intros s'. unfold counts at 2 3. cbn [embryo x' gsig]. rewrite names_none. unfold names_it. cbn [bz].
    pose proof (ki_sig _ _ _ _ Hk s') as Hs. destruct (decide (s' = signal r)) as [->|Hne].
    + rewrite lookup_insert_eq, bool_decide_eq_true_2 by done. rewrite Hy in Hs. cbn in *. lia.
    + rewrite lookup_insert_ne, bool_decide_eq_false_2 by congruence. cbn [bz]. by rewrite Z.sub_0_r, Z.add_0_r.
  - intros i. unfold filters_by, embryo, x'. cbn. lia.
  - destruct (ki_mem _ _ _ _ Hk) as (L & HL & Ha). exists L. split; [|done]. intros i. destruct (HL i) as [H0 ->].
    rewrite (number_update _ _ _ _ _ Hy). unfold ooms at 3 4. cbn [oom_mm]. lia.
Qed.

Lemma process_starts g U Lo k t r s f :
  kinv g U Lo k -> g !! t = Some (embryo true s f) -> recs k !! t = Some r ->
  kinv (<[t := Ghost (Live false false false) 0 0 (Some (signal r)) f]> g) U Lo k.
Proof.
  intros Hk Hx Hr. destruct (kinv_at _ _ _ _ _ _ Hk Hx) as (r' & Hr' & [H1 H2 H3 H4 H5]). simplify_eq. cbn in H1, H2, H3, H5.
  set (x' := Ghost _ _ _ _ _). assert (Hk' : kinv (<[t := x']> g) U Lo (set_rcu (rcu k) (put_rec t r k))).
  { eapply (kinv_rec g U Lo k t r); try done; [|apply Hk|apply (rcu_same _ _ _ _ _ _ _ Hk Hx); by intros []].
    split; cbn; try done. split_and!; try done; lia. }
  unfold put_rec in Hk'. rewrite (insert_id _ _ _ Hr) in Hk'. destruct k; exact Hk'.
Qed.

Lemma fork_ok memcg alloc cpu cpu' cpu'' vm fails err thread sig early late last cur g U Lo k co xc :
  kinv g U Lo k -> recs k !! cur = Some co -> g !! cur = Some xc -> gsig xc = Some (signal co) ->
  (forall t, alloc = Some t -> recs k !! t = None) -> (forall x, vm = Some x -> x ∉ mapped (stk k)) ->
  (forall s, sig = Some s -> sigs k !! s = None) ->
  exists o k', copy_process_life n kb memcg alloc cpu cpu' cpu'' vm fails err thread sig early late last cur k = Ok (o, k') /\
    kinv (born alloc o k' g) U Lo k'.
Proof.
  intros Hk Hco Hxc Hsc Hal Hvm Hsig. unfold copy_process_life.
  assert (Hfresh : forall s' q y, sig = Some s' -> g !! q = Some y -> gsig y <> Some s').
  { intros s' q y Hs Hy Hgs. destruct (sig_there _ _ _ _ _ _ _ Hk Hy Hgs) as (z & Hz & _). rewrite (Hsig s' Hs) in Hz. done. }
  destruct (dup_task_ok alloc cpu cpu' vm fails err cur _ _ _ _ _ Hk Hco Hal Hvm) as (o & k1 & -> & Es1 & H1).
  cbn [mbind run_bind]. destruct o as [t|].
  2: { destruct H1 as [Er1 Hk1]. exists None, k1. split; [done|]. unfold born. destruct alloc as [t|]; [|done].
       by rewrite Er1, (Hal t eq_refl). }
  destruct H1 as (-> & Er1 & Hk1). specialize (Hal t eq_refl). pose proof (no_ghost _ _ _ _ _ Hk Hal) as Hg.
  assert (Hne : cur <> t) by (intros ->; congruence).
  set (r1 := TaskRec _ _ _ _ _ _) in Er1. assert (Hr1 : recs k1 !! t = Some r1) by (rewrite Er1; apply lookup_insert_eq).
  assert (Hx1 : <[t := embryo false None None]> g !! t = Some (embryo false None None)) by apply lookup_insert_eq.
  assert (Hbad : forall k' r own s f, kinv (<[t := embryo own s f]> g) U Lo k' -> recs k' !! t = Some r ->
    (forall s', s = Some s' -> sig = Some s') -> exists o k'', (k ← bad_fork n kb memcg own cpu'' t k'; Ok (None, k)) = Ok (o, k'') /\
    kinv (born (Some t) o k'' g) U Lo k'').
  { intros k' r own s f Hk' Hr Hs. destruct (fork_failed memcg own s f cpu'' g U Lo k' t r) as (k2 & E & Hk2); try done.
    { intros s' q y E. apply Hfresh. by apply Hs. }
    by exists None, k2. }
  destruct early; [by eapply Hbad|].
  destruct (copy_signal_ok thread sig _ _ _ _ t _ Hk1 Hx1 Hr1) as (b & k2 & -> & H2); [by rewrite Es1|]. cbn [mbind run_bind].
  destruct b; cbn [negb]; [|destruct H2 as [-> ->]; by eapply Hbad].
  destruct H2 as (r2 & Er2 & Hsr & Hk2). rewrite insert_insert_eq in Hk2.
  assert (Hr2 : recs k2 !! t = Some r2) by (rewrite Er2; apply lookup_insert_eq).
  assert (Hown : forall s', (if thread then None else Some (signal r2)) = Some s' -> sig = Some s') by (by destruct thread; [|intros s' [= <-]]).
  destruct late; [by eapply Hbad|].
  destruct (copy_filter_ok cur _ _ _ _ t _ co _ _ Hk2 (lookup_insert_eq _ _ _) Hr2) as (k3 & -> & Er3 & Es3 & Hk3).
  { by rewrite Er2, Er1, !lookup_insert_ne. }
  cbn [mbind run_bind]. rewrite insert_insert_eq in Hk3.
  assert (Hr3 : recs k3 !! t = Some (set_filter (seccomp co) r2)) by (rewrite Er3; apply lookup_insert_eq).
  destruct last; [by eapply Hbad|]. unfold at_task. rewrite Hr3. cbn [set_filter signal]. destruct thread.
  - destruct (sig_there _ _ _ _ cur xc (signal co) Hk3) as (y & Hy & _); [by rewrite lookup_insert_ne|done|].
    unfold at_sig. rewrite Hsr. cbn [r1 signal]. rewrite Hy. cbn [mbind run_bind]. eexists (Some t), _. split; [done|].
    unfold born. cbn [set_sigs recs]. rewrite Hr3. cbn [set_filter signal seccomp].
    pose proof (thread_joins _ U Lo k3 t _ _ y Hk3 (lookup_insert_eq _ _ _) Hr3) as H. cbn [set_filter signal] in H.
    rewrite Hsr in H. cbn [r1 signal] in H. rewrite Hsr. cbn [r1 signal]. rewrite <- (insert_insert_eq g t _ (embryo false None (seccomp co))).
    by apply H.
  - cbn [mbind run_bind]. exists (Some t), k3. split; [done|]. unfold born. rewrite Hr3. cbn [set_filter signal seccomp].
    pose proof (process_starts _ U Lo k3 t _ _ _ Hk3 (lookup_insert_eq _ _ _) Hr3) as H. by rewrite insert_insert_eq in H.
Qed.
End inv.
