(* ===== verification/KTaskLife.v ===== *)
(** * Histories of task structures

    Any order of forks that succeed or fail, exits, reaping, grace periods,
    references taken and put by others, and work on address spaces. *)

From Stdlib Require Import ZArith Lia String.
From stdpp Require Import base numbers list option strings gmap fin_sets.
From S2P Require Import Prelude CText Hook Sched Tracer ProcInfo KFork KStack KStackFacts KMm KMmFacts KTask KTaskFacts.

Local Open Scope Z_scope.

(** ** Operations *)
Inductive kop :=
| KFork (alloc vm : option Z) (cpu cpu' cpu'' : nat -> Z) (fails : nat -> bool) (err : Z) (thread : bool) (sig : option Z)
    (early late last : bool) (cur : Z)
| KGet (t : Z)
| KPut (rt handoff : bool) (cur t : Z)
| KStackGet (t : Z)
| KStackPut (cpu : nat -> Z) (t : Z)
| KExit (es t : Z)                       (** [do_exit] sets the exit state *)
| KLeave (cpu : nat -> Z) (t : Z)        (** the task is dead, and the scheduler leaves its stack *)
| KSwitched (t : Z)                      (** and puts it *)
| KReap (t : Z)
| KRcu (rt handoff : bool) (cur : Z)     (** a grace period ends *)
| KProfiler (t : Z)                      (** the profiler frees a task handed to it *)
| KOom (s i : Z)                         (** the task is an OOM victim *)
| KMem (o : mop).

Record hist := Hist { hG : gmap Z ghost; hU : gmap Z Z; hL : gmap Z Z; hK : ktasks }.

Definition hold (d : Z) (x : ghost) : ghost := Ghost (ph x) (held x + d) (sheld x) (gsig x) (gfilter x).
Definition shold (d : Z) (x : ghost) : ghost := Ghost (ph x) (held x) (sheld x + d) (gsig x) (gfilter x).
Definition leave (x : ghost) : ghost := match ph x with Live a _ c => with_ph (Live a true c) x | _ => x end.
Definition switch (x : ghost) : ghost := match ph x with Live a b _ => with_ph (live_ph a b true) x | _ => x end.
Definition reap (x : ghost) : ghost := match ph x with Live _ b c => with_ph (live_ph true b c) x | _ => x end.

Section run.
Context (n : nat) (kb : Z) (memcg : bool).

Definition on (g : gmap Z ghost) (h : hist) (r : run ktasks) : run hist := k ← r; Ok (Hist g (hU h) (hL h) k).
Definition settled (t : Z) (f : ghost -> ghost) (h : hist) (r : run ktasks) : run hist :=
  k ← r; Ok (Hist (match hG h !! t with Some x => settle t (f x) k (hG h) | None => hG h end) (hU h) (hL h) k).

Definition krun (o : kop) (h : hist) : run hist :=
  let k := hK h in
  match o with
  | KFork alloc vm cpu cpu' cpu'' fails err thread sig early late last cur =>
      '(r, k) ← copy_process_life n kb memcg alloc cpu cpu' cpu'' vm fails err thread sig early late last cur k;
      Ok (Hist (born alloc r k (hG h)) (hU h) (hL h) k)
  | KGet t => on (alter (hold 1) t (hG h)) h (at_task t k (fun r => Ok (put_rec t (set_usage (usage r + 1) r) k)))
  | KPut rt handoff cur t => settled t (after_put rt) h (put_task_struct rt handoff cur t k)
  | KStackGet t =>
      on (alter (shold 1) t (hG h)) h (at_task t k (fun r => Ok (put_rec t (set_stack_refcount (stack_refcount r + 1) r) k)))
  | KStackPut cpu t => on (alter (shold (-1)) t (hG h)) h (put_task_stack n kb cpu t k)
  | KExit es t => on (hG h) h (at_task t k (fun r => Ok (put_rec t (set_tsk (with_states (state (tsk r)) es (tsk r)) r) k)))
  | KLeave cpu t =>
      on (alter leave t (hG h)) h
        (k ← at_task t k (fun r => Ok (put_rec t (set_tsk (with_states TASK_DEAD (exit_state (tsk r)) (tsk r)) r) k));
         put_task_stack n kb cpu t k)
  | KSwitched t => on (alter switch t (hG h)) h (put_task_struct_rcu_user t k)
  | KReap t => on (alter reap t (hG h)) h (put_task_struct_rcu_user t k)
  | KRcu rt handoff cur =>
      match rcu k with
      | c :: _ => settled (target c) (after_rcu rt c) h (run_rcu rt handoff cur k)
      | [] => on (hG h) h (run_rcu rt handoff cur k)
      end
  | KProfiler t => on (delete t (hG h)) h (free_task t k)
  | KOom s i =>
      on (hG h) h (at_sig s k (fun g =>
        match oom_mm g with
        | Some _ => Ok k
        | None => m ← mmgrab i (memory k); Ok (set_memory m (set_sigs (<[s := SigRec (sigcnt g) (Some i)]> (sigs k)) k))
        end))
  | KMem o => u ← mrun o (Users (hU h) (hL h) (memory k)); Ok (Hist (hG h) (U u) (L u) (set_memory (M u) k))
  end.

(** The task runs; what runs beside the table is an idle task. *)
Definition running (t : Z) (g : gmap Z ghost) : Prop := exists x a c, g !! t = Some x /\ ph x = Live a false c.
Definition current (t : Z) (g : gmap Z ghost) : Prop := g !! t = None \/ running t g.
Definition exiting (t : Z) (h : hist) : Prop := forall r, recs (hK h) !! t = Some r -> exit_state (tsk r) <> 0.
Definition at_ghost (t : Z) (h : hist) (P : ghost -> Prop) : Prop := exists x, hG h !! t = Some x /\ P x.

(** Only a running task forks and exits, a task is left, put and reaped once
    after it has exited, a reference is put by a holder and one to the stack
    goes first, and allocators return addresses that are free. *)
Definition klawful (o : kop) (h : hist) : Prop :=
  match o with
  | KFork alloc vm _ _ _ _ _ _ sig _ _ _ cur =>
      running cur (hG h) /\ (forall t, alloc = Some t -> recs (hK h) !! t = None) /\
      (forall x, vm = Some x -> x ∉ mapped (stk (hK h))) /\ (forall s, sig = Some s -> sigs (hK h) !! s = None)
  | KGet t => at_ghost t h (fun x => match ph x with Live _ _ _ | Grace | Held => True | _ => False end)
  | KPut _ _ cur t => current cur (hG h) /\ at_ghost t h (fun x => sheld x < held x)
  | KStackGet t => at_ghost t h (fun x => sheld x < held x /\ (runs_ph (ph x) = true \/ 0 < sheld x))
  | KStackPut _ t => at_ghost t h (fun x => 0 < sheld x)
  | KExit es t => running t (hG h) /\ es <> 0
  | KLeave _ t => running t (hG h) /\ exiting t h
  | KSwitched t => at_ghost t h (fun x => exists a, ph x = Live a true false)
  | KReap t => at_ghost t h (fun x => exists b c, ph x = Live false b c) /\ exiting t h
  | KRcu _ _ cur => current cur (hG h)
  | KProfiler t => at_ghost t h (fun x => ph x = Spare)
  | KOom s i => is_Some (sigs (hK h) !! s) /\ 1 <= ref (hU h) i
  | KMem o => lawful o (Users (hU h) (hL h) (memory (hK h)))
  end.

Fixpoint kexec (l : list kop) (h : hist) : run hist :=
  match l with [] => Ok h | o :: l' => h ← krun o h; kexec l' h end.
Fixpoint all_klawful (l : list kop) (h : hist) : Prop :=
  match l with [] => True | o :: l' => klawful o h /\ forall h', krun o h = Ok h' -> all_klawful l' h' end.

(** ** The invariant *)
Context (bf bm bn bfil : Z -> Z).

(** Between two operations no task is being made or ended. *)
Definition between (x : ghost) : Prop := ph x <> Gone /\ forall b, ph x <> Embryo b.
Definition hok (h : hist) : Prop :=
  kinv n kb bf bm bn bfil (hG h) (hU h) (hL h) (hK h) /\ map_Forall (fun _ x => between x) (hG h).

Lemma between_settle t x k g :
  between x -> map_Forall (fun _ x => between x) g -> map_Forall (fun _ x => between x) (settle t x k g).
Proof.
  intros Hx Hg. unfold settle. destruct (recs k !! t); [by apply map_Forall_insert_2|by apply map_Forall_delete].
Qed.

Lemma alter_lookup (f : ghost -> ghost) (t : Z) (g : gmap Z ghost) x : g !! t = Some x -> alter f t g = <[t := f x]> g.
Proof.
  intros Hx. apply map_eq. intros q. destruct (decide (q = t)) as [->|Hne].
  - by rewrite lookup_alter_eq, lookup_insert_eq, Hx.
  - by rewrite lookup_alter_ne, lookup_insert_ne.
Qed.

Lemma between_put rt x : between x -> between (after_put rt x).
Proof. intros Hx. unfold after_put. destruct (last_put x); [destruct rt; by split|done]. Qed.

(** A running task counts for its signals. *)
Lemma running_sig h t :
  hok h -> running t (hG h) -> exists x r, hG h !! t = Some x /\ recs (hK h) !! t = Some r /\ gsig x = Some (signal r).
Proof.
  intros [Hk _] (x & a & c & Hx & Hp). destruct (kinv_at _ _ _ _ _ _ _ _ _ _ _ _ Hk Hx) as (r & Hr & [H1 _ _ _ _]).
  exists x, r. split_and!; [done|done|]. by rewrite Hp in H1.
Qed.

(** ** Every operation keeps it *)
Lemma ok_fork alloc vm cpu cpu' cpu'' fails err thread sig early late last cur h :
  let o := KFork alloc vm cpu cpu' cpu'' fails err thread sig early late last cur in
  hok h -> klawful o h -> exists h', krun o h = Ok h' /\ hok h'.
Proof.
  intros o Hh (Hrun & Hal & Hvm & Hsig). destruct (running_sig _ _ Hh Hrun) as (x & r & Hx & Hr & Hs). destruct Hh as [Hk Hb].
  destruct (fork_ok n kb bf bm bn bfil memcg alloc cpu cpu' cpu'' vm fails err thread sig early late last cur
    (hG h) (hU h) (hL h) (hK h) r x) as (o' & k' & E & Hk'); try done.
  cbn [o krun]. rewrite E. eexists. split; [done|]. split; [done|]. cbn [hG]. unfold born.
  destruct alloc as [t|]; [|done]. destruct (recs k' !! t); [|done]. apply map_Forall_insert_2; [|done]. by destruct o'.
Qed.

(** A step on one task that others may see. *)
Lemma ok_rec h t x r r' x' :
  hok h -> hG h !! t = Some x -> recs (hK h) !! t = Some r -> task_ok r' x' -> gsig x' = gsig x -> gfilter x' = gfilter x ->
  (0 < stack_refcount r' <-> 0 < stack_refcount r) -> ph x' = ph x ->
  hok (Hist (<[t := x']> (hG h)) (hU h) (hL h) (put_rec t r' (hK h))).
Proof.
  intros [Hk Hb] Hx Hr Hok Es Ef Est Hp. split; cbn [hG hU hL hK].
  - change (put_rec t r' (hK h)) with (set_rcu (rcu (hK h)) (put_rec t r' (hK h))).
    eapply (kinv_rec _ _ _ _ _ _ _ _ _ _ t r x); try done; [apply Hk|by eapply rcu_kept].
  - apply map_Forall_insert_2; [|done]. pose proof (Hb t x Hx) as H. unfold between in *. by rewrite Hp.
Qed.

Lemma ok_get t h : hok h -> klawful (KGet t) h -> exists h', krun (KGet t) h = Ok h' /\ hok h'.
Proof.
  intros Hh (x & Hx & Hp). destruct (Hh) as [Hk _]. destruct (kinv_at _ _ _ _ _ _ _ _ _ _ _ _ Hk Hx) as (r & Hr & [H1 H2 H3 H4 H5]).
  cbn [krun on]. unfold on, at_task. rewrite Hr. eexists. split; [done|]. rewrite (alter_lookup _ _ _ _ Hx).
  eapply (ok_rec h t x r); try done. split; cbn; try done; [lia|]. unfold phase_ok in *. cbn. destruct (ph x); cbn in *; intuition lia.
Qed.

Lemma ok_put rt handoff cur t h :
  hok h -> klawful (KPut rt handoff cur t) h -> exists h', krun (KPut rt handoff cur t) h = Ok h' /\ hok h'.
Proof.
  intros [Hk Hb] [Hcur (x & Hx & Hlt)].
  destruct (put_task_ok n kb bf bm bn bfil rt handoff cur _ _ _ _ t x Hk Hx Hlt) as (k' & E & Hk').
  { intros Hp ->. destruct Hcur as [?|(xc & a & c & Hxc & Hpc)]; congruence. }
  cbn [krun]. unfold settled. rewrite E, Hx. eexists. split; [done|]. split; [done|].
  apply between_settle; [|done]. by apply between_put, (Hb t).
Qed.

Lemma ok_stack_get t h : hok h -> klawful (KStackGet t) h -> exists h', krun (KStackGet t) h = Ok h' /\ hok h'.
Proof.
  intros Hh (x & Hx & Hlt & Hr0). destruct (Hh) as [Hk _].
  destruct (kinv_at _ _ _ _ _ _ _ _ _ _ _ _ Hk Hx) as (r & Hr & [H1 H2 H3 H4 H5]).
  cbn [krun]. unfold on, at_task. rewrite Hr. eexists. split; [done|]. rewrite (alter_lookup _ _ _ _ Hx).
  eapply (ok_rec h t x r); try done; [split; cbn; try done; lia|]. cbn. rewrite H3.
  destruct Hr0 as [-> |]; [cbn; lia|]. destruct (runs_ph (ph x)); cbn; lia.
Qed.

Lemma ok_stack_put cpu t h : hok h -> klawful (KStackPut cpu t) h -> exists h', krun (KStackPut cpu t) h = Ok h' /\ hok h'.
Proof.
  intros [Hk Hb] (x & Hx & Hpos). destruct (kinv_at _ _ _ _ _ _ _ _ _ _ _ _ Hk Hx) as (r & Hr & [H1 H2 H3 H4 H5]).
  destruct (put_stack_ok n kb bf bm bn bfil cpu _ _ _ _ t x r (shold (-1) x) Hk Hx Hr) as (k' & E & Hk' & _); try done.
  - destruct (runs_ph (ph x)); cbn in *; lia.
  - intros E. unfold phase_ok in H5. destruct (ph x) as [own|a [] c| | | | | |]; cbn in *; try lia; tauto.
  - split; cbn; try done; lia.
  - by eapply rcu_kept.
  - cbn [krun]. unfold on. rewrite E. eexists. split; [done|]. rewrite (alter_lookup _ _ _ _ Hx). split; [done|].
    apply map_Forall_insert_2; [|done]. exact (Hb t x Hx).
Qed.

Lemma ok_exit es t h : hok h -> klawful (KExit es t) h -> exists h', krun (KExit es t) h = Ok h' /\ hok h'.
Proof.
  intros Hh [(x & a & c & Hx & Hp) Hes]. destruct (Hh) as [Hk _].
  destruct (kinv_at _ _ _ _ _ _ _ _ _ _ _ _ Hk Hx) as (r & Hr & [H1 H2 H3 H4 H5]).
  cbn [krun]. unfold on, at_task. rewrite Hr. eexists. split; [done|].
  set (r' := set_tsk _ r). assert (Hok : task_ok r' x).
  { split; try done. unfold phase_ok in *. rewrite Hp in *. cbn in *. intuition. }
  pose proof (ok_rec h t x r r' x Hh Hx Hr Hok) as H. rewrite (insert_id _ _ _ Hx) in H. by apply H.
Qed.

Lemma ok_leave cpu t h : hok h -> klawful (KLeave cpu t) h -> exists h', krun (KLeave cpu t) h = Ok h' /\ hok h'.
Proof.
  intros Hh [(x & a & c & Hx & Hp) Hex]. destruct (Hh) as [Hk Hb].
  destruct (kinv_at _ _ _ _ _ _ _ _ _ _ _ _ Hk Hx) as (r & Hr & [H1 H2 H3 H4 H5]). specialize (Hex r Hr).
  cbn [krun]. unfold on, at_task. rewrite Hr. cbn [mbind run_bind]. set (r' := set_tsk _ r).
  unfold phase_ok in H5. rewrite Hp in *. cbn [counts_ph runs_ph negb bz] in *. destruct H5 as (P1 & P2 & P3 & P4 & P5 & P6).
  assert (Hok : task_ok r' x) by (split; unfold phase_ok; rewrite ?Hp; cbn; auto 10).
  pose proof (ok_rec h t x r r' x Hh Hx Hr Hok) as H. rewrite (insert_id _ _ _ Hx) in H.
  destruct H as [Hk1 _]; [done..|]. cbn [hG hU hL hK] in Hk1.
  destruct (put_stack_ok n kb bf bm bn bfil cpu _ _ _ _ t x r' (leave x) Hk1 Hx (put_rec_lookup t r' (hK h)))
    as (k' & E & Hk' & _); try (unfold leave; rewrite ?Hp; done).
  - cbn. lia.
  - unfold leave. rewrite Hp. split; cbn; try done; lia.
  - eapply rcu_same; [done|done|rewrite Hp; by intros []|]. unfold leave. rewrite Hp. by intros [].
  - rewrite E. eexists. split; [done|]. rewrite (alter_lookup _ _ _ _ Hx). split; [done|].
    apply map_Forall_insert_2; [|done]. unfold leave. rewrite Hp. by split.
Qed.

Lemma ok_rcu_user t h x a b c a' c' :
  hok h -> hG h !! t = Some x -> ph x = Live a b c -> (forall r, recs (hK h) !! t = Some r -> exit_state (tsk r) <> 0) ->
  bz (negb a') + bz (negb c') = bz (negb a) + bz (negb c) - 1 -> (c' = true -> b = true) ->
  exists k', put_task_struct_rcu_user t (hK h) = Ok k' /\ hok (Hist (<[t := with_ph (live_ph a' b c') x]> (hG h)) (hU h) (hL h) k').
Proof.
  intros [Hk Hb] Hx Hp Hex Hac Hc. destruct (kinv_at _ _ _ _ _ _ _ _ _ _ _ _ Hk Hx) as (r & Hr & _).
  destruct (rcu_user_ok n kb bf bm bn bfil _ _ _ _ t x r a b c a' c' Hk Hx Hr Hp (Hex r Hr) Hac Hc) as (k' & E & Hk').
  exists k'. split; [done|]. split; [done|]. apply map_Forall_insert_2; [|done]. unfold live_ph. destruct (a' && c'); by split.
Qed.

Lemma ok_switched t h : hok h -> klawful (KSwitched t) h -> exists h', krun (KSwitched t) h = Ok h' /\ hok h'.
Proof.
  intros Hh (x & Hx & a & Hp). destruct (Hh) as [Hk _].
  destruct (ok_rcu_user t h x a true false a true Hh Hx Hp) as (k' & E & Hk'); [|destruct a; cbn; lia|done|].
  - intros r Hr. destruct (kinv_at _ _ _ _ _ _ _ _ _ _ _ _ Hk Hx) as (r' & Hr' & [_ _ _ _ H5]). simplify_eq.
    unfold phase_ok in H5. rewrite Hp in H5. apply H5. by rewrite orb_true_r.
  - cbn [krun]. unfold on. rewrite E. eexists. split; [done|]. rewrite (alter_lookup _ _ _ _ Hx). unfold switch. by rewrite Hp.
Qed.

Lemma ok_reap t h : hok h -> klawful (KReap t) h -> exists h', krun (KReap t) h = Ok h' /\ hok h'.
Proof.
  intros Hh [(x & Hx & b & c & Hp) Hex]. destruct (Hh) as [Hk _].
  destruct (kinv_at _ _ _ _ _ _ _ _ _ _ _ _ Hk Hx) as (r & Hr & [_ _ _ _ H5]). unfold phase_ok in H5. rewrite Hp in H5.
  destruct (ok_rcu_user t h x false b c true c Hh Hx Hp Hex) as (k' & E & Hk'); [destruct c; cbn; lia|apply H5|].
  cbn [krun]. unfold on. rewrite E. eexists. split; [done|]. rewrite (alter_lookup _ _ _ _ Hx). unfold reap. by rewrite Hp.
Qed.

Lemma ok_rcu rt handoff cur h : hok h -> klawful (KRcu rt handoff cur) h -> exists h', krun (KRcu rt handoff cur) h = Ok h' /\ hok h'.
Proof.
  intros [Hk Hb] Hcur. cbn [krun]. destruct (rcu (hK h)) as [|c q] eqn:E.
  - unfold run_rcu, on. rewrite E. eexists. split; [done|]. by split.
  - destruct (run_rcu_ok n kb bf bm bn bfil rt handoff cur _ _ _ _ c q Hk E) as (k' & x & E' & Hx & Hk').
    { intros y Hy. destruct Hcur as [?|(xc & a & c0 & Hxc & Hpc)]; [congruence|].
      assert (y = xc) as -> by congruence. rewrite Hpc. by destruct c. }
    unfold settled. rewrite E', Hx. eexists. split; [done|]. split; [done|]. apply between_settle; [|done].
    destruct c; cbn [after_rcu]; [apply between_put|..]; by split.
Qed.

Lemma ok_profiler t h : hok h -> klawful (KProfiler t) h -> exists h', krun (KProfiler t) h = Ok h' /\ hok h'.
Proof.
  intros [Hk Hb] (x & Hx & Hp). destruct (free_task_ok _ _ _ _ _ _ _ _ _ _ t x Hk Hx Hp) as (k' & E & Hk' & _).
  cbn [krun]. unfold on. rewrite E. eexists. split; [done|]. split; [done|]. by apply map_Forall_delete.
Qed.

(** The address spaces and the signals change, the tasks do not. *)
Lemma ok_mem h U' Lo' sg' m' :
  hok h -> mem_ok bf bm bn U' Lo' sg' m' -> (forall s, sigcnt <$> sg' !! s = sigcnt <$> sigs (hK h) !! s) ->
  hok (Hist (hG h) U' Lo' (set_memory m' (set_sigs sg' (hK h)))).
Proof.
  intros [[] Hb] Hm Es. split; [|done]. split; cbn [hG hU hL hK set_memory set_sigs recs sigs filters rcu stk memory warned]; try done.
  intros s. specialize (Es s). specialize (ki_sig s). destruct (sg' !! s), (sigs (hK h) !! s); cbn in *; try done.
  injection Es as ->. done.
Qed.

Lemma ok_oom s i h : hok h -> klawful (KOom s i) h -> exists h', krun (KOom s i) h = Ok h' /\ hok h'.
Proof.
  intros Hh [[y Hy] Hi]. destruct (Hh) as [Hk Hb]. cbn [krun]. unfold on, at_sig. rewrite Hy.
  destruct (oom_mm y) as [j|] eqn:Eo; [eexists; split; [done|]; by split|].
  destruct (ki_mem _ _ _ _ _ _ _ _ _ _ Hk) as (L & HL & Ha).
  destruct (mmgrab_ok _ _ _ _ _ _ i _ Ha (or_introl Hi)) as (m' & -> & Ha' & Ew). cbn [mbind run_bind].
  eexists. split; [done|]. apply ok_mem; [done| |].
  - exists (ref_add 1 i L). split; [|by rewrite Ew]. intros j. destruct (HL j) as [H0 E]. split; [done|].
    rewrite ref_ref_add, E, (number_update _ _ _ _ _ Hy). unfold ooms at 3 4. cbn [oom_mm]. rewrite Eo, names_none.
    unfold names_it. case_decide; [subst; rewrite bool_decide_eq_true_2 by done|rewrite bool_decide_eq_false_2 by congruence]; cbn [bz]; lia.
  - intros s'. destruct (decide (s' = s)) as [->|Hne]; [by rewrite lookup_insert_eq, Hy|by rewrite lookup_insert_ne].
Qed.

(** What others do to address spaces does not depend on who holds them. *)
Definition next_L (o : mop) (L : gmap Z Z) : gmap Z Z :=
  match o with OGrab i => ref_add 1 i L | ODrop _ i => ref_add (-1) i L | _ => L end.

Lemma mrun_frame o U0 L1 L2 m u :
  mrun o (Users U0 L1 m) = Ok u -> mrun o (Users U0 L2 m) = Ok (Users (U u) (next_L o L2) (M u)) /\ L u = next_L o L1.
Proof.
  intros E. destruct o; cbn [mrun KMmFacts.M KMmFacts.U KMmFacts.L next_L] in *.
  1: destruct (mm_alloc _ _ _ _ _ _ _ _) as [r m'].
  all: repeat match goal with
    | |- context [if ?b then _ else _] => destruct b
    | H : context [mbind _ ?r] |- _ => destruct r as [x| |] eqn:?; cbn [mbind run_bind] in *; try done; try destruct x as [? ?]; try destruct p as [? ?]
    end; cbn [mbind run_bind] in *; by simplify_eq.
Qed.

Lemma lawful_more o U0 L1 L2 m : (forall i, ref L1 i <= ref L2 i) -> lawful o (Users U0 L1 m) -> lawful o (Users U0 L2 m).
Proof.
  intros Hle Hl. destruct o as [| | | | |i|async i| |]; cbn [lawful KMmFacts.M KMmFacts.U KMmFacts.L] in *; try done;
    specialize (Hle i); lia.
Qed.

Lemma ok_memop o h : hok h -> klawful (KMem o) h -> exists h', krun (KMem o) h = Ok h' /\ hok h'.
Proof.
  intros Hh Hl. destruct (Hh) as [Hk Hb]. destruct (ki_mem _ _ _ _ _ _ _ _ _ _ Hk) as (L0 & HL & Ha).
  assert (Hle : forall i, ref (hL h) i <= ref L0 i) by (intros i; destruct (HL i) as [? ->]; unfold number; lia).
  destruct (mrun_ok bf bm bn o (Users (hU h) L0 (memory (hK h))) Ha) as (u & E & Hu); [by eapply lawful_more|].
  destruct (mrun_frame o _ L0 (hL h) _ u E) as [E2 EL]. cbn [krun]. rewrite E2. cbn [mbind run_bind].
  eexists. split; [done|].
  pose proof (ok_mem h (U u) (next_L o (hL h)) (sigs (hK h)) (M u) Hh) as H. cbn [KMmFacts.M KMmFacts.U KMmFacts.L].
  replace (set_memory (M u) (hK h)) with (set_memory (M u) (set_sigs (sigs (hK h)) (hK h))) by (by destruct (hK h)).
  apply H; [|done]. exists (L u). split; [|done]. intros i. rewrite EL. destruct (HL i) as [H0 E0].
  cbn [klawful] in Hl. destruct o as [| | | | |j|async j| |]; cbn [next_L lawful KMmFacts.L] in *; try (by split);
    rewrite !ref_ref_add, E0; case_decide; subst; lia.
Qed.

Lemma krun_ok o h : hok h -> klawful o h -> exists h', krun o h = Ok h' /\ hok h'.
Proof.
  intros Hh Hl. destruct o; [by apply ok_fork|by apply ok_get|by apply ok_put|by apply ok_stack_get|by apply ok_stack_put|
    by apply ok_exit|by apply ok_leave|by apply ok_switched|by apply ok_reap|by apply ok_rcu|by apply ok_profiler|
    by apply ok_oom|by apply ok_memop].
Qed.

Lemma kexec_ok l h : hok h -> all_klawful l h -> exists h', kexec l h = Ok h' /\ hok h'.
Proof.
  revert h. induction l as [|o l IH]; intros h Hh Hl; cbn [kexec]; [by exists h|]. destruct Hl as [H1 H2].
  destruct (krun_ok o h Hh H1) as (h1 & E & Hh1). rewrite E. cbn [mbind run_bind]. by apply IH, H2.
Qed.

(** ** What the invariant says *)

(** Nobody lives, nobody holds a task, and there is nothing left to do. *)
Definition deserted (h : hist) : Prop :=
  rcu (hK h) = [] /\ forall t x, hG h !! t = Some x -> held x = 0 /\ ph x <> Spare /\ forall a b c, ph x <> Live a b c.

Lemma deserted_empty h : hok h -> deserted h -> hG h = ∅.
Proof.
  intros [Hk Hb] [Hq Hd]. apply map_empty. intros t. destruct (hG h !! t) as [x|] eqn:Hx; [exfalso|done].
  destruct (Hd t x Hx) as (Hh & Hs & Hl). destruct (Hb t x Hx) as [Hg He].
  destruct (kinv_at _ _ _ _ _ _ _ _ _ _ _ _ Hk Hx) as (r & Hr & [_ _ _ _ H5]). unfold phase_ok in H5.
  assert (Hno : forall c, target c = t -> ph x <> waits c).
  { intros c Hc Hw. assert (Hin : c ∈ rcu (hK h)) by (apply (ki_rcu _ _ _ _ _ _ _ _ _ _ Hk); exists x; by rewrite Hc).
    rewrite Hq in Hin. by apply not_elem_of_nil in Hin. }
  pose proof (Hno (CbPut t) eq_refl) as N1. pose proof (Hno (CbLast t) eq_refl) as N2. pose proof (Hno (CbFree t) eq_refl) as N3.
  cbn in N1, N2, N3. destruct (ph x) eqn:Ep; try done; [by apply (He own)|by apply (Hl reaped left switched)|lia].
Qed.

Lemma nobody_left h :
  hok h -> hG h = ∅ ->
  recs (hK h) = ∅ /\ sigs (hK h) = ∅ /\ stack_of (stk (hK h)) = ∅ /\ zone_kb (stk (hK h)) = 0 /\
  (forall f, ref (filters (hK h)) f = bfil f) /\ KMmFacts.ok bf bm bn (Users (hU h) (hL h) (memory (hK h))).
Proof.
  intros [Hk _] Hg. rewrite Hg in Hk.
  assert (Er : recs (hK h) = ∅).
  { apply map_empty. intros t. destruct (recs (hK h) !! t) as [r|] eqn:Hr; [|done].
    destruct (ki_tasks _ _ _ _ _ _ _ _ _ _ Hk t r Hr) as (x & Hx & _). by rewrite lookup_empty in Hx. }
  assert (Hn : forall P, number P (∅ : gmap Z ghost) = 0) by (intros P; unfold number; by rewrite map_filter_empty, map_size_empty).
  assert (Es : sigs (hK h) = ∅).
  { apply map_empty. intros s. pose proof (ki_sig _ _ _ _ _ _ _ _ _ _ Hk s) as H. rewrite Hn in H.
    destruct (sigs (hK h) !! s); cbn in H; [lia|done]. }
  assert (Et : stack_of (stk (hK h)) = ∅).
  { apply map_empty. intros t. apply eq_None_not_Some. rewrite (ki_stack _ _ _ _ _ _ _ _ _ _ Hk), Er. intros (r & Hr & _).
    by rewrite lookup_empty in Hr. }
  split_and!; try done.
  - rewrite (so_zone _ _ _ _ (ki_sound _ _ _ _ _ _ _ _ _ _ Hk)), Et, map_size_empty. lia.
  - intros f. by rewrite (ki_filter _ _ _ _ _ _ _ _ _ _ Hk), Hn, Z.add_0_r.
  - destruct (ki_mem _ _ _ _ _ _ _ _ _ _ Hk) as (L0 & HL & Ha). rewrite Es in HL. unfold KMmFacts.ok. cbn [KMmFacts.U KMmFacts.L KMmFacts.M].
    eapply alive_ext; [..|exact Ha]; [done| |done]. intros i. destruct (HL i) as [_ ->].
    unfold number. rewrite map_filter_empty, map_size_empty. lia.
Qed.

Lemma alive_quiet U0 L0 m :
  alive bf bn bm U0 L0 (works m) m -> (forall i, ref U0 i = 0 /\ ref L0 i = 0) -> works m = [] -> mms m = ∅.
Proof.
  intros Ha H0 Hw. apply map_empty. intros i. destruct (mms m !! i) as [r|] eqn:Hi; [exfalso|done].
  destruct (al_live _ _ _ _ _ _ _ Ha i r Hi) as [C1 C2 C3 C4 C5 C6]. rewrite Hw in *. destruct (H0 i) as [HU HL].
  unfold in_use, pending in C3. rewrite HU, HL, !decide_False in C3 by (apply not_elem_of_nil || lia).
  apply not_elem_of_nil with (x := WDrop i). apply C5. lia.
Qed.

Lemma sig_counted h s : hok h -> is_Some (sigs (hK h) !! s) <-> exists t x, hG h !! t = Some x /\ gsig x = Some s.
Proof.
  intros [Hk _]. split.
  - intros [y Hy]. pose proof (ki_sig _ _ _ _ _ _ _ _ _ _ Hk s) as H. rewrite Hy in H. cbn in H. destruct H as [_ Hpos].
    unfold number in Hpos. destruct (map_choose (filter (fun x => counts s x.2 = true) (hG h))) as (t & x & Hx).
    { intros E. rewrite E, map_size_empty in Hpos. lia. }
    apply map_lookup_filter_Some in Hx as [Hx Hc]. exists t, x. split; [done|]. by apply bool_decide_eq_true in Hc.
  - intros (t & x & Hx & Hs). destruct (sig_there _ _ _ _ _ _ _ _ _ _ _ _ _ Hk Hx Hs) as (y & -> & _). by eexists.
Qed.
End run.

(** C36. The life of a task: in every history of forks with any failures, exits,
    reaping, grace periods and references that others take and put, no
    operation touches a structure that is gone and no warning fires.  A
    structure has a stack exactly as long as a reference to the stack is left,
    and a signal structure is there exactly as long as a task counts for it.
    When nobody lives or holds a task and the callbacks have run, every task,
    signal structure and stack has been given back, the statistics are zero,
    each seccomp filter has its old number of users, and the address spaces
    kept for the OOM killer are released: with no other user they are gone. *)
Theorem task_lifetime (n : nat) (kb : Z) (memcg : bool) (bf bm bn bfil : Z -> Z) (h : hist) (l : list kop)
    (Hh : hok n kb bf bm bn bfil h) (Hl : all_klawful n kb memcg l h) :
  exists h', kexec n kb memcg l h = Ok h' /\ warned (hK h') = false /\
    (forall t, is_Some (stack_of (stk (hK h')) !! t) <-> exists r, recs (hK h') !! t = Some r /\ 0 < stack_refcount r) /\
    (forall s, is_Some (sigs (hK h') !! s) <-> exists t x, hG h' !! t = Some x /\ gsig x = Some s) /\
    (forall t r, recs (hK h') !! t = Some r -> exists x, hG h' !! t = Some x /\ task_ok r x) /\
    (deserted h' ->
     recs (hK h') = ∅ /\ sigs (hK h') = ∅ /\ stack_of (stk (hK h')) = ∅ /\ zone_kb (stk (hK h')) = 0 /\
     (forall f, ref (filters (hK h')) f = bfil f) /\
     ((forall i, ref (hU h') i = 0 /\ ref (hL h') i = 0) -> works (memory (hK h')) = [] -> mms (memory (hK h')) = ∅)).
Proof.
  destruct (kexec_ok n kb memcg bf bm bn bfil l h Hh Hl) as (h' & E & Hh'). exists h'. destruct (Hh') as [Hk _]. split_and!; try apply Hk; try done.
  - intros s. by eapply sig_counted.
  - intros Hd. destruct (nobody_left _ _ _ _ _ _ h' Hh') as (H1 & H2 & H3 & H4 & H5 & H6); [by eapply deserted_empty|].
    split_and!; try done. intros H0 Hw. by eapply alive_quiet.
Qed.

(** ** A concrete history

    A task with a filter makes a process, which makes a thread; two forks fail;
    the process is the victim of the OOM killer and outlives its address space;
    others hold it while it exits, its thread ends on the long way, and at last
    the first task exits too. *)
Definition first : task_struct := Task 0 0 0 7 7 "first" 0 0 [] 7 0 0 0 0 0 0 0.
Definition boot : hist :=
  Hist {[7 := Ghost (Live false false false) 0 0 (Some 10) (Some 5)]} ∅ ∅
    (KTasks {[7 := TaskRec first 1 2 1 10 (Some 5)]} {[10 := SigRec 1 None]} {[5 := 1]} ∅ [] stacks1 mem0 false).

Definition cpu0 : nat -> Z := fun _ => 0.
Definition fork_of (t vm : Z) (thread : bool) (sig : option Z) (last : bool) (cur : Z) : kop :=
  KFork (Some t) (Some vm) cpu0 cpu0 cpu0 (fun _ => false) 0 thread sig false false last cur.
Definition ends (t : Z) : list kop := [KExit EXIT_ZOMBIE t; KLeave cpu0 t; KSwitched t; KReap t].

Definition history : list kop :=
  [KMem (OAlloc masks0 (Some 1) true true None 7 3); fork_of 8 200 false (Some 11) false 7;
   KFork (Some 9) None cpu0 cpu0 cpu0 (fun _ => false) 0 true None false false false 7;
   fork_of 9 300 true None true 7; KRcu false false 7; fork_of 9 400 true None false 8;
   KOom 11 1; KMem (OPut false 1);
   KGet 8; KStackGet 8; KExit EXIT_ZOMBIE 8; KReap 8; KLeave cpu0 8; KStackPut cpu0 8; KSwitched 8; KPut false false 0 8;
   KRcu false false 0] ++ ends 9 ++ [KRcu true false 0; KRcu true true 0; KProfiler 9; KMem OWork] ++ ends 7 ++ [KRcu false false 0].

(** Laws that can be computed. *)
Definition runningb (t : Z) (g : gmap Z ghost) : bool :=
  match g !! t with Some x => match ph x with Live _ false _ => true | _ => false end | None => false end.
Definition currentb (t : Z) (g : gmap Z ghost) : bool := bool_decide (g !! t = None) || runningb t g.
Definition exitingb (t : Z) (h : hist) : bool :=
  match recs (hK h) !! t with Some r => bool_decide (exit_state (tsk r) <> 0) | None => true end.
Definition at_ghostb (t : Z) (h : hist) (P : ghost -> bool) : bool := match hG h !! t with Some x => P x | None => false end.
Definition klawfulb (o : kop) (h : hist) : bool :=
  match o with
  | KFork alloc vm _ _ _ _ _ _ sig _ _ _ cur =>
      runningb cur (hG h) && match alloc with Some t => bool_decide (recs (hK h) !! t = None) | None => true end &&
      match vm with Some x => bool_decide (x ∉ mapped (stk (hK h))) | None => true end &&
      match sig with Some s => bool_decide (sigs (hK h) !! s = None) | None => true end
  | KGet t => at_ghostb t h (fun x => match ph x with Live _ _ _ | Grace | Held => true | _ => false end)
  | KPut _ _ cur t => currentb cur (hG h) && at_ghostb t h (fun x => bool_decide (sheld x < held x))
  | KStackGet t => at_ghostb t h (fun x => bool_decide (sheld x < held x) && (runs_ph (ph x) || bool_decide (0 < sheld x)))
  | KStackPut _ t => at_ghostb t h (fun x => bool_decide (0 < sheld x))
  | KExit es t => runningb t (hG h) && bool_decide (es <> 0)
  | KLeave _ t => runningb t (hG h) && exitingb t h
  | KSwitched t => at_ghostb t h (fun x => match ph x with Live _ true false => true | _ => false end)
  | KReap t => at_ghostb t h (fun x => match ph x with Live false _ _ => true | _ => false end) && exitingb t h
  | KRcu _ _ cur => currentb cur (hG h)
  | KProfiler t => at_ghostb t h (fun x => bool_decide (ph x = Spare))
  | KOom s i => bool_decide (is_Some (sigs (hK h) !! s)) && bool_decide (1 <= ref (hU h) i)
  | KMem o => lawfulb o (Users (hU h) (hL h) (memory (hK h)))
  end.
Fixpoint all_klawfulb (n : nat) (kb : Z) (memcg : bool) (l : list kop) (h : hist) : bool :=
  match l with
  | [] => true
  | o :: l' => klawfulb o h && match krun n kb memcg o h with Ok h' => all_klawfulb n kb memcg l' h' | _ => true end
  end.

Lemma runningb_ok t g : runningb t g = true -> running t g.
Proof. unfold runningb, running. destruct (g !! t) as [x|]; [|done]. destruct (ph x) as [|a [] c| | | | | |] eqn:E; try done. eauto. Qed.
Lemma currentb_ok t g : currentb t g = true -> current t g.
Proof. unfold currentb. rewrite orb_true_iff, bool_decide_eq_true. intros [H|H]; [by left|right; by apply runningb_ok]. Qed.
Lemma exitingb_ok t h : exitingb t h = true -> exiting t h.
Proof. unfold exitingb, exiting. intros H r Hr. rewrite Hr in H. by apply bool_decide_eq_true in H. Qed.
Lemma at_ghostb_ok t h P Q : at_ghostb t h P = true -> (forall x, P x = true -> Q x) -> at_ghost t h Q.
Proof. unfold at_ghostb, at_ghost. destruct (hG h !! t) as [x|]; [|done]. eauto. Qed.

Lemma klawfulb_ok o h : klawfulb o h = true -> klawful o h.
Proof.
  destruct o; cbn [klawfulb klawful]; rewrite ?andb_true_iff, ?bool_decide_eq_true.
  - intros [[[H1 H2] H3] H4]. split_and!; [by apply runningb_ok|..].
    + intros t ->. by apply bool_decide_eq_true in H2.
    + intros x ->. by apply bool_decide_eq_true in H3.
    + intros s ->. by apply bool_decide_eq_true in H4.
  - intros H. eapply at_ghostb_ok; [exact H|]. intros x; cbv beta. destruct (ph x); done.
  - intros [H1 H2]. split; [by apply currentb_ok|]. eapply at_ghostb_ok; [exact H2|]. intros x. by rewrite bool_decide_eq_true.
  - intros H. eapply at_ghostb_ok; [exact H|]. intros x. by rewrite andb_true_iff, orb_true_iff, !bool_decide_eq_true.
  - intros H. eapply at_ghostb_ok; [exact H|]. intros x. by rewrite bool_decide_eq_true.
  - intros [H1 H2]. split; [by apply runningb_ok|done].
  - intros [H1 H2]. split; [by apply runningb_ok|by apply exitingb_ok].
  - intros H. eapply at_ghostb_ok; [exact H|]. intros x; cbv beta. destruct (ph x) as [|a [] []| | | | | |]; try done. eauto.
  - intros [H1 H2]. split; [|by apply exitingb_ok]. eapply at_ghostb_ok; [exact H1|]. intros x; cbv beta.
    destruct (ph x) as [|[] b c| | | | | |]; try done. eauto.
  - apply currentb_ok.
  - intros H. eapply at_ghostb_ok; [exact H|]. intros x. by rewrite bool_decide_eq_true.
  - done.
  - apply lawfulb_ok.
Qed.

Lemma all_klawfulb_ok n kb memcg l h : all_klawfulb n kb memcg l h = true -> all_klawful n kb memcg l h.
Proof.
  revert h. induction l as [|o l IH]; intros h; cbn; [done|]. rewrite andb_true_iff. intros [H1 H2].
  split; [by apply klawfulb_ok|]. intros h' E. apply IH. by rewrite E in H2.
Qed.

Definition desertedb (h : hist) : bool := bool_decide (rcu (hK h) = []) && bool_decide (hG h = ∅).
Lemma desertedb_ok h : desertedb h = true -> deserted h.
Proof.
  unfold desertedb. rewrite andb_true_iff, !bool_decide_eq_true. intros [H1 H2]. split; [done|]. intros t x Hx.
  by rewrite H2, lookup_empty in Hx.
Qed.

Lemma stacks1_sound : sound 4 4 0 stacks1.
Proof.
  apply (life_sound 4 4 stacks0); [|apply stacks0_sound].
  eapply (life_fork 4 4 (fun _ => 0) (fun _ => 0) (Some 100) (fun _ => false) 0 7 stacks0 true stacks1);
    [done|intros x _; apply not_elem_of_empty|vm_compute; reflexivity|apply life_nil].
Qed.

Lemma number_singleton {A} (P : A -> bool) i x : number P {[i := x]} = bz (P x).
Proof.
  rewrite <- insert_empty, number_insert by done. unfold number. by rewrite map_filter_empty, map_size_empty.
Qed.

Lemma boot_ok : hok 4 4 (ref {[ 9 := 1 ]}) (fun _ => 0) (ref {[ 3 := 1 ]}) (fun f => ref {[5 := 1]} f - bz (bool_decide (5 = f))) boot.
Proof.
  split; [|intros t x Hx; cbn [boot hG] in Hx; apply lookup_singleton_Some in Hx as [<- <-]; by split].
  split; cbn [boot hG hU hL hK recs sigs filters rcu stk memory warned]; try done.
  - intros t r [<- <-]%lookup_singleton_Some. eexists. split; [apply lookup_singleton_eq|]. by split.
  - intros t x [<- <-]%lookup_singleton_Some. rewrite lookup_singleton_eq. by eexists.
  - intros t. assert (E : stack_of stacks1 = {[7 := 100]}) by (vm_compute; reflexivity). rewrite E.
    destruct (decide (t = 7)) as [->|Hne].
    + rewrite !lookup_singleton_eq. split; [|by eexists]. intros _. eexists. by split.
    + rewrite !lookup_singleton_ne by done. split; [by intros [? ?]|by intros (? & ? & _)].
  - apply stacks1_sound.
  - apply NoDup_nil_2.
  - intros c. split; [by intros ?%not_elem_of_nil|]. intros (x & [_ <-]%lookup_singleton_Some & Hw). by destruct c.
  - intros s. rewrite number_singleton. change (counts s _) with (names_it (Some 10) s). unfold names_it.
    destruct (decide (s = 10)) as [->|Hne].
    + rewrite lookup_singleton_eq, bool_decide_eq_true_2 by done. done.
    + rewrite lookup_singleton_ne, bool_decide_eq_false_2 by congruence. done.
  - intros f. rewrite number_singleton. change (filters_by f _) with (names_it (Some 5) f). unfold names_it.
    rewrite (bool_decide_ext (Some 5 = Some f) (5 = f)) by (split; congruence). lia.
  - exists ∅. split; [|apply mem0_ok]. intros i. rewrite number_singleton. change (ooms i _) with (names_it None i).
    by rewrite names_none.
Qed.

Lemma task_lifetime_witness :
  exists h', kexec 4 4 true history boot = Ok h' /\ warned (hK h') = false /\ recs (hK h') = ∅ /\ sigs (hK h') = ∅ /\
    zone_kb (stk (hK h')) = 0 /\ ref (filters (hK h')) 5 = 0 /\ mms (memory (hK h')) = ∅.
Proof.
  assert (Hl : all_klawful 4 4 true history boot) by (apply all_klawfulb_ok; vm_compute; reflexivity).
  destruct (task_lifetime 4 4 true _ _ _ _ boot history boot_ok Hl) as (h' & E & Hw & _ & _ & _ & H).
  exists h'. split; [exact E|]. split; [exact Hw|].
  assert (Hc : match kexec 4 4 true history boot with
    | Ok h => desertedb h && quiet (Users (hU h) (hL h) (memory (hK h))) = true | _ => False end) by (vm_compute; reflexivity).
  rewrite E in Hc. apply andb_true_iff in Hc as [Hd Hq]. apply quiet_ok in Hq as [Hq Hwk].
  destruct (H (desertedb_ok h' Hd)) as (H1 & H2 & _ & H4 & H5 & H6).
  split; [exact H1|]. split; [exact H2|]. split; [exact H4|]. split; [rewrite H5; reflexivity|exact (H6 Hq Hwk)].
Defined.
