(* ===== verification/KPidfd.v ===== *)
(** * Files that name a process

    The operations of a pid file descriptor in
    [src/Assignment2/Assignment2-1/fork.c], and what polling one tells about the
    thread group behind it. *)

From Stdlib Require Import ZArith Lia Ascii String.
From stdpp Require Import base numbers list option strings gmap.
From S2P Require Import Prelude CText Hook Sched Tracer ProcInfo KFork.

Local Open Scope Z_scope.

(** ** Operations *)

(** A file: its operations, and the pid of its private data. *)
Record file := File { f_op : Z; private_data : option Z }.

Definition EBADF : Z := 9.
Definition EPOLLIN : Z := 0x1.
Definition EPOLLRDNORM : Z := 0x40.

Section pidfd.
Context (pidfd_fops : Z).        (** the address of the operations *)

Definition pidfd_pid (f : file) : Z + option Z :=
  if decide (f_op f = pidfd_fops) then inr (private_data f) else inl (- EBADF).

(** [put_pid] drops a reference of the pid; NULL is ignored. *)
Definition pidfd_release (put_pid : Z -> gmap Z Z -> gmap Z Z) (f : file) (pids : gmap Z Z) : Z * file * gmap Z Z :=
  (0, File (f_op f) None, match private_data f with Some p => put_pid p pids | None => pids end).

Definition tab : string := String (ascii_of_nat 9) EmptyString.
Definition newline : string := String (ascii_of_nat 10) EmptyString.

(** [pid_nr_ns]: the number of the pid in the namespace of the reader, 0 where
    it has none. *)
Definition pidfd_show_fdinfo (pid_nr_ns : option Z -> Z -> Z) (ns : Z) (f : file) (m : string) : string :=
  (m ++ "Pid:" ++ tab ++ print_u (pid_nr_ns (private_data f) ns) ++ newline)%string.
End pidfd.

(** The thread group of a pid: the exit state of the task the pid names, if one
    is left, and of the other threads. *)
Record group := Group { leader : option Z; threads : list Z }.

Definition thread_group_empty (g : group) : bool := match threads g with [] => true | _ => false end.

(** [pid_task] answers the leader. *)
Definition pidfd_poll (g : group) : Z :=
  let ready := match leader g with None => true | Some es => bool_decide (es <> 0) && thread_group_empty g end in
  if ready then Z.lor EPOLLIN EPOLLRDNORM else 0.

(** ** Thread groups

    A living member makes threads; members exit; threads are reaped at once,
    the leader only when it is the last; and [exec] by any living thread ends
    the others and goes on as the leader. *)
Definition living (g : group) : Prop := leader g = Some 0 \/ 0 ∈ threads g.

Inductive gstep : group -> group -> Prop :=
| g_thread g : living g -> gstep g (Group (leader g) (threads g ++ [0]))
| g_exit_leader ts es : es <> 0 -> gstep (Group (Some 0) ts) (Group (Some es) ts)
| g_exit l ts1 ts2 es : es <> 0 -> gstep (Group l (ts1 ++ 0 :: ts2)) (Group l (ts1 ++ es :: ts2))
| g_reap l ts1 ts2 es : es <> 0 -> gstep (Group l (ts1 ++ es :: ts2)) (Group l (ts1 ++ ts2))
| g_reap_leader es : es <> 0 -> gstep (Group (Some es) []) (Group None [])
| g_exec g : is_Some (leader g) -> living g -> gstep g (Group (Some 0) []).

(** Threads never outlive the structure of their leader. *)
Definition headed (g : group) : Prop := leader g = None -> threads g = [].

Definition is_ready (g : group) : Prop := pidfd_poll g <> 0.

Lemma is_ready_iff g : is_ready g <-> leader g = None \/ (exists es, leader g = Some es /\ es <> 0 /\ threads g = []).
Proof.
  unfold is_ready, pidfd_poll, thread_group_empty. destruct (leader g) as [es|]; [|naive_solver].
  destruct (threads g); [rewrite andb_true_r|rewrite andb_false_r].
  - case_bool_decide; naive_solver.
  - split; [done|]. naive_solver.
Qed.

Lemma gstep_headed g g' : gstep g g' -> headed g -> headed g'.
Proof.
  intros Hs. unfold headed. destruct Hs as [g Hl| | | | |]; cbn; try done.
  - intros Hd Hn. specialize (Hd Hn). destruct Hl as [Hl|Hl]; [congruence|]. rewrite Hd in Hl. by apply not_elem_of_nil in Hl.
  - intros Hd Hn. specialize (Hd Hn). by destruct ts1.
  - intros Hd Hn. specialize (Hd Hn). by destruct ts1.
Qed.

Lemma ready_dead g : headed g -> is_ready g -> ~ living g.
Proof.
  intros Hh. rewrite is_ready_iff. unfold living. intros [Hn|(es & He & Hz & Ht)] [H|H].
  - congruence.
  - rewrite (Hh Hn) in H. by apply not_elem_of_nil in H.
  - congruence.
  - rewrite Ht in H. by apply not_elem_of_nil in H.
Qed.

Lemma gstep_ready g g' : gstep g g' -> headed g -> is_ready g -> is_ready g'.
Proof.
  intros Hs Hh Hr. pose proof (ready_dead g Hh Hr) as Hd. rewrite is_ready_iff in *.
  destruct Hs as [g Hl|ts es He|l ts1 ts2 es He|l ts1 ts2 es He|es He|g Hi Hl]; cbn in *; try done.
  - exfalso. apply Hd. by left.
  - exfalso. apply Hd. right. cbn. set_solver.
  - destruct Hr as [->|(e & -> & Hz & Ht)]; [by left|]. by destruct ts1.
  - by left.
Qed.

(** Reaping the threads that are left. *)
Lemma reap_all l ts : Forall (fun es => es <> 0) ts -> rtc gstep (Group l ts) (Group l []).
Proof.
  induction 1 as [|es ts Hes _ IH]; [done|]. eapply rtc_l; [|exact IH]. by apply (g_reap l [] ts es).
Qed.

(** C37. Polling a pid file descriptor: a poll reports readable only when no
    thread of the group lives, also across [exec] and whatever the leader did
    first; once it does, it does for ever; and when no thread lives any more,
    reaping alone leads to a readable state. *)
Theorem pidfd_poll_exit (g g' : group) (Hh : headed g) (Hs : rtc gstep g g') :
  (pidfd_poll g' = 0 \/ pidfd_poll g' = Z.lor EPOLLIN EPOLLRDNORM) /\
  (pidfd_poll g' <> 0 -> ~ living g') /\
  (pidfd_poll g <> 0 -> pidfd_poll g' <> 0) /\
  (~ living g' -> exists g2, rtc gstep g' g2 /\ pidfd_poll g2 <> 0).
Proof.
  assert (Hh' : headed g' /\ (is_ready g -> is_ready g')).
  { induction Hs as [|g g1 g2 H1 _ IH]; [done|]. pose proof (gstep_headed _ _ H1 Hh) as Hh1.
    destruct (IH Hh1) as [H2 H3]. split; [done|]. intros Hr. apply H3. by eapply gstep_ready. }
  destruct Hh' as [Hh' Hst]. split_and!; [|by apply ready_dead|done|].
  - unfold pidfd_poll. destruct (match leader g' with None => true | _ => _ end); auto.
  - intros Hd. exists (Group (leader g') []). unfold living in Hd. split.
    + destruct g' as [l ts]. apply reap_all. apply Forall_forall. intros es Hin ->. apply Hd. by right.
    + apply is_ready_iff. cbn. destruct (leader g') as [es|]; [right|by left]. exists es. split_and!; [done| |done].
      intros ->. apply Hd. by left.
Qed.

(** The leader exits first; the thread it leaves ends the wait. *)
Lemma pidfd_poll_exit_witness :
  pidfd_poll (Group (Some 32) [0]) = 0 /\ pidfd_poll (Group (Some 32) []) <> 0 /\ ~ living (Group (Some 32) []).
Proof.
  assert (H1 : rtc gstep (Group (Some 0) [0]) (Group (Some 32) [])).
  { eapply rtc_l; [by apply (g_exit_leader [0] 32)|]. eapply rtc_l; [by apply (g_exit (Some 32) [] [] 16)|].
    eapply rtc_l; [by apply (g_reap (Some 32) [] [] 16)|]. apply rtc_refl. }
  assert (Hh : headed (Group (Some 0) [0])) by done.
  destruct (pidfd_poll_exit _ _ Hh H1) as (_ & H2 & _). split; [reflexivity|]. split; [discriminate|]. apply H2. discriminate.
Defined.
