(* ===== verification/KInit.v ===== *)
(** * Start-up and accounts of the process table

    The limits that [fork_init] sets, the counters of processes per processor,
    the numbers a task gets, the dump filter of the command line and the OOM
    score of a process that shares its memory, from
    [src/Assignment2/Assignment2-1/fork.c] and
    [src/Assignment2/Assignment2-1/init_task.c]. *)

From Stdlib Require Import ZArith Lia String.
From stdpp Require Import base numbers list option strings gmap.
From S2P Require Import Prelude CText Hook Sched Tracer ProcInfo KFork KFlags.

Local Open Scope Z_scope.

(** ** The first task *)
Record rlimit := Rlimit { rlim_cur : Z; rlim_max : Z }.

(** What the model keeps of [signal_struct]: its count of threads, its limits
    by resource, and its pids by type. *)
Record signals := Signals { nr_threads_of : Z; rlim : gmap Z rlimit; pids : gmap Z Z; s_oom_score_adj : Z; s_oom_score_adj_min : Z }.

(** [enum pid_type]. *)
Definition pid_index (t : pid_type) : Z := match t with PIDTYPE_PID => 0 | PIDTYPE_TGID => 1 | PIDTYPE_PGID => 2 | PIDTYPE_SID => 3 end.
Definition pid_types : list pid_type := [PIDTYPE_PID; PIDTYPE_TGID; PIDTYPE_PGID; PIDTYPE_SID].

#[global] Instance pid_type_eq_dec : EqDecision pid_type.
Proof. solve_decision. Defined.

(** [INIT_RLIMITS] and the address of [init_struct_pid] are defined elsewhere. *)
Definition init_signals (INIT_RLIMITS : gmap Z rlimit) (init_struct_pid : Z) : signals :=
  Signals 1 INIT_RLIMITS
    (<[pid_index PIDTYPE_PID := init_struct_pid]> (<[pid_index PIDTYPE_TGID := init_struct_pid]>
      (<[pid_index PIDTYPE_PGID := init_struct_pid]> (<[pid_index PIDTYPE_SID := init_struct_pid]> ∅)))) 0 0.

(** The flag words of [init_task]: a kernel thread that may run everywhere. *)
Definition init_words (NR_CPUS MAX_PRIO : Z) : words := Words PF_KTHREAD 0 0 NR_CPUS (MAX_PRIO - 20) None 0 0 0 None.

(** ** The slab of task structures *)

(** [arch] is what [arch_thread_struct_whitelist] stores, and [thread_offset]
    the offset of [thread] in the structure. *)
Definition task_struct_whitelist (arch : Z * Z) (thread_offset : Z) : Z * Z :=
  let '(offset, size) := arch in
  if decide (size = 0) then (0, size) else (wrapu 64 (offset + thread_offset), size).

(** ** Limits

    [RLIMIT_NPROC] and [RLIMIT_SIGPENDING] are the numbers of the resources. *)
Record boot_state := Boot {
  whitelist : Z * Z;
  max_threads_at : Z;
  init_rlim : gmap Z rlimit;
  ucount_max : list Z }.

(** The loop over the counts of the first user namespace. *)
Fixpoint set_ucounts (v : Z) (i rem : nat) (l : list Z) : list Z :=
  match rem with O => l | S rem' => set_ucounts v (S i) rem' (<[i := v]> l) end.

Section init.
Context (RLIMIT_NPROC RLIMIT_SIGPENDING : Z) (UCOUNT_COUNTS : nat) (MAX_THREADS : Z).

Definition fork_init (arch : Z * Z) (thread_offset nr_pages thread_size : Z) (rl : gmap Z rlimit) (ucounts : list Z) : boot_state :=
  let w := task_struct_whitelist arch thread_offset in
  let max := set_max_threads nr_pages thread_size MAX_THREADS MAX_THREADS in
  let old := default (Rlimit 0 0) (rl !! RLIMIT_NPROC) in
  let rl := <[RLIMIT_NPROC := Rlimit (Z.quot max 2) (rlim_max old)]> rl in
  let rl := <[RLIMIT_NPROC := Rlimit (rlim_cur (default (Rlimit 0 0) (rl !! RLIMIT_NPROC))) (Z.quot max 2)]> rl in
  let rl := <[RLIMIT_SIGPENDING := default (Rlimit 0 0) (rl !! RLIMIT_NPROC)]> rl in
  Boot w max rl (set_ucounts (Z.quot max 2) 0 UCOUNT_COUNTS ucounts).
End init.

(** The limit that
    [posix_cpu_timers_init_group] passes on. *)
Definition posix_cpu_timers_init_group (RLIMIT_CPU : Z) (s : signals) : Z := rlim_cur (default (Rlimit 0 0) (rlim s !! RLIMIT_CPU)).

(** ** Processes per processor

    Each count is an [unsigned long]; the sum is converted to [int] at every
    step. *)
Fixpoint sum_counts (total : Z) (counts : list Z) : Z :=
  match counts with [] => total | c :: cs => sum_counts (wraps 32 (wrapu 64 (total + c))) cs end.
Definition nr_processes (process_counts : list Z) : Z := sum_counts 0 process_counts.

(** [__this_cpu_inc], and the decrement when a process is unhashed, possibly on
    another processor. *)
Definition this_cpu_add (d : Z) (cpu : nat) (counts : list Z) : list Z := alter (fun c => wrapu 64 (c + d)) cpu counts.

(** ** Numbers *)
Definition init_task_pid (type : pid_type) (p : Z) (thread_pid : option Z) (s : signals) : option Z * signals :=
  if decide (type = PIDTYPE_PID) then (Some p, s)
  else (thread_pid, Signals (nr_threads_of s) (rlim s) (<[pid_index type := p]> (pids s)) (s_oom_score_adj s) (s_oom_score_adj_min s)).

(** The loop over the types, with the reset of the links left out. *)
Fixpoint init_pids (ts : list pid_type) (p : Z) (x : option Z * signals) : option Z * signals :=
  match ts with [] => x | t :: ts => init_pids ts p (init_task_pid t p x.1 x.2) end.
Definition init_idle_pids (init_struct_pid : Z) (x : option Z * signals) : option Z * signals :=
  init_pids pid_types init_struct_pid x.

(** [nr] is the number of the caller in its namespace. *)
Definition set_tid_address (tidptr : Z) (nr : Z) (clear_child_tid : Z) : Z * Z := (nr, tidptr).

(** ** The dump filter of the command line

    [simple_strtoul] has read [v]. *)
Definition coredump_filter_setup (SHIFT MASK v : Z) : Z := Z.land (wrapu 64 (Z.shiftl v SHIFT)) MASK.

(** ** The OOM score

    [mmf] are the flags of the address space, [None] for a kernel thread. *)
Definition copy_oom_score_adj (MMF_MULTIPROCESS clone_flags : Z) (mmf : option Z) (cur child : signals) : option Z * signals :=
  match mmf with
  | None => (None, child)
  | Some f =>
      if decide (Z.land clone_flags (Z.lor CLONE_VM (Z.lor CLONE_THREAD CLONE_VFORK)) <> CLONE_VM) then (Some f, child)
      else (Some (Z.setbit f MMF_MULTIPROCESS),
            Signals (nr_threads_of child) (rlim child) (pids child) (s_oom_score_adj cur) (s_oom_score_adj_min cur))
  end.

(** ** Theorems on the limits *)
Lemma fls_bounds z : 0 < z -> 2 ^ (fls z - 1) <= z < 2 ^ fls z.
Proof.
  intros Hz. unfold fls. rewrite decide_False by lia. pose proof (Z.log2_spec z Hz) as H.
  replace (Z.log2 z + 1 - 1) with (Z.log2 z) by lia. by rewrite Z.add_1_r.
Qed.

Lemma fls_product a b : 0 < a -> 0 < b ->
  (fls a + fls b <= 64 -> a * b < 2 ^ 64) /\ (64 < fls a + fls b -> 2 ^ 63 <= a * b).
Proof.
  intros Ha Hb. destruct (fls_bounds a Ha) as [A1 A2]. destruct (fls_bounds b Hb) as [B1 B2].
  assert (Fa : 1 <= fls a) by (unfold fls; rewrite decide_False by lia; pose proof (Z.log2_nonneg a); lia).
  assert (Fb : 1 <= fls b) by (unfold fls; rewrite decide_False by lia; pose proof (Z.log2_nonneg b); lia).
  split; intros H.
  - apply Z.lt_le_trans with (2 ^ fls a * 2 ^ fls b); [apply Z.mul_lt_mono_nonneg; lia|].
    rewrite <- Z.pow_add_r by lia. apply Z.pow_le_mono_r; lia.
  - apply Z.le_trans with (2 ^ (fls a - 1) * 2 ^ (fls b - 1)).
    + rewrite <- Z.pow_add_r by lia. apply Z.pow_le_mono_r; lia.
    + apply Z.mul_le_mono_nonneg; try lia; apply Z.pow_nonneg; lia.
Qed.

(** The limit is the share of the memory, an eighth for the stacks of all
    threads, between its bounds, as if it had been computed without bounds on
    the integers: where the product would wrap the test before it takes the
    upper limit, which the share exceeds. *)
Lemma max_threads_exact nr_pages thread_size MAX_THREADS suggested :
  0 < nr_pages < 2 ^ 64 -> 0 < thread_size -> MIN_THREADS <= MAX_THREADS -> MAX_THREADS * (thread_size * 8) <= 2 ^ 63 ->
  MAX_THREADS <= suggested ->
  set_max_threads nr_pages thread_size MAX_THREADS suggested =
    Z.max MIN_THREADS (Z.min (nr_pages * PAGE_SIZE / (8 * thread_size)) MAX_THREADS).
Proof.
  intros Hn Ht Hm H63 Hs. unfold set_max_threads, MIN_THREADS in *.
  destruct (fls_product nr_pages PAGE_SIZE) as [Hlow Hhigh]; [lia|by unfold PAGE_SIZE|]. unfold fls64.
  assert (Hsz : wrapu 64 (wrapu 64 thread_size * 8) = 8 * thread_size).
  { unfold wrapu. rewrite (Z.mod_small thread_size) by lia. rewrite Z.mod_small by lia. lia. }
  destruct (decide (64 < fls nr_pages + fls PAGE_SIZE)) as [E|E].
  - specialize (Hhigh E). assert (MAX_THREADS <= nr_pages * PAGE_SIZE / (8 * thread_size))
      by (apply Z.div_le_lower_bound; lia). case_decide; lia.
  - specialize (Hlow ltac:(lia)). rewrite Hsz.
    assert (wrapu 64 (wrapu 64 nr_pages * wrapu 64 PAGE_SIZE) = nr_pages * PAGE_SIZE) as ->.
    { unfold wrapu. rewrite (Z.mod_small nr_pages), (Z.mod_small PAGE_SIZE) by (unfold PAGE_SIZE; lia).
      apply Z.mod_small. unfold PAGE_SIZE in *. lia. }
    case_decide; lia.
Qed.

Lemma set_ucounts_all v i rem l j :
  set_ucounts v i rem l !! j = if decide (i <= j < i + rem)%nat then (fun _ => v) <$> l !! j else l !! j.
Proof.
  revert i l. induction rem as [|rem IH]; intros i l; cbn; [by rewrite decide_False by lia|].
  rewrite IH. destruct (decide (j = i)) as [->|Hne].
  - rewrite decide_False, decide_True by lia. destruct (decide (i < length l)%nat).
    + rewrite list_lookup_insert_eq by done. by destruct (lookup_lt_is_Some_2 l i l0) as [x ->].
    + rewrite !lookup_ge_None_2 by (rewrite ?length_insert; lia). done.
  - rewrite list_lookup_insert_ne by done. repeat case_decide; try lia; done.
Qed.

(** C38. Limits at start-up: on a machine whose threads at the upper limit fit into
    2^63 bytes, and with any number of pages of memory, the limit on threads is
    exactly the number of threads whose stacks take an eighth of the memory,
    but at least 20 and at most the upper limit; the 64-bit products of the
    code never wrap to another result.  The first process may have half of
    them, never less than ten, as processes and as pending signals, soft and
    hard limit alike; every count of the first namespace gets the same bound;
    no other limit changes. *)
Theorem fork_init_bounds (RLIMIT_NPROC RLIMIT_SIGPENDING : Z) (UCOUNT_COUNTS : nat) (MAX_THREADS : Z) (arch : Z * Z)
    (thread_offset nr_pages thread_size : Z) (rl : gmap Z rlimit) (ucounts : list Z)
    (Hn : 0 < nr_pages < 2 ^ 64) (Ht : 0 < thread_size) (Hm : 20 <= MAX_THREADS)
    (H63 : MAX_THREADS * (thread_size * 8) <= 2 ^ 63)
    (Hne : RLIMIT_NPROC <> RLIMIT_SIGPENDING) (Hlen : length ucounts = UCOUNT_COUNTS) :
  let b := fork_init RLIMIT_NPROC RLIMIT_SIGPENDING UCOUNT_COUNTS MAX_THREADS arch thread_offset nr_pages thread_size rl ucounts in
  let half := max_threads_at b / 2 in
  max_threads_at b = Z.max 20 (Z.min (nr_pages * PAGE_SIZE / (8 * thread_size)) MAX_THREADS) /\
  10 <= half /\
  init_rlim b !! RLIMIT_NPROC = Some (Rlimit half half) /\ init_rlim b !! RLIMIT_SIGPENDING = Some (Rlimit half half) /\
  (forall r, r <> RLIMIT_NPROC -> r <> RLIMIT_SIGPENDING -> init_rlim b !! r = rl !! r) /\
  ucount_max b = replicate UCOUNT_COUNTS half.
Proof.
  intros b half. pose proof (max_threads_exact nr_pages thread_size MAX_THREADS MAX_THREADS Hn Ht Hm H63 ltac:(lia)) as Hx.
  unfold MIN_THREADS in *. assert (Hq : Z.quot (max_threads_at b) 2 = half) by (apply Z.quot_div_nonneg; cbn; lia).
  subst half. cbn [b fork_init max_threads_at init_rlim ucount_max] in *. rewrite !Hq, lookup_insert_eq. cbn [default rlim_cur].
  split_and!; try lia.
  - apply Z.div_le_lower_bound; lia.
  - rewrite lookup_insert_ne by done. rewrite !lookup_insert_eq. cbn. congruence.
  - rewrite !lookup_insert_eq. cbn. congruence.
  - intros r H1 H2. by rewrite !lookup_insert_ne.
  - apply list_eq. intros j. rewrite set_ucounts_all. case_decide as Hj.
    + rewrite lookup_replicate_2 by lia. by destruct (lookup_lt_is_Some_2 ucounts j ltac:(lia)) as [x ->].
    + rewrite !lookup_ge_None_2 by (rewrite ?length_replicate; lia). done.
Qed.

Lemma fork_init_bounds_witness :
  let b := fork_init 6 11 3 0x3fffffff (64, 0) 4480 4194304 16384 ∅ [0; 0; 0] in
  max_threads_at b = 131072 /\ init_rlim b !! 6 = Some (Rlimit 65536 65536) /\ ucount_max b = [65536; 65536; 65536] /\
  whitelist b = (0, 0).
Proof.
  destruct (fork_init_bounds 6 11 3 0x3fffffff (64, 0) 4480 4194304 16384 ∅ [0; 0; 0])
    as (Hx & _ & H1 & _ & _ & H2); [lia|lia|lia|lia|lia|done|].
  split; [exact Hx|]. split; [exact H1|]. split; [exact H2|vm_compute; reflexivity].
Defined.

(** ** Theorems on the counts *)
Lemma wraps32_shift z : exists q, wraps 32 z = z + q * 2 ^ 32.
Proof.
  unfold wraps, wrapu. pose proof (Z.div_mod z (2 ^ 32) ltac:(lia)) as H.
  case_decide; [exists (- (z / 2 ^ 32))|exists (- (z / 2 ^ 32) - 1)]; lia.
Qed.

Lemma wraps_eq a b q : a = b + q * 2 ^ 32 -> wraps 32 a = wraps 32 b.
Proof. intros ->. unfold wraps, wrapu. by rewrite Z_mod_plus_full. Qed.

Lemma wraps_id z : 0 <= z < 2 ^ 31 -> wraps 32 z = z.
Proof. intros Hz. unfold wraps, wrapu. rewrite Z.mod_small by lia. by rewrite decide_True by lia. Qed.

Definition total (l : list Z) : Z := foldr Z.add 0 l.

Lemma sum_counts_total z cs : sum_counts (wraps 32 z) cs = wraps 32 (z + total cs).
Proof.
  revert z. induction cs as [|c cs IH]; intros z; cbn [sum_counts total foldr]; [by rewrite Z.add_0_r|].
  destruct (wraps32_shift z) as [q Hq]. rewrite (wraps_eq (wrapu 64 (wraps 32 z + c)) (z + c) (q - (wraps 32 z + c) / 2 ^ 64 * 2 ^ 32)).
  - rewrite IH. f_equal. unfold total. lia.
  - unfold wrapu. rewrite Z.mod_eq by lia. rewrite Hq at 1. lia.
Qed.

Lemma total_alter f (i : nat) l x : l !! i = Some x -> total (alter f i l) = total l - x + f x.
Proof.
  revert i. induction l as [|y l IH]; intros [|i] E; cbn in *; simplify_eq; [unfold total; lia|].
  change (alter f (S i) (y :: l)) with (y :: alter f i l). unfold total in *. cbn. rewrite (IH i E). lia.
Qed.

(** The processes come and go on the processors of the list. *)
Definition count_step (counts : list Z) (e : Z * nat) : list Z := this_cpu_add e.1 e.2 counts.

Lemma counts_track (es : list (Z * nat)) (counts : list Z) :
  Forall (fun e => (e.2 < length counts)%nat) es ->
  exists q, total (foldl count_step counts es) = total counts + total (es.*1) + q * 2 ^ 32.
Proof.
  revert counts. induction es as [|[d i] es IH]; intros counts He; cbn [foldl fmap list_fmap]; [exists 0; cbn; lia|].
  apply Forall_cons in He as [Hi He]. cbn in Hi. destruct (lookup_lt_is_Some_2 counts i Hi) as [x Hx].
  destruct (IH (count_step counts (d, i))) as [q Hq].
  { unfold count_step, this_cpu_add. cbn. by rewrite length_alter. }
  assert (Ha : total (count_step counts (d, i)) = total counts - x + wrapu 64 (x + d)) by exact (total_alter _ _ _ _ Hx).
  rewrite Ha in Hq.
  exists (q - (x + d) / 2 ^ 64 * 2 ^ 32). rewrite Hq. cbn [total foldr fst]. unfold wrapu, total.
  rewrite (Z.mod_eq (x + d)) by lia. lia.
Qed.

(** The number of processes is exact although they are counted on the
    processor they were made on and discounted on another one, where the count
    may wrap. *)
Theorem nr_processes_exact (cpus : nat) (es : list (Z * nat)) :
  Forall (fun e => (e.2 < cpus)%nat) es -> 0 <= total (es.*1) < 2 ^ 31 ->
  nr_processes (foldl count_step (replicate cpus 0) es) = total (es.*1).
Proof.
  intros He Ht. destruct (counts_track es (replicate cpus 0)) as [q Hq]; [by rewrite length_replicate|].
  assert (H0 : total (replicate cpus 0) = 0) by (clear; induction cpus; cbn; [done|unfold total in *; cbn; lia]).
  unfold nr_processes. rewrite <- (wraps_id 0) at 1 by lia. rewrite sum_counts_total, Hq, H0, Z.add_0_l.
  rewrite (wraps_eq _ (total es.*1) q) by lia. by apply wraps_id.
Qed.

(** ** The other operations

    An idle task has the pid of the first task in every role. *)
Lemma init_idle_pids_all p x : forall t, let '(tp, s) := init_idle_pids p x in
  match t with PIDTYPE_PID => tp = Some p | _ => pids s !! pid_index t = Some p end.
Proof. intros t. destruct t; cbn; [done|by simplify_map_eq..]. Qed.

(** The filter of the command line sets bits of the filter only. *)
Lemma coredump_filter_masked SHIFT MASK v : Z.ldiff (coredump_filter_setup SHIFT MASK v) MASK = 0.
Proof.
  unfold coredump_filter_setup. apply Z.bits_inj'. intros i _. rewrite Z.ldiff_spec, Z.land_spec, Z.bits_0.
  destruct (Z.testbit MASK i); [by rewrite andb_false_r|by rewrite andb_false_r].
Qed.

(** Processes that share their memory and are no threads get one score. *)
Lemma oom_score_shared MMFM fl f cur child :
  has_all fl CLONE_VM = true -> has fl CLONE_THREAD = false -> has fl CLONE_VFORK = false ->
  copy_oom_score_adj MMFM fl (Some f) cur child =
    (Some (Z.setbit f MMFM), Signals (nr_threads_of child) (rlim child) (pids child) (s_oom_score_adj cur) (s_oom_score_adj_min cur)).
Proof.
  unfold has_all, has. rewrite !negb_false_iff, !bool_decide_eq_true. intros H1 H2 H3. unfold copy_oom_score_adj.
  rewrite !Z.land_lor_distr_r, H1, H2, H3. by rewrite decide_False by (intros H; apply H; reflexivity).
Qed.
