(* ===== verification/KSignals.v ===== *)
(** * Signals that arrive during a fork

    [copy_process] of [src/Assignment2/Assignment2-1/fork.c] keeps, on its
    stack, a set [delayed] of the signals that were sent to several processes
    while it worked, and hands it to the child at the moment the child becomes
    visible.  Its comment promises that signals received before the fork are
    delivered before it, and that the others "appear to happen after the fork".

    The threads of one process fork concurrently, so the model has one frame
    per call in progress.  What is outside the file are two arguments: [queue s
    x], how the signal [s] changes a set of pending signals (stop signals and
    [SIGCONT] cancel each other), and [recalc], the flag [recalc_sigpending]
    computes.  Sending visits the list [multiprocess], which holds pointers into
    frames: visiting a frame that is gone is undefined. *)

From Stdlib Require Import ZArith Lia.
From stdpp Require Import base numbers list option gmap fin_maps.
From S2P Require Import Prelude Sched Tracer ProcInfo KFork KForkFacts.

Local Open Scope Z_scope.

Definition SIGKILL : Z := 9.

(** Where a call is: before the test of [signal_pending], between it and the
    test of [fatal_signal_pending], or on its way to [fork_out]. *)
Inductive fork_pc := Entered | Copying | Leaving (retval : Z).

#[global] Instance fork_pc_eq_dec : EqDecision fork_pc.
Proof. solve_decision. Defined.

(** A call of [copy_process]; the private pending signals and the flag
    [TIF_SIGPENDING] are those of the calling thread. *)
Record frame := Frame {
  f_thread : bool;               (** [clone_flags & CLONE_THREAD] *)
  f_leader : bool;               (** [thread_group_leader (p)] *)
  f_pending : gset Z;            (** [current->pending.signal] *)
  f_flag : bool;                 (** [signal_pending (current)] *)
  f_delayed : gset Z;            (** [delayed.signal] *)
  f_pc : fork_pc }.

Definition set_pc (pc : fork_pc) (f : frame) : frame :=
  Frame (f_thread f) (f_leader f) (f_pending f) (f_flag f) (f_delayed f) pc.
Definition set_pending (x : gset Z) (flag : bool) (f : frame) : frame :=
  Frame (f_thread f) (f_leader f) x flag (f_delayed f) (f_pc f).
Definition set_delayed (x : gset Z) (f : frame) : frame :=
  Frame (f_thread f) (f_leader f) (f_pending f) (f_flag f) x (f_pc f).
Definition fatal_signal_pending (f : frame) : bool := f_flag f && bool_decide (SIGKILL ∈ f_pending f).

(** The forking process; frames and the processes it made are known by a number
    per call. *)
Record sigs := Sigs {
  shared : gset Z;               (** [current->signal->shared_pending.signal] *)
  multiprocess : list Z;         (** [current->signal->multiprocess] *)
  frames : gmap Z frame;
  born : gmap Z (gset Z) }.      (** [p->signal->shared_pending.signal] *)

Definition set_frame (k : Z) (f : frame) (s : sigs) : sigs :=
  Sigs (shared s) (multiprocess s) (<[k := f]> (frames s)) (born s).

(** What happens to the process: the steps of the calls, and the rest of the
    system. *)
Inductive event :=
| Enter (k : Z) (e : kenv) (a : kernel_clone_args) (own blocked : gset Z)
| Test_pending (k : Z)
| Bad_fork (k : Z) (retval : Z)  (** one of the labels [bad_fork_...] *)
| Link (k : Z)
| Fork_out (k : Z)
| Send (s : Z) (others : gset Z) (** a signal for a group, of which [others] are no longer members *)
| Direct (k : Z) (s : Z) (wake : bool)  (** a signal for the thread in [k] *)
| Wake (k : Z)
| Own (x : gset Z)               (** the pending signals of the process change otherwise *)
| Child (k : Z) (x : gset Z).    (** those of a child change *)

Section signals.
Context (queue : Z -> gset Z -> gset Z) (recalc : gset Z -> gset Z -> gset Z -> bool).

(** [hlist_for_each_entry] over [multiprocess], each set getting the signal. *)
Fixpoint visit (s : Z) (l : list Z) (fs : gmap Z frame) : run (gmap Z frame) :=
  match l with
  | [] => Ok fs
  | k :: l => match fs !! k with
              | Some f => visit s l (<[k := set_delayed (queue s (f_delayed f)) f]> fs)
              | None => Undef
              end
  end.

Definition queue_born (s : Z) (others : gset Z) (m : gmap Z (gset Z)) : gmap Z (gset Z) :=
  map_imap (fun k x => Some (if decide (k ∈ others) then x else queue s x)) m.

(** From [sigemptyset] to [spin_unlock_irq], under the lock. *)
Definition enter (k : Z) (e : kenv) (a : kernel_clone_args) (own blocked : gset Z) (s : sigs) : sigs :=
  let thread := has (a_flags a) CLONE_THREAD in
  Sigs (shared s) (if thread then multiprocess s else k :: multiprocess s)
    (<[k := Frame thread (thread_group_leader e a) own (recalc own (shared s) blocked) ∅ Entered]> (frames s))
    (born s).

(** [retval = -ERESTARTNOINTR; if (signal_pending (current)) goto fork_out;] *)
Definition test_pending (f : frame) : frame :=
  set_pc (if f_flag f then Leaving (- ERESTARTNOINTR) else Copying) f.

(** [hlist_del_init]: nothing when the node is in no list. *)
Definition hlist_del_init (k : Z) (l : list Z) : list Z := filter (fun x => x <> k) l.

(** The end of the call, the frame with it. *)
Definition leave (k : Z) (s : sigs) : sigs :=
  Sigs (shared s) (hlist_del_init k (multiprocess s)) (delete k (frames s)) (born s).

(** Under the lock, from the test for a fatal signal on: the call fails, or the
    child gets the delayed signals, if it has signals of its own. *)
Definition link_signals (k : Z) (f : frame) (s : sigs) : sigs :=
  if fatal_signal_pending f then set_frame k (set_pc (Leaving (- EINTR)) f) s
  else leave k (if f_leader f then Sigs (shared s) (multiprocess s) (frames s) (<[k := f_delayed f]> (born s)) else s).

(** One step; [None] for an event that cannot happen now. *)
Definition step (ev : event) (s : sigs) : option (run sigs) :=
  match ev with
  | Enter k e a own blocked =>
      match frames s !! k, born s !! k with
      | None, None => Some (Ok (enter k e a own blocked s))
      | _, _ => None
      end
  | Test_pending k =>
      f ← frames s !! k;
      if decide (f_pc f = Entered) then Some (Ok (set_frame k (test_pending f) s)) else None
  | Bad_fork k r =>
      f ← frames s !! k;
      if decide (f_pc f = Copying) then Some (Ok (set_frame k (set_pc (Leaving r) f) s)) else None
  | Link k =>
      f ← frames s !! k;
      if decide (f_pc f = Copying) then Some (Ok (link_signals k f s)) else None
  | Fork_out k =>
      f ← frames s !! k;
      match f_pc f with Leaving _ => Some (Ok (leave k s)) | _ => None end
  | Send sg others =>
      if decide (others ⊆ dom (born s)) then
        Some (fs ← visit sg (multiprocess s) (frames s);
              Ok (Sigs (queue sg (shared s)) (multiprocess s) fs (queue_born sg others (born s))))
      else None
  | Direct k sg wake =>
      f ← frames s !! k;
      if decide (sg = SIGKILL /\ wake = false) then None
      else Some (Ok (set_frame k (set_pending ({[sg]} ∪ f_pending f) (f_flag f || wake) f) s))
  | Wake k =>
      f ← frames s !! k; Some (Ok (set_frame k (set_pending (f_pending f) true f) s))
  | Own x => Some (Ok (Sigs x (multiprocess s) (frames s) (born s)))
  | Child k x =>
      match born s !! k with
      | Some _ => Some (Ok (Sigs (shared s) (multiprocess s) (frames s) (<[k := x]> (born s))))
      | None => None
      end
  end.

Fixpoint runs (h : list event) (s : sigs) : option (run sigs) :=
  match h with
  | [] => Some (Ok s)
  | ev :: h => match step ev s with
               | Some (Ok s') => runs h s'
               | r => r
               end
  end.

(** ** The frames and the list *)
Record sinv (s : sigs) : Prop := {
  si_nodup : NoDup (multiprocess s);
  si_list k : k ∈ multiprocess s <-> exists f, frames s !! k = Some f /\ f_thread f = false;
  si_leader k f : frames s !! k = Some f -> f_leader f = negb (f_thread f);
  si_born k f : frames s !! k = Some f -> born s !! k = None;
  si_kill k f : frames s !! k = Some f -> SIGKILL ∈ f_pending f -> f_flag f = true }.

(** What the functions around these steps promise: the signal sent at the exit
    is not negative, and [SIGKILL] is never blocked. *)
Definition sane (ev : event) : Prop :=
  match ev with
  | Enter _ e a _ blocked => kenv_ok e /\ 0 <= a_exit_signal a /\ SIGKILL ∉ blocked
  | _ => True
  end.

(** [recalc_sigpending] clears the flag only when no signal that is not blocked
    is pending. *)
Hypothesis recalc_sound : forall own sh blocked, recalc own sh blocked = false -> (own ∪ sh) ∖ blocked = ∅.

Lemma visit_lookup sg l : NoDup l -> forall fs, (forall k, k ∈ l -> is_Some (fs !! k)) ->
  exists fs', visit sg l fs = Ok fs' /\
    forall k, fs' !! k = if decide (k ∈ l) then (fun f => set_delayed (queue sg (f_delayed f)) f) <$> fs !! k else fs !! k.
Proof.
  induction 1 as [|k l Hk _ IH]; intros fs Hfs.
  { exists fs. split; [done|]. intros j. by rewrite decide_False by apply not_elem_of_nil. }
  cbn [visit]. destruct (Hfs k) as [f Ef]; [left|]. rewrite Ef.
  destruct (IH (<[k := set_delayed (queue sg (f_delayed f)) f]> fs)) as (fs' & -> & Hl).
  { intros j Hj. destruct (decide (j = k)) as [->|Hne]; [by rewrite lookup_insert_eq|].
    rewrite lookup_insert_ne by done. apply Hfs. by right. }
  exists fs'. split; [done|]. intros j. rewrite Hl. destruct (decide (j = k)) as [->|Hne].
  - rewrite decide_False by done. rewrite decide_True by left. by rewrite lookup_insert_eq, Ef.
  - rewrite lookup_insert_ne by done. destruct (decide (j ∈ l)) as [Hj|Hj].
    + rewrite decide_True by (by right). done.
    + rewrite decide_False; [done|]. rewrite elem_of_cons. tauto.
Qed.

Lemma send_frames s sg : sinv s -> exists fs, visit sg (multiprocess s) (frames s) = Ok fs /\
  forall k, fs !! k = (fun f => if f_thread f then f else set_delayed (queue sg (f_delayed f)) f) <$> frames s !! k.
Proof.
  intros Hs. destruct (visit_lookup sg (multiprocess s) (si_nodup _ Hs) (frames s)) as (fs & E & Hl).
  { intros k Hk. apply (si_list _ Hs) in Hk as (f & -> & _). by eexists. }
  exists fs. split; [done|]. intros k. rewrite Hl. case_decide as Hk.
  - apply (si_list _ Hs) in Hk as (f & -> & Hf). cbn. by rewrite Hf.
  - destruct (frames s !! k) as [f|] eqn:Ef; [|done]. cbn. destruct (f_thread f) eqn:Ht; [done|].
    destruct Hk. apply (si_list _ Hs). eauto.
Qed.

Lemma set_frame_sinv k f f' s : sinv s -> frames s !! k = Some f -> f_thread f' = f_thread f ->
  f_leader f' = f_leader f -> (SIGKILL ∈ f_pending f' -> f_flag f' = true) -> sinv (set_frame k f' s).
Proof.
  intros Hs Ef Ht Hl Hk.
  assert (Hi : forall j g, <[k := f']> (frames s) !! j = Some g -> j = k /\ g = f' \/ j <> k /\ frames s !! j = Some g).
  { intros j g. rewrite lookup_insert_Some. naive_solver. }
  split; cbn [set_frame multiprocess frames born shared].
  - apply Hs.
  - intros j. rewrite (si_list _ Hs). split.
    + intros (g & Eg & Hg). destruct (decide (j = k)) as [->|Hne].
      * exists f'. rewrite lookup_insert_eq. simplify_eq. split; [done|congruence].
      * exists g. by rewrite lookup_insert_ne.
    + intros (g & Eg & Hg). destruct (Hi _ _ Eg) as [[-> ->]|[_ E]]; [|by eauto]. exists f. split; [done|congruence].
  - intros j g Eg. destruct (Hi _ _ Eg) as [[-> ->]|[_ E]]; [|by eapply si_leader].
    rewrite Hl, Ht. by eapply si_leader.
  - intros j g Eg. destruct (Hi _ _ Eg) as [[-> ->]|[_ E]]; by eapply si_born.
  - intros j g Eg. destruct (Hi _ _ Eg) as [[-> ->]|[_ E]]; [done|by eapply si_kill].
Qed.

Lemma leave_sinv k s m : sinv s -> (forall j, j <> k -> m !! j = born s !! j) ->
  sinv (leave k (Sigs (shared s) (multiprocess s) (frames s) m)).
Proof.
  intros Hs Hm. split; cbn [leave multiprocess frames born shared].
  - apply NoDup_filter, Hs.
  - intros j. unfold hlist_del_init. rewrite list_elem_of_filter, (si_list _ Hs).
    setoid_rewrite lookup_delete_Some. naive_solver.
  - intros j g [_ E]%lookup_delete_Some. by eapply si_leader.
  - intros j g [Hne E]%lookup_delete_Some. rewrite Hm by done. by eapply si_born.
  - intros j g [_ E]%lookup_delete_Some. by eapply si_kill.
Qed.

Lemma enter_sinv k e a own blocked s : sinv s -> frames s !! k = None -> born s !! k = None ->
  sane (Enter k e a own blocked) -> sinv (enter k e a own blocked s).
Proof.
  intros Hs Hf Hb (He & Hex & Hbl). pose proof (exit_signal_leader e a He Hex) as Hl.
  assert (Hnot : k ∉ multiprocess s). { intros (f & E & _)%(si_list _ Hs). congruence. }
  unfold enter. rewrite Hl. destruct (has (a_flags a) CLONE_THREAD).
  all: split; cbn [multiprocess frames born shared]; try (by apply Hs).
  all: try (intros j g [[<- <-]|[Hne E]]%lookup_insert_Some; cbn [f_thread f_leader f_flag f_pending];
    [done || intros Hk|by (eapply si_leader || eapply si_born || eapply si_kill)]).
  all: try (destruct (recalc own (shared s) blocked) eqn:Er; [done|]; apply recalc_sound in Er; set_solver).
  - intros j. rewrite (si_list _ Hs). setoid_rewrite lookup_insert_Some. split; [|naive_solver].
    intros (g & E & Hg). exists g. split; [|done]. right. split; [congruence|done].
  - apply NoDup_cons. split; [done|apply Hs].
  - intros j. rewrite elem_of_cons, (si_list _ Hs). setoid_rewrite lookup_insert_Some. split; [|naive_solver].
    intros [->|(g & E & Hg)]; [by eauto|]. exists g. split; [|done]. right. split; [congruence|done].
Qed.

Lemma send_sinv sg fs m s : sinv s -> (forall k, born s !! k = None -> m !! k = None) ->
  (forall k, fs !! k = (fun f => if f_thread f then f else set_delayed (queue sg (f_delayed f)) f) <$> frames s !! k) ->
  sinv (Sigs (queue sg (shared s)) (multiprocess s) fs m).
Proof.
  intros Hs Hm Hfs.
  assert (Hi : forall k g, fs !! k = Some g -> exists f, frames s !! k = Some f /\ f_thread g = f_thread f /\
    f_leader g = f_leader f /\ f_pending g = f_pending f /\ f_flag g = f_flag f).
  { intros k g. rewrite Hfs. intros (f & -> & ->)%fmap_Some. exists f. by destruct (f_thread f) eqn:E. }
  split; cbn [multiprocess frames born shared].
  - apply Hs.
  - intros k. rewrite (si_list _ Hs). split.
    + intros (f & E & Hf). eexists. rewrite Hfs, E. cbn. split; [done|]. by rewrite Hf.
    + intros (g & E & Hg). destruct (Hi _ _ E) as (f & Ef & H1 & _). exists f. split; [done|congruence].
  - intros k g E. destruct (Hi _ _ E) as (f & Ef & -> & -> & _). by eapply si_leader.
  - intros k g E. destruct (Hi _ _ E) as (f & Ef & _). by eapply Hm, si_born.
  - intros k g E. destruct (Hi _ _ E) as (f & Ef & _ & _ & -> & ->). by eapply si_kill.
Qed.

Lemma queue_born_lookup sg others m k :
  queue_born sg others m !! k = (fun x => if decide (k ∈ others) then x else queue sg x) <$> m !! k.
Proof. unfold queue_born. rewrite map_lookup_imap. by destruct (m !! k). Qed.

(** Opens a step of the call [k]. *)
Ltac at_frame E f Ef :=
  match type of E with
  | (frames ?s !! ?k ≫= _) = _ => destruct (frames s !! k) as [f|] eqn:Ef; cbn in E; [try (case_decide; [|done])|done]
  end; simplify_eq.

Lemma step_sinv ev s r : sinv s -> sane ev -> step ev s = Some r -> exists s', r = Ok s' /\ sinv s'.
Proof.
  intros Hs He E. destruct ev as [k e a own bl|k|k r'|k|k|sg ot|k sg w|k|x|k x]; cbn [step] in E.
  - destruct (frames s !! k) eqn:Ef; [done|]. destruct (born s !! k) eqn:Eb; [done|]. simplify_eq.
    eexists. split; [done|]. by apply enter_sinv.
  - at_frame E f Ef. eexists. split; [done|].
    eapply set_frame_sinv; [done..|]. exact (si_kill _ Hs k f Ef).
  - at_frame E f Ef. eexists. split; [done|].
    eapply set_frame_sinv; [done..|]. exact (si_kill _ Hs k f Ef).
  - at_frame E f Ef. eexists. split; [done|].
    unfold link_signals. destruct (fatal_signal_pending f).
    + eapply set_frame_sinv; [done..|]. exact (si_kill _ Hs k f Ef).
    + destruct (f_leader f).
      * apply leave_sinv; [done|]. intros j Hj. by rewrite lookup_insert_ne.
      * apply (leave_sinv k s (born s)); done.
  - at_frame E f Ef. destruct (f_pc f); try done. simplify_eq.
    eexists. split; [done|]. apply (leave_sinv k s (born s)); done.
  - case_decide; [|done]. destruct (send_frames s sg Hs) as (fs & Efs & Hl). rewrite Efs in E. simplify_eq.
    eexists. split; [done|]. apply send_sinv; [done| |done]. intros k Hk. by rewrite queue_born_lookup, Hk.
  - destruct (frames s !! k) as [f|] eqn:Ef; cbn in E; [|done]. case_decide as Hd; [done|]. simplify_eq.
    eexists. split; [done|]. eapply set_frame_sinv; [done..|]. cbn [set_pending f_pending f_flag].
    intros [Hsg%elem_of_singleton|Hin]%elem_of_union; [|by rewrite (si_kill _ Hs k f)].
    destruct w; [by rewrite orb_true_r|by destruct Hd].
  - at_frame E f Ef. eexists. split; [done|]. eapply set_frame_sinv; done.
  - simplify_eq. eexists. split; [done|]. destruct Hs. by split.
  - destruct (born s !! k) as [y|] eqn:Eb; [|done]. simplify_eq. eexists. split; [done|].
    destruct Hs as [H1 H2 H3 H4 H5]. split; cbn; try done. intros j g Ej. rewrite lookup_insert_ne; [by eapply H4|].
    intros ->. apply H4 in Ej. congruence.
Qed.

Lemma runs_sinv h : forall s r, sinv s -> Forall sane h -> runs h s = Some r -> exists s', r = Ok s' /\ sinv s'.
Proof.
  induction h as [|ev h IH]; intros s r Hs Hh E; cbn in E; [simplify_eq; eauto|].
  inversion_clear Hh as [|? ? He Hh']. destruct (step ev s) as [r1|] eqn:E1; [|done].
  destruct (step_sinv _ _ _ Hs He E1) as (s1 & -> & Hs1). by eapply IH.
Qed.

(** ** The specification: a fork is one event

    Here a child exists from its fork on, without pending signals, and gets
    every signal sent to its group from then on. *)
Inductive spec_event :=
| Forks (k : Z)
| Sends (s : Z) (others : gset Z)
| Owns (x : gset Z)
| Childs (k : Z) (x : gset Z).

Definition spec_step (v : gset Z * gmap Z (gset Z)) (ev : spec_event) : gset Z * gmap Z (gset Z) :=
  match ev with
  | Forks k => (v.1, <[k := ∅]> v.2)
  | Sends s others => (queue s v.1, queue_born s others v.2)
  | Owns x => (x, v.2)
  | Childs k x => (v.1, <[k := x]> v.2)
  end.

(** Whether the call [k], in progress in [s], goes on to make a process. *)
Fixpoint will (k : Z) (h : list event) (s : sigs) : bool :=
  match h with
  | [] => false
  | ev :: h =>
      match step ev s with
      | Some (Ok s') => match frames s' !! k with
                        | Some _ => will k h s'
                        | None => bool_decide (is_Some (born s' !! k))
                        end
      | _ => false
      end
  end.

(** The history the user sees: the fork happens where the call enters. *)
Definition label (ev : event) (h : list event) (s' : sigs) : list spec_event :=
  match ev with
  | Enter k _ _ _ _ => if will k h s' then [Forks k] else []
  | Send s others => [Sends s others]
  | Own x => [Owns x]
  | Child k x => [Childs k x]
  | _ => []
  end.
Fixpoint serial (h : list event) (s : sigs) : list spec_event :=
  match h with
  | [] => []
  | ev :: h => match step ev s with
               | Some (Ok s') => label ev h s' ++ serial h s'
               | _ => []
               end
  end.

(** ** Calls that fail *)
Definition doomed (f : frame) : Prop :=
  f_leader f = false \/ (exists r, f_pc f = Leaving r) \/ f_pc f = Entered /\ f_flag f = true \/
  f_flag f = true /\ SIGKILL ∈ f_pending f.

(** A frame only moves under a step of its own call. *)
Lemma step_other ev s s' k f : sinv s -> step ev s = Some (Ok s') -> frames s !! k = Some f ->
  (frames s' !! k = None /\ born s' !! k = None /\ doomed f) \/
  (frames s' !! k = None /\ born s' !! k = Some (f_delayed f) /\ ~ doomed f /\ ev = Link k) \/
  exists f', frames s' !! k = Some f' /\ (doomed f -> doomed f') /\
    f_delayed f' = match ev with Send sg _ => if f_thread f then f_delayed f else queue sg (f_delayed f)
                   | _ => f_delayed f end.
Proof.
  intros Hs E Ef. pose proof (si_born _ Hs _ _ Ef) as Hb.
  assert (Hset : forall j g g', frames s !! j = Some g -> f_delayed g' = f_delayed g -> (doomed g -> doomed g') ->
    exists f', frames (set_frame j g' s) !! k = Some f' /\ (doomed f -> doomed f') /\ f_delayed f' = f_delayed f).
  { intros j g g' Eg Hd Hdo. cbn. destruct (decide (j = k)) as [->|Hne].
    - exists g'. rewrite lookup_insert_eq. by simplify_eq.
    - exists f. by rewrite lookup_insert_ne. }
  destruct ev as [j e a own bl|j|j r'|j|j|sg ot|j sg w|j|x|j x]; cbn [step] in E.
  all: try (at_frame E g Eg; simplify_eq).
  - destruct (frames s !! j) eqn:Ej; [done|]. destruct (born s !! j); [done|]. simplify_eq. right; right.
    exists f. cbn. by rewrite lookup_insert_ne by congruence.
  - right; right. apply (Hset j g); [done..|]. unfold doomed, test_pending. cbn. intros Hd.
    destruct (f_flag g); [by eauto|]. destruct Hd as [Hd|[[r Hd]|[[_ Hd]|[Hd _]]]]; [by left|congruence|done..].
  - right; right. apply (Hset j g); [done..|]. unfold doomed. cbn. eauto.
  - unfold link_signals. destruct (fatal_signal_pending g) eqn:Eg'.
    { right; right. apply (Hset j g); [done..|]. unfold doomed. cbn. eauto. }
    destruct (decide (j = k)) as [->|Hne].
    + rewrite Ef in Eg. simplify_eq. cbn. rewrite lookup_delete_eq. unfold fatal_signal_pending in Eg'.
      destruct (f_leader g) eqn:El.
      * right; left. cbn. rewrite lookup_insert_eq. split_and!; [done|done| |done].
        intros [Hd|[[r Hd]|[[Hd _]|[Hd Hk]]]]; [congruence..|]. rewrite Hd in Eg'. by apply bool_decide_eq_false in Eg'.
      * left. split_and!; [done|done|by left].
    + right; right. exists f. cbn. rewrite lookup_delete_ne by done. by destruct (f_leader g).
  - destruct (f_pc g) eqn:Epc; try done. simplify_eq. destruct (decide (j = k)) as [->|Hne].
    + rewrite Ef in Eg. simplify_eq. left. cbn. rewrite lookup_delete_eq. split_and!; [done|done|]. right; left. eauto.
    + right; right. exists f. cbn. by rewrite lookup_delete_ne.
  - case_decide; [|done]. destruct (send_frames s sg Hs) as (fs & Efs & Hl). rewrite Efs in E. injection E as <-.
    right; right. eexists. cbn. rewrite Hl, Ef. cbn. split; [done|]. by destruct (f_thread f).
  - case_decide; [done|]. simplify_eq. right; right. apply (Hset j g); [done..|]. unfold doomed. cbn.
    intros [Hd|[Hd|[[Hd ->]|[-> Hk]]]]; [by left|by right; left|by right; right; left|].
    right; right; right. split; [done|set_solver].
  - right; right. apply (Hset j g); [done..|]. unfold doomed. cbn.
    intros [Hd|[Hd|[[Hd _]|[_ Hk]]]]; [by left|by right; left|by right; right; left|by right; right; right].
  - simplify_eq. right; right. exists f. done.
  - destruct (born s !! j) eqn:Ej; [|done]. simplify_eq. right; right. exists f. done.
Qed.

Lemma will_step ev h s s' k : step ev s = Some (Ok s') ->
  will k (ev :: h) s = match frames s' !! k with Some _ => will k h s' | None => bool_decide (is_Some (born s' !! k)) end.
Proof. intros E. cbn [will]. by rewrite E. Qed.

Lemma doomed_will k h : forall s f, sinv s -> Forall sane h -> frames s !! k = Some f -> doomed f -> will k h s = false.
Proof.
  induction h as [|ev h IH]; intros s f Hs Hh Ef Hd; [done|]. inversion_clear Hh as [|? ? He Hh'].
  destruct (step ev s) as [r|] eqn:E; [|cbn [will]; by rewrite E].
  destruct (step_sinv _ _ _ Hs He E) as (s' & -> & Hs'). rewrite (will_step _ _ _ _ _ E).
  destruct (step_other _ _ _ _ _ Hs E Ef) as [(-> & -> & _)|[(_ & _ & [] & _)|(f' & E' & Hd' & _)]]; [done..|].
  rewrite E'. eauto.
Qed.

(** What the user sees of [k], with the rest of the history at hand. *)
Definition view (h : list event) (s : sigs) (k : Z) : option (gset Z) :=
  match frames s !! k with
  | Some f => if will k h s then Some (f_delayed f) else None
  | None => born s !! k
  end.

Lemma view_call ev h s s' k f : sinv s -> sane ev -> Forall sane h -> step ev s = Some (Ok s') -> frames s !! k = Some f ->
  view h s' k = match ev with Send sg _ => queue sg <$> view (ev :: h) s k | _ => view (ev :: h) s k end.
Proof.
  intros Hs He Hh E Ef. destruct (step_sinv _ _ _ Hs He E) as (s1 & [= <-] & Hs').
  unfold view. rewrite Ef, (will_step _ _ _ _ _ E).
  destruct (step_other _ _ _ _ _ Hs E Ef) as [(-> & -> & _)|[(-> & -> & _ & ->)|(f' & E' & Hd & Hq)]].
  - by destruct ev.
  - done.
  - rewrite E', Hq. destruct ev; try done. destruct (will k h s') eqn:Hw; [|done].
    destruct (f_thread f) eqn:Ht; [|done]. exfalso.
    rewrite (doomed_will k h s' f') in Hw; try done. apply Hd. left. by rewrite (si_leader _ Hs k f Ef), Ht.
Qed.

Lemma view_none h s k : frames s !! k = None -> view h s k = born s !! k.
Proof. intros E. unfold view. by rewrite E. Qed.

(** A step of the calls themselves is not seen by the processes that exist. *)
Lemma step_born ev s s' k : step ev s = Some (Ok s') -> frames s !! k = None ->
  match ev with Enter _ _ _ _ _ | Send _ _ | Child _ _ => True | _ => frames s' !! k = None /\ born s' !! k = born s !! k end.
Proof.
  intros E Ek. destruct ev as [j e a own bl|j|j r'|j|j|sg ot|j sg w|j|x|j x]; cbn [step] in E; try done.
  all: try (at_frame E g Eg; try (case_decide; [done|]); simplify_eq; assert (j <> k) by congruence; cbn;
    by rewrite lookup_insert_ne).
  - at_frame E g Eg. unfold link_signals, set_frame, leave.
    assert (Hne : j <> k) by congruence.
    destruct (fatal_signal_pending g), (f_leader g); cbn; by rewrite ?lookup_insert_ne, ?lookup_delete_ne.
  - at_frame E g Eg. destruct (f_pc g); try done. simplify_eq. cbn. by rewrite lookup_delete_ne by congruence.
  - by simplify_eq.
Qed.

Definition related (h : list event) (s : sigs) (v : gset Z * gmap Z (gset Z)) : Prop :=
  v.1 = shared s /\ forall k, v.2 !! k = view h s k.

Lemma step_shared ev s s' : step ev s = Some (Ok s') ->
  shared s' = match ev with Own x => x | Send sg _ => queue sg (shared s) | _ => shared s end.
Proof.
  intros E. destruct ev as [j e a own bl|j|j r'|j|j|sg ot|j sg w|j|x|j x]; cbn [step] in E.
  all: try (at_frame E g Eg; done).
  - repeat case_match; by simplify_eq.
  - at_frame E g Eg. unfold link_signals. by destruct (fatal_signal_pending g), (f_leader g).
  - at_frame E g Eg. destruct (f_pc g); by simplify_eq.
  - case_decide; [|done]. destruct (visit sg (multiprocess s) (frames s)); by inversion E.
  - at_frame E g Eg. case_decide; by simplify_eq.
  - by simplify_eq.
  - case_match; by simplify_eq.
Qed.

Lemma step_related ev h s s' v : sinv s -> sane ev -> Forall sane h -> step ev s = Some (Ok s') ->
  related (ev :: h) s v -> related h s' (foldl spec_step v (label ev h s')).
Proof.
  intros Hs He Hh E [Hv1 Hv2]. split.
  { rewrite (step_shared _ _ _ E). destruct ev; cbn; try done; [by case_match|by rewrite Hv1]. }
  intros k. specialize (Hv2 k). destruct (frames s !! k) as [f|] eqn:Ef.
  - rewrite (view_call _ _ _ _ _ _ Hs He Hh E Ef). pose proof (si_born _ Hs _ _ Ef) as Hb.
    destruct ev as [j e a own bl|j|j r'|j|j|sg ot|j sg w|j|x|j x]; cbn [label foldl spec_step snd]; try done; cbn [step] in E.
    + destruct (will j h s'); [|done]. cbn. destruct (frames s !! j) eqn:Ej; [done|]. by rewrite lookup_insert_ne by congruence.
    + rewrite queue_born_lookup, Hv2. destruct (decide (ot ⊆ dom (born s))) as [Ho|]; [|done].
      destruct (decide (k ∈ ot)) as [Hk%Ho%elem_of_dom|]; [|done]. rewrite Hb in Hk. by apply is_Some_None in Hk.
    + destruct (born s !! j) eqn:Ej; [|done]. by rewrite lookup_insert_ne by congruence.
  - rewrite (view_none _ _ _ Ef) in Hv2. pose proof (step_born _ _ _ k E Ef) as Hn.
    destruct ev as [j e a own bl|j|j r'|j|j|sg ot|j sg w|j|x|j x]; cbn [label foldl spec_step snd];
      try (rewrite (view_none _ _ _ (proj1 Hn)), (proj2 Hn); exact Hv2); cbn [step] in E.
    + destruct (frames s !! j) eqn:Ej; [done|]. destruct (born s !! j) eqn:Ebj; [done|]. simplify_eq.
      destruct (decide (j = k)) as [->|Hne].
      * unfold view. cbn [enter frames]. rewrite lookup_insert_eq. cbn.
        destruct (will k h _); cbn; [by rewrite lookup_insert_eq|congruence].
      * rewrite view_none by (cbn; by rewrite lookup_insert_ne).
        destruct (will j h _); cbn; [by rewrite lookup_insert_ne|done].
    + case_decide; [|done]. destruct (send_frames s sg Hs) as (fs & Efs & Hl). rewrite Efs in E. injection E as <-.
      rewrite view_none by (cbn; by rewrite Hl, Ef). cbn. by rewrite !queue_born_lookup, Hv2.
    + destruct (born s !! j) eqn:Ej; [|done]. simplify_eq. rewrite view_none by done. cbn.
      destruct (decide (j = k)) as [->|Hne]; [by rewrite !lookup_insert_eq|by rewrite !lookup_insert_ne].
Qed.

Lemma runs_related h : forall s r v, sinv s -> Forall sane h -> runs h s = Some r -> related h s v ->
  exists s', r = Ok s' /\ related [] s' (foldl spec_step v (serial h s)).
Proof.
  induction h as [|ev h IH]; intros s r v Hs Hh E Hv; cbn in E; [simplify_eq; eauto|].
  inversion_clear Hh as [|? ? He Hh']. destruct (step ev s) as [r1|] eqn:E1; [|done].
  destruct (step_sinv _ _ _ Hs He E1) as (s1 & -> & Hs1). cbn [serial]. rewrite E1, foldl_app.
  eapply IH; [done..|].
  exact (step_related ev h s s1 v Hs He Hh' E1 Hv).
Qed.

(** The process before any of its threads forks. *)
Definition quiet (sh : gset Z) : sigs := Sigs sh [] ∅ ∅.

Lemma quiet_sinv sh : sinv (quiet sh).
Proof.
  split; cbn; try (intros k f E; by rewrite lookup_empty in E); [constructor|].
  intros k. split; [by intros ?%elem_of_nil|]. intros (f & E & _). by rewrite lookup_empty in E.
Qed.

Lemma quiet_related h sh : related h (quiet sh) (sh, ∅).
Proof. split; [done|]. intros k. by rewrite view_none. Qed.

(** C39. Signals and fork, for any number of calls at once in the threads of a
    process, in every interleaving with signals for the process, its group and
    its threads.  No signal is written to a frame that is gone, and with no
    call in progress the list is empty.  The pending signals of the process and
    of all its children are those of the specification, run on the history in
    which each successful fork is one event at the point where the call entered
    and the child gets every later signal of the group: a fork is atomic.  A
    call that made a process had, when it entered, no pending signal that was
    not blocked; and a thread with [SIGKILL] pending makes none. *)
Theorem fork_signals_atomic (h : list event) (sh : gset Z) (r : run sigs) (Hh : Forall sane h)
    (Hr : runs h (quiet sh) = Some r) :
  exists s, r = Ok s /\
    foldl spec_step (sh, ∅) (serial h (quiet sh)) = (shared s, born s) /\
    (frames s = ∅ -> multiprocess s = []) /\
    (forall k e a own blocked h' s', sane (Enter k e a own blocked) -> Forall sane h' ->
       step (Enter k e a own blocked) s = Some (Ok s') -> will k h' s' = true -> (own ∪ shared s) ∖ blocked = ∅) /\
    (forall k f h', frames s !! k = Some f -> SIGKILL ∈ f_pending f -> Forall sane h' -> will k h' s = false).
Proof.
  destruct (runs_related h _ r _ (quiet_sinv sh) Hh Hr (quiet_related h sh)) as (s & -> & Hv1 & Hv2).
  destruct (runs_sinv h _ _ (quiet_sinv sh) Hh Hr) as (s1 & [= <-] & Hs). exists s. split_and!.
  - done.
  - rewrite (surjective_pairing (foldl _ _ _)), Hv1. f_equal. apply map_eq. intros k. rewrite Hv2. unfold view.
    destruct (frames s !! k) as [f|] eqn:Ef; [|done]. by rewrite (si_born _ Hs k f Ef).
  - intros Hf. apply elem_of_nil_inv. intros k (f & E & _)%(si_list _ Hs). by rewrite Hf, lookup_empty in E.
  - intros k e a own bl h' s' He Hh' E Hw. apply recalc_sound. destruct (recalc own (shared s) bl) eqn:Er; [|done].
    destruct (step_sinv _ _ _ Hs He E) as (s1 & [= <-] & Hs'). cbn [step] in E.
    destruct (frames s !! k); [done|]. destruct (born s !! k); [done|]. injection E as E.
    erewrite (doomed_will k h' s') in Hw; [done|done|done| |].
    + rewrite <- E. cbn [enter frames]. by rewrite lookup_insert_eq.
    + right; right; left. cbn. by rewrite Er.
  - intros k f h' Ef Hk Hh'. eapply doomed_will; [done..|]. right; right; right. split; [by eapply si_kill|done].
Qed.
End signals.

(** ** A history

    [SIGCONT] (18) and the stop signals (19 to 22) cancel each other. *)
Definition queue1 (s : Z) (x : gset Z) : gset Z :=
  {[s]} ∪ x ∖ (if decide (s = 18) then {[19; 20; 21; 22]} else if decide (19 <= s <= 22) then {[18]} else ∅).
Definition recalc1 (own sh blocked : gset Z) : bool := bool_decide ((own ∪ sh) ∖ blocked <> ∅).

Lemma recalc1_sound own sh blocked : recalc1 own sh blocked = false -> (own ∪ sh) ∖ blocked = ∅.
Proof. unfold recalc1. intros H%bool_decide_eq_false. by destruct (decide ((own ∪ sh) ∖ blocked = ∅)). Qed.

(** Two processes and a thread are made at once.  A stop signal and then
    [SIGCONT] are sent to the group meanwhile; the second fork sees them and is
    restarted; the signals of the first child are those a fork before them
    would have given it. *)
Definition history1 : list event :=
  let e := kenv1 2 (fun _ => false) in
  let a := Args 0 0 0 SIGCHLD 0 0 in
  [Enter 1 e a ∅ {[20]}; Test_pending 1; Enter 2 e thread_args ∅ {[20]}; Test_pending 2; Send 20 ∅; Send 2 ∅;
   Enter 3 e a ∅ {[20]}; Test_pending 3; Link 2; Send 18 ∅; Fork_out 3; Link 1; Send 10 ∅; Own ∅].

Lemma fork_signals_atomic_witness :
  exists s, runs queue1 recalc1 history1 (quiet ∅) = Some (Ok s) /\ born s = {[1 := {[2; 10; 18]}]} /\
    serial queue1 recalc1 history1 (quiet ∅) = [Forks 1; Sends 20 ∅; Sends 2 ∅; Sends 18 ∅; Sends 10 ∅; Owns ∅] /\
    foldl (spec_step queue1) (∅, ∅) (serial queue1 recalc1 history1 (quiet ∅)) = (∅, {[1 := {[2; 10; 18]}]}) /\
    multiprocess s = [].
Proof.
  assert (Hh : Forall sane history1).
  { repeat (apply Forall_cons; split; [|]); try exact I; try apply Forall_nil; try done;
      (split; [apply kenv1_ok; lia|split; [vm_compute; discriminate|set_solver]]). }
  destruct (runs queue1 recalc1 history1 (quiet ∅)) as [r|] eqn:E; [|vm_compute in E; discriminate].
  destruct (fork_signals_atomic queue1 recalc1 recalc1_sound history1 ∅ r Hh E) as (s & -> & Hs & Hm & _).
  assert (Es : born s = {[1 := {[2; 10; 18]}]} /\ shared s = ∅ /\ frames s = ∅).
  { vm_compute in E. injection E as <-. split_and!; reflexivity. }
  destruct Es as (Eb & Esh & Ef). exists s. split_and!; [done|done|vm_compute; reflexivity|by rewrite Hs, Esh, Eb|by apply Hm].
Defined.
