(* ===== verification/KTaskFields.v ===== *)
(** * The fields of a task

    Every member of [struct task_struct] of
    [src/Assignment2/Assignment2-1/sched.h], with all options of the
    configuration switched on, in the order of the header.  A member of a
    nested structure that [fork.c] assigns on its own has a name of its own
    ([seccomp_filter], [task_frag_page], the members of [vtime]); the union of
    [rcu_users] and [rcu] is one field.  The fields are grouped as the header
    groups them; each group is numbered, which decides equality. *)

From Stdlib Require Import ZArith.
From stdpp Require Import base numbers list option.
From S2P Require Import Prelude.

(** A list in which every value has its own place decides equality. *)
Lemma numbered_inj {A} (no : A -> nat) (l : list A) : (forall a, l !! no a = Some a) -> Inj (=) (=) no.
Proof. intros H a b E. pose proof (H a) as Ha. rewrite E, H in Ha. congruence. Qed.

Definition numbered_eq_dec {A} (no : A -> nat) (l : list A) (H : forall a, l !! no a = Some a) (a b : A) : Decision (a = b) :=
  match decide (no a = no b) with
  | left E => left (numbered_inj no l H a b E)
  | right E => right (fun e => E (f_equal no e))
  end.

Lemma numbered_elem {A} (no : A -> nat) (l : list A) : (forall a, l !! no a = Some a) -> forall a, a ∈ l.
Proof. intros H a. eapply list_elem_of_lookup_2, H. Qed.

Module F.

(** Scheduling and lists of tasks. *)
Inductive sched_part :=
| thread_info | state | stack | usage | flags | ptrace | wake_entry | on_cpu | cpu | wakee_flips
| wakee_flip_decay_ts | last_wakee | recent_used_cpu | wake_cpu | on_rq | prio | static_prio | normal_prio
| rt_priority | sched_class | se | rt | sched_task_group | dl | uclamp_req | uclamp | preempt_notifiers
| btrace_seq | policy | nr_cpus_allowed | cpus_ptr | cpus_mask | rcu_read_lock_nesting
| rcu_read_unlock_special | rcu_node_entry | rcu_blocked_node | rcu_tasks_nvcsw | rcu_tasks_holdout
| rcu_tasks_idx | rcu_tasks_idle_cpu | rcu_tasks_holdout_list | sched_info | tasks | pushable_tasks
| pushable_dl_tasks.

Definition sched_parts : list sched_part := [
  thread_info; state; stack; usage; flags; ptrace; wake_entry; on_cpu; cpu; wakee_flips; wakee_flip_decay_ts;
  last_wakee; recent_used_cpu; wake_cpu; on_rq; prio; static_prio; normal_prio; rt_priority; sched_class; se;
  rt; sched_task_group; dl; uclamp_req; uclamp; preempt_notifiers; btrace_seq; policy; nr_cpus_allowed;
  cpus_ptr; cpus_mask; rcu_read_lock_nesting; rcu_read_unlock_special; rcu_node_entry; rcu_blocked_node;
  rcu_tasks_nvcsw; rcu_tasks_holdout; rcu_tasks_idx; rcu_tasks_idle_cpu; rcu_tasks_holdout_list; sched_info;
  tasks; pushable_tasks; pushable_dl_tasks].
Definition sched_part_no (f : sched_part) : nat :=
  match f with
  | thread_info => 0 | state => 1 | stack => 2 | usage => 3 | flags => 4 | ptrace => 5 | wake_entry => 6
  | on_cpu => 7 | cpu => 8 | wakee_flips => 9 | wakee_flip_decay_ts => 10 | last_wakee => 11
  | recent_used_cpu => 12 | wake_cpu => 13 | on_rq => 14 | prio => 15 | static_prio => 16 | normal_prio => 17
  | rt_priority => 18 | sched_class => 19 | se => 20 | rt => 21 | sched_task_group => 22 | dl => 23
  | uclamp_req => 24 | uclamp => 25 | preempt_notifiers => 26 | btrace_seq => 27 | policy => 28
  | nr_cpus_allowed => 29 | cpus_ptr => 30 | cpus_mask => 31 | rcu_read_lock_nesting => 32
  | rcu_read_unlock_special => 33 | rcu_node_entry => 34 | rcu_blocked_node => 35 | rcu_tasks_nvcsw => 36
  | rcu_tasks_holdout => 37 | rcu_tasks_idx => 38 | rcu_tasks_idle_cpu => 39 | rcu_tasks_holdout_list => 40
  | sched_info => 41 | tasks => 42 | pushable_tasks => 43 | pushable_dl_tasks => 44
  end.
Lemma sched_part_place f : sched_parts !! sched_part_no f = Some f.
Proof. by destruct f. Qed.
#[global] Instance sched_part_eq_dec : EqDecision sched_part := numbered_eq_dec sched_part_no sched_parts sched_part_place.

(** Memory, exit, identity and times. *)
Inductive process_part :=
| mm | active_mm | vmacache | rss_stat | exit_state | exit_code | exit_signal | pdeath_signal | jobctl
| personality | sched_reset_on_fork | sched_contributes_to_load | sched_migrated | sched_remote_wakeup
| sched_psi_wake_requeue | in_execve | in_iowait | restore_sigmask | in_user_fault | brk_randomized
| no_cgroup_migration | frozen | use_memdelay | atomic_flags | restart_block | pid | tgid | stack_canary
| real_parent | parent | children | sibling | group_leader | ptraced | ptrace_entry | thread_pid | pid_links
| thread_group | thread_node | vfork_done | set_child_tid | clear_child_tid | utime | stime | utimescaled
| stimescaled | gtime | prev_cputime | vtime | vtime_seqcount | vtime_starttime | vtime_state | tick_dep_mask
| nvcsw | nivcsw | fork_count | start_time | real_start_time | min_flt | maj_flt.

Definition process_parts : list process_part := [
  mm; active_mm; vmacache; rss_stat; exit_state; exit_code; exit_signal; pdeath_signal; jobctl; personality;
  sched_reset_on_fork; sched_contributes_to_load; sched_migrated; sched_remote_wakeup; sched_psi_wake_requeue;
  in_execve; in_iowait; restore_sigmask; in_user_fault; brk_randomized; no_cgroup_migration; frozen;
  use_memdelay; atomic_flags; restart_block; pid; tgid; stack_canary; real_parent; parent; children; sibling;
  group_leader; ptraced; ptrace_entry; thread_pid; pid_links; thread_group; thread_node; vfork_done;
  set_child_tid; clear_child_tid; utime; stime; utimescaled; stimescaled; gtime; prev_cputime; vtime;
  vtime_seqcount; vtime_starttime; vtime_state; tick_dep_mask; nvcsw; nivcsw; fork_count; start_time;
  real_start_time; min_flt; maj_flt].
Definition process_part_no (f : process_part) : nat :=
  match f with
  | mm => 0 | active_mm => 1 | vmacache => 2 | rss_stat => 3 | exit_state => 4 | exit_code => 5
  | exit_signal => 6 | pdeath_signal => 7 | jobctl => 8 | personality => 9 | sched_reset_on_fork => 10
  | sched_contributes_to_load => 11 | sched_migrated => 12 | sched_remote_wakeup => 13
  | sched_psi_wake_requeue => 14 | in_execve => 15 | in_iowait => 16 | restore_sigmask => 17
  | in_user_fault => 18 | brk_randomized => 19 | no_cgroup_migration => 20 | frozen => 21 | use_memdelay => 22
  | atomic_flags => 23 | restart_block => 24 | pid => 25 | tgid => 26 | stack_canary => 27 | real_parent => 28
  | parent => 29 | children => 30 | sibling => 31 | group_leader => 32 | ptraced => 33 | ptrace_entry => 34
  | thread_pid => 35 | pid_links => 36 | thread_group => 37 | thread_node => 38 | vfork_done => 39
  | set_child_tid => 40 | clear_child_tid => 41 | utime => 42 | stime => 43 | utimescaled => 44
  | stimescaled => 45 | gtime => 46 | prev_cputime => 47 | vtime => 48 | vtime_seqcount => 49
  | vtime_starttime => 50 | vtime_state => 51 | tick_dep_mask => 52 | nvcsw => 53 | nivcsw => 54
  | fork_count => 55 | start_time => 56 | real_start_time => 57 | min_flt => 58 | maj_flt => 59
  end.
Lemma process_part_place f : process_parts !! process_part_no f = Some f.
Proof. by destruct f. Qed.
#[global] Instance process_part_eq_dec : EqDecision process_part := numbered_eq_dec process_part_no process_parts process_part_place.

(** Credentials, files, signals and locks. *)
Inductive owned_part :=
| posix_cputimers | ptracer_cred | real_cred | cred | cached_requested_key | comm | nameidata | sysvsem
| sysvshm | last_switch_count | last_switch_time | fs | files | nsproxy | signal | sighand | blocked
| real_blocked | saved_sigmask | pending | sas_ss_sp | sas_ss_size | sas_ss_flags | task_works | audit_context
| loginuid | sessionid | seccomp | seccomp_filter | parent_exec_id | self_exec_id | alloc_lock | pi_lock
| wake_q | pi_waiters | pi_top_task | pi_blocked_on | blocked_on | non_block_count | irq_events
| hardirq_enable_ip | hardirq_disable_ip | hardirq_enable_event | hardirq_disable_event | hardirqs_enabled
| hardirq_context | softirq_disable_ip | softirq_enable_ip | softirq_disable_event | softirq_enable_event
| softirqs_enabled | softirq_context | curr_chain_key | lockdep_depth | lockdep_recursion | held_locks
| in_ubsan.

Definition owned_parts : list owned_part := [
  posix_cputimers; ptracer_cred; real_cred; cred; cached_requested_key; comm; nameidata; sysvsem; sysvshm;
  last_switch_count; last_switch_time; fs; files; nsproxy; signal; sighand; blocked; real_blocked;
  saved_sigmask; pending; sas_ss_sp; sas_ss_size; sas_ss_flags; task_works; audit_context; loginuid; sessionid;
  seccomp; seccomp_filter; parent_exec_id; self_exec_id; alloc_lock; pi_lock; wake_q; pi_waiters; pi_top_task;
  pi_blocked_on; blocked_on; non_block_count; irq_events; hardirq_enable_ip; hardirq_disable_ip;
  hardirq_enable_event; hardirq_disable_event; hardirqs_enabled; hardirq_context; softirq_disable_ip;
  softirq_enable_ip; softirq_disable_event; softirq_enable_event; softirqs_enabled; softirq_context;
  curr_chain_key; lockdep_depth; lockdep_recursion; held_locks; in_ubsan].
Definition owned_part_no (f : owned_part) : nat :=
  match f with
  | posix_cputimers => 0 | ptracer_cred => 1 | real_cred => 2 | cred => 3 | cached_requested_key => 4
  | comm => 5 | nameidata => 6 | sysvsem => 7 | sysvshm => 8 | last_switch_count => 9 | last_switch_time => 10
  | fs => 11 | files => 12 | nsproxy => 13 | signal => 14 | sighand => 15 | blocked => 16 | real_blocked => 17
  | saved_sigmask => 18 | pending => 19 | sas_ss_sp => 20 | sas_ss_size => 21 | sas_ss_flags => 22
  | task_works => 23 | audit_context => 24 | loginuid => 25 | sessionid => 26 | seccomp => 27
  | seccomp_filter => 28 | parent_exec_id => 29 | self_exec_id => 30 | alloc_lock => 31 | pi_lock => 32
  | wake_q => 33 | pi_waiters => 34 | pi_top_task => 35 | pi_blocked_on => 36 | blocked_on => 37
  | non_block_count => 38 | irq_events => 39 | hardirq_enable_ip => 40 | hardirq_disable_ip => 41
  | hardirq_enable_event => 42 | hardirq_disable_event => 43 | hardirqs_enabled => 44 | hardirq_context => 45
  | softirq_disable_ip => 46 | softirq_enable_ip => 47 | softirq_disable_event => 48
  | softirq_enable_event => 49 | softirqs_enabled => 50 | softirq_context => 51 | curr_chain_key => 52
  | lockdep_depth => 53 | lockdep_recursion => 54 | held_locks => 55 | in_ubsan => 56
  end.
Lemma owned_part_place f : owned_parts !! owned_part_no f = Some f.
Proof. by destruct f. Qed.
#[global] Instance owned_part_eq_dec : EqDecision owned_part := numbered_eq_dec owned_part_no owned_parts owned_part_place.

(** I/O, accounting, groups and placement. *)
Inductive io_part :=
| journal_info | bio_list | plug | reclaim_state | backing_dev_info | io_context | capture_control
| ptrace_message | last_siginfo | ioac | psi_flags | acct_rss_mem1 | acct_vm_mem1 | acct_timexpd | mems_allowed
| mems_allowed_seq | cpuset_mem_spread_rotor | cpuset_slab_spread_rotor | cgroups | cg_list | closid | rmid
| robust_list | compat_robust_list | pi_state_list | pi_state_cache | futex_exit_mutex | futex_state
| perf_event_ctxp | perf_event_mutex | perf_event_list | preempt_disable_ip | mempolicy | il_prev
| pref_node_fork | numa_scan_seq | numa_scan_period | numa_scan_period_max | numa_preferred_nid
| numa_migrate_retry | node_stamp | last_task_numa_placement | last_sum_exec_runtime | numa_work | numa_group
| numa_faults | total_numa_faults | numa_faults_locality | numa_pages_migrated | rseq | rseq_sig
| rseq_event_mask | tlb_ubc.

Definition io_parts : list io_part := [
  journal_info; bio_list; plug; reclaim_state; backing_dev_info; io_context; capture_control; ptrace_message;
  last_siginfo; ioac; psi_flags; acct_rss_mem1; acct_vm_mem1; acct_timexpd; mems_allowed; mems_allowed_seq;
  cpuset_mem_spread_rotor; cpuset_slab_spread_rotor; cgroups; cg_list; closid; rmid; robust_list;
  compat_robust_list; pi_state_list; pi_state_cache; futex_exit_mutex; futex_state; perf_event_ctxp;
  perf_event_mutex; perf_event_list; preempt_disable_ip; mempolicy; il_prev; pref_node_fork; numa_scan_seq;
  numa_scan_period; numa_scan_period_max; numa_preferred_nid; numa_migrate_retry; node_stamp;
  last_task_numa_placement; last_sum_exec_runtime; numa_work; numa_group; numa_faults; total_numa_faults;
  numa_faults_locality; numa_pages_migrated; rseq; rseq_sig; rseq_event_mask; tlb_ubc].
Definition io_part_no (f : io_part) : nat :=
  match f with
  | journal_info => 0 | bio_list => 1 | plug => 2 | reclaim_state => 3 | backing_dev_info => 4
  | io_context => 5 | capture_control => 6 | ptrace_message => 7 | last_siginfo => 8 | ioac => 9
  | psi_flags => 10 | acct_rss_mem1 => 11 | acct_vm_mem1 => 12 | acct_timexpd => 13 | mems_allowed => 14
  | mems_allowed_seq => 15 | cpuset_mem_spread_rotor => 16 | cpuset_slab_spread_rotor => 17 | cgroups => 18
  | cg_list => 19 | closid => 20 | rmid => 21 | robust_list => 22 | compat_robust_list => 23
  | pi_state_list => 24 | pi_state_cache => 25 | futex_exit_mutex => 26 | futex_state => 27
  | perf_event_ctxp => 28 | perf_event_mutex => 29 | perf_event_list => 30 | preempt_disable_ip => 31
  | mempolicy => 32 | il_prev => 33 | pref_node_fork => 34 | numa_scan_seq => 35 | numa_scan_period => 36
  | numa_scan_period_max => 37 | numa_preferred_nid => 38 | numa_migrate_retry => 39 | node_stamp => 40
  | last_task_numa_placement => 41 | last_sum_exec_runtime => 42 | numa_work => 43 | numa_group => 44
  | numa_faults => 45 | total_numa_faults => 46 | numa_faults_locality => 47 | numa_pages_migrated => 48
  | rseq => 49 | rseq_sig => 50 | rseq_event_mask => 51 | tlb_ubc => 52
  end.
Lemma io_part_place f : io_parts !! io_part_no f = Some f.
Proof. by destruct f. Qed.
#[global] Instance io_part_eq_dec : EqDecision io_part := numbered_eq_dec io_part_no io_parts io_part_place.

(** The end of the structure: caches, tracing and debugging. *)
Inductive trace_part :=
| rcu_users | splice_pipe | task_frag | task_frag_page | delays | make_it_fail | fail_nth | nr_dirtied
| nr_dirtied_pause | dirty_paused_when | latency_record_count | latency_record | timer_slack_ns
| default_timer_slack_ns | kasan_depth | curr_ret_stack | curr_ret_depth | ret_stack | ftrace_timestamp
| trace_overrun | tracing_graph_pause | trace | trace_recursion | kcov_mode | kcov_size | kcov_area | kcov
| memcg_in_oom | memcg_oom_gfp_mask | memcg_oom_order | memcg_nr_pages_over_high | active_memcg
| throttle_queue | utask | sequential_io | sequential_io_avg | task_state_change | pagefault_disabled
| oom_reaper_list | oom_reaper_timer | stack_vm_area | stack_refcount | patch_state | security | lowest_stack
| prev_lowest_stack | thread.

Definition trace_parts : list trace_part := [
  rcu_users; splice_pipe; task_frag; task_frag_page; delays; make_it_fail; fail_nth; nr_dirtied;
  nr_dirtied_pause; dirty_paused_when; latency_record_count; latency_record; timer_slack_ns;
  default_timer_slack_ns; kasan_depth; curr_ret_stack; curr_ret_depth; ret_stack; ftrace_timestamp;
  trace_overrun; tracing_graph_pause; trace; trace_recursion; kcov_mode; kcov_size; kcov_area; kcov;
  memcg_in_oom; memcg_oom_gfp_mask; memcg_oom_order; memcg_nr_pages_over_high; active_memcg; throttle_queue;
  utask; sequential_io; sequential_io_avg; task_state_change; pagefault_disabled; oom_reaper_list;
  oom_reaper_timer; stack_vm_area; stack_refcount; patch_state; security; lowest_stack; prev_lowest_stack;
  thread].
Definition trace_part_no (f : trace_part) : nat :=
  match f with
  | rcu_users => 0 | splice_pipe => 1 | task_frag => 2 | task_frag_page => 3 | delays => 4 | make_it_fail => 5
  | fail_nth => 6 | nr_dirtied => 7 | nr_dirtied_pause => 8 | dirty_paused_when => 9
  | latency_record_count => 10 | latency_record => 11 | timer_slack_ns => 12 | default_timer_slack_ns => 13
  | kasan_depth => 14 | curr_ret_stack => 15 | curr_ret_depth => 16 | ret_stack => 17 | ftrace_timestamp => 18
  | trace_overrun => 19 | tracing_graph_pause => 20 | trace => 21 | trace_recursion => 22 | kcov_mode => 23
  | kcov_size => 24 | kcov_area => 25 | kcov => 26 | memcg_in_oom => 27 | memcg_oom_gfp_mask => 28
  | memcg_oom_order => 29 | memcg_nr_pages_over_high => 30 | active_memcg => 31 | throttle_queue => 32
  | utask => 33 | sequential_io => 34 | sequential_io_avg => 35 | task_state_change => 36
  | pagefault_disabled => 37 | oom_reaper_list => 38 | oom_reaper_timer => 39 | stack_vm_area => 40
  | stack_refcount => 41 | patch_state => 42 | security => 43 | lowest_stack => 44 | prev_lowest_stack => 45
  | thread => 46
  end.
Lemma trace_part_place f : trace_parts !! trace_part_no f = Some f.
Proof. by destruct f. Qed.
#[global] Instance trace_part_eq_dec : EqDecision trace_part := numbered_eq_dec trace_part_no trace_parts trace_part_place.

(** A field of the structure. *)
Inductive field :=
| Sched_part (f : sched_part)
| Process_part (f : process_part)
| Owned_part (f : owned_part)
| Io_part (f : io_part)
| Trace_part (f : trace_part).

#[global] Instance field_eq_dec : EqDecision field.
Proof. solve_decision. Defined.

Definition all_fields : list field :=
  (Sched_part <$> sched_parts) ++ (Process_part <$> process_parts) ++ (Owned_part <$> owned_parts) ++
  (Io_part <$> io_parts) ++ (Trace_part <$> trace_parts).

Lemma all_fields_elem f : f ∈ all_fields.
Proof.
  unfold all_fields. rewrite !elem_of_app, !list_elem_of_fmap.
  destruct f as [f|f|f|f|f]; [left|right; left|right; right; left|do 3 right; left|do 4 right];
    (exists f; split; [done|]); eapply numbered_elem;
    [apply sched_part_place|apply process_part_place|apply owned_part_place|apply io_part_place|apply trace_part_place].
Qed.


(** A decidable property of all fields is checked by evaluation. *)
Lemma all_fields_check (P : field -> bool) : forallb P all_fields = true -> forall f, P f = true.
Proof. intros H f. rewrite forallb_forall in H. apply H, list_elem_of_In, all_fields_elem. Qed.
End F.

Coercion F.Sched_part : F.sched_part >-> F.field.
Coercion F.Process_part : F.process_part >-> F.field.
Coercion F.Owned_part : F.owned_part >-> F.field.
Coercion F.Io_part : F.io_part >-> F.field.
Coercion F.Trace_part : F.trace_part >-> F.field.
