(* ===== verification/KChild.v ===== *)
(** * What a new task takes from its parent

    [dup_task_struct] of [src/Assignment2/Assignment2-1/fork.c] copies the whole
    structure of the running task, and the rest of [copy_process] has to give
    the child its own value for everything that is not meant to be inherited:
    lists that would lead into the parent, locks, accounts, pending work, and
    the pointers that the error labels free.  The assignments are modelled in
    their order on the fields of [KTaskFields], with the calls to functions of
    other files between them and the exits to the error labels where they are;
    [init_task] of [src/Assignment2/Assignment2-1/init_task.c] is the first
    structure to be copied. *)

From Stdlib Require Import ZArith Lia String.
From stdpp Require Import base numbers list option strings.
From S2P Require Import Prelude Sched KFork KTaskFields.

Local Open Scope Z_scope.

Definition CLONE_CHILD_CLEARTID : Z := 0x200000.
Definition CLONE_CHILD_SETTID : Z := 0x1000000.
Definition NUMA_NO_NODE : Z := -1.
Definition SS_DISABLE : Z := 2.

(** The content of a field.  A list head that is empty points to itself. *)
Inductive val :=
| Num (z : Z)
| Named (s : string)             (** an object or a constant defined elsewhere *)
| Obj (o : Z)                    (** an object on the heap *)
| Task (t : Z)                   (** the structure of a task *)
| Into (t : Z) (f : F.field)     (** the address of a field of it *)
| Unlocked.                      (** a lock nobody holds *)

(** A null pointer, and what an initialiser leaves out, is zero. *)
Definition Null : val := Num 0.

#[global] Instance val_eq_dec : EqDecision val.
Proof. solve_decision. Defined.

Definition fields : Type := F.field -> val.
Definition upd (f : F.field) (v : val) (t : fields) : fields := fun g => if decide (g = f) then v else t g.

Declare Scope code_scope.
Delimit Scope code_scope with code.
Notation "[! x ; .. ; y !]" := (@cons F.field x .. (@cons F.field y (@nil F.field)) ..) : code_scope.
Local Open Scope code_scope.

(** The functions of other files that work on the new structure. *)
Inductive call :=
| clear_thread_info              (** [clear_user_return_notifier], [clear_tsk_need_resched] *)
| kcov_task_init | ftrace_graph_init_task | copy_creds | delayacct_tsk_init | acct_clear_integrals
| posix_cputimers_init | cgroup_fork | lockdep_init_task | sched_fork | perf_event_init_task | audit_alloc
| shm_init_task | security_task_alloc | copy_semundo | vmacache_flush | copy_namespaces | copy_thread_tls
| stackleak_task_init | futex_init_task | user_disable_single_step | clear_tsk_latency_tracing | klp_copy_process.

(** The pointers those functions are called for, which an error label gives
    back. *)
Definition sets_up (c : call) : list F.field :=
  match c with
  | ftrace_graph_init_task => [! F.ret_stack !]
  | copy_creds => [! F.cred; F.real_cred !]
  | delayacct_tsk_init => [! F.delays !]
  | perf_event_init_task => [! F.perf_event_ctxp !]
  | audit_alloc => [! F.audit_context !]
  | security_task_alloc => [! F.security !]
  | copy_semundo => [! F.sysvsem !]
  | copy_namespaces => [! F.nsproxy !]
  | copy_thread_tls => [! F.thread !]
  | _ => []
  end.

(** ** Straight-line code on the new structure *)
Inductive code :=
| Skip
| Set_ (f : F.field) (v : val)   (** [p->f = v] *)
| Keep (f : F.field)             (** [p->f] is to be the copy, with a reference where it needs one *)
| Call (c : call)
| Exit (l : label)               (** the next allocation can fail with [goto l] *)
| Seq (p q : code)
| If (b : bool) (p q : code).

Notation "f <~ v" := (@pair F.field val f v) (at level 70) : code_scope.
Notation "p ;> q" := (Seq p q) (at level 60, right associativity) : code_scope.

Definition sets (l : list (F.field * val)) : code := foldr (fun x p => Set_ x.1 x.2 ;> p) Skip l.
Definition may_fail (c : call) (l : label) : code := Exit l ;> Call c.

(** One call of [copy_process]: its arguments, the addresses of the running
    task and of the new one, and what is allocated for a field of it. *)
Record fork_env := ForkEnv {
  e_flags : Z; e_child_tid : Z; e_cur : Z; e_new : Z; e_obj : F.field -> Z;
  e_idle : bool;                 (** [pid == &init_struct_pid] *)
  e_pid : Z; e_exit_signal : Z; e_leader_exit_signal : Z;
  e_ioprio : bool;               (** [ioprio_valid (ioc->ioprio)] *)
  e_page_shift : Z }.

Section program.
Context (e : fork_env).
Context (cur : fields).           (** the structure of [current] *)

Definition flag (m : Z) : bool := has (e_flags e) m.
Definition own (f : F.field) : val := Obj (e_obj e f).
Definition self (f : F.field) : F.field * val := f <~ Into (e_new e) f.

(** [dup_task_struct] after the copy; the pointer to the processors a task may
    use mostly leads into its own structure. *)
Definition dup_fields : code :=
  sets [F.stack <~ own F.stack; F.stack_vm_area <~ own F.stack_vm_area;
        F.stack_refcount <~ Num 1; F.seccomp_filter <~ Null] ;>
  Call clear_thread_info ;>
  Set_ F.stack_canary (own F.stack_canary) ;>
  If (bool_decide (cur F.cpus_ptr = Into (e_cur e) F.cpus_mask))
    (Set_ F.cpus_ptr (Into (e_new e) F.cpus_mask)) (Keep F.cpus_ptr) ;>
  sets [F.rcu_users <~ Num 2; F.usage <~ Num 1; F.btrace_seq <~ Num 0;
        F.splice_pipe <~ Null; F.task_frag_page <~ Null; F.wake_q <~ Null] ;>
  Call kcov_task_init ;>
  sets [F.fail_nth <~ Num 0; F.throttle_queue <~ Null; F.use_memdelay <~ Num 0;
        F.active_memcg <~ Null].

Definition child_tids : code :=
  sets [F.set_child_tid <~ if flag CLONE_CHILD_SETTID then Num (e_child_tid e) else Null;
        F.clear_child_tid <~ if flag CLONE_CHILD_CLEARTID then Num (e_child_tid e) else Null].

Definition rt_mutex_init_task : code :=
  sets [F.pi_lock <~ Unlocked; F.pi_waiters <~ Null; F.pi_top_task <~ Null;
        F.pi_blocked_on <~ Null].

Definition rcu_copy_process : code :=
  sets [F.rcu_read_lock_nesting <~ Num 0; F.rcu_read_unlock_special <~ Num 0;
        F.rcu_blocked_node <~ Null; self F.rcu_node_entry; F.rcu_tasks_holdout <~ Num 0;
        self F.rcu_tasks_holdout_list; F.rcu_tasks_idle_cpu <~ Num (-1)].

(** [p->flags] loses and gets a few flags. *)
Definition new_flags (v : val) : val :=
  match v with
  | Num z => Num (Z.lor (Z.ldiff z (Z.lor PF_SUPERPRIV (Z.lor PF_WQ_WORKER PF_IDLE))) PF_FORKNOEXEC)
  | v => v
  end.

(** From [delayacct_tsk_init] to [audit_set_context]. *)
Definition accounts : code :=
  Call delayacct_tsk_init ;>
  sets [F.flags <~ new_flags (cur F.flags); self F.children; self F.sibling] ;>
  rcu_copy_process ;>
  sets [F.vfork_done <~ Null; F.alloc_lock <~ Unlocked; self F.pending;
        F.utime <~ Num 0; F.stime <~ Num 0; F.gtime <~ Num 0;
        F.utimescaled <~ Num 0; F.stimescaled <~ Num 0; F.prev_cputime <~ Num 0;
        F.vtime_seqcount <~ Num 0; F.vtime_starttime <~ Num 0;
        F.vtime_state <~ Named "VTIME_INACTIVE"; F.rss_stat <~ Num 0;
        F.default_timer_slack_ns <~ cur F.timer_slack_ns; F.psi_flags <~ Num 0;
        F.ioac <~ Num 0] ;>
  Call acct_clear_integrals ;> Call posix_cputimers_init ;>
  sets [F.io_context <~ Null; F.audit_context <~ Null] ;>
  Call cgroup_fork.

(** [CONFIG_NUMA], [CONFIG_CPUSETS]; a failure of [mpol_dup] leaves no policy. *)
Definition placement : code :=
  Set_ F.mempolicy Null ;> Exit cleanup_threadgroup_lock ;>
  sets [F.mempolicy <~ own F.mempolicy;
        F.cpuset_mem_spread_rotor <~ Num NUMA_NO_NODE;
        F.cpuset_slab_spread_rotor <~ Num NUMA_NO_NODE; F.mems_allowed_seq <~ Num 0].

(** [CONFIG_TRACE_IRQFLAGS] and the rest before the scheduler. *)
Definition irq_state : code :=
  sets [F.irq_events <~ Num 0; F.hardirqs_enabled <~ Num 0;
        F.hardirq_enable_ip <~ Num 0; F.hardirq_enable_event <~ Num 0;
        F.hardirq_disable_ip <~ Named "_THIS_IP_"; F.hardirq_disable_event <~ Num 0;
        F.softirqs_enabled <~ Num 1; F.softirq_enable_ip <~ Named "_THIS_IP_";
        F.softirq_enable_event <~ Num 0; F.softirq_disable_ip <~ Num 0;
        F.softirq_disable_event <~ Num 0; F.hardirq_context <~ Num 0;
        F.softirq_context <~ Num 0] ;>
  Set_ F.pagefault_disabled (Num 0) ;>
  Call lockdep_init_task ;>
  sets [F.blocked_on <~ Null; F.sequential_io <~ Num 0; F.sequential_io_avg <~ Num 0].

(** ** The parts that are shared or copied *)
Definition is_null (f : F.field) : bool := bool_decide (cur f = Null).

Definition copy_files : code :=
  If (is_null F.files) (Keep F.files)
    (If (flag CLONE_FILES) (Keep F.files) (Exit cleanup_semundo ;> Set_ F.files (own F.files))).

Definition copy_fs : code :=
  If (flag CLONE_FS) (Exit cleanup_files ;> Keep F.fs)
    (Set_ F.fs Null ;> Exit cleanup_files ;> Set_ F.fs (own F.fs)).

Definition copy_sighand : code :=
  If (flag CLONE_SIGHAND) (Keep F.sighand)
    (Set_ F.sighand Null ;> Exit cleanup_fs ;> Set_ F.sighand (own F.sighand)).

Definition copy_signal : code :=
  If (flag CLONE_THREAD) (Keep F.signal)
    (Set_ F.signal Null ;> Exit cleanup_sighand ;>
     sets [F.signal <~ own F.signal; F.thread_node <~ own F.signal]).

Definition copy_mm : code :=
  sets [F.min_flt <~ Num 0; F.maj_flt <~ Num 0; F.nvcsw <~ Num 0; F.nivcsw <~ Num 0;
        F.last_switch_count <~ Num 0; F.last_switch_time <~ Num 0; F.mm <~ Null; F.active_mm <~ Null] ;>
  If (is_null F.mm) Skip
    (Call vmacache_flush ;>
     If (flag CLONE_VM) (sets [F.mm <~ cur F.mm; F.active_mm <~ cur F.mm])
       (Exit cleanup_signal ;> sets [F.mm <~ own F.mm; F.active_mm <~ own F.mm])).

Definition copy_io : code :=
  If (is_null F.io_context) Skip
    (If (flag CLONE_IO) (Set_ F.io_context (cur F.io_context))
       (If (e_ioprio e) (Exit cleanup_namespaces ;> Set_ F.io_context (own F.io_context)) Skip)).

(** The pid and its descriptor. *)
Definition pids : code :=
  If (e_idle e) Skip (Exit cleanup_thread) ;>
  If (flag CLONE_PIDFD) (Exit free_pid ;> Exit put_pidfd) Skip.

(** [sigaltstack] is cleared when the memory is shared, except for [vfork]. *)
Definition altstack : code :=
  If (bool_decide (Z.land (e_flags e) (Z.lor CLONE_VM CLONE_VFORK) = CLONE_VM))
    (sets [F.sas_ss_sp <~ Num 0; F.sas_ss_size <~ Num 0; F.sas_ss_flags <~ Num SS_DISABLE])
    (Keep F.sas_ss_sp ;> Keep F.sas_ss_size ;> Keep F.sas_ss_flags).

(** From [p->plug] to the flags of tracing. *)
Definition late_fields : code :=
  Set_ F.plug Null ;> Call futex_init_task ;> altstack ;>
  Call user_disable_single_step ;> Call clear_thread_info ;> Call clear_tsk_latency_tracing.

Definition identity : code :=
  Set_ F.pid (Num (e_pid e)) ;>
  If (flag CLONE_THREAD) (sets [F.group_leader <~ cur F.group_leader; F.tgid <~ cur F.tgid])
    (sets [F.group_leader <~ Task (e_new e); F.tgid <~ Num (e_pid e)]) ;>
  sets [F.nr_dirtied <~ Num 0; F.nr_dirtied_pause <~ Num (Z.shiftr 128 (e_page_shift e - 10));
        F.dirty_paused_when <~ Num 0; F.pdeath_signal <~ Num 0; self F.thread_group; F.task_works <~ Null].

(** After [cgroup_can_fork]. *)
Definition start_times : code :=
  Exit threadgroup_change_end ;>
  sets [F.start_time <~ own F.start_time; F.real_start_time <~ own F.real_start_time].

(** Under [tasklist_lock]. *)
Definition parents : code :=
  If (flag (Z.lor CLONE_PARENT CLONE_THREAD))
    (sets [F.real_parent <~ cur F.real_parent; F.parent_exec_id <~ cur F.parent_exec_id;
           F.exit_signal <~ Num (if flag CLONE_THREAD then -1 else e_leader_exit_signal e)])
    (sets [F.real_parent <~ Task (e_cur e); F.parent_exec_id <~ cur F.self_exec_id;
           F.exit_signal <~ Num (e_exit_signal e)]).

(** [rseq_fork]. *)
Definition rseq_fields : code :=
  If (flag CLONE_VM) (sets [F.rseq <~ Null; F.rseq_sig <~ Num 0; F.rseq_event_mask <~ Num 0])
    (sets [F.rseq <~ cur F.rseq; F.rseq_sig <~ cur F.rseq_sig; F.rseq_event_mask <~ cur F.rseq_event_mask]).

(** [copy_process] from [dup_task_struct] to [init_task_pid_links]. *)
Definition copy_process_fields : code :=
  dup_fields ;> child_tids ;> Call ftrace_graph_init_task ;> rt_mutex_init_task ;>
  Exit bad_fork_free ;> may_fail copy_creds bad_fork_free ;> Exit cleanup_count ;>
  accounts ;> placement ;> irq_state ;>
  may_fail sched_fork cleanup_policy ;> may_fail perf_event_init_task cleanup_policy ;>
  may_fail audit_alloc cleanup_perf ;> Call shm_init_task ;> may_fail security_task_alloc cleanup_audit ;>
  may_fail copy_semundo cleanup_security ;>
  copy_files ;> copy_fs ;> copy_sighand ;> copy_signal ;> copy_mm ;>
  may_fail copy_namespaces cleanup_mm ;> copy_io ;> may_fail copy_thread_tls cleanup_io ;>
  Call stackleak_task_init ;> pids ;> late_fields ;> identity ;> start_times ;> parents ;> Call klp_copy_process ;>
  sets [F.seccomp <~ cur F.seccomp; F.seccomp_filter <~ cur F.seccomp_filter] ;>
  rseq_fields ;> Exit cancel_cgroup ;>
  Set_ F.pid_links Null.
End program.

(** The fields of the parent the program looks at. *)
Definition handed : list F.field :=
  [! F.cpus_ptr; F.flags; F.timer_slack_ns; F.files; F.fs;
   F.sighand; F.signal; F.mm; F.io_context; F.sas_ss_sp;
   F.sas_ss_size; F.sas_ss_flags; F.group_leader; F.tgid;
   F.real_parent; F.parent_exec_id; F.self_exec_id; F.seccomp;
   F.seccomp_filter; F.rseq; F.rseq_sig; F.rseq_event_mask !].

(** What the statements at a label give back, and those it falls through to. *)
Definition frees (l : label) : list F.field :=
  match l with
  | cleanup_thread => [! F.thread !]
  | cleanup_io => [! F.io_context !]
  | cleanup_namespaces => [! F.nsproxy !]
  | cleanup_mm => [! F.mm !]
  | cleanup_signal => [! F.signal !]
  | cleanup_sighand => [! F.sighand !]
  | cleanup_fs => [! F.fs !]
  | cleanup_files => [! F.files !]
  | cleanup_semundo => [! F.sysvsem !]
  | cleanup_security => [! F.security !]
  | cleanup_audit => [! F.audit_context !]
  | cleanup_perf => [! F.perf_event_ctxp !]
  | cleanup_policy => [! F.mempolicy !]
  | cleanup_threadgroup_lock => [! F.delays !]
  | cleanup_count => [! F.cred; F.real_cred !]
  | bad_fork_free => [! F.stack; F.stack_vm_area; F.ret_stack; F.seccomp_filter;
                      F.set_child_tid !]
  | _ => []
  end.
Fixpoint frees_to (n : nat) (l : label) : list F.field :=
  frees l ++ match n, next_label l with S n, Some l' => frees_to n l' | _, _ => [] end.
Definition frees_from (l : label) : list F.field := frees_to (place l) l.

(** ** Meaning

    [ext c] is what the function [c] does to the structure. *)
Section exec.
Context (ext : call -> fields -> fields).

Fixpoint exec (p : code) (t : fields) : fields :=
  match p with
  | Set_ f v => upd f v t
  | Call c => ext c t
  | Seq p q => exec q (exec p t)
  | If b p q => if b then exec p t else exec q t
  | Skip | Keep _ | Exit _ => t
  end.

(** The child, if nothing fails: the copy, then the assignments. *)
Definition child (e : fork_env) (cur : fields) : fields := exec (copy_process_fields e cur) cur.
End exec.

(** The error exits, each with the code that has run before it. *)
Fixpoint exits (p : code) : list (label * code) :=
  match p with
  | Exit l => [(l, Skip)]
  | Seq p q => exits p ++ ((fun x => (x.1, p ;> x.2)) <$> exits q)
  | If b p q => if b then exits p else exits q
  | _ => []
  end.

(** Whether the code gives [f] its value whatever the conditions are, or says
    that the copy is meant. *)
Fixpoint settles (p : code) (f : F.field) : bool :=
  match p with
  | Set_ g _ | Keep g => bool_decide (f = g)
  | Call c => bool_decide (f ∈ sets_up c)
  | Seq p q => settles p f || settles q f
  | If _ p q => settles p f && settles q f
  | Skip | Exit _ => false
  end.
Fixpoint keeps (p : code) (f : F.field) : bool :=
  match p with
  | Keep g => bool_decide (f = g)
  | Seq p q | If _ p q => keeps p f || keeps q f
  | _ => false
  end.

(** ** [init_task]: the fields that are named, zero in the others; [t] is its
    address. *)
Definition init_values (t : Z) : list (F.field * val) :=
  let self f := f <~ Into t f in
  [F.thread_info <~ Named "INIT_THREAD_INFO (init_task)"; F.stack_refcount <~ Num 1; F.state <~ Num 0;
   F.stack <~ Named "init_stack"; F.usage <~ Num 2; F.flags <~ Num PF_KTHREAD;
   F.prio <~ Named "MAX_PRIO - 20"; F.static_prio <~ Named "MAX_PRIO - 20"; F.normal_prio <~ Named "MAX_PRIO - 20";
   F.policy <~ Named "SCHED_NORMAL"; F.cpus_ptr <~ Into t F.cpus_mask; F.cpus_mask <~ Named "CPU_MASK_ALL";
   F.nr_cpus_allowed <~ Named "NR_CPUS"; F.mm <~ Null; F.active_mm <~ Named "&init_mm";
   F.restart_block <~ Named "do_no_restart_syscall"; self F.se; self F.rt; self F.tasks; self F.pushable_tasks;
   F.sched_task_group <~ Named "&root_task_group"; self F.ptraced; self F.ptrace_entry; F.real_parent <~ Task t;
   F.parent <~ Task t; self F.children; self F.sibling; F.group_leader <~ Task t; F.real_cred <~ Named "&init_cred";
   F.cred <~ Named "&init_cred"; F.comm <~ Named "INIT_TASK_COMM"; F.thread <~ Named "INIT_THREAD";
   F.fs <~ Named "&init_fs"; F.files <~ Named "&init_files"; F.signal <~ Named "&init_signals";
   F.sighand <~ Named "&init_sighand"; F.nsproxy <~ Named "&init_nsproxy"; self F.pending; F.blocked <~ Num 0;
   F.alloc_lock <~ Unlocked; F.journal_info <~ Null; F.posix_cputimers <~ Named "INIT_CPU_TIMERS (init_task)";
   F.pi_lock <~ Unlocked; F.timer_slack_ns <~ Num 50000; F.fork_count <~ Num 0;
   F.thread_pid <~ Named "&init_struct_pid"; self F.thread_group; F.thread_node <~ Named "&init_signals.thread_head";
   F.loginuid <~ Named "INVALID_UID"; F.sessionid <~ Named "AUDIT_SID_UNSET"; F.perf_event_mutex <~ Unlocked;
   self F.perf_event_list; F.rcu_read_lock_nesting <~ Num 0; F.rcu_read_unlock_special <~ Num 0;
   self F.rcu_node_entry; F.rcu_blocked_node <~ Null; F.rcu_tasks_holdout <~ Num 0;
   self F.rcu_tasks_holdout_list; F.rcu_tasks_idle_cpu <~ Num (-1); F.mems_allowed_seq <~ Num 0;
   F.pi_waiters <~ Null; F.pi_top_task <~ Null; F.prev_cputime <~ Num 0; F.vtime_seqcount <~ Num 0;
   F.vtime_starttime <~ Num 0; F.vtime_state <~ Named "VTIME_SYS"; F.numa_preferred_nid <~ Num NUMA_NO_NODE;
   F.numa_group <~ Null; F.numa_faults <~ Null; F.kasan_depth <~ Num 1; F.softirqs_enabled <~ Num 1;
   F.lockdep_depth <~ Num 0; F.curr_chain_key <~ Named "INITIAL_CHAIN_KEY"; F.lockdep_recursion <~ Num 0;
   F.ret_stack <~ Null; F.tracing_graph_pause <~ Num 0; F.trace_recursion <~ Num 0;
   F.patch_state <~ Named "KLP_UNDEFINED"; F.security <~ Null].

Definition init_fields (t : Z) : fields :=
  foldr (fun x fs => upd x.1 x.2 fs) (fun _ => Num 0) (init_values t).
