(* ===== verification/KChildFacts.v ===== *)
(** * A child does not depend on the private state of its parent

    Facts about the assignments of [KChild]: which values of the new structure
    come from where, at the end and at every error exit. *)

From Stdlib Require Import ZArith Lia String.
From stdpp Require Import base numbers list option strings.
From S2P Require Import Prelude Sched KFork KTaskFields KChild.

Local Open Scope Z_scope.
Local Open Scope code_scope.

(** ** What has to be the child's own

    The fields in which a child must not just hold the copy, listed by hand from
    their meaning.  The heads of its lists are empty, its locks are free, and
    its accounts, pending work and temporary pointers start from nothing. *)
Definition empty_heads : list F.field :=
  [! F.children; F.sibling; F.pending; F.thread_group; F.rcu_node_entry; F.rcu_tasks_holdout_list !].

Definition free_locks : list F.field := [! F.alloc_lock; F.pi_lock !].

Definition accounts_and_counts : list F.field :=
  [! F.utime; F.stime; F.utimescaled; F.stimescaled; F.gtime; F.prev_cputime; F.vtime_seqcount; F.vtime_starttime;
     F.nvcsw; F.nivcsw; F.min_flt; F.maj_flt; F.last_switch_count; F.last_switch_time; F.rss_stat; F.ioac;
     F.psi_flags; F.nr_dirtied; F.dirty_paused_when; F.btrace_seq; F.sequential_io; F.sequential_io_avg;
     F.mems_allowed_seq; F.fail_nth !].

Definition pending_work : list F.field :=
  [! F.vfork_done; F.task_works; F.pdeath_signal; F.pi_waiters; F.pi_top_task; F.pi_blocked_on; F.blocked_on; F.wake_q;
     F.plug; F.splice_pipe; F.task_frag_page; F.throttle_queue; F.active_memcg; F.use_memdelay; F.pid_links;
     F.rcu_read_lock_nesting; F.rcu_read_unlock_special; F.rcu_blocked_node; F.rcu_tasks_holdout;
     F.irq_events; F.hardirqs_enabled; F.hardirq_enable_ip; F.hardirq_enable_event; F.hardirq_disable_event;
     F.softirq_enable_event; F.softirq_disable_ip; F.softirq_disable_event; F.hardirq_context; F.softirq_context;
     F.pagefault_disabled !].

Definition first_values : list (F.field * val) :=
  [F.usage <~ Num 1; F.rcu_users <~ Num 2; F.stack_refcount <~ Num 1; F.softirqs_enabled <~ Num 1;
   F.rcu_tasks_idle_cpu <~ Num (-1); F.cpuset_mem_spread_rotor <~ Num NUMA_NO_NODE;
   F.cpuset_slab_spread_rotor <~ Num NUMA_NO_NODE; F.vtime_state <~ Named "VTIME_INACTIVE"].

(** The value such a field has in a new task. *)
Definition start (e : fork_env) : list (F.field * val) :=
  ((fun f => f <~ Into (e_new e) f) <$> empty_heads) ++ ((fun f => f <~ Unlocked) <$> free_locks) ++
  ((fun f => f <~ Num 0) <$> accounts_and_counts ++ pending_work) ++ first_values.

(** What is made for the child, and the rest, where the flags of the call, its
    arguments and the fields handed over decide. *)
Definition own_objects : list F.field :=
  [! F.stack; F.stack_vm_area; F.stack_canary; F.cred; F.real_cred; F.delays; F.ret_stack; F.perf_event_ctxp;
     F.audit_context; F.security; F.sysvsem; F.nsproxy; F.thread; F.mempolicy; F.start_time; F.real_start_time !].

Definition decided : list F.field :=
  [! F.flags; F.cpus_ptr; F.mm; F.active_mm; F.fs; F.files; F.signal; F.sighand; F.io_context; F.set_child_tid;
     F.clear_child_tid; F.pid; F.tgid; F.group_leader; F.real_parent; F.parent_exec_id; F.exit_signal; F.sas_ss_sp;
     F.sas_ss_size; F.sas_ss_flags; F.seccomp; F.seccomp_filter; F.rseq; F.rseq_sig; F.rseq_event_mask;
     F.default_timer_slack_ns; F.nr_dirtied_pause; F.hardirq_disable_ip; F.softirq_enable_ip !].

Definition private : list F.field :=
  empty_heads ++ free_locks ++ accounts_and_counts ++ pending_work ++ first_values.*1 ++ own_objects ++ decided.

Ltac listed := apply (bool_decide_unpack _); vm_compute; exact I.

Lemma start_private e f v : (f, v) ∈ start e -> f ∈ private.
Proof.
  intros H. apply (list_elem_of_fmap_2 fst) in H. revert f v H.
  assert (H : Forall (fun f => f ∈ private) (start e).*1) by listed.
  rewrite Forall_forall in H. intros f v Hf. by apply H.
Qed.

Lemma start_heads e f : f ∈ empty_heads -> (f, Into (e_new e) f) ∈ start e.
Proof. intros H. unfold start. rewrite !elem_of_app. left. apply list_elem_of_fmap. by exists f. Qed.

Lemma start_locks e f : f ∈ free_locks -> (f, Unlocked) ∈ start e.
Proof. intros H. unfold start. rewrite !elem_of_app. right; left. apply list_elem_of_fmap. by exists f. Qed.

Lemma start_zero e f : f ∈ accounts_and_counts ++ pending_work -> (f, Num 0) ∈ start e.
Proof. intros H. unfold start. rewrite !elem_of_app. right; right; left. apply list_elem_of_fmap. by exists f. Qed.

Lemma start_first e x : x ∈ first_values -> x ∈ start e.
Proof. intros H. unfold start. rewrite !elem_of_app. by do 3 right. Qed.

(** The program settles every one of them. *)
Lemma program_settles e cur f : f ∈ private -> settles (copy_process_fields e cur) f = true.
Proof.
  assert (H : forallb (settles (copy_process_fields e cur)) private = true) by (vm_compute; reflexivity).
  rewrite forallb_forall in H. intros Hf. by apply H, list_elem_of_In.
Qed.

Lemma program_keeps e cur f : keeps (copy_process_fields e cur) f = true -> f ∈ handed.
Proof.
  assert (H : negb (keeps (copy_process_fields e cur) f) || bool_decide (f ∈ handed) = true).
  { revert f. apply F.all_fields_check. vm_compute. reflexivity. }
  intros Hk. rewrite Hk in H. by apply bool_decide_eq_true in H.
Qed.

(** The assignments of the program itself. *)
Fixpoint assigns (p : code) (f : F.field) : bool :=
  match p with
  | Set_ g _ => bool_decide (f = g)
  | Seq p q | If _ p q => assigns p f || assigns q f
  | _ => false
  end.

Lemma program_assigns e cur f : assigns (copy_process_fields e cur) f = true -> f ∈ private \/ f = F.thread_node.
Proof.
  assert (H : negb (assigns (copy_process_fields e cur) f) || bool_decide (f ∈ private \/ f = F.thread_node) = true).
  { revert f. apply F.all_fields_check. vm_compute. reflexivity. }
  intros Ha. rewrite Ha in H. by apply bool_decide_eq_true in H.
Qed.

(** The program looks at nothing else of the parent. *)
Lemma program_handed e cur cur' : (forall f, f ∈ handed -> cur' f = cur f) ->
  copy_process_fields e cur' = copy_process_fields e cur.
Proof.
  intros H.
  unfold copy_process_fields, dup_fields, accounts, copy_files, copy_mm, copy_io, identity, parents, rseq_fields, is_null.
  rewrite !H by (apply (bool_decide_unpack _); vm_compute; exact I). reflexivity.
Qed.

(** ** The error exits *)
Fixpoint guarded (A : F.field -> bool) (p : code) : bool :=
  match p with
  | Exit l => forallb A (frees_from l)
  | Seq p q => guarded A p && guarded (fun f => A f || settles p f) q
  | If _ p q => guarded A p && guarded A q
  | _ => true
  end.

Lemma guarded_exits p : forall A l r f, guarded A p = true -> (l, r) ∈ exits p -> f ∈ frees_from l ->
  A f || settles r f = true.
Proof.
  induction p as [|g v|g|c|l'|p1 IH1 p2 IH2|b p1 IH1 p2 IH2]; intros A l r f Hg Hr Hf; cbn in *.
  all: try (by apply not_elem_of_nil in Hr).
  - apply list_elem_of_singleton in Hr as [= -> ->]. rewrite forallb_forall in Hg. cbn. rewrite orb_false_r.
    by apply Hg, list_elem_of_In.
  - apply andb_true_iff in Hg as [H1 H2]. apply elem_of_app in Hr as [Hr|Hr]; [by eapply IH1|].
    apply list_elem_of_fmap in Hr as ([l2 r2] & [= -> ->] & Hr). cbn. rewrite orb_assoc. by eapply (IH2 (fun f => A f || settles p1 f)).
  - apply andb_true_iff in Hg as [H1 H2]. destruct b; [by eapply IH1|by eapply IH2].
Qed.

Lemma exits_keeps p : forall l r f, (l, r) ∈ exits p -> keeps r f = true -> keeps p f = true.
Proof.
  induction p as [|g v|g|c|l'|p1 IH1 p2 IH2|b p1 IH1 p2 IH2]; intros l r f Hr Hk; cbn in *.
  all: try (by apply not_elem_of_nil in Hr).
  - by apply list_elem_of_singleton in Hr as [= -> ->].
  - apply orb_true_iff. apply elem_of_app in Hr as [Hr|Hr]; [left; by eapply IH1|].
    apply list_elem_of_fmap in Hr as ([l2 r2] & [= -> ->] & Hr). cbn in Hk. apply orb_true_iff in Hk as [Hk|Hk]; [by left|].
    right. by eapply IH2.
  - apply orb_true_iff. destruct b; [left; by eapply IH1|right; by eapply IH2].
Qed.

(** Everything a label frees is settled at the exits that lead there. *)
Lemma program_guarded e cur : guarded (fun _ => false) (copy_process_fields e cur) = true.
Proof. vm_compute. reflexivity. Qed.

Lemma frees_private l f : f ∈ frees_from l -> f ∈ private.
Proof.
  assert (H : Forall (fun f => f ∈ private) (frees_from l)) by (destruct l; listed).
  rewrite Forall_forall in H. apply H.
Qed.

(** The last value a field gets; a condition is only looked at if it matters
    for the field. *)
Fixpoint touches (p : code) (f : F.field) : bool :=
  match p with
  | Set_ g _ => bool_decide (f = g)
  | Call c => bool_decide (f ∈ sets_up c)
  | Seq p q | If _ p q => touches p f || touches q f
  | Skip | Keep _ | Exit _ => false
  end.
Fixpoint value (made : call -> F.field -> val) (p : code) (f : F.field) (x : val) : val :=
  match p with
  | Set_ g v => if decide (f = g) then v else x
  | Call c => if decide (f ∈ sets_up c) then made c f else x
  | Seq p q => value made q f (value made p f x)
  | If b p q => if touches p f || touches q f then if b then value made p f x else value made q f x else x
  | Skip | Keep _ | Exit _ => x
  end.

Lemma untouched made p f : touches p f = false -> forall x, value made p f x = x.
Proof.
  induction p as [|g v|g|c|l|p1 IH1 p2 IH2|b p1 IH1 p2 IH2]; cbn; intros H x; try done.
  - apply bool_decide_eq_false in H. by rewrite decide_False.
  - apply bool_decide_eq_false in H. by rewrite decide_False.
  - apply orb_false_iff in H as [H1 H2]. by rewrite IH2, IH1.
  - by rewrite H.
Qed.

Section facts.
Context (ext : call -> fields -> fields) (made : call -> F.field -> val) (writes : call -> F.field -> bool).

(** A function of another file sets up the pointers it is called for; it
    changes only the fields it writes, and these are no other private fields. *)
Hypothesis ext_made : forall c t f, f ∈ sets_up c -> ext c t f = made c f.
Hypothesis ext_frame : forall c t f, writes c f = false -> ext c t f = t f.
Hypothesis ext_apart : forall c f, f ∈ private -> f ∉ sets_up c -> writes c f = false.

Lemma ext_private c t f : f ∈ private -> ext c t f = if decide (f ∈ sets_up c) then made c f else t f.
Proof. intros Hf. case_decide as Hc; [by apply ext_made|]. by apply ext_frame, ext_apart. Qed.

Lemma exec_value p f : f ∈ private -> forall t, exec ext p t f = value made p f (t f).
Proof.
  intros Hf. induction p as [|g v|g|c|l|p1 IH1 p2 IH2|b p1 IH1 p2 IH2]; intros t; cbn; try done.
  - by apply ext_private.
  - by rewrite IH2, IH1.
  - destruct (touches p1 f || touches p2 f) eqn:Et; [destruct b; [apply IH1|apply IH2]|].
    apply orb_false_iff in Et as [H1 H2]. destruct b; [rewrite IH1|rewrite IH2]; by apply untouched.
Qed.

Lemma child_value e cur f : f ∈ private -> child ext e cur f = value made (copy_process_fields e cur) f (cur f).
Proof. intros Hf. by apply exec_value. Qed.

(** The fields that start from a known value do. *)
Lemma child_start e cur f v : (f, v) ∈ start e -> child ext e cur f = v.
Proof.
  intros H. rewrite child_value by exact (start_private e f v H). revert f v H.
  assert (H : Forall (fun x => value made (copy_process_fields e cur) x.1 (cur x.1) = x.2) (start e)).
  { repeat (apply Forall_cons; split; [vm_compute; reflexivity|]). by apply Forall_nil. }
  rewrite Forall_forall in H. intros f v Hf. exact (H _ Hf).
Qed.

Lemma exec_keep p f : f ∈ private -> forall t t', t f = t' f -> exec ext p t f = exec ext p t' f.
Proof.
  intros Hf. induction p as [|g v|g|c|l|p1 IH1 p2 IH2|b p1 IH1 p2 IH2]; intros t t' E; cbn; try done.
  - unfold upd. by case_decide.
  - rewrite !ext_private by done. by case_decide.
  - by apply IH2, IH1.
  - destruct b; [by apply IH1|by apply IH2].
Qed.

Lemma exec_settles p f : f ∈ private -> settles p f = true -> keeps p f = false ->
  forall t t', exec ext p t f = exec ext p t' f.
Proof.
  intros Hf. induction p as [|g v|g|c|l|p1 IH1 p2 IH2|b p1 IH1 p2 IH2]; cbn; intros Hs Hk t t'; try discriminate.
  - apply bool_decide_eq_true in Hs as ->. unfold upd. by rewrite !decide_True.
  - congruence.
  - apply bool_decide_eq_true in Hs. by rewrite !ext_made.
  - apply orb_false_iff in Hk as [Hk1 Hk2]. apply orb_true_iff in Hs as [Hs|Hs].
    + apply exec_keep; [done|]. by apply IH1.
    + by apply IH2.
  - apply orb_false_iff in Hk as [Hk1 Hk2]. apply andb_true_iff in Hs as [Hs1 Hs2]. destruct b; [by apply IH1|by apply IH2].
Qed.

(** Both together: the value of a private field is the same for two parents
    that hand over the same. *)
Lemma exec_same p f t t' : f ∈ private -> settles p f = true -> (keeps p f = true -> t f = t' f) ->
  exec ext p t f = exec ext p t' f.
Proof.
  intros Hf Hs Hk. destruct (keeps p f) eqn:Ek; [by apply exec_keep; auto|by apply exec_settles].
Qed.

(** A field nobody writes is the copy. *)
Lemma exec_frame p f : assigns p f = false -> (forall c, writes c f = false) -> forall t, exec ext p t f = t f.
Proof.
  intros Ha Hw. induction p as [|g v|g|c|l|p1 IH1 p2 IH2|b p1 IH1 p2 IH2]; intros t; cbn in *; try done.
  - unfold upd. apply bool_decide_eq_false in Ha. by rewrite decide_False.
  - by apply ext_frame.
  - apply orb_false_iff in Ha as [H1 H2]. by rewrite IH2, IH1.
  - apply orb_false_iff in Ha as [H1 H2]. destruct b; [by apply IH1|by apply IH2].
Qed.

(** A property of the values: [t0] is the copy the program starts from. *)
Section values.
Context (Q : F.field -> val -> Prop) (t0 : fields).

Fixpoint sound (p : code) : Prop :=
  match p with
  | Set_ f v => Q f v
  | Keep f => Q f (t0 f)
  | Call c => forall f, f ∈ sets_up c -> Q f (made c f)
  | Seq p q => sound p /\ sound q
  | If b p q => if b then sound p else sound q
  | Skip | Exit _ => True
  end.

Lemma exec_good p f : sound p -> f ∈ private -> forall t, Q f (t f) -> Q f (exec ext p t f).
Proof.
  intros Hp Hf. induction p as [|g v|g|c|l|p1 IH1 p2 IH2|b p1 IH1 p2 IH2]; intros t Ht; cbn in *; try done.
  - unfold upd. case_decide; by subst.
  - rewrite ext_private by done. case_decide; [by apply Hp|done].
  - destruct Hp as [Hp1 Hp2]. by apply (IH2 Hp2), (IH1 Hp1).
  - destruct b; [by apply IH1|by apply IH2].
Qed.

Lemma exec_sound p f : sound p -> f ∈ private -> forall t, Q f (t f) \/ t f = t0 f ->
  (settles p f = true -> Q f (exec ext p t f)) /\ (Q f (exec ext p t f) \/ exec ext p t f = t0 f).
Proof.
  intros Hp Hf. induction p as [|g v|g|c|l|p1 IH1 p2 IH2|b p1 IH1 p2 IH2]; intros t Ht; cbn in *; try done.
  - unfold upd. case_decide as E; [by subst; auto|]. split; [by intros ?%bool_decide_eq_true|done].
  - split; [|done]. intros ->%bool_decide_eq_true. destruct Ht as [Ht|Ht]; [done|congruence].
  - rewrite ext_private by done. case_decide as E; [by split; auto|]. split; [by intros ?%bool_decide_eq_true|done].
  - destruct Hp as [Hp1 Hp2]. destruct (IH1 Hp1 t Ht) as [H1 H2], (IH2 Hp2 _ H2) as [H3 H4].
    split; [|done]. intros [Hs|Hs]%orb_true_iff; [|by apply H3]. by apply exec_good, H1.
  - destruct b; [destruct (IH1 Hp t Ht)|destruct (IH2 Hp t Ht)]; (split; [|done]); intros [H1 H2]%andb_true_iff; auto.
Qed.

Lemma exits_sound p : forall l r, sound p -> (l, r) ∈ exits p -> sound r.
Proof.
  induction p as [|g v|g|c|l'|p1 IH1 p2 IH2|b p1 IH1 p2 IH2]; intros l r Hp Hr; cbn in *.
  all: try (by apply not_elem_of_nil in Hr).
  - by apply list_elem_of_singleton in Hr as [= -> ->].
  - destruct Hp as [Hp1 Hp2]. apply elem_of_app in Hr as [Hr|Hr]; [by eapply IH1|].
    apply list_elem_of_fmap in Hr as ([l2 r2] & [= -> ->] & Hr). split; [done|by eapply IH2].
  - destruct b; [by eapply IH1|by eapply IH2].
Qed.

Lemma settled_value p f : sound p -> f ∈ private -> settles p f = true -> Q f (exec ext p t0 f).
Proof. intros Hp Hf Hs. by apply exec_sound; auto. Qed.
End values.

(** Opens the program for a proof of [sound]. *)
Ltac open_program :=
  unfold copy_process_fields, dup_fields, child_tids, rt_mutex_init_task, accounts, rcu_copy_process, placement, irq_state,
    copy_files, copy_fs, copy_sighand, copy_signal, copy_mm, copy_io, pids, late_fields, start_times, altstack, identity, parents, rseq_fields, may_fail,
    own, self;
  cbn [sound sets foldr fst snd];
  repeat match goal with
    | |- _ /\ _ => split
    | |- if ?b then _ else _ => destruct b eqn:?
    end;
  try exact I.

(** ** No way back into the parent *)
Definition apart (t : Z) (v : val) : Prop := forall f, v <> Into t f.

Definition handed_apart (t : Z) (cur : fields) : Prop :=
  forall f : F.field, f ∈ handed -> apart t (cur f) \/ f = F.cpus_ptr /\ cur f = Into t F.cpus_mask.

Lemma program_apart e (cur : fields) : e_new e <> e_cur e -> (forall c f, apart (e_cur e) (made c f)) ->
  handed_apart (e_cur e) cur -> sound (fun _ => apart (e_cur e)) cur (copy_process_fields e cur).
Proof.
  intros Hne Hm Hh.
  assert (Hc : forall f : F.field, bool_decide (f ∈ handed /\ f <> F.cpus_ptr) = true -> apart (e_cur e) (cur f)).
  { intros f [Hf Hn]%bool_decide_eq_true. destruct (Hh f Hf) as [?|[? _]]; done. }
  assert (Hi : forall f, apart (e_cur e) (Into (e_new e) f)) by (intros f g [=]; done).
  open_program; repeat match goal with |- apart _ (if ?b then _ else _) => destruct b end.
  all: try apply Hi; try (by intros ?); try (intros; apply Hm); try (apply Hc; vm_compute; reflexivity).
  - destruct (Hh F.cpus_ptr) as [H|[_ H]]; [by vm_compute; left|done|]. by rewrite bool_decide_eq_false in Heqb.
  - unfold new_flags. pose proof (Hc F.flags eq_refl) as H. by destruct (cur F.flags).
Qed.

Definition child_tid (e : fork_env) : val := if flag e CLONE_CHILD_SETTID then Num (e_child_tid e) else Null.

Lemma program_tid e cur :
  sound (fun f v => f = F.set_child_tid -> v = child_tid e) cur (copy_process_fields e cur).
Proof.
  open_program; try done; try (intros; discriminate).
  all: intros f Hf ->; exfalso; revert Hf; apply (bool_decide_unpack _); vm_compute; exact I.
Qed.

Lemma exit_settled e cur l r f : (l, r) ∈ exits (copy_process_fields e cur) -> f ∈ frees_from l -> settles r f = true.
Proof. intros Hr Hf. exact (guarded_exits _ (fun _ => false) l r f (program_guarded e cur) Hr Hf). Qed.

End facts.

(** ** The first task and a restless copy of it *)
Definition made1 (c : call) (f : F.field) : val := Obj 1000.
Definition writes1 (c : call) (f : F.field) : bool :=
  bool_decide (f ∈ sets_up c) || match c with sched_fork => bool_decide (f = F.state) | _ => false end.
Definition ext1 (c : call) (t : fields) : fields :=
  fun f => if decide (f ∈ sets_up c) then made1 c f else if writes1 c f then Named "TASK_NEW" else t f.

(** The parent has children, pending signals, held locks and, as a kernel
    thread does, its data behind [set_child_tid]. *)
Definition busy_init : fields :=
  upd F.set_child_tid (Obj 77) (upd F.children (Into 300 F.sibling) (upd F.pending (Obj 78)
    (upd F.pi_lock (Named "held") (upd F.task_works (Obj 79) (upd F.utime (Num 12345) (init_fields 100)))))).

