(* ===== verification/KChildLink.v ===== *)
(** * The two models of [copy_process] agree

    [KFork] follows the locks, the references and the error labels of
    [copy_process] on a small record of a task; [KChild] follows every
    assignment to the whole structure.  Here the second is shown to compute
    what the first does. *)

From Stdlib Require Import ZArith Lia String.
From stdpp Require Import base numbers list option strings gmap.
From S2P Require Import Prelude Sched Tracer ProcInfo KFork KForkLadder KForkFacts KTaskFields KChild KChildFacts.

Local Open Scope Z_scope.

(** The structure [fs] holds the record [t] and the pointers [c]; [addr] is the
    address of the structure of a task. *)
Record represents (addr : Z -> Z) (t : task_struct) (c : ctx) (fs : fields) : Prop := {
  rp_flags : fs F.flags = Num (flags t);
  rp_pid : fs F.pid = Num (pid t);
  rp_tgid : fs F.tgid = Num (tgid t);
  rp_group_leader : fs F.group_leader = KChild.Task (addr (group_leader t));
  rp_real_parent : fs F.real_parent = KChild.Task (addr (real_parent t));
  rp_children : children t = [] -> fs F.children = Into (addr (pid t)) F.children;
  rp_nvcsw : fs F.nvcsw = Num (nvcsw t);
  rp_nivcsw : fs F.nivcsw = Num (nivcsw t);
  rp_utime : fs F.utime = Num (utime t);
  rp_stime : fs F.stime = Num (stime t);
  rp_fs : fs F.fs = Obj (c_fs c);
  rp_sighand : fs F.sighand = Obj (c_sighand c);
  rp_signal : fs F.signal = Obj (c_signal c) }.

(** The environment of the field model that belongs to a call of [KFork]; the
    objects of the new task are those [c'] points to. *)
Definition env_of (addr : Z -> Z) (e : kenv) (a : kernel_clone_args) (t : task_struct) (c' : ctx) (tid shift : Z) : fork_env :=
  ForkEnv (a_flags a) tid (addr (pid t)) (addr (alloc_pid e))
    (fun f => if decide (f = F.fs) then c_fs c' else if decide (f = F.sighand) then c_sighand c'
              else if decide (f = F.signal) then c_signal c' else 0)
    false (alloc_pid e) (a_exit_signal a) (leader_exit_signal e) (ioprio_valid e) shift.

Section link.
Context (ext : call -> fields -> fields) (made : call -> F.field -> val) (writes : call -> F.field -> bool).
Hypothesis ext_made : forall c t f, f ∈ sets_up c -> ext c t f = made c f.
Hypothesis ext_frame : forall c t f, writes c f = false -> ext c t f = t f.
Hypothesis ext_apart : forall c f, f ∈ private -> f ∉ sets_up c -> writes c f = false.

(** What the program computes for the fields of the record. *)
Lemma child_record e cur :
  child ext e cur F.flags = new_flags (cur F.flags) /\
  child ext e cur F.pid = Num (e_pid e) /\
  child ext e cur F.tgid = (if flag e CLONE_THREAD then cur F.tgid else Num (e_pid e)) /\
  child ext e cur F.group_leader = (if flag e CLONE_THREAD then cur F.group_leader else KChild.Task (e_new e)) /\
  child ext e cur F.real_parent =
    (if flag e (Z.lor CLONE_PARENT CLONE_THREAD) then cur F.real_parent else KChild.Task (e_cur e)) /\
  child ext e cur F.children = Into (e_new e) F.children /\
  child ext e cur F.nvcsw = Num 0 /\ child ext e cur F.nivcsw = Num 0 /\
  child ext e cur F.utime = Num 0 /\ child ext e cur F.stime = Num 0 /\
  child ext e cur F.fs = (if flag e CLONE_FS then cur F.fs else own e F.fs) /\
  child ext e cur F.sighand = (if flag e CLONE_SIGHAND then cur F.sighand else own e F.sighand) /\
  child ext e cur F.signal = (if flag e CLONE_THREAD then cur F.signal else own e F.signal).
Proof. rewrite !(child_value ext made writes ext_made ext_frame ext_apart) by listed. split_and!; reflexivity. Qed.

(** If [copy_process] succeeds, the assignments give a structure that holds the
    new task and its pointers, for every parent whose structure holds the
    caller's. *)
Theorem copy_process_represents addr e trace a cur w t c fs p w' tid shift :
  world_ok w -> kenv_ok e -> 0 <= a_exit_signal a ->
  by_pid (w_tasks w) !! cur = Some t -> ctxs w !! cur = Some c -> represents addr t c fs ->
  copy_process e false trace a cur w = Ok (inr p, w') ->
  exists c', ctxs w' !! pid p = Some c' /\
    represents addr p c' (child ext (env_of addr e a t c' tid shift) fs).
Proof.
  intros Hw He Hex Ht Hc Hfs E.
  destruct (copy_process_cases e trace a cur w t c Hw He Hex Ht Hc)
    as [(r & w1 & E1 & _)|(c' & k & fr & uw & Hv & E1 & Hcp & _)]; rewrite E1 in E; simplify_eq.
  exists c'. cbn [ctxs]. rewrite lookup_insert_eq. split; [done|].
  destruct (child_record (env_of addr e a t c' tid shift) fs)
    as (H1 & H2 & H3 & H4 & H5 & H6 & H7 & H8 & H9 & H10 & H11 & H12 & H13).
  unfold flag, own in *. cbn [env_of e_flags e_pid e_new e_cur e_obj] in *.
  destruct Hfs as [R1 R2 R3 R4 R5 _ _ _ _ _ R11 R12 R13], Hcp as [_ C2 C3 C4 _].
  unfold new_task, child_of, adopted, numbered, pid_nr, caller_after, fresh_task.
  split; rewrite ?H1, ?H2, ?H3, ?H4, ?H5, ?H6, ?H7, ?H8, ?H9, ?H10, ?H11, ?H12, ?H13.
  all: destruct (has (a_flags a) CLONE_THREAD) eqn:Eth; try reflexivity.
  all: try (cbn; done).
  1,2: by rewrite R1.
  1,2: cbn; rewrite R5; by destruct (has (a_flags a) (Z.lor CLONE_PARENT CLONE_THREAD)).
  1,2: destruct (has (a_flags a) CLONE_FS) eqn:Efs; [|done]; rewrite R11, C2; auto.
  1,2: destruct (has (a_flags a) CLONE_SIGHAND) eqn:Esg; [|done]; rewrite R12, C3; auto.
  rewrite R13, C4; auto.
Qed.
End link.
